(** * POSIX cksum CRC engine: a shallow embedding and its properties

    The development follows the C sources of the cksum engine:
    the table generator ([fill_r], [crc_remainder], the [CRCTAB] main),
    the scalar slice-by-8 backend ([cksum_slice8]), the stream drivers
    ([crc_sum_stream], [crc32b_sum_stream]), the printer ([output_crc]),
    the scalar Chorba routines, and the carry-less multiplication backends
    ([cksum_pclmul], [cksum_avx2], [cksum_avx512]).

    Conventions.
    - A C unsigned integer of width w is a [Z] in [0, 2^w); every operation
      that can leave that range is followed by an explicit reduction.
    - [uint_fast32_t] is 64 bits wide (x86-64 glibc, the platform the SIMD
      translation units are written for); [uintmax_t] and [size_t] are 64
      bits; [int] is 32 bits and signed, and its overflow is undefined.
    - The host is little-endian, so [htobe32]/[htobe64]/[be64toh] swap
      bytes.
    - A byte is a [Z] in [0, 256). *)

From Stdlib Require Import ZArith List Lia Bool Btauto.
From coqutil Require Import Z.bitblast.
Import ListNotations.
Local Open Scope Z_scope.

(** ** Machine integers *)

Definition u8 (x : Z) : Z := x mod 2 ^ 8.
Definition u32 (x : Z) : Z := x mod 2 ^ 32.
Definition u64 (x : Z) : Z := x mod 2 ^ 64.

(** [uint_fast32_t], [uintmax_t] and [size_t] on the modelled platform. *)
Definition uint_fast32 (x : Z) : Z := u64 x.
Definition uintmax (x : Z) : Z := u64 x.
Definition INT_MAX : Z := 2 ^ 31 - 1.

(** ** The table generator (the [CRCTAB] part of cksum.c) *)

(** [# define BIT(x) ((uint_fast32_t) 1 << (x))] *)
Definition BIT (x : Z) : Z := uint_fast32 (Z.shiftl 1 x).
Definition SBIT : Z := BIT 31.

(** The generating polynomial without its x^32 term. *)
Definition GEN : Z :=
  Z.lor (BIT 26) (Z.lor (BIT 23) (Z.lor (BIT 22) (Z.lor (BIT 16)
  (Z.lor (BIT 12) (Z.lor (BIT 11) (Z.lor (BIT 10) (Z.lor (BIT 8)
  (Z.lor (BIT 7) (Z.lor (BIT 5) (Z.lor (BIT 4) (Z.lor (BIT 2)
  (Z.lor (BIT 1) (BIT 0))))))))))))).

(** One iteration of the loop of [fill_r]:
    [r[i] = (r[i - 1] << 1) ^ ((r[i - 1] & SBIT) ? GEN : 0)]. *)
Definition fill_r_step (p : Z) : Z :=
  Z.lxor (uint_fast32 (Z.shiftl p 1))
         (if Z.land p SBIT =? 0 then 0 else GEN).

Fixpoint fill_r_from (n : nat) (p : Z) : list Z :=
  match n with
  | O => []
  | S n' => p :: fill_r_from n' (fill_r_step p)
  end.

(** The array [r] after [fill_r ()]. *)
Definition fill_r : list Z := fill_r_from 8 GEN.

(** [crc_remainder (m)]: xor of the [r[i]] whose bit is set in [m]. *)
Definition crc_remainder (m : Z) : Z :=
  Z.land
    (fold_left
       (fun rem i =>
          if Z.land (BIT (Z.of_nat i)) m =? 0 then rem
          else Z.lxor rem (nth i fill_r 0))
       (seq 0 8) 0)
    0xFFFFFFFF.

Definition byte_values : list Z := map Z.of_nat (seq 0 256).

(** First loop of the generator's [main]: [crctab[0][i] = crc_remainder (i)]. *)
Definition gen_crctab0 : list Z := map crc_remainder byte_values.

(** The body shared by the two assignments of the second loop of [main]:
    [crc = (crc << 8) ^ crctab[0][((crc >> 24) ^ b) & 0xFF]] with
    [uint32_t crc]. *)
Definition gen_update (t0 : list Z) (crc b : Z) : Z :=
  u32 (Z.lxor (u32 (Z.shiftl crc 8))
              (nth (Z.to_nat (Z.land (Z.lxor (Z.shiftr crc 24) b) 0xFF)) t0 0)).

(** The inner loop over [offset]: the values stored in
    [crctab[1][i]], ..., [crctab[n][i]]. *)
Fixpoint gen_offsets (t0 : list Z) (n : nat) (crc : Z) : list Z :=
  match n with
  | O => []
  | S n' =>
      let crc' := gen_update t0 crc 0 in
      crc' :: gen_offsets t0 n' crc'
  end.

(** Column [i] of the table: [crctab[0][i]], ..., [crctab[7][i]]. *)
Definition gen_column (t0 : list Z) (i : Z) : list Z :=
  nth (Z.to_nat i) t0 0
  :: gen_offsets t0 7 (gen_update t0 0 (Z.land i 0xFF)).

(** The table printed by the generator, row by row. *)
Definition gen_crctab : list (list Z) :=
  let cols := map (gen_column gen_crctab0) byte_values in
  map (fun k => map (fun col => nth k col 0) cols) (seq 0 8).

(** [crctab], the generated 8 x 256 constant table. *)
Definition crctab : list (list Z) := Eval vm_compute in gen_crctab.

(** [crctab[k][i]] *)
Definition crctab_at (k : nat) (i : Z) : Z :=
  nth (Z.to_nat i) (nth k crctab []) 0.

(** ** Polynomials over GF(2)

    A polynomial is a non-negative [Z]; bit [i] is the coefficient of x^i. *)

(** The generator G(x) = x^32 + x^26 + ... + 1 of POSIX cksum. *)
Definition POLY_G : Z := 2 ^ 32 + 0x04C11DB7.

(** Long division by G: clear the coefficients of degree [n + 31] down to 32. *)
Fixpoint gf2_reduce (n : nat) (a : Z) : Z :=
  match n with
  | O => a
  | S n' =>
      gf2_reduce n'
        (if Z.testbit a (Z.of_nat n' + 32)
         then Z.lxor a (Z.shiftl POLY_G (Z.of_nat n'))
         else a)
  end.

(** The remainder of [a] modulo G. *)
Definition gf2_mod (a : Z) : Z :=
  gf2_reduce (Z.to_nat (Z.log2 a + 1 - 32)) a.

(** The message polynomial of a byte string: the first byte holds the
    highest coefficients, the most significant bit first. *)
Definition msg_poly (bs : list Z) : Z :=
  fold_left (fun acc b => Z.lor (Z.shiftl acc 8) b) bs 0.

(** The unreflected CRC of a byte string: (message * x^32) mod G. *)
Definition crc_poly (bs : list Z) : Z :=
  gf2_mod (Z.shiftl (msg_poly bs) 32).


(** ** Byte order *)

(** A little-endian load of consecutive bytes, as dereferencing a
    [uint32_t] or [uint64_t] pointer reads them. *)
Definition le_bytes (bs : list Z) : Z :=
  fold_right (fun b acc => Z.lor b (Z.shiftl acc 8)) 0 bs.

(** The big-endian value of the same bytes. *)
Definition be_bytes (bs : list Z) : Z :=
  fold_left (fun acc b => Z.lor (Z.shiftl acc 8) b) bs 0.

(** The [n] bytes of [x], least significant first. *)
Fixpoint to_le_bytes (n : nat) (x : Z) : list Z :=
  match n with
  | O => []
  | S n' => Z.land x 0xFF :: to_le_bytes n' (Z.shiftr x 8)
  end.

(** Byte swaps on a little-endian host. *)
Definition bswap (n : nat) (x : Z) : Z := be_bytes (to_le_bytes n x).
Definition htobe32 (x : Z) : Z := bswap 4 x.
Definition htobe64 (x : Z) : Z := bswap 8 x.
Definition be64toh (x : Z) : Z := bswap 8 x.

(** ** Streams *)

(** A stdio stream open for reading: the bytes the source still holds, whether
    the source fails (rather than ends) once they are delivered, and the
    two stdio indicators. *)
Record FILE : Type := mkFILE {
  f_data : list Z;
  f_bad : bool;
  f_eof : bool;
  f_err : bool
}.

(** A readable stream over [bs], freshly opened. *)
Definition fopen_bytes (bs : list Z) : FILE := mkFILE bs false false false.

(** [fread (buf, 1, n, fp)]: the bytes stored into [buf] (their number is
    the return value) and the stream afterwards.  A read that cannot be
    served in full raises the end-of-file or the error indicator. *)
Definition fread (n : Z) (fp : FILE) : list Z * FILE :=
  let k := Z.to_nat n in
  let got := firstn k (f_data fp) in
  let rest := skipn k (f_data fp) in
  if (List.length (f_data fp) <? k)%nat
  then (got, mkFILE rest (f_bad fp)
                    (f_eof fp || negb (f_bad fp)) (f_err fp || f_bad fp))
  else (got, mkFILE rest (f_bad fp) (f_eof fp) (f_err fp)).

Definition feof (fp : FILE) : bool := f_eof fp.
Definition ferror (fp : FILE) : bool := f_err fp.

(** ** Results of a backend *)

Inductive errno : Type := EOVERFLOW.

(** A backend either returns early with a failure status, before it has
    written [*crc_out] and [*length_out] (having set [errno] or not), or
    writes both and returns [!ferror (fp)]. *)
Inductive cksum_result : Type :=
| CksumFail (e : option errno)
| CksumDone (ok : bool) (crc : Z) (len : Z).

(** The accounting done after every read:
    [if (length + bytes_read < length) { errno = EOVERFLOW; return false; }
     length += bytes_read;]
    [None] is the early return. *)
Definition add_length (len bytes_read : Z) : option Z :=
  if uintmax (len + bytes_read) <? len then None
  else Some (uintmax (len + bytes_read)).

(** ** The scalar slice-by-8 backend *)

(** Number of bytes to read at once (cksum.c). *)
Definition BUFLEN : Z := Z.shiftl 1 20.

(** The byte-by-byte statement
    [crc = (crc << 8) ^ crctab[0][((crc >> 24) ^ b) & 0xFF]]
    on a [uint_fast32_t crc]. *)
Definition crc_byte (crc b : Z) : Z :=
  Z.lxor (uint_fast32 (Z.shiftl crc 8))
         (crctab_at 0 (Z.land (Z.lxor (Z.shiftr crc 24) b) 0xFF)).

(** The body of [while (bytes_read >= 8)] on the eight bytes at [datap]. *)
Definition slice8_step (crc : Z) (b0 b1 b2 b3 b4 b5 b6 b7 : Z) : Z :=
  let first := le_bytes [b0; b1; b2; b3] in
  let second := le_bytes [b4; b5; b6; b7] in
  let crc := Z.lxor crc (htobe32 first) in
  let second := htobe32 second in
  Z.lxor (crctab_at 7 (Z.land (Z.shiftr crc 24) 0xFF))
  (Z.lxor (crctab_at 6 (Z.land (Z.shiftr crc 16) 0xFF))
  (Z.lxor (crctab_at 5 (Z.land (Z.shiftr crc 8) 0xFF))
  (Z.lxor (crctab_at 4 (Z.land crc 0xFF))
  (Z.lxor (crctab_at 3 (Z.land (Z.shiftr second 24) 0xFF))
  (Z.lxor (crctab_at 2 (Z.land (Z.shiftr second 16) 0xFF))
  (Z.lxor (crctab_at 1 (Z.land (Z.shiftr second 8) 0xFF))
          (crctab_at 0 (Z.land second 0xFF)))))))).

(** [while (bytes_read >= 8) ...]: returns the CRC and the 0-7 bytes left
    at [datap]. *)
Fixpoint slice8_words (crc : Z) (buf : list Z) {struct buf} : Z * list Z :=
  match buf with
  | b0 :: b1 :: b2 :: b3 :: b4 :: b5 :: b6 :: b7 :: rest =>
      slice8_words (slice8_step crc b0 b1 b2 b3 b4 b5 b6 b7) rest
  | _ => (crc, buf)
  end.

(** The byte-by-byte loop [while (bytes_read--)] over the bytes at [cp]. *)
Definition crc_bytes_tail (crc : Z) (bs : list Z) : Z :=
  fold_left crc_byte bs crc.

(** What one iteration of the read loop does with the block just read. *)
Definition slice8_block (crc : Z) (buf : list Z) : Z :=
  let '(crc, tail) := slice8_words crc buf in
  crc_bytes_tail crc tail.

(** The read loop of [cksum_slice8]; every iteration consumes at least one
    byte, so [fuel] bounds the number of iterations. *)
Fixpoint slice8_loop (fuel : nat) (fp : FILE) (crc len : Z)
  : option cksum_result :=
  match fuel with
  | O => None
  | S fuel' =>
      let '(buf, fp) := fread BUFLEN fp in
      let bytes_read := Z.of_nat (List.length buf) in
      if bytes_read =? 0
      then Some (CksumDone (negb (ferror fp)) crc len)
      else
        match add_length len bytes_read with
        | None => Some (CksumFail (Some EOVERFLOW))
        | Some len =>
            let crc := slice8_block crc buf in
            if feof fp
            then Some (CksumDone (negb (ferror fp)) crc len)
            else slice8_loop fuel' fp crc len
        end
  end.

Definition cksum_slice8 (fp : FILE) : option cksum_result :=
  slice8_loop (S (List.length (f_data fp))) fp 0 0.

(** ** Vector registers

    A vector register is the list of its 128-bit lanes, lowest lane first:
    one lane for [__m128i], two for [__m256i], four for [__m512i].  The
    intrinsics used by the backends all act lane by lane. *)

Definition vec : Type := list Z.

Definition u128 (x : Z) : Z := x mod 2 ^ 128.

(** Byte [i] of a lane. *)
Definition lane_byte (x i : Z) : Z := Z.land (Z.shiftr x (8 * i)) 0xFF.

Definition lane_index : list Z := map Z.of_nat (seq 0 16).

Definition map2 {A B C : Type} (f : A -> B -> C) (xs : list A) (ys : list B)
  : list C :=
  map (fun p => f (fst p) (snd p)) (combine xs ys).

(** [_mm_set_epi64x (hi, lo)] *)
Definition mm_set_epi64x (hi lo : Z) : Z := Z.lor (Z.shiftl (u64 hi) 64) (u64 lo).

(** [_mm_set_epi32 (e3, e2, e1, e0)]; the arguments are converted to [int]. *)
Definition mm_set_epi32 (e3 e2 e1 e0 : Z) : Z :=
  Z.lor (Z.shiftl (u32 e3) 96)
        (Z.lor (Z.shiftl (u32 e2) 64) (Z.lor (Z.shiftl (u32 e1) 32) (u32 e0))).

(** [_mm_set_epi8 (e15, ..., e0)], given as written, highest byte first. *)
Definition mm_set_epi8 (es : list Z) : Z := be_bytes (map u8 es).

(** PSHUFB on one lane: byte [i] of the result is byte [b[i] & 15] of [a],
    or zero when bit 7 of [b[i]] is set. *)
Definition shuffle_lane (a b : Z) : Z :=
  le_bytes
    (map (fun i =>
            let c := lane_byte b i in
            if Z.testbit c 7 then 0 else lane_byte a (Z.land c 0x0F))
         lane_index).

(** Carry-less product of two 64-bit polynomials. *)
Definition clmul64 (a b : Z) : Z :=
  fold_left
    (fun acc i =>
       if Z.testbit b (Z.of_nat i) then Z.lxor acc (Z.shiftl a (Z.of_nat i))
       else acc)
    (seq 0 64) 0.

(** PCLMULQDQ on one lane: bit 0 of [imm] selects the quadword of [a],
    bit 4 the quadword of [b]. *)
Definition clmul_lane (imm : Z) (a b : Z) : Z :=
  clmul64 (if Z.testbit imm 0 then Z.shiftr a 64 else u64 a)
          (if Z.testbit imm 4 then Z.shiftr b 64 else u64 b).

Definition mm_shuffle_epi8 (a b : vec) : vec := map2 shuffle_lane a b.
Definition mm_clmulepi64 (a b : vec) (imm : Z) : vec := map2 (clmul_lane imm) a b.
Definition mm_xor (a b : vec) : vec := map2 Z.lxor a b.

(** A register with [n] equal lanes. *)
Definition vbroadcast (n : nat) (x : Z) : vec := repeat x n.

(** A register whose lowest lane is [x] and whose other lanes are zero. *)
Definition vlow (n : nat) (x : Z) : vec :=
  match n with
  | O => []
  | S n' => x :: repeat 0 n'
  end.

(** The byte-swap constant: [_mm_set_epi8 (0, 1, ..., 15)] in every lane. *)
Definition shuffle_constant (n : nat) : vec :=
  vbroadcast n (mm_set_epi8 [0; 1; 2; 3; 4; 5; 6; 7; 8; 9; 10; 11; 12; 13; 14; 15]).

(** ** Buffers

    A buffer is the list of its bytes.  An access outside the buffer is
    undefined behaviour, reported as [None]. *)

Definition slice (buf : list Z) (off len : Z) : option (list Z) :=
  if (0 <=? off) && (0 <=? len) && (off + len <=? Z.of_nat (List.length buf))
  then Some (firstn (Z.to_nat len) (skipn (Z.to_nat off) buf))
  else None.

Definition blit (buf : list Z) (off : Z) (bs : list Z) : option (list Z) :=
  if (0 <=? off) && (off + Z.of_nat (List.length bs) <=? Z.of_nat (List.length buf))
  then Some (firstn (Z.to_nat off) buf ++ bs
             ++ skipn (Z.to_nat off + List.length bs) buf)
  else None.

(** Split a byte string into 16-byte lanes (little-endian within a lane). *)
Fixpoint lanes_of_bytes (n : nat) (bs : list Z) : vec :=
  match n with
  | O => []
  | S n' => le_bytes (firstn 16 bs) :: lanes_of_bytes n' (skipn 16 bs)
  end.

Definition bytes_of_lanes (v : vec) : list Z :=
  flat_map (to_le_bytes 16) v.

(** [_mm*_loadu_si* (p)] for a register of [n] lanes at byte offset [off]. *)
Definition loadu (n : nat) (buf : list Z) (off : Z) : option vec :=
  match slice buf off (16 * Z.of_nat n) with
  | Some bs => Some (lanes_of_bytes n bs)
  | None => None
  end.

(** [_mm*_storeu_si* (p, v)] *)
Definition storeu (buf : list Z) (off : Z) (v : vec) : option (list Z) :=
  blit buf off (bytes_of_lanes v).

(** [int] addition; signed overflow is undefined. *)
Definition int_add (a b : Z) : option Z :=
  if (- INT_MAX - 1 <=? a + b) && (a + b <=? INT_MAX) then Some (a + b) else None.

(** ** Control outcomes *)

(** A statement sequence either falls through with a new state, executes a
    [return], runs into undefined behaviour, or (in the model only) uses up
    the fuel of a loop. *)
Inductive outcome (A : Type) : Type :=
| Next (a : A)
| Return (r : cksum_result)
| Undefined
| OutOfFuel.
Arguments Next {A} a.
Arguments Return {A} r.
Arguments Undefined {A}.
Arguments OutOfFuel {A}.

Definition bind {A B : Type} (m : outcome A) (f : A -> outcome B) : outcome B :=
  match m with
  | Next a => f a
  | Return r => Return r
  | Undefined => Undefined
  | OutOfFuel => OutOfFuel
  end.

Definition lift {A : Type} (o : option A) : outcome A :=
  match o with
  | Some a => Next a
  | None => Undefined
  end.

Notation "x <- m ;; k" := (bind m (fun x => k))
  (at level 61, m at next level, right associativity).

(** What the caller of a backend observes. *)
Definition finish (m : outcome cksum_result) : option cksum_result :=
  match m with
  | Next r => Some r
  | Return r => Some r
  | Undefined => None
  | OutOfFuel => None
  end.

(** ** The state shared by the three carry-less multiplication backends *)

(** The geometry of a backend: lanes per register, and the number of bytes
    of one [fread] (half of the double buffer). *)
Record simd_cfg : Type := mkCfg {
  cfg_lanes : nat;
  cfg_half : Z
}.

(** [sizeof] of a register, and the number of registers in [buf]. *)
Definition cfg_vbytes (c : simd_cfg) : Z := 16 * Z.of_nat (cfg_lanes c).
Definition cfg_words (c : simd_cfg) : Z := 2 * cfg_half c / cfg_vbytes c.

(** The local variables of a backend. [sd_chorba] holds [chorba1],
    [chorba2], ... in this order. *)
Record simd : Type := mkSimd {
  sd_buf : list Z;
  sd_fp : FILE;
  sd_next_buf : Z;
  sd_data_available : bool;
  sd_bytes_read : Z;
  sd_length : Z;
  sd_crc : Z;
  sd_data_offset : Z;
  sd_data : vec;
  sd_data3 : vec;
  sd_data5 : vec;
  sd_data7 : vec;
  sd_chorba : list vec
}.

Definition step : Type := simd -> outcome simd.

Fixpoint run (steps : list step) (st : simd) : outcome simd :=
  match steps with
  | [] => Next st
  | f :: fs => st' <- f st ;; run fs st'
  end.

Definition set_offset (st : simd) (o : Z) : simd :=
  mkSimd (sd_buf st) (sd_fp st) (sd_next_buf st) (sd_data_available st)
         (sd_bytes_read st) (sd_length st) (sd_crc st) o
         (sd_data st) (sd_data3 st) (sd_data5 st) (sd_data7 st) (sd_chorba st).

Definition set_bytes_read (st : simd) (b : Z) : simd :=
  mkSimd (sd_buf st) (sd_fp st) (sd_next_buf st) (sd_data_available st)
         b (sd_length st) (sd_crc st) (sd_data_offset st)
         (sd_data st) (sd_data3 st) (sd_data5 st) (sd_data7 st) (sd_chorba st).

Definition set_data (st : simd) (d d3 d5 d7 : vec) : simd :=
  mkSimd (sd_buf st) (sd_fp st) (sd_next_buf st) (sd_data_available st)
         (sd_bytes_read st) (sd_length st) (sd_crc st) (sd_data_offset st)
         d d3 d5 d7 (sd_chorba st).

Definition set_chorba (st : simd) (ch : list vec) : simd :=
  mkSimd (sd_buf st) (sd_fp st) (sd_next_buf st) (sd_data_available st)
         (sd_bytes_read st) (sd_length st) (sd_crc st) (sd_data_offset st)
         (sd_data st) (sd_data3 st) (sd_data5 st) (sd_data7 st) ch.

Definition set_buf (st : simd) (buf : list Z) : simd :=
  mkSimd buf (sd_fp st) (sd_next_buf st) (sd_data_available st)
         (sd_bytes_read st) (sd_length st) (sd_crc st) (sd_data_offset st)
         (sd_data st) (sd_data3 st) (sd_data5 st) (sd_data7 st) (sd_chorba st).

Definition set_crc (st : simd) (crc : Z) : simd :=
  mkSimd (sd_buf st) (sd_fp st) (sd_next_buf st) (sd_data_available st)
         (sd_bytes_read st) (sd_length st) crc (sd_data_offset st)
         (sd_data st) (sd_data3 st) (sd_data5 st) (sd_data7 st) (sd_chorba st).

(** [data_offset += k] on an [int]. *)
Definition adv (k : Z) : step :=
  fun st => o <- lift (int_add (sd_data_offset st) k) ;; Next (set_offset st o).

(** [bytes_read -= k] on a [size_t]. *)
Definition sub (k : Z) : step :=
  fun st => Next (set_bytes_read st (u64 (sd_bytes_read st - k))).

(** The byte offset in [buf] of the register at
    [datap + (data_offset % BUFLEN_WORDS) + k]. *)
Definition dp (c : simd_cfg) (st : simd) (k : Z) : Z :=
  cfg_vbytes c * (sd_data_offset st mod cfg_words c + k).

(** Load the register at [datap + (data_offset % BUFLEN_WORDS) + k] and
    byte-swap it with [shuffle_constant]. *)
Definition bld (c : simd_cfg) (st : simd) (k : Z) : outcome vec :=
  v <- lift (loadu (cfg_lanes c) (sd_buf st) (dp c st k)) ;;
  Next (mm_shuffle_epi8 v (shuffle_constant (cfg_lanes c))).

(** [chorbaJ] for J = 1, 2, ... *)
Definition chorba (st : simd) (j : Z) : vec :=
  nth (Z.to_nat (j - 1)) (sd_chorba st) [].

(** [v ^ chorbaA ^ chorbaB ^ ...], left to right. *)
Definition xor_chorbas (st : simd) (v : vec) (js : list Z) : vec :=
  fold_left (fun acc j => mm_xor acc (chorba st j)) js v.

Fixpoint list_set {A : Type} (l : list A) (i : nat) (x : A) : list A :=
  match l, i with
  | [], _ => []
  | _ :: t, O => x :: t
  | h :: t, S i' => h :: list_set t i' x
  end.

(** [chorbaJ = load (... + k); chorbaJ = shuffle (chorbaJ) ^ chorbaA ^ ...] *)
Definition chorba_load (c : simd_cfg) (j k : Z) (js : list Z) : step :=
  fun st =>
    v <- bld c st k ;;
    Next (set_chorba st (list_set (sd_chorba st) (Z.to_nat (j - 1))
                                (xor_chorbas st v js))).

(** One register of a fold: with [lo = clmul (d, K, 0x00)] and
    [hi = clmul (d, K, 0x11)], the new value is [(hi ^ lo) ^ x], where [x]
    is the freshly loaded, byte-swapped block xored with the listed chorba
    registers. *)
Definition fold_reg (K d x : vec) : vec :=
  let lo := mm_clmulepi64 d K 0x00 in
  let hi := mm_clmulepi64 d K 0x11 in
  mm_xor (mm_xor hi lo) x.

(** The eight multiplications of [data], [data3], [data5], [data7] by [K]
    followed by the four xor/load/xor groups; [js0] ... [js3] are the chorba
    registers xored into the blocks at offsets 0 ... 3. *)
Definition fold4 (c : simd_cfg) (K : vec) (js0 js1 js2 js3 : list Z) : step :=
  fun st =>
    x0 <- bld c st 0 ;;
    x1 <- bld c st 1 ;;
    x2 <- bld c st 2 ;;
    x3 <- bld c st 3 ;;
    Next (set_data st
            (fold_reg K (sd_data st) (xor_chorbas st x0 js0))
            (fold_reg K (sd_data3 st) (xor_chorbas st x1 js1))
            (fold_reg K (sd_data5 st) (xor_chorbas st x2 js2))
            (fold_reg K (sd_data7 st) (xor_chorbas st x3 js3))).

(** "Refill the buffer if we have used one half". *)
Definition refill (c : simd_cfg) : step :=
  fun st =>
    if (sd_bytes_read st <? cfg_half c) && sd_data_available st then
      let '(got, fp) := fread (cfg_half c) (sd_fp st) in
      let batch_size_read := Z.of_nat (List.length got) in
      buf <- lift (blit (sd_buf st) (cfg_vbytes c * sd_next_buf st) got) ;;
      let next_buf := Z.lxor (sd_next_buf st) (cfg_words c / 2) in
      let data_available := negb (batch_size_read =? 0) in
      let bytes_read := u64 (sd_bytes_read st + batch_size_read) in
      match add_length (sd_length st) batch_size_read with
      | None => Return (CksumFail (Some EOVERFLOW))
      | Some len =>
          Next (mkSimd buf fp next_buf data_available bytes_read len
                       (sd_crc st) (sd_data_offset st)
                       (sd_data st) (sd_data3 st) (sd_data5 st) (sd_data7 st)
                       (sd_chorba st))
      end
    else Next st.

(** [while (bytes_read >= t) body] *)
Fixpoint while_ge (fuel : nat) (t : Z) (body : step) (st : simd) : outcome simd :=
  if sd_bytes_read st <? t then Next st
  else
    match fuel with
    | O => OutOfFuel
    | S fuel' => st' <- body st ;; while_ge fuel' t body st'
    end.

Definition set_length (st : simd) (len : Z) : simd :=
  mkSimd (sd_buf st) (sd_fp st) (sd_next_buf st) (sd_data_available st)
         (sd_bytes_read st) len (sd_crc st) (sd_data_offset st)
         (sd_data st) (sd_data3 st) (sd_data5 st) (sd_data7 st) (sd_chorba st).

(** The two initial reads, one per half of [buf]; [buf0] is the content of
    the automatic array [buf] on entry, [nch] the number of chorba
    registers. *)
Definition simd_init (c : simd_cfg) (nch : nat) (buf0 : list Z) (fp : FILE)
  : outcome simd :=
  let '(r1, fp) := fread (cfg_half c) fp in
  buf <- lift (blit buf0 0 r1) ;;
  let '(r2, fp) := fread (cfg_half c) fp in
  buf <- lift (blit buf (cfg_vbytes c * (cfg_words c / 2)) r2) ;;
  Next (mkSimd buf fp 0 true
               (u64 (Z.of_nat (List.length r1) + Z.of_nat (List.length r2)))
               0 0 0 [] [] [] []
               (repeat (repeat 0 (cfg_lanes c)) nch)).

(** Loading the first four registers and xoring the initial CRC into the
    top 32 bits of the first lane. *)
Definition load_four (c : simd_cfg) : step :=
  fun st =>
    d <- bld c st 0 ;;
    let xor_crc := vlow (cfg_lanes c) (mm_set_epi32 (sd_crc st) 0 0 0) in
    let st := set_crc st 0 in
    let d := mm_xor d xor_crc in
    d3 <- bld c st 1 ;;
    d5 <- bld c st 2 ;;
    d7 <- bld c st 3 ;;
    Next (set_data st d d3 d5 d7).

(** "At end of loop we write out results from variables back into the
    buffer": each register is byte-swapped and stored at offsets 0 ... 3. *)
Definition store_four (c : simd_cfg) : step :=
  fun st =>
    let sw v := mm_shuffle_epi8 v (shuffle_constant (cfg_lanes c)) in
    let d := sw (sd_data st) in
    b <- lift (storeu (sd_buf st) (dp c st 0) d) ;;
    let d3 := sw (sd_data3 st) in
    b <- lift (storeu b (dp c st 1) d3) ;;
    let d5 := sw (sd_data5 st) in
    b <- lift (storeu b (dp c st 2) d5) ;;
    let d7 := sw (sd_data7 st) in
    b <- lift (storeu b (dp c st 3) d7) ;;
    Next (set_buf (set_data st d d3 d5 d7) b).

(** The body of the single-fold loop. *)
Definition single_body (c : simd_cfg) (K : vec) : step :=
  fun st =>
    st <- adv 1 st ;;
    let data2 := mm_clmulepi64 (sd_data st) K 0x00 in
    let data := mm_clmulepi64 (sd_data st) K 0x11 in
    fold_data <- bld c st 0 ;;
    let data := mm_xor data data2 in
    let data := mm_xor data fold_data in
    sub (cfg_vbytes c)
        (set_data st data (sd_data3 st) (sd_data5 st) (sd_data7 st)).

(** "Fold two blocks into one": the [if (bytes_read >= 2 * sizeof data)]
    statement. *)
Definition single_fold (c : simd_cfg) (K : vec) (fuel : nat) : step :=
  fun st =>
    if sd_bytes_read st <? 2 * cfg_vbytes c then Next st
    else
      d <- bld c st 0 ;;
      let xor_crc := vlow (cfg_lanes c) (mm_set_epi32 (sd_crc st) 0 0 0) in
      let st := set_crc st 0 in
      let d := mm_xor d xor_crc in
      let st := set_data st d (sd_data3 st) (sd_data5 st) (sd_data7 st) in
      st <- while_ge fuel (2 * cfg_vbytes c) (single_body c K) st ;;
      let d := mm_shuffle_epi8 (sd_data st) (shuffle_constant (cfg_lanes c)) in
      b <- lift (storeu (sd_buf st) (dp c st 0) d) ;;
      Next (set_buf (set_data st d (sd_data3 st) (sd_data5 st) (sd_data7 st)) b).

(** "And finish up last bytes in a byte by byte fashion".  The cast binds
    tighter than the addition, so [cp] starts [data_offset % BUFLEN_WORDS]
    bytes (not registers) into [buf]. *)
Definition simd_tail (c : simd_cfg) : step :=
  fun st =>
    let cp := sd_data_offset st mod cfg_words c in
    bs <- lift (slice (sd_buf st) cp (sd_bytes_read st)) ;;
    Next (set_bytes_read (set_crc st (crc_bytes_tail (sd_crc st) bs))
                         (u64 (- 1))).

(** The common frame of the three backends: initial reads, accounting, the
    backend's main block, the single fold, the tail, and the results. *)
Definition simd_backend (c : simd_cfg) (nch : nat) (main : step) (K1 : vec)
  (fuel : nat) (buf0 : list Z) (fp : FILE) : outcome cksum_result :=
  st <- simd_init c nch buf0 fp ;;
  if 0 <? sd_bytes_read st then
    match add_length (sd_length st) (sd_bytes_read st) with
    | None => Return (CksumFail (Some EOVERFLOW))
    | Some len =>
        st <- main (set_length st len) ;;
        st <- single_fold c K1 fuel st ;;
        st <- simd_tail c st ;;
        Next (CksumDone (negb (ferror (sd_fp st))) (sd_crc st) (sd_length st))
    end
  else Next (CksumDone (negb (ferror (sd_fp st))) (sd_crc st) (sd_length st)).

(** ** cksum_pclmul.c *)

(** [BUFLEN] is [1 << 16] there; one [fread] fills half of it. *)
Definition pclmul_cfg : simd_cfg := mkCfg 1 (Z.shiftl 1 16 / 2).

Definition pclmul_single_mult_constant : vec := [mm_set_epi64x 0xC5B9CD4C 0xE8A45605].
Definition pclmul_four_mult_constant : vec := [mm_set_epi64x 0x8833794C 0xE6228B11].
Definition pclmul_five_mult_constant : vec := [mm_set_epi64x 0xE2CA9D03 0xF91A84E2].

(** The body of [while (bytes_read >= 512*2 + 64 + 16 * 8)] in [cksum_pclmul]. *)
Definition pclmul_chorba_body : list step :=
  [ adv 4;
    chorba_load pclmul_cfg 1 4 [2; 4];
    sub (16);
    adv 1;
    fold4 pclmul_cfg pclmul_five_mult_constant [2; 4] [3] [2; 3] [2; 3];
    sub (16 * 4);
    adv 4;
    fold4 pclmul_cfg pclmul_five_mult_constant [2] [1; 3] [3; 4] [];
    sub (16 * 4);
    adv 4;
    chorba_load pclmul_cfg 2 4 [3; 1];
    sub (16);
    adv 1;
    fold4 pclmul_cfg pclmul_five_mult_constant [3; 1] [4] [3; 4] [3; 4];
    sub (16 * 4);
    adv 4;
    fold4 pclmul_cfg pclmul_five_mult_constant [3] [2; 4] [4; 1] [];
    sub (16 * 4);
    adv 4;
    chorba_load pclmul_cfg 3 4 [4; 2];
    sub (16);
    adv 1;
    fold4 pclmul_cfg pclmul_five_mult_constant [4; 2] [1] [4; 1] [4; 1];
    sub (16 * 4);
    adv 4;
    fold4 pclmul_cfg pclmul_five_mult_constant [4] [3; 1] [1; 2] [];
    sub (16 * 4);
    adv 4;
    chorba_load pclmul_cfg 4 4 [1; 3];
    sub (16);
    adv 1;
    fold4 pclmul_cfg pclmul_five_mult_constant [1; 3] [2] [1; 2] [1; 2];
    sub (16 * 4);
    adv 4;
    fold4 pclmul_cfg pclmul_five_mult_constant [1] [4; 2] [2; 3] [];
    sub (16 * 4);
    refill pclmul_cfg ].

(** The "clean up" statements that follow that loop inside the same [if]. *)
Definition pclmul_cleanup : list step :=
  [ adv 4;
    fold4 pclmul_cfg pclmul_four_mult_constant [2; 4] [2; 4] [3] [2; 3];
    sub (16 * 4);
    adv 4;
    fold4 pclmul_cfg pclmul_four_mult_constant [2; 3] [2] [3] [3; 4];
    sub (16 * 4);
    adv 4;
    fold4 pclmul_cfg pclmul_four_mult_constant [] [3] [3] [4];
    sub (16 * 4);
    adv 4;
    fold4 pclmul_cfg pclmul_four_mult_constant [3; 4] [3; 4] [3] [3];
    sub (16 * 4);
    adv 4;
    fold4 pclmul_cfg pclmul_four_mult_constant [4] [] [4] [4];
    sub (16 * 4);
    adv 4;
    fold4 pclmul_cfg pclmul_four_mult_constant [] [4] [4] [4];
    sub (16 * 4);
    adv 4;
    fold4 pclmul_cfg pclmul_four_mult_constant [] [] [] [];
    sub (16 * 4);
    adv 4;
    fold4 pclmul_cfg pclmul_four_mult_constant [] [] [] [];
    sub (16 * 4);
    refill pclmul_cfg ].

(** The body of [while (bytes_read >= 16 * 8)] in [cksum_pclmul]. *)
Definition pclmul_fold_body : list step :=
  [ adv 4;
    fold4 pclmul_cfg pclmul_four_mult_constant [] [] [] [];
    sub (16 * 4) ].

(** "Fold in parallel eight 16-byte blocks into four 16-byte blocks". *)
Definition pclmul_main (fuel : nat) : step :=
  fun st =>
    if sd_bytes_read st <? 16 * 8 then Next st
    else
      st <- load_four pclmul_cfg st ;;
      st <- (if sd_bytes_read st <? 512 * 2 + 64 + 16 * 8 then Next st
             else
               st <- while_ge fuel (512 * 2 + 64 + 16 * 8)
                       (run pclmul_chorba_body) st ;;
               run pclmul_cleanup st) ;;
      st <- while_ge fuel (16 * 8) (run pclmul_fold_body) st ;;
      store_four pclmul_cfg st.

Definition cksum_pclmul (buf0 : list Z) (fp : FILE) : option cksum_result :=
  let fuel := S (List.length (f_data fp)) in
  finish (simd_backend pclmul_cfg 4 (pclmul_main fuel)
                       pclmul_single_mult_constant fuel buf0 fp).

(** ** cksum_avx2.c *)

(** [_mm256_set_epi64x (e3, e2, e1, e0)] *)
Definition mm256_set_epi64x (e3 e2 e1 e0 : Z) : vec :=
  [mm_set_epi64x e1 e0; mm_set_epi64x e3 e2].

(** [BUFLEN] is [1 << 20]; [buf] holds twice as much. *)
Definition avx2_cfg : simd_cfg := mkCfg 2 (Z.shiftl 1 20).

Definition avx2_single_mult_constant : vec :=
  mm256_set_epi64x 0x569700E5 0x75BE46B7 0x569700E5 0x75BE46B7.
Definition avx2_four_mult_constant : vec :=
  mm256_set_epi64x 0x10BD4D7C 0x567FDDEB 0x10BD4D7C 0x567FDDEB.
Definition avx2_twelve_mult_constant : vec :=
  mm256_set_epi64x 0x1D97B060 0x3CD4B4ED 0x1D97B060 0x3CD4B4ED.

(** The body of [while (bytes_read >= 1024 + 128 + 32 * 8)] in [cksum_avx2]. *)
Definition avx2_chorba_body : list step :=
  [ adv 4;
    chorba_load avx2_cfg 1 0 [];
    chorba_load avx2_cfg 2 1 [];
    chorba_load avx2_cfg 3 2 [];
    chorba_load avx2_cfg 4 3 [];
    chorba_load avx2_cfg 5 4 [];
    chorba_load avx2_cfg 6 5 [];
    chorba_load avx2_cfg 7 6 [1];
    chorba_load avx2_cfg 8 7 [2];
    sub (32 * 8);
    adv 8;
    fold4 avx2_cfg avx2_twelve_mult_constant [3] [4; 1] [5; 2; 1] [6; 3; 2];
    sub (32 * 4);
    adv 4;
    fold4 avx2_cfg avx2_four_mult_constant [7; 4; 3] [8; 5; 4] [6; 5] [7; 6];
    sub (32 * 4);
    adv 4;
    fold4 avx2_cfg avx2_four_mult_constant [8; 7; 1] [8; 2] [3] [4];
    sub (32 * 4);
    adv 4;
    fold4 avx2_cfg avx2_four_mult_constant [5; 1] [6; 2; 1] [7; 3; 2; 1] [8; 4; 3; 2];
    sub (32 * 4);
    adv 4;
    fold4 avx2_cfg avx2_four_mult_constant [5; 4; 3; 1] [6; 5; 4; 2; 1] [7; 6; 5; 3; 2] [8; 7; 6; 4; 3; 1];
    sub (32 * 4);
    adv 4;
    fold4 avx2_cfg avx2_four_mult_constant [8; 7; 5; 4; 2; 1] [8; 6; 5; 3; 2] [7; 6; 4; 3; 1] [8; 7; 5; 4; 2; 1];
    sub (32 * 4);
    adv 4;
    fold4 avx2_cfg avx2_four_mult_constant [8; 6; 5; 3; 2; 1] [7; 6; 4; 3; 2] [8; 7; 5; 4; 3] [8; 6; 5; 4];
    sub (32 * 4);
    adv 4;
    fold4 avx2_cfg avx2_four_mult_constant [7; 6; 5] [8; 7; 6] [8; 7] [8];
    sub (32 * 4);
    refill avx2_cfg ].

(** The body of [while (bytes_read >= 32 * 8)] in [cksum_avx2]. *)
Definition avx2_fold_body : list step :=
  [ adv 4;
    fold4 avx2_cfg avx2_four_mult_constant [] [] [] [];
    sub (32 * 4) ].

(** "Fold in parallel 16x 16-byte blocks into 8x 16-byte blocks". *)
Definition avx2_main (fuel : nat) : step :=
  fun st =>
    if sd_bytes_read st <? 32 * 2 then Next st
    else
      st <- load_four avx2_cfg st ;;
      st <- while_ge fuel (1024 + 128 + 32 * 8) (run avx2_chorba_body) st ;;
      st <- while_ge fuel (32 * 8) (run avx2_fold_body) st ;;
      store_four avx2_cfg st.

Definition cksum_avx2 (buf0 : list Z) (fp : FILE) : option cksum_result :=
  let fuel := S (List.length (f_data fp)) in
  finish (simd_backend avx2_cfg 8 (avx2_main fuel)
                       avx2_single_mult_constant fuel buf0 fp).

(** ** cksum_avx512.c *)

(** [_mm512_set_epi64 (e7, ..., e0)] *)
Definition mm512_set_epi64 (e7 e6 e5 e4 e3 e2 e1 e0 : Z) : vec :=
  [mm_set_epi64x e1 e0; mm_set_epi64x e3 e2;
   mm_set_epi64x e5 e4; mm_set_epi64x e7 e6].

Definition avx512_cfg : simd_cfg := mkCfg 4 (Z.shiftl 1 20).

Definition avx512_single_mult_constant : vec :=
  mm512_set_epi64 0x8833794C 0xE6228B11 0x8833794C 0xE6228B11
                  0x8833794C 0xE6228B11 0x8833794C 0xE6228B11.
Definition avx512_four_mult_constant : vec :=
  mm512_set_epi64 0xCBCF3BCB 0x88FE2237 0xCBCF3BCB 0x88FE2237
                  0xCBCF3BCB 0x88FE2237 0xCBCF3BCB 0x88FE2237.
Definition avx512_twelve_mult_constant : vec :=
  mm512_set_epi64 0x9DEF026A 0x413686A0 0x9DEF026A 0x413686A0
                  0x9DEF026A 0x413686A0 0x9DEF026A 0x413686A0.

(** The body of [while (bytes_read >= 2048 + 256 + 64 * 8)] in [cksum_avx512]. *)
Definition avx512_chorba_body : list step :=
  [ adv 4;
    chorba_load avx512_cfg 1 0 [];
    chorba_load avx512_cfg 2 1 [];
    chorba_load avx512_cfg 3 2 [];
    chorba_load avx512_cfg 4 3 [];
    chorba_load avx512_cfg 5 4 [];
    chorba_load avx512_cfg 6 5 [];
    chorba_load avx512_cfg 7 6 [1];
    chorba_load avx512_cfg 8 7 [2];
    sub (64 * 8);
    adv 8;
    fold4 avx512_cfg avx512_twelve_mult_constant [3] [4; 1] [5; 2; 1] [6; 3; 2];
    sub (64 * 4);
    adv 4;
    fold4 avx512_cfg avx512_four_mult_constant [7; 4; 3] [8; 5; 4] [6; 5] [7; 6];
    sub (64 * 4);
    adv 4;
    fold4 avx512_cfg avx512_four_mult_constant [8; 7; 1] [8; 2] [3] [4];
    sub (64 * 4);
    adv 4;
    fold4 avx512_cfg avx512_four_mult_constant [5; 1] [6; 2; 1] [7; 3; 2; 1] [8; 4; 3; 2];
    sub (64 * 4);
    adv 4;
    fold4 avx512_cfg avx512_four_mult_constant [5; 4; 3; 1] [6; 5; 4; 2; 1] [7; 6; 5; 3; 2] [8; 7; 6; 4; 3; 1];
    sub (64 * 4);
    adv 4;
    fold4 avx512_cfg avx512_four_mult_constant [8; 7; 5; 4; 2; 1] [8; 6; 5; 3; 2] [7; 6; 4; 3; 1] [8; 7; 5; 4; 2; 1];
    sub (64 * 4);
    adv 4;
    fold4 avx512_cfg avx512_four_mult_constant [8; 6; 5; 3; 2; 1] [7; 6; 4; 3; 2] [8; 7; 5; 4; 3] [8; 6; 5; 4];
    sub (64 * 4);
    adv 4;
    fold4 avx512_cfg avx512_four_mult_constant [7; 6; 5] [8; 7; 6] [8; 7] [8];
    sub (64 * 4) ].

(** The body of [while (bytes_read >= 64 * 8)] in [cksum_avx512]. *)
Definition avx512_fold_body : list step :=
  [ adv 4;
    fold4 avx512_cfg avx512_four_mult_constant [] [] [] [];
    sub (64 * 4);
    refill avx512_cfg ].

(** "Fold in parallel 32x 16-byte blocks into 16x 16-byte blocks". *)
Definition avx512_main (fuel : nat) : step :=
  fun st =>
    if sd_bytes_read st <? 16 * 8 * 4 then Next st
    else
      st <- load_four avx512_cfg st ;;
      st <- while_ge fuel (2048 + 256 + 64 * 8) (run avx512_chorba_body) st ;;
      st <- while_ge fuel (64 * 8) (run avx512_fold_body) st ;;
      store_four avx512_cfg st.

Definition cksum_avx512 (buf0 : list Z) (fp : FILE) : option cksum_result :=
  let fuel := S (List.length (f_data fp)) in
  finish (simd_backend avx512_cfg 8 (avx512_main fuel)
                       avx512_single_mult_constant fuel buf0 fp).

(** ** Memory of the scalar Chorba routines

    Three objects are in play: the caller's input buffer [buf], the
    automatic array [final] and the block obtained from [malloc].  A pointer
    is an object and a byte offset; an access outside the object is
    undefined behaviour. *)

Inductive region : Type := Input | Final | BitBuffer.

Record memory : Type := mkMem {
  m_input : list Z;
  m_final : list Z;
  m_bitbuffer : list Z
}.

Definition region_bytes (m : memory) (r : region) : list Z :=
  match r with
  | Input => m_input m
  | Final => m_final m
  | BitBuffer => m_bitbuffer m
  end.

Definition set_region (m : memory) (r : region) (bs : list Z) : memory :=
  match r with
  | Input => mkMem bs (m_final m) (m_bitbuffer m)
  | Final => mkMem (m_input m) bs (m_bitbuffer m)
  | BitBuffer => mkMem (m_input m) (m_final m) bs
  end.

Definition load (m : memory) (r : region) (off n : Z) : outcome (list Z) :=
  lift (slice (region_bytes m r) off n).

Definition store (m : memory) (r : region) (off : Z) (bs : list Z)
  : outcome memory :=
  b <- lift (blit (region_bytes m r) off bs) ;; Next (set_region m r b).

(** Quadword accesses, little-endian. *)
Definition load64 (m : memory) (r : region) (off : Z) : outcome Z :=
  bs <- load m r off 8 ;; Next (le_bytes bs).

Definition store64 (m : memory) (r : region) (off v : Z) : outcome memory :=
  store m r off (to_le_bytes 8 v).

(** [n] consecutive quadwords. *)
Fixpoint qwords_of_bytes (n : nat) (bs : list Z) : list Z :=
  match n with
  | O => []
  | S n' => le_bytes (firstn 8 bs) :: qwords_of_bytes n' (skipn 8 bs)
  end.

Definition bytes_of_qwords (qs : list Z) : list Z := flat_map (to_le_bytes 8) qs.

Definition load_qwords (m : memory) (r : region) (off : Z) (n : nat)
  : outcome (list Z) :=
  bs <- load m r off (8 * Z.of_nat n) ;; Next (qwords_of_bytes n bs).

Definition store_qwords (m : memory) (r : region) (off : Z) (qs : list Z)
  : outcome memory :=
  store m r off (bytes_of_qwords qs).

(** ** chorba_small_nondestructive *)

(** The four shift patterns applied to every lane ([a1] ... [a4], and
    likewise [b], [c], [d]) on [uint64_t]. *)
Definition sh1 (x : Z) : Z := Z.lxor (Z.shiftr x 17) (Z.shiftr x 55).
Definition sh2 (x : Z) : Z :=
  Z.lxor (Z.lxor (u64 (Z.shiftl x 47)) (u64 (Z.shiftl x 9))) (Z.shiftr x 19).
Definition sh3 (x : Z) : Z := Z.lxor (u64 (Z.shiftl x 45)) (Z.shiftr x 44).
Definition sh4 (x : Z) : Z := u64 (Z.shiftl x 20).

(** [next1] ... [next5]. *)
Record nexts : Type := mkNexts {
  next1 : Z; next2 : Z; next3 : Z; next4 : Z; next5 : Z
}.

(** After [in1] ... [in4] are known: [out1] ... [out5] and the new
    [next1] ... [next5]. *)
Definition small_outs (nx : nexts) (in1 in2 in3 in4 : Z) : nexts :=
  let out1 := Z.lxor (Z.lxor (sh3 in1) (sh2 in2)) (sh1 in3) in
  let out2 := Z.lxor (Z.lxor (Z.lxor (sh4 in1) (sh3 in2)) (sh2 in3)) (sh1 in4) in
  let out3 := Z.lxor (Z.lxor (sh4 in2) (sh3 in3)) (sh2 in4) in
  let out4 := Z.lxor (sh4 in3) (sh3 in4) in
  let out5 := sh4 in4 in
  mkNexts (Z.lxor (next5 nx) out1) out2 out3 out4 out5.

(** The body of the 32-byte loop of [chorba_small_nondestructive]. *)
Definition small_body (m : memory) (i : Z) (nx : nexts) : outcome nexts :=
  w1 <- load64 m Input i ;;
  let in1 := Z.lxor (htobe64 w1) (next1 nx) in
  w2 <- load64 m Input (i + 8 * 1) ;;
  let in2 := Z.lxor (htobe64 w2) (next2 nx) in
  w3 <- load64 m Input (i + 8 * 2) ;;
  let in3 := Z.lxor (Z.lxor (htobe64 w3) (next3 nx)) (sh1 in1) in
  w4 <- load64 m Input (i + 8 * 3) ;;
  let in4 := Z.lxor (Z.lxor (Z.lxor (htobe64 w4) (next4 nx)) (sh2 in1)) (sh1 in2) in
  Next (small_outs nx in1 in2 in3 in4).

(** [for (; i + 32 + 40 < len; i += 32)] with [int i] and [size_t len];
    [body] is the loop body.  Returns [i] and the lanes at exit. *)
Fixpoint stride32_loop (fuel : nat) (body : Z -> nexts -> outcome nexts)
  (len i : Z) (nx : nexts) : outcome (Z * nexts) :=
  s <- lift (int_add i 32) ;;
  s <- lift (int_add s 40) ;;
  if u64 s <? len then
    match fuel with
    | O => OutOfFuel
    | S fuel' =>
        nx' <- body i nx ;;
        i' <- lift (int_add i 32) ;;
        stride32_loop fuel' body len i' nx'
    end
  else Next (i, nx).

(** [int] addition as the two's-complement machines the program is built
    for carry it out: the sum modulo 2^32, read as a signed 32-bit value. *)
Definition int_add_wrapped (a b : Z) : Z :=
  (a + b + 2 ^ 31) mod 2 ^ 32 - 2 ^ 31.

(** The index at which [for (; i + 32 + 40 < len; i += 32)] is left when
    its additions wrap; the loop body changes neither [i] nor [len]. *)
Fixpoint stride32_exit_wrapped (fuel : nat) (len i : Z) : option Z :=
  if u64 (int_add_wrapped (int_add_wrapped i 32) 40) <? len then
    match fuel with
    | O => None
    | S fuel' => stride32_exit_wrapped fuel' len (int_add_wrapped i 32)
    end
  else Some i.

(** [memcpy (final, input + i, len - i)] followed by the five
    [final qword ^= be64toh (nextK)] statements. *)
Definition fill_final (m : memory) (len i : Z) (nx : nexts) : outcome memory :=
  bs <- load m Input i (u64 (len - i)) ;;
  m <- store m Final 0 bs ;;
  q <- load64 m Final (0 * 8) ;;
  m <- store64 m Final (0 * 8) (Z.lxor q (be64toh (next1 nx))) ;;
  q <- load64 m Final (1 * 8) ;;
  m <- store64 m Final (1 * 8) (Z.lxor q (be64toh (next2 nx))) ;;
  q <- load64 m Final (2 * 8) ;;
  m <- store64 m Final (2 * 8) (Z.lxor q (be64toh (next3 nx))) ;;
  q <- load64 m Final (3 * 8) ;;
  m <- store64 m Final (3 * 8) (Z.lxor q (be64toh (next4 nx))) ;;
  q <- load64 m Final (4 * 8) ;;
  store64 m Final (4 * 8) (Z.lxor q (be64toh (next5 nx))).

(** [crc = crctab[0][(crc >> 24) ^ b] ^ (crc << 8)] on a [uint32_t crc]. *)
Definition crc_byte32 (crc b : Z) : Z :=
  u32 (Z.lxor (crctab_at 0 (Z.lxor (Z.shiftr crc 24) b)) (u32 (Z.shiftl crc 8))).

Definition chorba_small_nondestructive (crc len : Z) (m : memory)
  : outcome (Z * memory) :=
  let m := set_region m Final (repeat 0 72) in
  let nx := mkNexts (u64 (Z.shiftl crc 32)) 0 0 0 0 in
  let crc := 0 in
  r <- stride32_loop (Z.to_nat len) (small_body m) len 0 nx ;;
  let '(i, nx) := r in
  m <- fill_final m len i nx ;;
  fs <- load m Final 0 (u64 (len - i)) ;;
  Next (fold_left crc_byte32 fs crc, m).

(** ** chorba_118960_nondestructive *)

Definition bitbuffersizebytes : Z := 128 * 1024.
Definition bitbuffersizeqwords : Z := bitbuffersizebytes / 8.

(** The lane arithmetic of an iteration of the first pass ("zero out
    bitbuffer"): the values [in1] ... [in32] and the new [next1] ... [next22].
    [inp k] is the quadword at [input + i + k*8]. *)
Definition chorba_mix_prime (inp : Z -> Z) (nx : list Z) : list Z * list Z :=
  let next1 := nth 0 nx 0 in
  let next2 := nth 1 nx 0 in
  let next3 := nth 2 nx 0 in
  let next4 := nth 3 nx 0 in
  let next5 := nth 4 nx 0 in
  let next6 := nth 5 nx 0 in
  let next7 := nth 6 nx 0 in
  let next8 := nth 7 nx 0 in
  let next9 := nth 8 nx 0 in
  let next10 := nth 9 nx 0 in
  let next11 := nth 10 nx 0 in
  let next12 := nth 11 nx 0 in
  let next13 := nth 12 nx 0 in
  let next14 := nth 13 nx 0 in
  let next15 := nth 14 nx 0 in
  let next16 := nth 15 nx 0 in
  let next17 := nth 16 nx 0 in
  let next18 := nth 17 nx 0 in
  let next19 := nth 18 nx 0 in
  let next20 := nth 19 nx 0 in
  let next21 := nth 20 nx 0 in
  let next22 := nth 21 nx 0 in
  let in1 := Z.lxor (inp 0) next1 in
  let in2 := Z.lxor (inp 1) next2 in
  let in3 := Z.lxor (inp 2) next3 in
  let in4 := Z.lxor (inp 3) next4 in
  let in5 := Z.lxor (inp 4) next5 in
  let in6 := Z.lxor (inp 5) next6 in
  let in7 := Z.lxor (inp 6) next7 in
  let in8 := Z.lxor (Z.lxor (inp 7) next8) in1 in
  let in9 := Z.lxor (Z.lxor (inp 8) next9) in2 in
  let in10 := Z.lxor (Z.lxor (inp 9) next10) in3 in
  let in11 := Z.lxor (Z.lxor (inp 10) next11) in4 in
  let in12 := Z.lxor (Z.lxor (Z.lxor (inp 11) next12) in1) in5 in
  let in13 := Z.lxor (Z.lxor (Z.lxor (inp 12) next13) in2) in6 in
  let in14 := Z.lxor (Z.lxor (Z.lxor (inp 13) next14) in3) in7 in
  let in15 := Z.lxor (Z.lxor (Z.lxor (inp 14) next15) in4) in8 in
  let in16 := Z.lxor (Z.lxor (Z.lxor (inp 15) next16) in5) in9 in
  let in17 := Z.lxor (Z.lxor (Z.lxor (inp 16) next17) in6) in10 in
  let in18 := Z.lxor (Z.lxor (Z.lxor (inp 17) next18) in7) in11 in
  let in19 := Z.lxor (Z.lxor (Z.lxor (inp 18) next19) in8) in12 in
  let in20 := Z.lxor (Z.lxor (Z.lxor (inp 19) next20) in9) in13 in
  let in21 := Z.lxor (Z.lxor (Z.lxor (inp 20) next21) in10) in14 in
  let in22 := Z.lxor (Z.lxor (Z.lxor (inp 21) next22) in11) in15 in
  let in23 := Z.lxor (Z.lxor (Z.lxor (inp 22) in1) in12) in16 in
  let in24 := Z.lxor (Z.lxor (Z.lxor (inp 23) in2) in13) in17 in
  let in25 := Z.lxor (Z.lxor (Z.lxor (inp 24) in3) in14) in18 in
  let in26 := Z.lxor (Z.lxor (Z.lxor (inp 25) in4) in15) in19 in
  let in27 := Z.lxor (Z.lxor (Z.lxor (inp 26) in5) in16) in20 in
  let in28 := Z.lxor (Z.lxor (Z.lxor (inp 27) in6) in17) in21 in
  let in29 := Z.lxor (Z.lxor (Z.lxor (inp 28) in7) in18) in22 in
  let in30 := Z.lxor (Z.lxor (Z.lxor (inp 29) in8) in19) in23 in
  let in31 := Z.lxor (Z.lxor (Z.lxor (inp 30) in9) in20) in24 in
  let in32 := Z.lxor (Z.lxor (Z.lxor (inp 31) in10) in21) in25 in
  ([in1; in2; in3; in4; in5; in6; in7; in8;
    in9; in10; in11; in12; in13; in14; in15; in16;
    in17; in18; in19; in20; in21; in22; in23; in24;
    in25; in26; in27; in28; in29; in30; in31; in32],
   [Z.lxor (Z.lxor in11 in22) in26;
    Z.lxor (Z.lxor in12 in23) in27;
    Z.lxor (Z.lxor in13 in24) in28;
    Z.lxor (Z.lxor in14 in25) in29;
    Z.lxor (Z.lxor in15 in26) in30;
    Z.lxor (Z.lxor in16 in27) in31;
    Z.lxor (Z.lxor in17 in28) in32;
    Z.lxor in18 in29;
    Z.lxor in19 in30;
    Z.lxor in20 in31;
    Z.lxor in21 in32;
    in22;
    in23;
    in24;
    in25;
    in26;
    in27;
    in28;
    in29;
    in30;
    in31;
    in32]).

(** The lane arithmetic of the intermediate pass; [bb k] is [bitbuffer[inoffset + k]]. *)
Definition chorba_mix_half (inp : Z -> Z) (bb : Z -> Z) (nx : list Z) : list Z * list Z :=
  let next1 := nth 0 nx 0 in
  let next2 := nth 1 nx 0 in
  let next3 := nth 2 nx 0 in
  let next4 := nth 3 nx 0 in
  let next5 := nth 4 nx 0 in
  let next6 := nth 5 nx 0 in
  let next7 := nth 6 nx 0 in
  let next8 := nth 7 nx 0 in
  let next9 := nth 8 nx 0 in
  let next10 := nth 9 nx 0 in
  let next11 := nth 10 nx 0 in
  let next12 := nth 11 nx 0 in
  let next13 := nth 12 nx 0 in
  let next14 := nth 13 nx 0 in
  let next15 := nth 14 nx 0 in
  let next16 := nth 15 nx 0 in
  let next17 := nth 16 nx 0 in
  let next18 := nth 17 nx 0 in
  let next19 := nth 18 nx 0 in
  let next20 := nth 19 nx 0 in
  let next21 := nth 20 nx 0 in
  let next22 := nth 21 nx 0 in
  let in1 := Z.lxor (inp 0) next1 in
  let in2 := Z.lxor (inp 1) next2 in
  let in3 := Z.lxor (inp 2) next3 in
  let in4 := Z.lxor (inp 3) next4 in
  let in5 := Z.lxor (inp 4) next5 in
  let in6 := Z.lxor (inp 5) next6 in
  let in7 := Z.lxor (inp 6) next7 in
  let in8 := Z.lxor (Z.lxor (inp 7) next8) in1 in
  let in9 := Z.lxor (Z.lxor (inp 8) next9) in2 in
  let in10 := Z.lxor (Z.lxor (inp 9) next10) in3 in
  let in11 := Z.lxor (Z.lxor (inp 10) next11) in4 in
  let in12 := Z.lxor (Z.lxor (Z.lxor (inp 11) next12) in1) in5 in
  let in13 := Z.lxor (Z.lxor (Z.lxor (inp 12) next13) in2) in6 in
  let in14 := Z.lxor (Z.lxor (Z.lxor (inp 13) next14) in3) in7 in
  let in15 := Z.lxor (Z.lxor (Z.lxor (inp 14) next15) in4) in8 in
  let in16 := Z.lxor (Z.lxor (Z.lxor (inp 15) next16) in5) in9 in
  let in17 := Z.lxor (Z.lxor (Z.lxor (inp 16) next17) in6) in10 in
  let in18 := Z.lxor (Z.lxor (Z.lxor (inp 17) next18) in7) in11 in
  let in19 := Z.lxor (Z.lxor (Z.lxor (inp 18) next19) in8) in12 in
  let in20 := Z.lxor (Z.lxor (Z.lxor (inp 19) next20) in9) in13 in
  let in21 := Z.lxor (Z.lxor (Z.lxor (inp 20) next21) in10) in14 in
  let in22 := Z.lxor (Z.lxor (Z.lxor (inp 21) next22) in11) in15 in
  let in23 := Z.lxor (Z.lxor (Z.lxor (Z.lxor (inp 22) in1) in12) in16) (bb 22) in
  let in24 := Z.lxor (Z.lxor (Z.lxor (Z.lxor (inp 23) in2) in13) in17) (bb 23) in
  let in25 := Z.lxor (Z.lxor (Z.lxor (Z.lxor (inp 24) in3) in14) in18) (bb 24) in
  let in26 := Z.lxor (Z.lxor (Z.lxor (Z.lxor (inp 25) in4) in15) in19) (bb 25) in
  let in27 := Z.lxor (Z.lxor (Z.lxor (Z.lxor (inp 26) in5) in16) in20) (bb 26) in
  let in28 := Z.lxor (Z.lxor (Z.lxor (Z.lxor (inp 27) in6) in17) in21) (bb 27) in
  let in29 := Z.lxor (Z.lxor (Z.lxor (Z.lxor (inp 28) in7) in18) in22) (bb 28) in
  let in30 := Z.lxor (Z.lxor (Z.lxor (Z.lxor (inp 29) in8) in19) in23) (bb 29) in
  let in31 := Z.lxor (Z.lxor (Z.lxor (Z.lxor (inp 30) in9) in20) in24) (bb 30) in
  let in32 := Z.lxor (Z.lxor (Z.lxor (Z.lxor (inp 31) in10) in21) in25) (bb 31) in
  ([in1; in2; in3; in4; in5; in6; in7; in8;
    in9; in10; in11; in12; in13; in14; in15; in16;
    in17; in18; in19; in20; in21; in22; in23; in24;
    in25; in26; in27; in28; in29; in30; in31; in32],
   [Z.lxor (Z.lxor in11 in22) in26;
    Z.lxor (Z.lxor in12 in23) in27;
    Z.lxor (Z.lxor in13 in24) in28;
    Z.lxor (Z.lxor in14 in25) in29;
    Z.lxor (Z.lxor in15 in26) in30;
    Z.lxor (Z.lxor in16 in27) in31;
    Z.lxor (Z.lxor in17 in28) in32;
    Z.lxor in18 in29;
    Z.lxor in19 in30;
    Z.lxor in20 in31;
    Z.lxor in21 in32;
    in22;
    in23;
    in24;
    in25;
    in26;
    in27;
    in28;
    in29;
    in30;
    in31;
    in32]).

(** The lane arithmetic of the main pass. *)
Definition chorba_mix_full (inp : Z -> Z) (bb : Z -> Z) (nx : list Z) : list Z * list Z :=
  let next1 := nth 0 nx 0 in
  let next2 := nth 1 nx 0 in
  let next3 := nth 2 nx 0 in
  let next4 := nth 3 nx 0 in
  let next5 := nth 4 nx 0 in
  let next6 := nth 5 nx 0 in
  let next7 := nth 6 nx 0 in
  let next8 := nth 7 nx 0 in
  let next9 := nth 8 nx 0 in
  let next10 := nth 9 nx 0 in
  let next11 := nth 10 nx 0 in
  let next12 := nth 11 nx 0 in
  let next13 := nth 12 nx 0 in
  let next14 := nth 13 nx 0 in
  let next15 := nth 14 nx 0 in
  let next16 := nth 15 nx 0 in
  let next17 := nth 16 nx 0 in
  let next18 := nth 17 nx 0 in
  let next19 := nth 18 nx 0 in
  let next20 := nth 19 nx 0 in
  let next21 := nth 20 nx 0 in
  let next22 := nth 21 nx 0 in
  let in1 := Z.lxor (Z.lxor (inp 0) next1) (bb 0) in
  let in2 := Z.lxor (Z.lxor (inp 1) next2) (bb 1) in
  let in3 := Z.lxor (Z.lxor (inp 2) next3) (bb 2) in
  let in4 := Z.lxor (Z.lxor (inp 3) next4) (bb 3) in
  let in5 := Z.lxor (Z.lxor (inp 4) next5) (bb 4) in
  let in6 := Z.lxor (Z.lxor (inp 5) next6) (bb 5) in
  let in7 := Z.lxor (Z.lxor (inp 6) next7) (bb 6) in
  let in8 := Z.lxor (Z.lxor (Z.lxor (inp 7) next8) in1) (bb 7) in
  let in9 := Z.lxor (Z.lxor (Z.lxor (inp 8) next9) in2) (bb 8) in
  let in10 := Z.lxor (Z.lxor (Z.lxor (inp 9) next10) in3) (bb 9) in
  let in11 := Z.lxor (Z.lxor (Z.lxor (inp 10) next11) in4) (bb 10) in
  let in12 := Z.lxor (Z.lxor (Z.lxor (Z.lxor (inp 11) next12) in1) in5) (bb 11) in
  let in13 := Z.lxor (Z.lxor (Z.lxor (Z.lxor (inp 12) next13) in2) in6) (bb 12) in
  let in14 := Z.lxor (Z.lxor (Z.lxor (Z.lxor (inp 13) next14) in3) in7) (bb 13) in
  let in15 := Z.lxor (Z.lxor (Z.lxor (Z.lxor (inp 14) next15) in4) in8) (bb 14) in
  let in16 := Z.lxor (Z.lxor (Z.lxor (Z.lxor (inp 15) next16) in5) in9) (bb 15) in
  let in17 := Z.lxor (Z.lxor (Z.lxor (Z.lxor (inp 16) next17) in6) in10) (bb 16) in
  let in18 := Z.lxor (Z.lxor (Z.lxor (Z.lxor (inp 17) next18) in7) in11) (bb 17) in
  let in19 := Z.lxor (Z.lxor (Z.lxor (Z.lxor (inp 18) next19) in8) in12) (bb 18) in
  let in20 := Z.lxor (Z.lxor (Z.lxor (Z.lxor (inp 19) next20) in9) in13) (bb 19) in
  let in21 := Z.lxor (Z.lxor (Z.lxor (Z.lxor (inp 20) next21) in10) in14) (bb 20) in
  let in22 := Z.lxor (Z.lxor (Z.lxor (Z.lxor (inp 21) next22) in11) in15) (bb 21) in
  let in23 := Z.lxor (Z.lxor (Z.lxor (Z.lxor (inp 22) in1) in12) in16) (bb 22) in
  let in24 := Z.lxor (Z.lxor (Z.lxor (Z.lxor (inp 23) in2) in13) in17) (bb 23) in
  let in25 := Z.lxor (Z.lxor (Z.lxor (Z.lxor (inp 24) in3) in14) in18) (bb 24) in
  let in26 := Z.lxor (Z.lxor (Z.lxor (Z.lxor (inp 25) in4) in15) in19) (bb 25) in
  let in27 := Z.lxor (Z.lxor (Z.lxor (Z.lxor (inp 26) in5) in16) in20) (bb 26) in
  let in28 := Z.lxor (Z.lxor (Z.lxor (Z.lxor (inp 27) in6) in17) in21) (bb 27) in
  let in29 := Z.lxor (Z.lxor (Z.lxor (Z.lxor (inp 28) in7) in18) in22) (bb 28) in
  let in30 := Z.lxor (Z.lxor (Z.lxor (Z.lxor (inp 29) in8) in19) in23) (bb 29) in
  let in31 := Z.lxor (Z.lxor (Z.lxor (Z.lxor (inp 30) in9) in20) in24) (bb 30) in
  let in32 := Z.lxor (Z.lxor (Z.lxor (Z.lxor (inp 31) in10) in21) in25) (bb 31) in
  ([in1; in2; in3; in4; in5; in6; in7; in8;
    in9; in10; in11; in12; in13; in14; in15; in16;
    in17; in18; in19; in20; in21; in22; in23; in24;
    in25; in26; in27; in28; in29; in30; in31; in32],
   [Z.lxor (Z.lxor in11 in22) in26;
    Z.lxor (Z.lxor in12 in23) in27;
    Z.lxor (Z.lxor in13 in24) in28;
    Z.lxor (Z.lxor in14 in25) in29;
    Z.lxor (Z.lxor in15 in26) in30;
    Z.lxor (Z.lxor in16 in27) in31;
    Z.lxor (Z.lxor in17 in28) in32;
    Z.lxor in18 in29;
    Z.lxor in19 in30;
    Z.lxor in20 in31;
    Z.lxor in21 in32;
    in22;
    in23;
    in24;
    in25;
    in26;
    in27;
    in28;
    in29;
    in30;
    in31;
    in32]).


Definition nth_fun (l : list Z) (k : Z) : Z := nth (Z.to_nat k) l 0.

(** The stores that end an iteration of the three 256-byte passes:
    [in1] ... [in10] go to [bitbuffer[outoffset1 + 22 ...]] and
    [in11] ... [in32] to [bitbuffer[outoffset2 + 0 ...]]. *)
Definition store_lanes (m : memory) (i : Z) (ins : list Z) : outcome memory :=
  s1 <- lift (int_add i 118784) ;;
  s2 <- lift (int_add i 119040) ;;
  let outoffset1 := (s1 / 8) mod bitbuffersizeqwords in
  let outoffset2 := (s2 / 8) mod bitbuffersizeqwords in
  m <- store_qwords m BitBuffer (8 * (outoffset1 + 22)) (firstn 10 ins) ;;
  store_qwords m BitBuffer (8 * outoffset2) (skipn 10 ins).

(** The three kinds of 256-byte iteration. *)
Inductive pass : Type := Prime | Half | Full.

Definition pass_body (p : pass) (m : memory) (i : Z) (nx : list Z)
  : outcome (memory * list Z) :=
  inp <- load_qwords m Input i 32 ;;
  let inoffset := (i / 8) mod bitbuffersizeqwords in
  r <- match p with
       | Prime => Next (chorba_mix_prime (nth_fun inp) nx)
       | Half =>
           bb <- load_qwords m BitBuffer (8 * (inoffset + 22)) 10 ;;
           Next (chorba_mix_half (nth_fun inp)
                                 (fun k => nth_fun bb (k - 22)) nx)
       | Full =>
           bb <- load_qwords m BitBuffer (8 * inoffset) 32 ;;
           Next (chorba_mix_full (nth_fun inp) (nth_fun bb) nx)
       end ;;
  let '(ins, nx') := r in
  m <- store_lanes m i ins ;;
  Next (m, nx').

(** [for (; guard (i); i += 256) body]; [guard] itself may overflow. *)
Fixpoint pass_loop (fuel : nat) (guard : Z -> outcome bool) (p : pass)
  (m : memory) (i : Z) (nx : list Z) : outcome (memory * Z * list Z) :=
  g <- guard i ;;
  if g : bool then
    match fuel with
    | O => OutOfFuel
    | S fuel' =>
        r <- pass_body p m i nx ;;
        let '(m, nx) := r in
        i' <- lift (int_add i 256) ;;
        pass_loop fuel' guard p m i' nx
    end
  else Next (m, i, nx).

(** [bitbuffer[((i + (k*8)) / 8) % bitbuffersizeqwords] ^= next(k+1)]
    for the lanes of [nx], starting at lane [k]. *)
Fixpoint flush_nexts (m : memory) (i k : Z) (nx : list Z) : outcome memory :=
  match nx with
  | [] => Next m
  | x :: rest =>
      s <- lift (int_add i (k * 8)) ;;
      let off := 8 * ((s / 8) mod bitbuffersizeqwords) in
      q <- load64 m BitBuffer off ;;
      m <- store64 m BitBuffer off (Z.lxor q x) ;;
      flush_nexts m i (k + 1) rest
  end.

(** [for (int j = 118960 / 8; j < (118960 / 8) + 60; j++)
      bitbuffer[(j + (i / sizeof (uint64_t))) % bitbuffersizeqwords] = 0;] *)
Fixpoint zero_lanes (n : nat) (m : memory) (i j : Z) : outcome memory :=
  match n with
  | O => Next m
  | S n' =>
      m <- store64 m BitBuffer (8 * (u64 (j + i / 8) mod bitbuffersizeqwords)) 0 ;;
      zero_lanes n' m i (j + 1)
  end.

(** The body of the 32-byte loop in the tail of
    [chorba_118960_nondestructive]: as [small_body], with the byte-swapped
    bit-buffer lanes xored in last. *)
Definition tail_body (m : memory) (i : Z) (nx : nexts) : outcome nexts :=
  w1 <- load64 m Input i ;;
  q1 <- load64 m BitBuffer (8 * ((i / 8) mod bitbuffersizeqwords)) ;;
  let in1 := Z.lxor (Z.lxor (htobe64 w1) (next1 nx)) (htobe64 q1) in
  w2 <- load64 m Input (i + 8 * 1) ;;
  q2 <- load64 m BitBuffer (8 * ((i / 8 + 1) mod bitbuffersizeqwords)) ;;
  let in2 := Z.lxor (Z.lxor (htobe64 w2) (next2 nx)) (htobe64 q2) in
  w3 <- load64 m Input (i + 8 * 2) ;;
  q3 <- load64 m BitBuffer (8 * ((i / 8 + 2) mod bitbuffersizeqwords)) ;;
  let in3 := Z.lxor (Z.lxor (Z.lxor (htobe64 w3) (next3 nx)) (sh1 in1))
                    (htobe64 q3) in
  w4 <- load64 m Input (i + 8 * 3) ;;
  q4 <- load64 m BitBuffer (8 * ((i / 8 + 3) mod bitbuffersizeqwords)) ;;
  let in4 := Z.lxor (Z.lxor (Z.lxor (Z.lxor (htobe64 w4) (next4 nx)) (sh2 in1))
                            (sh1 in2))
                    (htobe64 q4) in
  Next (small_outs nx in1 in2 in3 in4).

(** The final byte loop of the large routine:
    [crc = crctab[0][(crc >> 24) ^ final[j] ^ bitbufferbytes[(j+i) % bitbuffersizebytes]] ^ (crc << 8)]. *)
Fixpoint tail_bytes (m : memory) (i j : Z) (fs : list Z) (crc : Z) : outcome Z :=
  match fs with
  | [] => Next crc
  | f :: rest =>
      s <- lift (int_add j i) ;;
      bs <- load m BitBuffer (s mod bitbuffersizebytes) 1 ;;
      tail_bytes m i (j + 1) rest (crc_byte32 crc (Z.lxor f (nth 0 bs 0)))
  end.

Definition guard_lt (bound : Z) (i : Z) : outcome bool := Next (i <? bound).

(** [i + 118960 + 512 < len] *)
Definition guard_main (len : Z) (i : Z) : outcome bool :=
  s <- lift (int_add i 118960) ;;
  s <- lift (int_add s 512) ;;
  Next (u64 s <? len).

Definition chorba_118960_nondestructive (crc len : Z) (m : memory)
  : outcome (Z * memory) :=
  if len <? 118960 * 2 + 512 then chorba_small_nondestructive crc len m
  else
    let nx := u64 (Z.shiftl crc 32) :: repeat 0 21 in
    let crc := 0 in
    let fuel := Z.to_nat len in
    r <- pass_loop fuel (guard_lt 118784) Prime m 0 nx ;;
    let '(m, i, nx) := r in
    r <- pass_loop fuel (guard_lt 119040) Half m i nx ;;
    let '(m, i, nx) := r in
    r <- pass_loop fuel (guard_main len) Full m i nx ;;
    let '(m, i, nx) := r in
    m <- flush_nexts m i 0 nx ;;
    m <- zero_lanes 60 m i (118960 / 8) ;;
    let nx := mkNexts 0 0 0 0 0 in
    let m := set_region m Final (repeat 0 72) in
    r <- stride32_loop fuel (tail_body m) len i nx ;;
    let '(i, nx) := r in
    m <- fill_final m len i nx ;;
    fs <- load m Final 0 (u64 (len - i)) ;;
    crc <- tail_bytes m i 0 fs crc ;;
    Next (crc, m).

(** ** cksum_chorba_file *)

(** The read loop; [heap] is the content of the block [malloc] hands out
    (indeterminate in C).  Each block read becomes the [Input] object of
    [chorba_118960_nondestructive]. *)
Fixpoint chorba_file_loop (fuel : nat) (heap : list Z) (fp : FILE)
  (crc len : Z) : outcome cksum_result :=
  match fuel with
  | O => OutOfFuel
  | S fuel' =>
      let '(buf, fp) := fread BUFLEN fp in
      let bytes_read := Z.of_nat (List.length buf) in
      if bytes_read =? 0
      then Next (CksumDone (negb (ferror fp)) crc len)
      else
        match add_length len bytes_read with
        | None => Return (CksumFail (Some EOVERFLOW))
        | Some len =>
            r <- chorba_118960_nondestructive crc bytes_read
                   (mkMem buf [] heap) ;;
            let crc := fst r in
            if feof fp
            then Next (CksumDone (negb (ferror fp)) crc len)
            else chorba_file_loop fuel' heap fp crc len
        end
  end.

Definition cksum_chorba_file (heap : list Z) (fp : FILE) : option cksum_result :=
  finish (chorba_file_loop (S (List.length (f_data fp))) heap fp 0 0).

(** ** The stream driver: crc_sum_stream *)

(** The functions the static pointer [cksum_fp] can designate. *)
Inductive backend : Type :=
| Cksum_slice8
| Cksum_pclmul
| Cksum_avx2
| Cksum_avx512.

(** The answers of the probes [pclmul_supported ()], [avx2_supported ()],
    [avx512_supported ()] and [vmull_supported ()] on the running machine. *)
Record cpu : Type := mkCpu {
  pclmul_supported : bool;
  avx2_supported : bool;
  avx512_supported : bool;
  vmull_supported : bool
}.

(** A call through the pointer; [stack] is the content of the callee's
    automatic buffer on entry. *)
Definition call_backend (b : backend) (stack : list Z) (fp : FILE)
  : option cksum_result :=
  match b with
  | Cksum_slice8 => cksum_slice8 fp
  | Cksum_pclmul => cksum_pclmul stack fp
  | Cksum_avx2 => cksum_avx2 stack fp
  | Cksum_avx512 => cksum_avx512 stack fp
  end.

(** [for (; total_bytes; total_bytes >>= 8)
      crc = (crc << 8) ^ crctab[0][((crc >> 24) ^ total_bytes) & 0xFF];]
    A [uintmax_t] is exhausted after eight shifts. *)
Fixpoint length_fold (fuel : nat) (crc total_bytes : Z) : Z :=
  match fuel with
  | O => crc
  | S fuel' =>
      if total_bytes =? 0 then crc
      else length_fold fuel' (crc_byte crc total_bytes) (Z.shiftr total_bytes 8)
  end.

(** What [crc_sum_stream] hands back: [-1] with nothing written, or [0]
    with the checksum stored through [resstream] and the byte count
    through [length]. *)
Inductive sum_result : Type :=
| SumFail
| SumOk (crc : Z) (len : Z).

(** [crc_sum_stream]: the value of the static [cksum_fp] before the call
    goes in, its value after the call comes out with the result.  The
    selection consults none of the probes: the only live assignment is
    [cksum_fp = cksum_slice8]. *)
Definition crc_sum_stream (machine : cpu) (stack : list Z)
  (cksum_fp : option backend) (stream : FILE)
  : option backend * option sum_result :=
  let fp_sel :=
    match cksum_fp with
    | Some b => b
    | None => Cksum_slice8
    end in
  (Some fp_sel,
   match call_backend fp_sel stack stream with
   | None => None
   | Some (CksumFail _) => Some SumFail
   | Some (CksumDone false _ _) => Some SumFail
   | Some (CksumDone true crc total_bytes) =>
       let crc := length_fold 8 crc total_bytes in
       let crc := Z.land (Z.lnot crc) 0xFFFFFFFF in
       Some (SumOk (u32 crc) total_bytes)
   end).

(** ** crc32b_sum_stream *)

(** The read loop of [crc32b_sum_stream].  The call of [crc32_update] is
    commented out in the source, so [crc] is never assigned after its
    initialisation; the loop only counts.  A failed length check returns
    before anything is stored. *)
Fixpoint crc32b_loop (fuel : nat) (fp : FILE) (crc len : Z)
  : option cksum_result :=
  match fuel with
  | O => None
  | S fuel' =>
      let '(buf, fp) := fread BUFLEN fp in
      let bytes_read := Z.of_nat (List.length buf) in
      if 0 <? bytes_read
      then
        match add_length len bytes_read with
        | None => Some (CksumFail (Some EOVERFLOW))
        | Some len =>
            if feof fp
            then Some (CksumDone (negb (ferror fp)) (u32 crc) len)
            else crc32b_loop fuel' fp crc len
        end
      else Some (CksumDone (negb (ferror fp)) (u32 crc) len)
  end.

(** [crc32b_sum_stream]: [CksumDone ok crc len] stands for "[crc] stored
    through [resstream], [len] through [reslen], and 0 returned if [ok],
    -1 otherwise". *)
Definition crc32b_sum_stream (stream : FILE) : option cksum_result :=
  crc32b_loop (S (List.length (f_data stream))) stream 0 0.

(** ** output_crc *)

(** The characters [printf] writes for [%u] and [%ju]: the decimal digits,
    most significant first.  Twenty digits hold every [uintmax_t]. *)
Fixpoint decimal_digits (fuel : nat) (n : Z) (acc : list Z) : list Z :=
  match fuel with
  | O => acc
  | S fuel' =>
      let acc := (48 + n mod 10) :: acc in
      if n / 10 =? 0 then acc else decimal_digits fuel' (n / 10) acc
  end.

Definition print_unsigned (n : Z) : list Z := decimal_digits 20 n [].

(** [output_crc]: the bytes written to standard output.  [digest] is the
    [uint32_t] the pointer designates.  In raw mode the four bytes of
    [htobe32 (digest)] are written as they lie in memory; otherwise the
    text "digest length", the file name after a space if [args], and the
    delimiter.  [binary_file] and [tagged] are not used. *)
Definition output_crc (file : list Z) (binary_file : Z) (digest : Z)
  (raw tagged : bool) (delim : Z) (args : bool) (length : Z) : list Z :=
  if raw then to_le_bytes 4 (htobe32 digest)
  else
    print_unsigned digest ++ [32] ++ print_unsigned length
    ++ (if args then 32 :: file else []) ++ [delim].

(** ** Reference definitions, following the specification's wording *)

(** The byte rule on the 32-bit register:
    state <- (state << 8) XOR T0[((state >> 24) XOR byte) AND 0xFF]. *)
Definition crc_update (state byte : Z) : Z :=
  Z.lxor (u32 (Z.shiftl state 8))
         (crctab_at 0 (Z.land (Z.lxor (Z.shiftr state 24) byte) 0xFF)).

(** The running CRC of a byte string: register 0, then the byte rule. *)
Definition crc_ref (bs : list Z) : Z := fold_left crc_update bs 0.

(** The minimal little-endian encoding of a number: least significant byte
    first, no high-order zero byte, empty for 0. *)
Fixpoint length_bytes_le (fuel : nat) (n : Z) : list Z :=
  match fuel with
  | O => []
  | S fuel' =>
      if n =? 0 then []
      else Z.land n 0xFF :: length_bytes_le fuel' (Z.shiftr n 8)
  end.

(** The minimal big-endian encoding: most significant byte first. *)
Definition length_bytes_be (fuel : nat) (n : Z) : list Z :=
  rev (length_bytes_le fuel n).

(** The bitwise complement masked to 32 bits. *)
Definition complement32 (x : Z) : Z := Z.land (Z.lnot x) 0xFFFFFFFF.

(** The acceleration families and the order in which the specification
    wants them tried. *)
Inductive family : Type := VCLMUL512 | VCLMUL256 | CLMUL128 | PMULL | SCALAR.

Definition best_available (machine : cpu) : family :=
  if avx512_supported machine then VCLMUL512
  else if avx2_supported machine then VCLMUL256
  else if pclmul_supported machine then CLMUL128
  else if vmull_supported machine then PMULL
  else SCALAR.

(** The family a backend function belongs to. *)
Definition family_of (b : backend) : family :=
  match b with
  | Cksum_slice8 => SCALAR
  | Cksum_pclmul => CLMUL128
  | Cksum_avx2 => VCLMUL256
  | Cksum_avx512 => VCLMUL512
  end.

(** A byte value. *)
Definition is_byte (b : Z) : Prop := 0 <= b < 256.

(** One step of the byte rule on a zero byte. *)
Definition zstep (x : Z) : Z := crc_update x 0.

(** The big-endian word of four bytes. *)
Definition word_be (b0 b1 b2 b3 : Z) : Z :=
  Z.lxor (Z.lxor (Z.lxor (Z.shiftl b0 24) (Z.shiftl b1 16)) (Z.shiftl b2 8)) b3.

(** Multiplication by x^300 + x^155 + x^117 + x^89 + 1, the sparse
    multiple of G behind the shifts of [chorba_small_nondestructive]. *)
Definition chorba_mul (x : Z) : Z :=
  Z.lxor (Z.lxor (Z.lxor (Z.lxor (Z.shiftl x 300) (Z.shiftl x 155))
                         (Z.shiftl x 117)) (Z.shiftl x 89)) x.

(** The five pending lanes as one polynomial: [next1] is the most
    significant lane. *)
Definition pending (nx : nexts) : Z :=
  Z.lxor (Z.shiftl (next1 nx) 256)
    (Z.lxor (Z.shiftl (next2 nx) 192)
       (Z.lxor (Z.shiftl (next3 nx) 128)
          (Z.lxor (Z.shiftl (next4 nx) 64) (next5 nx)))).

(** What is left to process at offset [i] of the block [D]: the bytes from
    [i] on, with the pending lanes xored into the first 40 of them. *)
Definition chorba_state_poly (D : list Z) (i : Z) (nx : nexts) : Z :=
  Z.lxor (msg_poly (skipn (Z.to_nat i) D))
         (Z.shiftl (pending nx) (8 * (Z.of_nat (List.length D) - i) - 320)).

(** Every pending lane is a 64-bit value. *)
Definition lanes_ok (nx : nexts) : Prop :=
  0 <= next1 nx < 2 ^ 64 /\ 0 <= next2 nx < 2 ^ 64 /\ 0 <= next3 nx < 2 ^ 64
  /\ 0 <= next4 nx < 2 ^ 64 /\ 0 <= next5 nx < 2 ^ 64.

(** One term of the sum computed by [clmul64]. *)
Definition clmul_term (a b : Z) (acc : Z) (i : nat) : Z :=
  if Z.testbit b (Z.of_nat i) then Z.lxor acc (Z.shiftl a (Z.of_nat i)) else acc.

(** The polynomial held by a register: the lowest lane holds the highest
    coefficients. *)
Fixpoint reg_poly (v : vec) : Z :=
  match v with
  | [] => 0
  | d :: ds => Z.lxor (Z.shiftl d (128 * Z.of_nat (List.length ds))) (reg_poly ds)
  end.

(** Every lane of a register is a 128-bit value. *)
Definition lanes_fit (v : vec) : Prop := Forall (fun d => 0 <= d < 2 ^ 128) v.

(** The block of [data] that register [j] of the stream covers. *)
Definition block (c : simd_cfg) (data : list Z) (j : Z) : list Z :=
  firstn (Z.to_nat (cfg_vbytes c)) (skipn (Z.to_nat (cfg_vbytes c * j)) data).

(** The four registers of the parallel fold, in stream order. *)
Definition four_regs (st : simd) : vec :=
  sd_data st ++ sd_data3 st ++ sd_data5 st ++ sd_data7 st.

(** The state of the parallel fold after [i] rounds over a stream that was
    read in full by the first [fread]. *)
Definition fold4_inv (c : simd_cfg) (data rest : list Z) (i : Z) (st : simd)
  : Prop :=
  sd_buf st = data ++ rest
  /\ sd_data_offset st = 4 * i
  /\ sd_bytes_read st = Z.of_nat (List.length data) - 4 * cfg_vbytes c * i
  /\ sd_crc st = 0
  /\ sd_fp st = mkFILE [] false true false
  /\ sd_length st = Z.of_nat (List.length data)
  /\ (sd_next_buf st = 0 \/ sd_next_buf st = cfg_words c / 2)
  /\ List.length (sd_data st) = cfg_lanes c
  /\ List.length (sd_data3 st) = cfg_lanes c
  /\ List.length (sd_data5 st) = cfg_lanes c
  /\ List.length (sd_data7 st) = cfg_lanes c
  /\ lanes_fit (four_regs st)
  /\ gf2_mod (reg_poly (four_regs st))
     = gf2_mod (msg_poly (firstn (Z.to_nat (4 * cfg_vbytes c * (i + 1))) data)).

(** ** Length accounting of the carry-less multiplication backends *)

(** The accounting fields of a backend agree with a stream of [T] bytes:
    the counter and the bytes the stream still holds add up to [T], the
    counter and [bytes_read] are 64-bit values, and [data_available] is
    only cleared once the stream is exhausted. *)
Definition acct (T : Z) (st : simd) : Prop :=
  sd_length st + Z.of_nat (List.length (f_data (sd_fp st))) = T
  /\ 0 <= sd_length st < 2 ^ 64
  /\ 0 <= sd_bytes_read st < 2 ^ 64
  /\ (sd_data_available st = false -> f_data (sd_fp st) = []).

(** Every byte of the stream has been read. *)
Definition drained (st : simd) : Prop := f_data (sd_fp st) = [].

(** What a statement sequence may do on a stream of [T] bytes: fall through
    to a state satisfying [Q], or take the [EOVERFLOW] return, and that only
    if the stream has 2^64 bytes or more. *)
Definition accounted (T : Z) (Q : simd -> Prop) (o : outcome simd) : Prop :=
  match o with
  | Next st => Q st
  | Return r => r = CksumFail (Some EOVERFLOW) /\ 2 ^ 64 <= T
  | Undefined => True
  | OutOfFuel => True
  end.

(** A step that neither reads the stream nor returns; [bytes_read] may
    change. *)
Definition quiet (f : step) : Prop :=
  forall st,
    match f st with
    | Next st' =>
        sd_fp st' = sd_fp st /\ sd_length st' = sd_length st
    | Return _ => False
    | _ => True
    end.

(** A quiet step that leaves [bytes_read] and [data_available] alone. *)
Definition silent (f : step) : Prop :=
  forall st,
    match f st with
    | Next st' =>
        sd_fp st' = sd_fp st /\ sd_length st' = sd_length st
        /\ sd_data_available st' = sd_data_available st
        /\ sd_bytes_read st' = sd_bytes_read st
    | Return _ => False
    | _ => True
    end.

(** A statement list without a refill whose [bytes_read -= ...] statements
    subtract [k] in total. *)
Inductive consumes : list step -> Z -> Prop :=
| consumes_nil : consumes [] 0
| consumes_silent (f : step) (fs : list step) (k : Z) :
    silent f -> consumes fs k -> consumes (f :: fs) k
| consumes_sub (j : Z) (fs : list step) (k k' : Z) :
    0 <= j -> consumes fs k -> k' = j + k -> consumes (sub j :: fs) k'.

(** The size of an object. *)
Definition region_size (m : memory) (r : region) : Z :=
  Z.of_nat (List.length (region_bytes m r)).

(** [m'] differs from [m] at most in the contents of [final] and of the
    bit-buffer: the input object and all sizes are the same. *)
Definition mem_ext (m m' : memory) : Prop :=
  m_input m' = m_input m
  /\ List.length (m_final m') = List.length (m_final m)
  /\ List.length (m_bitbuffer m') = List.length (m_bitbuffer m).

(** ** Checks and sample inputs used below *)

(** Every entry of [crctab] is the polynomial remainder of its byte
    followed by [k] zero bytes, and fits 32 bits. *)
Definition crctab_entry_ok (k : nat) (i : Z) : bool :=
  (crctab_at k i =? crc_poly (i :: repeat 0 k))
  && (0 <=? crctab_at k i) && (crctab_at k i <? 2 ^ 32).

(** The 32-byte stream on which [cksum_pclmul] is evaluated below: one
    byte [0x01] followed by 31 zero bytes. *)
Definition stream_one_then_zeros : list Z := 1 :: repeat 0 31.

(** The nine bytes of "123456789". *)
Definition digits_1_to_9 : list Z :=
  [0x31; 0x32; 0x33; 0x34; 0x35; 0x36; 0x37; 0x38; 0x39].

(** A machine on which every probe answers yes. *)
Definition all_features : cpu := mkCpu true true true true.

(** * Properties *)

(** ** Ranges and membership *)

Lemma byte_in_values (i : Z) : 0 <= i < 256 -> In i byte_values.
Proof.
  intros Hi. unfold byte_values.
  replace i with (Z.of_nat (Z.to_nat i)) by lia.
  apply in_map, in_seq. lia.
Qed.

Lemma forallb_In {A : Type} (f : A -> bool) (l : list A) (x : A) :
  forallb f l = true -> In x l -> f x = true.
Proof. intros H Hx. rewrite forallb_forall in H. apply H, Hx. Qed.

Lemma forallb_byte (f : Z -> bool) (i : Z) :
  forallb f byte_values = true -> 0 <= i < 256 -> f i = true.
Proof. intros H Hi. eapply forallb_In; [exact H | apply byte_in_values, Hi]. Qed.

Lemma crctab_generated : crctab = gen_crctab.
Proof. vm_compute. reflexivity. Qed.

Lemma crctab_check_ok :
  forallb (fun k => forallb (crctab_entry_ok k) byte_values) (seq 0 8) = true.
Proof. vm_compute. reflexivity. Qed.

Lemma crctab_row0_check_ok :
  forallb (fun i => crctab_at 0 i =? gf2_mod (Z.shiftl i 32)) byte_values = true.
Proof. vm_compute. reflexivity. Qed.

Lemma crctab_entry (k : nat) (i : Z) :
  (k < 8)%nat -> 0 <= i < 256 -> crctab_entry_ok k i = true.
Proof.
  intros Hk Hi.
  apply forallb_byte; [|exact Hi].
  apply (forallb_In (fun k => forallb (crctab_entry_ok k) byte_values)
                    (seq 0 8) k crctab_check_ok).
  apply in_seq. lia.
Qed.

Lemma crctab_poly (k : nat) (i : Z) :
  (k < 8)%nat -> 0 <= i < 256 -> crctab_at k i = crc_poly (i :: repeat 0 k).
Proof.
  intros Hk Hi. pose proof (crctab_entry k i Hk Hi) as H.
  unfold crctab_entry_ok in H.
  apply andb_prop in H. destruct H as [H _].
  apply andb_prop in H. destruct H as [H _].
  apply Z.eqb_eq in H. exact H.
Qed.

Lemma crctab_range (k : nat) (i : Z) :
  (k < 8)%nat -> 0 <= i < 256 -> 0 <= crctab_at k i < 2 ^ 32.
Proof.
  intros Hk Hi. pose proof (crctab_entry k i Hk Hi) as H.
  unfold crctab_entry_ok in H.
  apply andb_prop in H. destruct H as [H H2].
  apply andb_prop in H. destruct H as [_ H1].
  apply Z.leb_le in H1. apply Z.ltb_lt in H2. lia.
Qed.

(** C4. Table construction: the table is the generator's output; row 0
    holds, for every byte [i], the remainder of [i * x^32] modulo the POSIX
    generator, which is the CRC of the one-byte message [i]; row [k] holds
    the CRC of [i] followed by [k] zero bytes; every entry fits 32 bits. *)
Theorem crctab_construction (k : nat) (i : Z) :
  (k < 8)%nat -> 0 <= i < 256 ->
  crctab = gen_crctab
  /\ crctab_at 0 i = gf2_mod (Z.shiftl i 32)
  /\ crctab_at 0 i = crc_poly [i]
  /\ crctab_at k i = crc_poly (i :: repeat 0 k)
  /\ 0 <= crctab_at k i < 2 ^ 32.
Proof.
  intros Hk Hi.
  split; [exact crctab_generated|].
  split.
  { apply Z.eqb_eq.
    apply (forallb_byte (fun i => crctab_at 0 i =? gf2_mod (Z.shiftl i 32)) i
                        crctab_row0_check_ok Hi). }
  split; [apply (crctab_poly 0 i); [lia | exact Hi]|].
  split; [apply crctab_poly; assumption|].
  apply crctab_range; assumption.
Qed.

Lemma crctab_construction_witness :
  crctab = gen_crctab
  /\ crctab_at 0 0x61 = gf2_mod (Z.shiftl 0x61 32)
  /\ crctab_at 0 0x61 = crc_poly [0x61]
  /\ crctab_at 5 0x61 = crc_poly (0x61 :: repeat 0 5)
  /\ 0 <= crctab_at 5 0x61 < 2 ^ 32.
Proof. apply (crctab_construction 5 0x61); lia. Defined.

(** ** Folding constants *)

(** The powers of x modulo G that the backends use. *)
Lemma powers_of_x :
  gf2_mod (2 ^ 128) = 0xE8A45605
  /\ gf2_mod (2 ^ (128 + 64)) = 0xC5B9CD4C
  /\ gf2_mod (2 ^ 512) = 0xE6228B11
  /\ gf2_mod (2 ^ (512 + 64)) = 0x8833794C
  /\ gf2_mod (2 ^ 256) = 0x75BE46B7
  /\ gf2_mod (2 ^ (256 + 64)) = 0x569700E5
  /\ gf2_mod (2 ^ (256 * 4)) = 0x567FDDEB
  /\ gf2_mod (2 ^ (256 * 4 + 64)) = 0x10BD4D7C
  /\ gf2_mod (2 ^ (256 * 12)) = 0x3CD4B4ED
  /\ gf2_mod (2 ^ (256 * 12 + 64)) = 0x1D97B060
  /\ gf2_mod (2 ^ (512 * 4)) = 0x88FE2237
  /\ gf2_mod (2 ^ (512 * 4 + 64)) = 0xCBCF3BCB
  /\ gf2_mod (2 ^ (512 * 12)) = 0x413686A0
  /\ gf2_mod (2 ^ (512 * 12 + 64)) = 0x9DEF026A.
Proof. repeat (apply conj); vm_compute; reflexivity. Qed.

(** C6, as stated, fails: x^(256*8) modulo G is x^(512*4) modulo G, that
    is 0x88FE2237, and not the constant 0x3CD4B4ED that the twelve-fold
    register of [cksum_avx2] holds. *)
Lemma twelve_fold_is_not_power_2048 :
  gf2_mod (2 ^ (256 * 8)) <> 0x3CD4B4ED.
Proof.
  change (256 * 8) with (512 * 4).
  destruct powers_of_x as (_ & _ & _ & _ & _ & _ & _ & _ & _ & _ & H & _).
  rewrite H. discriminate.
Qed.

(** C6, amended. Every folding constant of the three backends is a power of
    x modulo G: the single-fold and four-fold constants are the powers the
    sources name; the registers called twelve-fold hold x^(256*12),
    x^(256*12+64) (avx2) and x^(512*12), x^(512*12+64) (avx512). *)
Theorem fold_constants_are_powers :
  (gf2_mod (2 ^ 128) = 0xE8A45605
   /\ gf2_mod (2 ^ (128 + 64)) = 0xC5B9CD4C
   /\ gf2_mod (2 ^ 512) = 0xE6228B11
   /\ gf2_mod (2 ^ (512 + 64)) = 0x8833794C
   /\ gf2_mod (2 ^ 256) = 0x75BE46B7
   /\ gf2_mod (2 ^ (256 + 64)) = 0x569700E5
   /\ gf2_mod (2 ^ (256 * 4)) = 0x567FDDEB
   /\ gf2_mod (2 ^ (256 * 4 + 64)) = 0x10BD4D7C
   /\ gf2_mod (2 ^ (256 * 12)) = 0x3CD4B4ED
   /\ gf2_mod (2 ^ (256 * 12 + 64)) = 0x1D97B060
   /\ gf2_mod (2 ^ (512 * 4)) = 0x88FE2237
   /\ gf2_mod (2 ^ (512 * 4 + 64)) = 0xCBCF3BCB
   /\ gf2_mod (2 ^ (512 * 12)) = 0x413686A0
   /\ gf2_mod (2 ^ (512 * 12 + 64)) = 0x9DEF026A)
  /\ pclmul_single_mult_constant
     = [mm_set_epi64x (gf2_mod (2 ^ (128 + 64))) (gf2_mod (2 ^ 128))]
  /\ pclmul_four_mult_constant
     = [mm_set_epi64x (gf2_mod (2 ^ (512 + 64))) (gf2_mod (2 ^ 512))]
  /\ avx2_single_mult_constant
     = vbroadcast 2 (mm_set_epi64x (gf2_mod (2 ^ (256 + 64))) (gf2_mod (2 ^ 256)))
  /\ avx2_four_mult_constant
     = vbroadcast 2 (mm_set_epi64x (gf2_mod (2 ^ (256 * 4 + 64)))
                                   (gf2_mod (2 ^ (256 * 4))))
  /\ avx2_twelve_mult_constant
     = vbroadcast 2 (mm_set_epi64x (gf2_mod (2 ^ (256 * 12 + 64)))
                                   (gf2_mod (2 ^ (256 * 12))))
  /\ avx512_single_mult_constant
     = vbroadcast 4 (mm_set_epi64x (gf2_mod (2 ^ (512 + 64))) (gf2_mod (2 ^ 512)))
  /\ avx512_four_mult_constant
     = vbroadcast 4 (mm_set_epi64x (gf2_mod (2 ^ (512 * 4 + 64)))
                                   (gf2_mod (2 ^ (512 * 4))))
  /\ avx512_twelve_mult_constant
     = vbroadcast 4 (mm_set_epi64x (gf2_mod (2 ^ (512 * 12 + 64)))
                                   (gf2_mod (2 ^ (512 * 12)))).
Proof.
  split; [exact powers_of_x|].
  destruct powers_of_x
    as (H1 & H2 & H3 & H4 & H5 & H6 & H7 & H8 & H9 & H10 & H11 & H12 & H13 & H14).
  rewrite H1, H2, H3, H4, H5, H6, H7, H8, H9, H10, H11, H12, H13, H14.
  repeat (apply conj); reflexivity.
Qed.

(** ** Bitwise facts *)

Ltac neg_bits :=
  repeat match goal with
         | |- context [Z.testbit ?a ?j] => rewrite (Z.testbit_neg_r a j) by lia
         end.

(** Bitwise equalities: compare bit by bit, split on the index ranges. *)
Ltac bb :=
  change 0xFF with (Z.ones 8);
  Z.bitblast; try (neg_bits; btauto).

Lemma index_low_bits (c b : Z) :
  Z.land (Z.lxor (Z.shiftr c 24) b) 0xFF
  = Z.land (Z.lxor (Z.shiftr (c mod 2 ^ 32) 24) (Z.land b 0xFF)) 0xFF.
Proof.
  change 0xFF with (Z.ones 8).
  Z.bitblast.
Qed.

Lemma u32_shiftl8 (c : Z) :
  (Z.shiftl c 8) mod 2 ^ 32 = (Z.shiftl (c mod 2 ^ 32) 8) mod 2 ^ 32.
Proof. Z.bitblast. Qed.

Lemma u32_u64 (x : Z) : (x mod 2 ^ 64) mod 2 ^ 32 = x mod 2 ^ 32.
Proof. Z.bitblast. Qed.

Lemma u32_lxor (x y : Z) : (Z.lxor x y) mod 2 ^ 32 = Z.lxor (x mod 2 ^ 32) (y mod 2 ^ 32).
Proof. Z.bitblast. Qed.

Lemma crc_byte_low (c b : Z) :
  0 <= b < 256 ->
  (crc_byte c b) mod 2 ^ 32 = crc_update (c mod 2 ^ 32) b.
Proof.
  intros Hb. unfold crc_byte, crc_update, uint_fast32, u64, u32.
  rewrite u32_lxor, u32_u64, u32_shiftl8.
  rewrite (index_low_bits c b).
  replace (Z.land b 255) with b.
  2:{ change 255 with (Z.ones 8). rewrite Z.land_ones by lia. rewrite Z.mod_small; lia. }
  f_equal.
  rewrite (index_low_bits (c mod 2^32) b).
  rewrite Z.mod_mod by lia.
  replace (Z.land b 255) with b.
  2:{ change 255 with (Z.ones 8). rewrite Z.land_ones by lia. rewrite Z.mod_small; lia. }
  apply Z.mod_small. apply crctab_range; [lia|].
  change 255 with (Z.ones 8). rewrite Z.land_ones by lia. apply Z.mod_pos_bound. lia.
Qed.


Lemma additive_check_ok :
  forallb
    (fun a =>
       forallb
         (fun b => crctab_at 0 (Z.lxor a b)
                   =? Z.lxor (crctab_at 0 a) (crctab_at 0 b))
         byte_values)
    byte_values = true.
Proof. vm_compute. reflexivity. Qed.

Lemma chain_check_ok :
  forallb
    (fun k =>
       forallb
         (fun i => crctab_at (S k) i =? crc_update (crctab_at k i) 0)
         byte_values)
    (seq 0 7) = true.
Proof. vm_compute. reflexivity. Qed.

Lemma byte_shift_check_ok :
  forallb
    (fun b =>
       (crc_update (Z.shiftl b 24) 0 =? crctab_at 0 b)
       && (crc_update (Z.shiftl b 16) 0 =? Z.shiftl b 24)
       && (crc_update (Z.shiftl b 8) 0 =? Z.shiftl b 16)
       && (crc_update b 0 =? Z.shiftl b 8))
    byte_values = true.
Proof. vm_compute. reflexivity. Qed.

Lemma land_255_range (x : Z) : 0 <= Z.land x 0xFF < 256.
Proof.
  change 0xFF with (Z.ones 8). rewrite Z.land_ones by lia.
  apply Z.mod_pos_bound. lia.
Qed.

Lemma land_255_byte (b : Z) : 0 <= b < 256 -> Z.land b 0xFF = b.
Proof.
  intros. change 0xFF with (Z.ones 8). rewrite Z.land_ones by lia.
  apply Z.mod_small. lia.
Qed.

Lemma crctab0_additive (a b : Z) :
  0 <= a < 256 -> 0 <= b < 256 ->
  crctab_at 0 (Z.lxor a b) = Z.lxor (crctab_at 0 a) (crctab_at 0 b).
Proof.
  intros Ha Hb. apply Z.eqb_eq.
  apply (forallb_byte (fun b => crctab_at 0 (Z.lxor a b)
                   =? Z.lxor (crctab_at 0 a) (crctab_at 0 b)) b); [|exact Hb].
  apply (forallb_byte (fun a =>
       forallb
         (fun b => crctab_at 0 (Z.lxor a b)
                   =? Z.lxor (crctab_at 0 a) (crctab_at 0 b))
         byte_values) a additive_check_ok Ha).
Qed.

Lemma crctab_chain (k : nat) (i : Z) :
  (k < 7)%nat -> 0 <= i < 256 -> zstep (crctab_at k i) = crctab_at (S k) i.
Proof.
  intros Hk Hi. symmetry. apply Z.eqb_eq.
  apply (forallb_byte (fun i => crctab_at (S k) i =? crc_update (crctab_at k i) 0) i); [|exact Hi].
  apply (forallb_In (fun k =>
       forallb
         (fun i => crctab_at (S k) i =? crc_update (crctab_at k i) 0)
         byte_values) (seq 0 7) k chain_check_ok).
  apply in_seq. lia.
Qed.

Lemma index_lxor (x y : Z) :
  Z.land (Z.lxor (Z.shiftr (Z.lxor x y) 24) 0) 0xFF
  = Z.lxor (Z.land (Z.lxor (Z.shiftr x 24) 0) 0xFF)
           (Z.land (Z.lxor (Z.shiftr y 24) 0) 0xFF).
Proof. change 0xFF with (Z.ones 8). Z.bitblast. Qed.

Lemma shl8_lxor (x y : Z) :
  (Z.shiftl (Z.lxor x y) 8) mod 2 ^ 32
  = Z.lxor ((Z.shiftl x 8) mod 2 ^ 32) ((Z.shiftl y 8) mod 2 ^ 32).
Proof. Z.bitblast. Qed.

Lemma lxor_swap4 (a b c d : Z) :
  Z.lxor (Z.lxor a b) (Z.lxor c d) = Z.lxor (Z.lxor a c) (Z.lxor b d).
Proof. Z.bitblast. Qed.

Lemma zstep_additive (x y : Z) : zstep (Z.lxor x y) = Z.lxor (zstep x) (zstep y).
Proof.
  unfold zstep, crc_update, u32.
  rewrite index_lxor, shl8_lxor.
  rewrite crctab0_additive by apply land_255_range.
  apply lxor_swap4.
Qed.

Lemma zstep_low (x : Z) : zstep (x mod 2 ^ 32) = zstep x.
Proof.
  unfold zstep, crc_update, u32.
  f_equal.
  - Z.bitblast.
  - f_equal. bb.
Qed.

Lemma update_as_zstep (c b : Z) :
  crc_update c b = zstep (Z.lxor c (Z.shiftl b 24)).
Proof.
  unfold zstep, crc_update, u32.
  f_equal.
  - bb.
  - f_equal. bb.
Qed.

Lemma byte_shifts (b : Z) :
  0 <= b < 256 ->
  zstep (Z.shiftl b 24) = crctab_at 0 b
  /\ zstep (Z.shiftl b 16) = Z.shiftl b 24
  /\ zstep (Z.shiftl b 8) = Z.shiftl b 16
  /\ zstep b = Z.shiftl b 8.
Proof.
  intros Hb.
  pose proof (forallb_byte _ b byte_shift_check_ok Hb) as H. cbv beta in H.
  apply andb_prop in H. destruct H as [H H4].
  apply andb_prop in H. destruct H as [H H3].
  apply andb_prop in H. destruct H as [H1 H2].
  apply Z.eqb_eq in H1, H2, H3, H4. unfold zstep. auto.
Qed.


Lemma lor_shl8 (a b : Z) :
  0 <= b < 256 -> Z.lor (Z.shiftl a 8) b = Z.lxor (Z.shiftl a 8) b.
Proof. intros Hb. rewrite <- (land_255_byte b Hb). bb. Qed.

Lemma low_byte_lor (b acc : Z) :
  0 <= b < 256 -> Z.land (Z.lor b (Z.shiftl acc 8)) 0xFF = b.
Proof. intros Hb. rewrite <- (land_255_byte b Hb). bb. Qed.

Lemma high_bytes_lor (b acc : Z) :
  0 <= b < 256 -> Z.shiftr (Z.lor b (Z.shiftl acc 8)) 8 = acc.
Proof. intros Hb. rewrite <- (land_255_byte b Hb). bb. Qed.


(** Splitting a little-endian load back into bytes returns the bytes. *)
Lemma to_le_bytes_le_bytes (bs : list Z) :
  Forall is_byte bs -> to_le_bytes (List.length bs) (le_bytes bs) = bs.
Proof.
  induction 1 as [|b bs Hb Hbs IH]; [reflexivity|].
  cbn [List.length le_bytes fold_right to_le_bytes].
  fold (le_bytes bs).
  rewrite low_byte_lor, high_bytes_lor by exact Hb.
  rewrite IH. reflexivity.
Qed.

Lemma be_bytes4 (b0 b1 b2 b3 : Z) :
  0 <= b0 < 256 -> 0 <= b1 < 256 -> 0 <= b2 < 256 -> 0 <= b3 < 256 ->
  be_bytes [b0; b1; b2; b3] = word_be b0 b1 b2 b3.
Proof.
  intros H0 H1 H2 H3. unfold be_bytes, word_be. cbn [fold_left].
  rewrite !lor_shl8 by assumption.
  rewrite Z.shiftl_0_l, Z.lxor_0_l.
  rewrite !Z.shiftl_lxor, !Z.shiftl_shiftl by lia.
  reflexivity.
Qed.

Lemma htobe32_le_bytes (b0 b1 b2 b3 : Z) :
  0 <= b0 < 256 -> 0 <= b1 < 256 -> 0 <= b2 < 256 -> 0 <= b3 < 256 ->
  htobe32 (le_bytes [b0; b1; b2; b3]) = word_be b0 b1 b2 b3.
Proof.
  intros H0 H1 H2 H3. unfold htobe32, bswap.
  assert (E : to_le_bytes 4 (le_bytes [b0; b1; b2; b3]) = [b0; b1; b2; b3]).
  { apply (to_le_bytes_le_bytes [b0; b1; b2; b3]).
    repeat (apply Forall_cons; [assumption|]). apply Forall_nil. }
  rewrite E. apply be_bytes4; assumption.
Qed.

Lemma word_bytes (x : Z) :
  x mod 2 ^ 32
  = word_be (Z.land (Z.shiftr x 24) 0xFF) (Z.land (Z.shiftr x 16) 0xFF)
            (Z.land (Z.shiftr x 8) 0xFF) (Z.land x 0xFF).
Proof. unfold word_be. bb. Qed.

(** Four byte steps absorb a big-endian word. *)
Lemma four_updates (c b0 b1 b2 b3 : Z) :
  0 <= b0 < 256 -> 0 <= b1 < 256 -> 0 <= b2 < 256 -> 0 <= b3 < 256 ->
  fold_left crc_update [b0; b1; b2; b3] c
  = zstep (zstep (zstep (zstep (Z.lxor c (word_be b0 b1 b2 b3))))).
Proof.
  intros H0 H1 H2 H3. cbn [fold_left].
  destruct (byte_shifts b1 H1) as (_ & E1 & _ & _).
  destruct (byte_shifts b2 H2) as (_ & E2 & E2' & _).
  destruct (byte_shifts b3 H3) as (_ & E3 & E3' & E3'').
  rewrite (update_as_zstep c b0).
  rewrite (update_as_zstep _ b1), <- E1, <- zstep_additive.
  rewrite (update_as_zstep _ b2), <- E2, <- E2', <- !zstep_additive.
  rewrite (update_as_zstep _ b3), <- E3, <- E3', <- E3'', <- !zstep_additive.
  unfold word_be. do 4 f_equal. bb.
Qed.

(** Four zero-byte steps turn a big-endian word into four table look-ups. *)
Lemma four_steps_word (k : nat) (b0 b1 b2 b3 : Z) :
  0 <= b0 < 256 -> 0 <= b1 < 256 -> 0 <= b2 < 256 -> 0 <= b3 < 256 ->
  zstep (zstep (zstep (zstep (word_be b0 b1 b2 b3))))
  = Z.lxor (Z.lxor (Z.lxor (crctab_at 3 b0) (crctab_at 2 b1)) (crctab_at 1 b2))
           (crctab_at 0 b3).
Proof.
  intros H0 H1 H2 H3. unfold word_be.
  rewrite !zstep_additive.
  destruct (byte_shifts b0 H0) as (A0 & _ & _ & _).
  destruct (byte_shifts b1 H1) as (B0 & B1 & _ & _).
  destruct (byte_shifts b2 H2) as (C0 & C1 & C2 & _).
  destruct (byte_shifts b3 H3) as (D0 & D1 & D2 & D3).
  rewrite A0, B1, B0, C2, C1, C0, D3, D2, D1, D0.
  rewrite !crctab_chain by (lia || assumption).
  reflexivity.
Qed.

(** ** Slice-by-8 *)

Lemma word_be_bytes (b0 b1 b2 b3 : Z) :
  0 <= b0 < 256 -> 0 <= b1 < 256 -> 0 <= b2 < 256 -> 0 <= b3 < 256 ->
  Z.land (Z.shiftr (word_be b0 b1 b2 b3) 24) 0xFF = b0
  /\ Z.land (Z.shiftr (word_be b0 b1 b2 b3) 16) 0xFF = b1
  /\ Z.land (Z.shiftr (word_be b0 b1 b2 b3) 8) 0xFF = b2
  /\ Z.land (word_be b0 b1 b2 b3) 0xFF = b3.
Proof.
  intros H0 H1 H2 H3.
  rewrite <- (land_255_byte b0 H0), <- (land_255_byte b1 H1),
    <- (land_255_byte b2 H2), <- (land_255_byte b3 H3).
  unfold word_be. repeat apply conj; bb.
Qed.

Lemma byte_of_low (c w k : Z) :
  0 <= k <= 24 ->
  Z.land (Z.shiftr (Z.lxor (c mod 2 ^ 32) w) k) 0xFF
  = Z.land (Z.shiftr (Z.lxor c w) k) 0xFF.
Proof. intros Hk. bb. Qed.

Lemma lxor_range32 (x y : Z) :
  0 <= x < 2 ^ 32 -> 0 <= y < 2 ^ 32 -> 0 <= Z.lxor x y < 2 ^ 32.
Proof.
  intros Hx Hy.
  rewrite <- (Z.mod_small x (2 ^ 32)), <- (Z.mod_small y (2 ^ 32)) by assumption.
  rewrite <- u32_lxor. apply Z.mod_pos_bound. lia.
Qed.

Lemma crc_update_range (c b : Z) : 0 <= crc_update c b < 2 ^ 32.
Proof.
  unfold crc_update, u32. apply lxor_range32.
  - apply Z.mod_pos_bound. lia.
  - apply crctab_range; [lia | apply land_255_range].
Qed.

Lemma zstep_range (x : Z) : 0 <= zstep x < 2 ^ 32.
Proof. apply crc_update_range. Qed.

Lemma four_steps_low (y : Z) :
  zstep (zstep (zstep (zstep y)))
  = Z.lxor (Z.lxor (Z.lxor (crctab_at 3 (Z.land (Z.shiftr y 24) 0xFF))
                           (crctab_at 2 (Z.land (Z.shiftr y 16) 0xFF)))
                   (crctab_at 1 (Z.land (Z.shiftr y 8) 0xFF)))
           (crctab_at 0 (Z.land y 0xFF)).
Proof.
  rewrite <- (zstep_low y), (word_bytes y).
  apply (four_steps_word 0); apply land_255_range.
Qed.

Lemma eight_steps_low (y : Z) :
  zstep (zstep (zstep (zstep (zstep (zstep (zstep (zstep y)))))))
  = Z.lxor (Z.lxor (Z.lxor (crctab_at 7 (Z.land (Z.shiftr y 24) 0xFF))
                           (crctab_at 6 (Z.land (Z.shiftr y 16) 0xFF)))
                   (crctab_at 5 (Z.land (Z.shiftr y 8) 0xFF)))
           (crctab_at 4 (Z.land y 0xFF)).
Proof.
  rewrite (four_steps_low y), !zstep_additive.
  rewrite !crctab_chain by (lia || apply land_255_range).
  reflexivity.
Qed.

(** One slice-by-8 step is eight byte steps on the low 32 bits of the
    register. *)
Lemma slice8_step_low (crc b0 b1 b2 b3 b4 b5 b6 b7 : Z) :
  is_byte b0 -> is_byte b1 -> is_byte b2 -> is_byte b3 ->
  is_byte b4 -> is_byte b5 -> is_byte b6 -> is_byte b7 ->
  slice8_step crc b0 b1 b2 b3 b4 b5 b6 b7
  = fold_left crc_update [b0; b1; b2; b3; b4; b5; b6; b7] (crc mod 2 ^ 32).
Proof.
  unfold is_byte. intros H0 H1 H2 H3 H4 H5 H6 H7.
  change [b0; b1; b2; b3; b4; b5; b6; b7] with ([b0; b1; b2; b3] ++ [b4; b5; b6; b7]).
  rewrite fold_left_app, !four_updates by assumption.
  remember (Z.lxor (crc mod 2 ^ 32) (word_be b0 b1 b2 b3)) as y eqn:Ey.
  remember (zstep (zstep (zstep (zstep y)))) as a eqn:Ea.
  rewrite !zstep_additive. subst a.
  rewrite eight_steps_low.
  rewrite (four_steps_word 0) by assumption.
  unfold slice8_step.
  rewrite !htobe32_le_bytes by assumption.
  destruct (word_be_bytes b4 b5 b6 b7 H4 H5 H6 H7) as (E3 & E2 & E1 & E0).
  rewrite E3, E2, E1, E0. subst y.
  rewrite !byte_of_low by lia.
  rewrite <- (Z.shiftr_0_r (Z.lxor (crc mod 2 ^ 32) _)), byte_of_low, Z.shiftr_0_r by lia.
  rewrite !Z.lxor_assoc. reflexivity.
Qed.

Lemma crc_byte_low_any (c b : Z) :
  (crc_byte c b) mod 2 ^ 32 = crc_update (c mod 2 ^ 32) (Z.land b 0xFF).
Proof.
  unfold crc_byte, crc_update, uint_fast32, u64, u32.
  rewrite u32_lxor, u32_u64, u32_shiftl8.
  rewrite (index_low_bits c b).
  f_equal.
  rewrite (index_low_bits (c mod 2 ^ 32) (Z.land b 255)).
  rewrite Z.mod_mod by lia.
  rewrite (land_255_byte (Z.land b 255)) by apply land_255_range.
  apply Z.mod_small. apply crctab_range; [lia | apply land_255_range].
Qed.

Lemma fold_crc_byte_low (bs : list Z) (c : Z) :
  Forall is_byte bs ->
  (fold_left crc_byte bs c) mod 2 ^ 32 = fold_left crc_update bs (c mod 2 ^ 32).
Proof.
  intros H. revert c. induction H as [|b bs Hb Hbs IH]; intros c; [reflexivity|].
  cbn [fold_left]. rewrite IH, crc_byte_low_any, land_255_byte by exact Hb.
  reflexivity.
Qed.

Lemma fold_crc_update_range (bs : list Z) (c : Z) :
  0 <= c < 2 ^ 32 -> 0 <= fold_left crc_update bs c < 2 ^ 32.
Proof.
  revert c. induction bs as [|b bs IH]; intros c Hc; [exact Hc|].
  cbn [fold_left]. apply IH, crc_update_range.
Qed.

(** The word loop of a block followed by its byte tail is the byte rule
    applied to the whole block. *)
Lemma slice8_words_spec (n : nat) (buf : list Z) (crc : Z) :
  (List.length buf <= n)%nat -> Forall is_byte buf ->
  Forall is_byte (snd (slice8_words crc buf))
  /\ fold_left crc_update (snd (slice8_words crc buf))
               (fst (slice8_words crc buf) mod 2 ^ 32)
     = fold_left crc_update buf (crc mod 2 ^ 32).
Proof.
  revert buf crc. induction n as [|n IH]; intros buf crc Hn Hb.
  - destruct buf; [|cbn in Hn; lia]. split; [exact Hb | reflexivity].
  - destruct buf as [|b0 [|b1 [|b2 [|b3 [|b4 [|b5 [|b6 [|b7 rest]]]]]]]];
      try (split; [exact Hb | reflexivity]).
    cbn [slice8_words].
    assert (Hr : Forall is_byte rest /\ is_byte b0 /\ is_byte b1 /\ is_byte b2
                 /\ is_byte b3 /\ is_byte b4 /\ is_byte b5 /\ is_byte b6 /\ is_byte b7).
    { repeat match goal with
             | H : Forall _ (_ :: _) |- _ => inversion H; subst; clear H
             end. tauto. }
    destruct Hr as (Hr & H0 & H1 & H2 & H3 & H4 & H5 & H6 & H7).
    destruct (IH rest (slice8_step crc b0 b1 b2 b3 b4 b5 b6 b7)) as [IH1 IH2];
      [cbn in Hn; lia | exact Hr |].
    split; [exact IH1|].
    rewrite IH2.
    rewrite slice8_step_low by assumption.
    rewrite Z.mod_small by (apply fold_crc_update_range, Z.mod_pos_bound; lia).
    change (b0 :: b1 :: b2 :: b3 :: b4 :: b5 :: b6 :: b7 :: rest)
      with ([b0; b1; b2; b3; b4; b5; b6; b7] ++ rest).
    rewrite fold_left_app. reflexivity.
Qed.

Lemma slice8_block_low (buf : list Z) (crc : Z) :
  Forall is_byte buf ->
  (slice8_block crc buf) mod 2 ^ 32 = fold_left crc_update buf (crc mod 2 ^ 32).
Proof.
  intros Hb. unfold slice8_block.
  destruct (slice8_words_spec (List.length buf) buf crc (le_n _) Hb) as [H1 H2].
  destruct (slice8_words crc buf) as [c tail]. cbn [fst snd] in *.
  unfold crc_bytes_tail. rewrite fold_crc_byte_low by exact H1. exact H2.
Qed.

(** The accounting wraps exactly when the sum leaves the 64-bit range. *)
Lemma add_length_spec (len n : Z) :
  0 <= len < 2 ^ 64 -> 0 <= n < 2 ^ 64 ->
  add_length len n = if len + n <? 2 ^ 64 then Some (len + n) else None.
Proof.
  intros Hl Hn. unfold add_length, uintmax, u64.
  destruct (Z.ltb_spec (len + n) (2 ^ 64)) as [H|H].
  - rewrite Z.mod_small by lia.
    destruct (Z.ltb_spec (len + n) len); [lia | reflexivity].
  - replace ((len + n) mod 2 ^ 64) with (len + n - 2 ^ 64).
    + destruct (Z.ltb_spec (len + n - 2 ^ 64) len); [reflexivity | lia].
    + apply Z.mod_unique with (q := 1); lia.
Qed.

Lemma BUFLEN_value : BUFLEN = 1048576.
Proof. reflexivity. Qed.

Lemma Forall_firstn {A : Type} (P : A -> Prop) (k : nat) (l : list A) :
  Forall P l -> Forall P (firstn k l).
Proof.
  intros H. revert k. induction H; intros [|k]; cbn; constructor; auto.
Qed.

Lemma Forall_skipn {A : Type} (P : A -> Prop) (k : nat) (l : list A) :
  Forall P l -> Forall P (skipn k l).
Proof.
  intros H. revert k. induction H; intros [|k]; cbn; auto.
Qed.

(** The read loop on a fresh stream: the byte rule over all the data and
    the exact byte count, or the overflow failure when the count leaves the
    64-bit range. *)
Lemma slice8_loop_spec (fuel : nat) (data : list Z) (crc len : Z) :
  Forall is_byte data -> (List.length data < fuel)%nat -> 0 <= len < 2 ^ 64 ->
  (len + Z.of_nat (List.length data) < 2 ^ 64 ->
   exists c,
     slice8_loop fuel (fopen_bytes data) crc len
     = Some (CksumDone true c (len + Z.of_nat (List.length data)))
     /\ c mod 2 ^ 32 = fold_left crc_update data (crc mod 2 ^ 32))
  /\ (2 ^ 64 <= len + Z.of_nat (List.length data) ->
      slice8_loop fuel (fopen_bytes data) crc len
      = Some (CksumFail (Some EOVERFLOW))).
Proof.
  revert data crc len. induction fuel as [|fuel IH]; intros data crc len Hb Hf Hl;
    [lia|].
  cbn [slice8_loop]. unfold fopen_bytes, fread. cbn [f_data f_bad f_eof f_err].
  pose proof BUFLEN_value as HB.
  destruct (Nat.ltb_spec (List.length data) (Z.to_nat BUFLEN)) as [Hs|Hs].
  - (* short read: everything that is left *)
    rewrite firstn_all2 by lia. cbn [ferror feof f_eof f_err orb negb].
    destruct (Z.eqb_spec (Z.of_nat (List.length data)) 0) as [E|E].
    + split; intros H; [|lia].
      exists crc. split; [do 2 f_equal; lia|].
      destruct data; [reflexivity | cbn in E; lia].
    + rewrite add_length_spec by lia.
      destruct (Z.ltb_spec (len + Z.of_nat (List.length data)) (2 ^ 64)) as [H|H].
      * split; intros H'; [|lia].
        eexists. split; [reflexivity|]. apply slice8_block_low, Hb.
      * split; intros H'; [lia | reflexivity].
  - (* a full block *)
    assert (Hlen : List.length (firstn (Z.to_nat BUFLEN) data) = Z.to_nat BUFLEN)
      by (apply firstn_length_le; lia).
    rewrite Hlen. cbn [ferror feof f_eof f_err].
    destruct (Z.eqb_spec (Z.of_nat (Z.to_nat BUFLEN)) 0) as [E|E]; [lia|].
    rewrite add_length_spec by lia.
    assert (Hd : Z.of_nat (List.length data)
                 = Z.of_nat (Z.to_nat BUFLEN)
                   + Z.of_nat (List.length (skipn (Z.to_nat BUFLEN) data))).
    { rewrite length_skipn. lia. }
    destruct (Z.ltb_spec (len + Z.of_nat (Z.to_nat BUFLEN)) (2 ^ 64)) as [H|H].
    + destruct (IH (skipn (Z.to_nat BUFLEN) data)
                   (slice8_block crc (firstn (Z.to_nat BUFLEN) data))
                   (len + Z.of_nat (Z.to_nat BUFLEN))) as [IH1 IH2].
      * apply Forall_skipn, Hb.
      * rewrite length_skipn. lia.
      * lia.
      * unfold fopen_bytes in IH1, IH2. split; intros H'.
        -- destruct IH1 as (c & E1 & E2); [lia|].
           exists c. split.
           ++ rewrite E1. do 2 f_equal. lia.
           ++ rewrite E2, slice8_block_low by (apply Forall_firstn, Hb).
              rewrite <- fold_left_app, firstn_skipn. reflexivity.
        -- apply IH2. lia.
    + split; intros H'; [lia | reflexivity].
Qed.

Lemma cksum_slice8_spec (data : list Z) :
  Forall is_byte data -> Z.of_nat (List.length data) < 2 ^ 64 ->
  exists c,
    cksum_slice8 (fopen_bytes data)
    = Some (CksumDone true c (Z.of_nat (List.length data)))
    /\ c mod 2 ^ 32 = crc_ref data.
Proof.
  intros Hb Hl. unfold cksum_slice8. cbn [fopen_bytes f_data].
  destruct (slice8_loop_spec (S (List.length data)) data 0 0 Hb) as [H _];
    [lia | lia |].
  destruct H as (c & E1 & E2); [lia|].
  exists c. split; [exact E1 | exact E2].
Qed.

(** C5. Slice-by-8 step refinement: for every 32-bit register and every
    eight bytes, one slice-by-8 step -- xor the first big-endian word into
    the register, then combine rows 7..4 of the register bytes with rows
    3..0 of the second word's bytes -- gives the state that the byte rule
    gives after the eight bytes in order.  Hence [cksum_slice8] returns, on
    every stream, a register whose low 32 bits are the reference
    byte-by-byte CRC, with the byte count of the stream. *)
Theorem slice8_refines_byte_rule
  (crc b0 b1 b2 b3 b4 b5 b6 b7 : Z) (data : list Z) :
  0 <= crc < 2 ^ 32 ->
  is_byte b0 -> is_byte b1 -> is_byte b2 -> is_byte b3 ->
  is_byte b4 -> is_byte b5 -> is_byte b6 -> is_byte b7 ->
  Forall is_byte data -> Z.of_nat (List.length data) < 2 ^ 64 ->
  slice8_step crc b0 b1 b2 b3 b4 b5 b6 b7
  = fold_left crc_update [b0; b1; b2; b3; b4; b5; b6; b7] crc
  /\ exists c,
       cksum_slice8 (fopen_bytes data)
       = Some (CksumDone true c (Z.of_nat (List.length data)))
       /\ c mod 2 ^ 32 = crc_ref data.
Proof.
  intros Hc H0 H1 H2 H3 H4 H5 H6 H7 Hb Hl. split.
  - rewrite slice8_step_low by assumption.
    rewrite Z.mod_small by exact Hc. reflexivity.
  - apply cksum_slice8_spec; assumption.
Qed.

Lemma slice8_refines_byte_rule_witness :
  slice8_step 0x12345678 1 2 3 4 5 6 7 8
  = fold_left crc_update [1; 2; 3; 4; 5; 6; 7; 8] 0x12345678
  /\ exists c,
       cksum_slice8 (fopen_bytes digits_1_to_9)
       = Some (CksumDone true c (Z.of_nat (List.length digits_1_to_9)))
       /\ c mod 2 ^ 32 = crc_ref digits_1_to_9.
Proof.
  apply (slice8_refines_byte_rule 0x12345678 1 2 3 4 5 6 7 8 digits_1_to_9);
    unfold is_byte; try lia.
  - repeat (apply Forall_cons; [unfold is_byte; lia|]). apply Forall_nil.
  - cbn. lia.
Defined.

(** ** The stream driver *)

Lemma length_fold_low (fuel : nat) (c n : Z) :
  (length_fold fuel c n) mod 2 ^ 32
  = fold_left crc_update (length_bytes_le fuel n) (c mod 2 ^ 32).
Proof.
  revert c n. induction fuel as [|fuel IH]; intros c n; [reflexivity|].
  cbn [length_fold length_bytes_le].
  destruct (n =? 0); [reflexivity|].
  cbn [fold_left]. rewrite IH, crc_byte_low_any. reflexivity.
Qed.

Lemma complement_low (c : Z) :
  u32 (Z.land (Z.lnot c) 0xFFFFFFFF) = complement32 (c mod 2 ^ 32).
Proof.
  unfold u32, complement32. change 0xFFFFFFFF with (Z.ones 32). bb.
Qed.

Lemma split_low_byte (n : Z) :
  Z.lor (Z.land n 0xFF) (Z.shiftl (Z.shiftr n 8) 8) = n.
Proof. bb. Qed.

(** The encoding decodes to the number it encodes. *)
Lemma length_bytes_le_decodes (fuel : nat) (n : Z) :
  0 <= n < 2 ^ (8 * Z.of_nat fuel) -> le_bytes (length_bytes_le fuel n) = n.
Proof.
  revert n. induction fuel as [|fuel IH]; intros n Hn.
  - cbn in *. lia.
  - cbn [length_bytes_le].
    destruct (Z.eqb_spec n 0) as [E|E]; [subst; reflexivity|].
    cbn [le_bytes fold_right]. fold (le_bytes (length_bytes_le fuel (Z.shiftr n 8))).
    rewrite IH; [apply split_low_byte|].
    rewrite Z.shiftr_div_pow2 by lia. split.
    + apply Z.div_pos; lia.
    + apply Z.div_lt_upper_bound; [lia|].
      rewrite <- Z.pow_add_r by lia.
      replace (8 + 8 * Z.of_nat fuel) with (8 * Z.of_nat (S fuel)) by lia. lia.
Qed.

(** Its bytes are bytes, and the last one -- the most significant -- is
    not zero. *)
Lemma length_bytes_le_minimal (fuel : nat) (n : Z) :
  0 <= n ->
  Forall is_byte (length_bytes_le fuel n)
  /\ (0 < n < 2 ^ (8 * Z.of_nat fuel) -> last (length_bytes_le fuel n) 0 <> 0).
Proof.
  revert n. induction fuel as [|fuel IH]; intros n Hn.
  - split; [constructor | cbn; lia].
  - cbn [length_bytes_le].
    destruct (Z.eqb_spec n 0) as [E|E]; [split; [constructor | lia]|].
    assert (Hs : 0 <= Z.shiftr n 8) by (apply Z.shiftr_nonneg; lia).
    destruct (IH (Z.shiftr n 8) Hs) as [IH1 IH2].
    split; [constructor; [apply land_255_range | exact IH1]|].
    intros Hr.
    assert (Hd : Z.shiftr n 8 = n / 256)
      by (rewrite Z.shiftr_div_pow2 by lia; reflexivity).
    destruct (Z.eqb_spec (Z.shiftr n 8) 0) as [Z0|Z0].
    + rewrite Z0.
      assert (El : length_bytes_le fuel 0 = []) by (destruct fuel; reflexivity).
      rewrite El. cbn [last].
      change 0xFF with (Z.ones 8). rewrite Z.land_ones by lia.
      rewrite Hd in Z0. change (2 ^ 8) with 256.
      pose proof (Z.div_mod n 256 ltac:(lia)). lia.
    + assert (Hlt : 0 < Z.shiftr n 8 < 2 ^ (8 * Z.of_nat fuel)).
      { split; [lia|]. rewrite Hd. apply Z.div_lt_upper_bound; [lia|].
        change 256 with (2 ^ 8). rewrite <- Z.pow_add_r by lia.
        replace (8 + 8 * Z.of_nat fuel) with (8 * Z.of_nat (S fuel)) by lia. lia. }
      specialize (IH2 Hlt).
      destruct (length_bytes_le fuel (Z.shiftr n 8)) as [|x xs] eqn:El.
      * destruct fuel; cbn [length_bytes_le] in El; [cbn in Hlt; lia|].
        destruct (Z.eqb_spec (Z.shiftr n 8) 0); [lia | discriminate].
      * exact IH2.
Qed.

Lemma crc_sum_stream_spec (machine : cpu) (stack : list Z) (data : list Z) :
  Forall is_byte data -> Z.of_nat (List.length data) < 2 ^ 64 ->
  crc_sum_stream machine stack None (fopen_bytes data)
  = (Some Cksum_slice8,
     Some (SumOk
             (complement32
                (crc_ref (data ++ length_bytes_le 8 (Z.of_nat (List.length data)))))
             (Z.of_nat (List.length data)))).
Proof.
  intros Hb Hl. unfold crc_sum_stream, call_backend.
  destruct (cksum_slice8_spec data Hb Hl) as (c & E1 & E2).
  rewrite E1. do 3 f_equal.
  rewrite complement_low, length_fold_low, E2.
  unfold crc_ref. rewrite fold_left_app. reflexivity.
Qed.

(** C2, as stated, fails: on 256 zero bytes the checksum is not the
    complement of the CRC of the data followed by the big-endian length
    bytes 0x01 0x00. *)
Lemma length_bytes_are_not_big_endian :
  snd (crc_sum_stream all_features [] None (fopen_bytes (repeat 0 256)))
  <> Some (SumOk
             (complement32 (crc_ref (repeat 0 256 ++ length_bytes_be 8 256)))
             256).
Proof. vm_compute. discriminate. Qed.

(** C2, amended. For every input of byte length l below 2^64, the checksum
    produced by [crc_sum_stream] is the complement, masked to 32 bits, of
    the CRC of the data followed by the length bytes, where the length bytes
    are the minimal little-endian encoding of l: least significant byte
    first, no high-order zero byte, none at all when l = 0; the reported
    length is l. *)
Theorem final_checksum_folds_length (machine : cpu) (stack data : list Z) :
  Forall is_byte data -> Z.of_nat (List.length data) < 2 ^ 64 ->
  let l := Z.of_nat (List.length data) in
  snd (crc_sum_stream machine stack None (fopen_bytes data))
  = Some (SumOk (complement32 (crc_ref (data ++ length_bytes_le 8 l))) l)
  /\ le_bytes (length_bytes_le 8 l) = l
  /\ Forall is_byte (length_bytes_le 8 l)
  /\ (0 < l -> last (length_bytes_le 8 l) 0 <> 0)
  /\ (l = 0 -> length_bytes_le 8 l = []).
Proof.
  intros Hb Hl l. split.
  { rewrite crc_sum_stream_spec by assumption. reflexivity. }
  split; [apply length_bytes_le_decodes; subst l; cbn; lia|].
  destruct (length_bytes_le_minimal 8 l ltac:(subst l; lia)) as [H1 H2].
  split; [exact H1|].
  split; [intros H; apply H2; subst l; cbn; lia|].
  intros ->. reflexivity.
Qed.

Lemma final_checksum_folds_length_witness :
  let l := Z.of_nat (List.length digits_1_to_9) in
  snd (crc_sum_stream all_features [] None (fopen_bytes digits_1_to_9))
  = Some (SumOk (complement32 (crc_ref (digits_1_to_9 ++ length_bytes_le 8 l))) l)
  /\ le_bytes (length_bytes_le 8 l) = l
  /\ Forall is_byte (length_bytes_le 8 l)
  /\ (0 < l -> last (length_bytes_le 8 l) 0 <> 0)
  /\ (l = 0 -> length_bytes_le 8 l = []).
Proof.
  apply (final_checksum_folds_length all_features [] digits_1_to_9).
  - repeat (apply Forall_cons; [unfold is_byte; lia|]). apply Forall_nil.
  - cbn. lia.
Defined.

(** C8, as stated, fails: the pipeline does not yield 0x765E7680 on
    "123456789"; that value is the complement of the CRC before the length
    is folded in. *)
Lemma digits_checksum_is_not_765E7680 :
  snd (crc_sum_stream all_features [] None (fopen_bytes digits_1_to_9))
  <> Some (SumOk 0x765E7680 9)
  /\ complement32 (crc_ref digits_1_to_9) = 0x765E7680.
Proof. apply conj; vm_compute; [discriminate | reflexivity]. Qed.

(** C8, amended. Backend CRC, length fold and complement on the nine bytes
    of "123456789" yield checksum 0x377A6011 (930766865) and length 9. *)
Theorem digits_checksum (machine : cpu) (stack : list Z) :
  snd (crc_sum_stream machine stack None (fopen_bytes digits_1_to_9))
  = Some (SumOk 0x377A6011 9).
Proof. vm_compute. reflexivity. Qed.

(** ** Dispatch *)

(** C3, as stated, fails: on a machine where every probe answers yes, the
    first call does not select the backend of the preferred family. *)
Lemma dispatch_ignores_the_probes :
  exists b,
    fst (crc_sum_stream all_features [] None (fopen_bytes [])) = Some b
    /\ best_available all_features = VCLMUL512
    /\ family_of b <> best_available all_features.
Proof.
  exists Cksum_slice8. repeat apply conj; [reflexivity | reflexivity | discriminate].
Qed.

(** C3, amended. The first call selects the scalar slice-by-8 backend
    whatever the machine supports, and stores the selection; every later
    call finds the stored backend, calls it and leaves it stored. *)
Theorem dispatch_selects_slice8 (machine : cpu) (stack : list Z)
  (b : backend) (stream stream' : FILE) :
  fst (crc_sum_stream machine stack None stream) = Some Cksum_slice8
  /\ crc_sum_stream machine stack None stream
     = crc_sum_stream machine stack (Some Cksum_slice8) stream
  /\ fst (crc_sum_stream machine stack (Some b) stream') = Some b
  /\ fst (crc_sum_stream machine stack
            (fst (crc_sum_stream machine stack None stream)) stream')
     = Some Cksum_slice8
  /\ (call_backend Cksum_slice8 stack stream' = cksum_slice8 stream').
Proof. repeat apply conj; reflexivity. Qed.

(** ** Cross-backend comparison *)

(** C1. On the 32-byte stream 01 00 ... 00 the backend [cksum_pclmul]
    returns the register 0 while [cksum_slice8] returns a register whose
    low 32 bits are the reference CRC of the stream, which is not 0; both
    report length 32. *)
Theorem pclmul_differs_from_slice8 :
  cksum_pclmul (repeat 0 (Z.to_nat 65536)) (fopen_bytes stream_one_then_zeros)
  = Some (CksumDone true 0 32)
  /\ (exists c,
        cksum_slice8 (fopen_bytes stream_one_then_zeros)
        = Some (CksumDone true c 32)
        /\ c mod 2 ^ 32 = crc_ref stream_one_then_zeros
        /\ c mod 2 ^ 32 <> 0).
Proof.
  split; [vm_compute; reflexivity|].
  eexists. split; [vm_compute; reflexivity|].
  split; vm_compute; [reflexivity | discriminate].
Qed.

(** ** Length accounting *)

Lemma wraps_iff (len n : Z) :
  0 <= len < 2 ^ 64 -> 0 <= n < 2 ^ 64 ->
  (uintmax (len + n) <? len) = negb (len + n <? 2 ^ 64).
Proof.
  intros Hl Hn. pose proof (add_length_spec len n Hl Hn) as H.
  unfold add_length in H.
  destruct (uintmax (len + n) <? len), (len + n <? 2 ^ 64);
    (reflexivity || discriminate).
Qed.


(** ** The scalar Chorba routines *)

(** ** Buffers *)

Lemma slice_ok (buf : list Z) (off n : Z) :
  0 <= off -> 0 <= n -> off + n <= Z.of_nat (List.length buf) ->
  exists bs, slice buf off n = Some bs /\ Z.of_nat (List.length bs) = n.
Proof.
  intros H1 H2 H3. unfold slice.
  destruct (Z.leb_spec 0 off); [|lia].
  destruct (Z.leb_spec 0 n); [|lia].
  destruct (Z.leb_spec (off + n) (Z.of_nat (List.length buf))); [|lia].
  cbn [andb]. eexists. split; [reflexivity|].
  rewrite length_firstn, length_skipn. lia.
Qed.

Lemma slice_length (buf : list Z) (off n : Z) (bs : list Z) :
  slice buf off n = Some bs ->
  Z.of_nat (List.length bs) = n /\ 0 <= off /\ 0 <= n
  /\ off + n <= Z.of_nat (List.length buf).
Proof.
  unfold slice.
  destruct (Z.leb_spec 0 off); [|discriminate].
  destruct (Z.leb_spec 0 n); [|discriminate].
  destruct (Z.leb_spec (off + n) (Z.of_nat (List.length buf))); [|discriminate].
  cbn [andb]. intros [= <-].
  rewrite length_firstn, length_skipn. lia.
Qed.

Lemma blit_length (buf : list Z) (off : Z) (bs b' : list Z) :
  blit buf off bs = Some b' -> List.length b' = List.length buf.
Proof.
  unfold blit.
  destruct (Z.leb_spec 0 off); [|discriminate].
  destruct (Z.leb_spec (off + Z.of_nat (List.length bs)) (Z.of_nat (List.length buf)));
    [|discriminate].
  cbn [andb]. intros [= <-].
  rewrite !length_app, length_firstn, length_skipn. lia.
Qed.

Lemma blit_ok (buf : list Z) (off : Z) (bs : list Z) :
  0 <= off -> off + Z.of_nat (List.length bs) <= Z.of_nat (List.length buf) ->
  exists b', blit buf off bs = Some b'.
Proof.
  intros H1 H2. unfold blit.
  destruct (Z.leb_spec 0 off); [|lia].
  destruct (Z.leb_spec (off + Z.of_nat (List.length bs)) (Z.of_nat (List.length buf)));
    [|lia].
  cbn [andb]. eexists. reflexivity.
Qed.

(** ** Memory: what a store can change *)


Lemma mem_ext_refl (m : memory) : mem_ext m m.
Proof. unfold mem_ext. auto. Qed.

Lemma mem_ext_trans (m1 m2 m3 : memory) :
  mem_ext m1 m2 -> mem_ext m2 m3 -> mem_ext m1 m3.
Proof. unfold mem_ext. intuition congruence. Qed.

Lemma store_frame (m : memory) (r : region) (off : Z) (bs : list Z) (m' : memory) :
  store m r off bs = Next m' -> r <> Input -> mem_ext m m'.
Proof.
  unfold store. intros H Hr.
  destruct (blit (region_bytes m r) off bs) as [b|] eqn:E; [|discriminate].
  cbn in H. injection H as <-. apply blit_length in E.
  destruct r; [contradiction | |]; unfold mem_ext; cbn in *; auto.
Qed.

Lemma store64_frame (m : memory) (r : region) (off v : Z) (m' : memory) :
  store64 m r off v = Next m' -> r <> Input -> mem_ext m m'.
Proof. apply store_frame. Qed.

Lemma store_qwords_frame (m : memory) (r : region) (off : Z) (qs : list Z)
  (m' : memory) :
  store_qwords m r off qs = Next m' -> r <> Input -> mem_ext m m'.
Proof. apply store_frame. Qed.

(** Peel the first statement off a sequence that ran to completion. *)
Ltac step_bind H :=
  lazymatch type of H with
  | bind ?m _ = Next _ =>
      let E := fresh "E" in
      let x := fresh "x" in
      destruct m as [x| | |] eqn:E; cbn [bind] in H; [|discriminate H..]
  end.

Ltac frame_stores :=
  repeat match goal with
         | E : store _ _ _ _ = Next _ |- _ =>
             apply store_frame in E; [|discriminate]
         | E : store64 _ _ _ _ = Next _ |- _ =>
             apply store64_frame in E; [|discriminate]
         | E : store_qwords _ _ _ _ = Next _ |- _ =>
             apply store_qwords_frame in E; [|discriminate]
         end.

Ltac chain_ext :=
  repeat match goal with
         | H : mem_ext _ _ |- _ => destruct H as (? & ? & ?)
         end;
  unfold mem_ext; repeat apply conj; congruence.

Lemma fill_final_frame (m : memory) (len i : Z) (nx : nexts) (m' : memory) :
  fill_final m len i nx = Next m' -> mem_ext m m'.
Proof.
  unfold fill_final. intros H.
  repeat step_bind H. frame_stores. chain_ext.
Qed.

Lemma set_final_ext (m : memory) (bs : list Z) :
  m_input (set_region m Final bs) = m_input m
  /\ m_bitbuffer (set_region m Final bs) = m_bitbuffer m.
Proof. split; reflexivity. Qed.

Lemma chorba_small_frame (crc len : Z) (m : memory) (c : Z) (m' : memory) :
  chorba_small_nondestructive crc len m = Next (c, m') ->
  m_input m' = m_input m
  /\ List.length (m_bitbuffer m') = List.length (m_bitbuffer m).
Proof.
  unfold chorba_small_nondestructive. intros H.
  step_bind H. destruct x as [i nx].
  step_bind H. step_bind H. injection H as _ <-.
  apply fill_final_frame in E0. destruct E0 as (A & _ & B).
  cbn in A, B. auto.
Qed.

Lemma store_lanes_frame (m : memory) (i : Z) (ins : list Z) (m' : memory) :
  store_lanes m i ins = Next m' -> mem_ext m m'.
Proof.
  unfold store_lanes. intros H.
  repeat step_bind H. frame_stores. chain_ext.
Qed.

Lemma pass_body_frame (p : pass) (m : memory) (i : Z) (nx : list Z)
  (m' : memory) (nx' : list Z) :
  pass_body p m i nx = Next (m', nx') -> mem_ext m m'.
Proof.
  unfold pass_body. intros H.
  step_bind H. step_bind H. destruct x0 as [ins nx2].
  step_bind H. injection H as <- _.
  eapply store_lanes_frame, E1.
Qed.

Lemma pass_loop_frame (fuel : nat) (guard : Z -> outcome bool) (p : pass)
  (m : memory) (i : Z) (nx : list Z) (m' : memory) (i' : Z) (nx' : list Z) :
  pass_loop fuel guard p m i nx = Next (m', i', nx') -> mem_ext m m'.
Proof.
  revert m i nx. induction fuel as [|fuel IH]; intros m i nx H; cbn [pass_loop] in H.
  - step_bind H. destruct x; [discriminate|]. injection H as <- _ _. apply mem_ext_refl.
  - step_bind H. destruct x.
    + step_bind H. destruct x as [m1 nx1]. step_bind H.
      apply pass_body_frame in E0. apply IH in H.
      eapply mem_ext_trans; eassumption.
    + injection H as <- _ _. apply mem_ext_refl.
Qed.

Lemma flush_nexts_frame (nx : list Z) (m : memory) (i k : Z) (m' : memory) :
  flush_nexts m i k nx = Next m' -> mem_ext m m'.
Proof.
  revert m k. induction nx as [|x nx IH]; intros m k H; cbn [flush_nexts] in H.
  - injection H as <-. apply mem_ext_refl.
  - repeat step_bind H. apply IH in H. frame_stores.
    eapply mem_ext_trans; eassumption.
Qed.

Lemma zero_lanes_frame (n : nat) (m : memory) (i j : Z) (m' : memory) :
  zero_lanes n m i j = Next m' -> mem_ext m m'.
Proof.
  revert m j. induction n as [|n IH]; intros m j H; cbn [zero_lanes] in H.
  - injection H as <-. apply mem_ext_refl.
  - step_bind H. apply IH in H. frame_stores.
    eapply mem_ext_trans; eassumption.
Qed.

Lemma chorba_118960_frame (crc len : Z) (m : memory) (c : Z) (m' : memory) :
  chorba_118960_nondestructive crc len m = Next (c, m') ->
  m_input m' = m_input m
  /\ List.length (m_bitbuffer m') = List.length (m_bitbuffer m).
Proof.
  unfold chorba_118960_nondestructive. intros H.
  destruct (len <? 118960 * 2 + 512); [eapply chorba_small_frame, H|].
  step_bind H. destruct x as [[m1 i1] nx1].
  step_bind H. destruct x as [[m2 i2] nx2].
  step_bind H. destruct x as [[m3 i3] nx3].
  step_bind H. step_bind H. step_bind H. destruct x1 as [i4 nx4].
  repeat step_bind H. injection H as _ <-.
  apply pass_loop_frame in E, E0, E1.
  apply flush_nexts_frame in E2. apply zero_lanes_frame in E3.
  apply fill_final_frame in E5.
  destruct E as (? & ? & ?), E0 as (? & ? & ?), E1 as (? & ? & ?),
    E2 as (? & ? & ?), E3 as (? & ? & ?), E5 as (A & _ & B).
  cbn in A, B. split; congruence.
Qed.

(** ** Memory: accesses that are in bounds succeed *)


Lemma load_total (m : memory) (r : region) (off n : Z) :
  0 <= off -> 0 <= n -> off + n <= region_size m r ->
  exists bs, load m r off n = Next bs /\ Z.of_nat (List.length bs) = n.
Proof.
  intros H1 H2 H3. unfold load.
  destruct (slice_ok (region_bytes m r) off n H1 H2 H3) as (bs & E & L).
  rewrite E. exists bs. split; [reflexivity | exact L].
Qed.

Lemma load64_total (m : memory) (r : region) (off : Z) :
  0 <= off -> off + 8 <= region_size m r -> exists q, load64 m r off = Next q.
Proof.
  intros H1 H2. unfold load64.
  destruct (load_total m r off 8 H1 ltac:(lia) H2) as (bs & E & _).
  rewrite E. eexists. reflexivity.
Qed.

Lemma load_qwords_total (m : memory) (r : region) (off : Z) (n : nat) :
  0 <= off -> off + 8 * Z.of_nat n <= region_size m r ->
  exists qs, load_qwords m r off n = Next qs.
Proof.
  intros H1 H2. unfold load_qwords.
  destruct (load_total m r off (8 * Z.of_nat n) H1 ltac:(lia) H2) as (bs & E & _).
  rewrite E. eexists. reflexivity.
Qed.

Lemma store_total (m : memory) (r : region) (off : Z) (bs : list Z) :
  r <> Input -> 0 <= off -> off + Z.of_nat (List.length bs) <= region_size m r ->
  exists m', store m r off bs = Next m' /\ mem_ext m m'.
Proof.
  intros Hr H1 H2.
  destruct (blit_ok (region_bytes m r) off bs H1 H2) as (b & E).
  assert (S : store m r off bs = Next (set_region m r b)).
  { unfold store. rewrite E. reflexivity. }
  eexists. split; [exact S|]. eapply store_frame; eassumption.
Qed.

Lemma to_le_bytes_length (n : nat) (x : Z) : List.length (to_le_bytes n x) = n.
Proof. revert x. induction n; intros x; cbn; [|rewrite IHn]; reflexivity. Qed.

Lemma bytes_of_qwords_length (qs : list Z) :
  List.length (bytes_of_qwords qs) = (8 * List.length qs)%nat.
Proof.
  unfold bytes_of_qwords. induction qs as [|q qs IH]; [reflexivity|].
  cbn [flat_map]. rewrite length_app, to_le_bytes_length, IH. cbn [List.length]. lia.
Qed.

Lemma store64_total (m : memory) (r : region) (off v : Z) :
  r <> Input -> 0 <= off -> off + 8 <= region_size m r ->
  exists m', store64 m r off v = Next m' /\ mem_ext m m'.
Proof.
  intros Hr H1 H2. unfold store64. apply store_total; [assumption..|].
  rewrite to_le_bytes_length. lia.
Qed.

Lemma store_qwords_total (m : memory) (r : region) (off : Z) (qs : list Z) :
  r <> Input -> 0 <= off ->
  off + 8 * Z.of_nat (List.length qs) <= region_size m r ->
  exists m', store_qwords m r off qs = Next m' /\ mem_ext m m'.
Proof.
  intros Hr H1 H2. unfold store_qwords. apply store_total; [assumption..|].
  rewrite bytes_of_qwords_length. lia.
Qed.

Lemma region_size_ext (m m' : memory) (r : region) :
  mem_ext m m' -> region_size m' r = region_size m r.
Proof.
  intros (A & B & C). unfold region_size. destruct r; cbn; congruence.
Qed.

(** ** The 32-byte loops *)

Lemma int_add_ok (a b : Z) :
  - INT_MAX - 1 <= a + b <= INT_MAX -> int_add a b = Some (a + b).
Proof.
  intros H. unfold int_add.
  destruct (Z.leb_spec (- INT_MAX - 1) (a + b)); [|lia].
  destruct (Z.leb_spec (a + b) INT_MAX); [|lia]. reflexivity.
Qed.

Lemma INT_MAX_value : INT_MAX = 2147483647.
Proof. reflexivity. Qed.

Lemma small_body_total (m : memory) (i : Z) (nx : nexts) :
  0 <= i -> i + 32 <= region_size m Input ->
  exists nx', small_body m i nx = Next nx'.
Proof.
  intros H1 H2. unfold small_body.
  destruct (load64_total m Input i) as (w1 & E1); [lia..|]. rewrite E1. cbn [bind].
  destruct (load64_total m Input (i + 8 * 1)) as (w2 & E2); [lia..|]. rewrite E2. cbn [bind].
  destruct (load64_total m Input (i + 8 * 2)) as (w3 & E3); [lia..|]. rewrite E3. cbn [bind].
  destruct (load64_total m Input (i + 8 * 3)) as (w4 & E4); [lia..|]. rewrite E4. cbn [bind].
  eexists. reflexivity.
Qed.

Lemma bitbuffer_index (x : Z) :
  0 <= 8 * (x mod bitbuffersizeqwords)
  /\ 8 * (x mod bitbuffersizeqwords) + 8 <= 131072.
Proof.
  change bitbuffersizeqwords with 16384.
  pose proof (Z.mod_pos_bound x 16384 ltac:(lia)). lia.
Qed.

Lemma tail_body_total (m : memory) (i : Z) (nx : nexts) :
  0 <= i -> i + 32 <= region_size m Input -> region_size m BitBuffer = 131072 ->
  exists nx', tail_body m i nx = Next nx'.
Proof.
  intros H1 H2 H3. unfold tail_body.
  destruct (load64_total m Input i) as (w1 & E1); [lia..|]. rewrite E1. cbn [bind].
  destruct (load64_total m BitBuffer (8 * ((i / 8) mod bitbuffersizeqwords)))
    as (q1 & F1); [rewrite ?H3; apply bitbuffer_index..|]. rewrite F1. cbn [bind].
  destruct (load64_total m Input (i + 8 * 1)) as (w2 & E2); [lia..|]. rewrite E2. cbn [bind].
  destruct (load64_total m BitBuffer (8 * ((i / 8 + 1) mod bitbuffersizeqwords)))
    as (q2 & F2); [rewrite ?H3; apply bitbuffer_index..|]. rewrite F2. cbn [bind].
  destruct (load64_total m Input (i + 8 * 2)) as (w3 & E3); [lia..|]. rewrite E3. cbn [bind].
  destruct (load64_total m BitBuffer (8 * ((i / 8 + 2) mod bitbuffersizeqwords)))
    as (q3 & F3); [rewrite ?H3; apply bitbuffer_index..|]. rewrite F3. cbn [bind].
  destruct (load64_total m Input (i + 8 * 3)) as (w4 & E4); [lia..|]. rewrite E4. cbn [bind].
  destruct (load64_total m BitBuffer (8 * ((i / 8 + 3) mod bitbuffersizeqwords)))
    as (q4 & F4); [rewrite ?H3; apply bitbuffer_index..|]. rewrite F4. cbn [bind].
  eexists. reflexivity.
Qed.

(** The loop [for (; i + 32 + 40 < len; i += 32)] started at a multiple of
    32 with [0 <= i <= len], on a length up to [INT_MAX - 23], ends, and it
    ends with [0 <= len - i <= 72]. *)
Lemma stride32_loop_exit (body : Z -> nexts -> outcome nexts) (len : Z) :
  len <= INT_MAX - 23 ->
  (forall i nx, 0 <= i -> i + 72 < len -> exists nx', body i nx = Next nx') ->
  forall (fuel : nat) (i : Z) (nx : nexts),
    0 <= i <= len -> i mod 32 = 0 -> i + 72 <= INT_MAX ->
    len - i - 72 <= 32 * Z.of_nat fuel ->
    exists i' nx',
      stride32_loop fuel body len i nx = Next (i', nx')
      /\ i <= i' <= len /\ len - i' <= 72 /\ i' mod 32 = 0.
Proof.
  intros Hlen Hbody. pose proof INT_MAX_value as HM.
  induction fuel as [|fuel IH]; intros i nx Hi Ha Hm Hf.
  - cbn [stride32_loop]. rewrite int_add_ok by lia. cbn [lift bind].
    rewrite int_add_ok by lia. cbn [lift bind].
    unfold u64. rewrite Z.mod_small by lia.
    destruct (Z.ltb_spec (i + 32 + 40) len); [lia|].
    exists i, nx. split; [reflexivity | lia].
  - cbn [stride32_loop]. rewrite int_add_ok by lia. cbn [lift bind].
    rewrite int_add_ok by lia. cbn [lift bind].
    unfold u64. rewrite Z.mod_small by lia.
    destruct (Z.ltb_spec (i + 32 + 40) len).
    + destruct (Hbody i nx) as (nx' & E); [lia..|]. rewrite E. cbn [lift bind].
      assert (Ha' : (i + 32) mod 32 = 0)
        by (rewrite <- Z.add_mod_idemp_l, Ha by lia; reflexivity).
      assert (Hm' : i + 32 + 72 <= INT_MAX)
        by (revert Ha; Z.div_mod_to_equations; lia).
      destruct (IH (i + 32) nx') as (i' & nx'' & E' & B); [lia..|].
      exists i', nx''. split; [exact E' | lia].
    + exists i, nx. split; [reflexivity | lia].
Qed.

Lemma fill_final_total (m : memory) (len i : Z) (nx : nexts) :
  0 <= i <= len -> len - i <= 72 -> len <= region_size m Input ->
  region_size m Final = 72 ->
  exists m', fill_final m len i nx = Next m' /\ mem_ext m m'.
Proof.
  intros Hi Hl Hin Hf. unfold fill_final.
  unfold u64. rewrite Z.mod_small by lia.
  destruct (load_total m Input i (len - i)) as (bs & E & L); [lia..|].
  rewrite E. cbn [bind].
  destruct (store_total m Final 0 bs) as (m1 & S1 & X1); [discriminate | lia | lia |].
  rewrite S1. cbn [bind].
  assert (R1 : region_size m1 Final = 72) by (rewrite (region_size_ext m m1); assumption).
  destruct (load64_total m1 Final (0 * 8)) as (q1 & L1); [lia..|]. rewrite L1. cbn [bind].
  destruct (store64_total m1 Final (0 * 8) (Z.lxor q1 (be64toh (next1 nx))))
    as (m2 & S2 & X2); [discriminate | lia | lia |]. rewrite S2. cbn [bind].
  assert (R2 : region_size m2 Final = 72) by (rewrite (region_size_ext m1 m2); assumption).
  destruct (load64_total m2 Final (1 * 8)) as (q2 & L2); [lia..|]. rewrite L2. cbn [bind].
  destruct (store64_total m2 Final (1 * 8) (Z.lxor q2 (be64toh (next2 nx))))
    as (m3 & S3 & X3); [discriminate | lia | lia |]. rewrite S3. cbn [bind].
  assert (R3 : region_size m3 Final = 72) by (rewrite (region_size_ext m2 m3); assumption).
  destruct (load64_total m3 Final (2 * 8)) as (q3 & L3); [lia..|]. rewrite L3. cbn [bind].
  destruct (store64_total m3 Final (2 * 8) (Z.lxor q3 (be64toh (next3 nx))))
    as (m4 & S4 & X4); [discriminate | lia | lia |]. rewrite S4. cbn [bind].
  assert (R4 : region_size m4 Final = 72) by (rewrite (region_size_ext m3 m4); assumption).
  destruct (load64_total m4 Final (3 * 8)) as (q4 & L4); [lia..|]. rewrite L4. cbn [bind].
  destruct (store64_total m4 Final (3 * 8) (Z.lxor q4 (be64toh (next4 nx))))
    as (m5 & S5 & X5); [discriminate | lia | lia |]. rewrite S5. cbn [bind].
  assert (R5 : region_size m5 Final = 72) by (rewrite (region_size_ext m4 m5); assumption).
  destruct (load64_total m5 Final (4 * 8)) as (q5 & L5); [lia..|]. rewrite L5. cbn [bind].
  destruct (store64_total m5 Final (4 * 8) (Z.lxor q5 (be64toh (next5 nx))))
    as (m6 & S6 & X6); [discriminate | lia | lia |].
  exists m6. split; [exact S6|].
  chain_ext.
Qed.

(** [chorba_small_nondestructive] runs to completion on every length the
    [int] index can follow, and returns with the input untouched. *)
Lemma chorba_small_total (crc len : Z) (m : memory) :
  0 <= len <= INT_MAX - 23 -> len <= region_size m Input ->
  exists c m',
    chorba_small_nondestructive crc len m = Next (c, m')
    /\ m_input m' = m_input m.
Proof.
  intros Hlen Hin. pose proof INT_MAX_value as HM.
  unfold chorba_small_nondestructive.
  set (m0 := set_region m Final (repeat 0 72)).
  assert (I0 : region_size m0 Input = region_size m Input) by reflexivity.
  assert (F0 : region_size m0 Final = 72) by reflexivity.
  destruct (stride32_loop_exit (small_body m0) len ltac:(lia)) with
    (fuel := Z.to_nat len) (i := 0) (nx := mkNexts (u64 (Z.shiftl crc 32)) 0 0 0 0)
    as (i & nx & E & Hi & Hl).
  { intros j nx0 Hj Hj2. apply small_body_total; lia. }
  { lia. }
  { reflexivity. }
  { lia. }
  { lia. }
  rewrite E. cbn [bind].
  destruct (fill_final_total m0 len i nx) as (m1 & E1 & X1); [lia..|].
  rewrite E1. cbn [bind].
  unfold u64. rewrite Z.mod_small by lia.
  destruct (load_total m1 Final 0 (len - i)) as (fs & E2 & _);
    [lia | lia | rewrite (region_size_ext m0 m1) by assumption; lia |].
  rewrite E2. cbn [bind].
  eexists. eexists. split; [reflexivity|].
  destruct X1 as (A & _). rewrite A. reflexivity.
Qed.

(** ** The 256-byte passes *)

Lemma aligned_offset (s : Z) :
  0 <= s -> s mod 256 = 0 ->
  0 <= (s / 8) mod bitbuffersizeqwords <= 16352.
Proof.
  intros H0 Ha. change bitbuffersizeqwords with 16384.
  assert (E : s / 8 = 32 * (s / 256)).
  { pose proof (Z.div_mod s 256 ltac:(lia)) as D. rewrite Ha in D.
    rewrite D at 1. replace (256 * (s / 256) + 0) with ((32 * (s / 256)) * 8) by lia.
    apply Z.div_mul. lia. }
  rewrite E.
  replace 16384 with (32 * 512) by lia.
  rewrite Z.mul_mod_distr_l by lia.
  pose proof (Z.mod_pos_bound (s / 256) 512 ltac:(lia)). lia.
Qed.

Lemma store_lanes_total (m : memory) (i : Z) (ins : list Z) :
  0 <= i -> i mod 256 = 0 -> i + 119040 <= INT_MAX ->
  List.length ins = 32%nat -> region_size m BitBuffer = 131072 ->
  exists m', store_lanes m i ins = Next m' /\ mem_ext m m'.
Proof.
  intros H0 Ha Hm Hl Hb. pose proof INT_MAX_value as HM. unfold store_lanes.
  rewrite !int_add_ok by lia. cbn [lift bind].
  pose proof (aligned_offset (i + 118784) ltac:(lia)) as O1.
  pose proof (aligned_offset (i + 119040) ltac:(lia)) as O2.
  rewrite <- Z.add_mod_idemp_l, Ha in O1, O2 by lia.
  specialize (O1 eq_refl). specialize (O2 eq_refl).
  destruct (store_qwords_total m BitBuffer
              (8 * ((i + 118784) / 8 mod bitbuffersizeqwords + 22)) (firstn 10 ins))
    as (m1 & S1 & X1); [discriminate | | |].
  { lia. }
  { rewrite length_firstn, Hl, Hb. change (Z.of_nat (Nat.min 10 32)) with 10. lia. }
  rewrite S1. cbn [bind].
  destruct (store_qwords_total m1 BitBuffer
              (8 * ((i + 119040) / 8 mod bitbuffersizeqwords)) (skipn 10 ins))
    as (m2 & S2 & X2); [discriminate | lia | |].
  { rewrite length_skipn, Hl, (region_size_ext m m1), Hb by assumption.
    change (Z.of_nat (32 - 10)) with 22. lia. }
  exists m2. split; [exact S2 | eapply mem_ext_trans; eassumption].
Qed.

Lemma mix_lengths (p : pass) (inp bb : Z -> Z) (nx : list Z) :
  (List.length (fst (chorba_mix_prime inp nx)) = 32%nat
   /\ List.length (snd (chorba_mix_prime inp nx)) = 22%nat)
  /\ (List.length (fst (chorba_mix_half inp bb nx)) = 32%nat
      /\ List.length (snd (chorba_mix_half inp bb nx)) = 22%nat)
  /\ (List.length (fst (chorba_mix_full inp bb nx)) = 32%nat
      /\ List.length (snd (chorba_mix_full inp bb nx)) = 22%nat).
Proof. repeat apply conj; reflexivity. Qed.

Lemma pass_body_total (p : pass) (m : memory) (i : Z) (nx : list Z) :
  0 <= i -> i mod 256 = 0 -> i + 119040 <= INT_MAX ->
  i + 256 <= region_size m Input -> region_size m BitBuffer = 131072 ->
  exists m' nx',
    pass_body p m i nx = Next (m', nx') /\ mem_ext m m'
    /\ List.length nx' = 22%nat.
Proof.
  intros H0 Ha Hm Hin Hb. unfold pass_body.
  destruct (load_qwords_total m Input i 32) as (inp & E);
    [lia | change (Z.of_nat 32) with 32; lia |].
  rewrite E. cbn [bind].
  pose proof (aligned_offset i H0 Ha) as O.
  assert (exists ins nx',
             match p with
             | Prime => Next (chorba_mix_prime (nth_fun inp) nx)
             | Half =>
                 bb <- load_qwords m BitBuffer
                         (8 * ((i / 8) mod bitbuffersizeqwords + 22)) 10 ;;
                 Next (chorba_mix_half (nth_fun inp)
                                       (fun k => nth_fun bb (k - 22)) nx)
             | Full =>
                 bb <- load_qwords m BitBuffer
                         (8 * ((i / 8) mod bitbuffersizeqwords)) 32 ;;
                 Next (chorba_mix_full (nth_fun inp) (nth_fun bb) nx)
             end = Next (ins, nx')
             /\ List.length ins = 32%nat /\ List.length nx' = 22%nat)
    as (ins & nx' & Er & Hl & Hn).
  { destruct p.
    - exists (fst (chorba_mix_prime (nth_fun inp) nx)),
        (snd (chorba_mix_prime (nth_fun inp) nx)).
      split; [rewrite <- surjective_pairing; reflexivity|].
      apply (mix_lengths Prime (nth_fun inp) (nth_fun inp) nx).
    - destruct (load_qwords_total m BitBuffer
                  (8 * ((i / 8) mod bitbuffersizeqwords + 22)) 10) as (bb & Eb);
        [lia | rewrite Hb; change (Z.of_nat 10) with 10; lia |].
      rewrite Eb. cbn [bind]. eexists. eexists.
      split; [rewrite <- surjective_pairing; reflexivity|].
      apply (mix_lengths Half (nth_fun inp) (fun k => nth_fun bb (k - 22)) nx).
    - destruct (load_qwords_total m BitBuffer
                  (8 * ((i / 8) mod bitbuffersizeqwords)) 32) as (bb & Eb);
        [lia | rewrite Hb; change (Z.of_nat 32) with 32; lia |].
      rewrite Eb. cbn [bind]. eexists. eexists.
      split; [rewrite <- surjective_pairing; reflexivity|].
      apply (mix_lengths Full (nth_fun inp) (nth_fun bb) nx). }
  rewrite Er. cbn [bind].
  destruct (store_lanes_total m i ins H0 Ha Hm Hl Hb) as (m' & S & X).
  rewrite S. cbn [bind]. exists m', nx'. split; [reflexivity | split; [exact X | exact Hn]].
Qed.

Lemma pass_loop_total (guard : Z -> outcome bool) (p : pass) (B U len : Z) :
  (forall i, 0 <= i <= U -> i mod 256 = 0 -> guard i = Next (i <? B)) ->
  B <= U -> U mod 256 = 0 -> U + 119040 <= INT_MAX ->
  forall (fuel : nat) (m : memory) (i : Z) (nx : list Z),
    0 <= i <= U -> i mod 256 = 0 -> B - i <= 256 * Z.of_nat fuel ->
    U <= region_size m Input -> region_size m BitBuffer = 131072 ->
    List.length nx = 22%nat ->
    exists m' i' nx',
      pass_loop fuel guard p m i nx = Next (m', i', nx')
      /\ mem_ext m m' /\ i <= i' <= U /\ i' mod 256 = 0 /\ B <= i'
      /\ (i' = i \/ i' < B + 256)
      /\ List.length nx' = 22%nat.
Proof.
  intros Hg HB HUa HU. pose proof INT_MAX_value as HM.
  induction fuel as [|fuel IH]; intros m i nx Hi Ha Hf Hin Hb Hnx.
  - cbn [pass_loop]. rewrite Hg by (lia || assumption). cbn [bind].
    destruct (Z.ltb_spec i B); [lia|].
    exists m, i, nx. split; [reflexivity|].
    split; [apply mem_ext_refl | repeat apply conj; (lia || assumption)].
  - cbn [pass_loop]. rewrite Hg by (lia || assumption). cbn [bind].
    destruct (Z.ltb_spec i B).
    + assert (Hstep : i + 256 <= U)
        by (revert Ha HUa; Z.div_mod_to_equations; lia).
      destruct (pass_body_total p m i nx) as (m1 & nx1 & E & X & N1); [lia..|].
      rewrite E. cbn [bind]. rewrite int_add_ok by lia. cbn [lift bind].
      destruct (IH m1 (i + 256) nx1)
        as (m' & i' & nx' & E' & X' & Hi' & Ha' & HB' & Hn' & N').
      * lia.
      * rewrite <- Z.add_mod_idemp_l, Ha by lia. reflexivity.
      * lia.
      * rewrite (region_size_ext m m1) by assumption. lia.
      * rewrite (region_size_ext m m1) by assumption. lia.
      * exact N1.
      * exists m', i', nx'. split; [exact E'|].
        split; [eapply mem_ext_trans; eassumption|].
        repeat apply conj; (lia || assumption).
    + exists m, i, nx. split; [reflexivity|].
      split; [apply mem_ext_refl | repeat apply conj; (lia || assumption)].
Qed.

Lemma guard_main_value (len i : Z) :
  0 <= i -> i + 119472 <= INT_MAX ->
  guard_main len i = Next (i <? len - 119472).
Proof.
  intros H0 Hm. pose proof INT_MAX_value as HM. unfold guard_main.
  rewrite int_add_ok by lia. cbn [lift bind].
  rewrite int_add_ok by lia. cbn [lift bind].
  unfold u64. rewrite Z.mod_small by lia. f_equal.
  destruct (Z.ltb_spec (i + 118960 + 512) len), (Z.ltb_spec i (len - 119472));
    (reflexivity || lia).
Qed.

Lemma flush_nexts_total (nx : list Z) (m : memory) (i k : Z) :
  0 <= i -> 0 <= k -> i + 8 * (k + Z.of_nat (List.length nx)) <= INT_MAX ->
  region_size m BitBuffer = 131072 ->
  exists m', flush_nexts m i k nx = Next m' /\ mem_ext m m'.
Proof.
  pose proof INT_MAX_value as HM.
  revert m k. induction nx as [|x nx IH]; intros m k H0 Hk Hm Hb.
  - exists m. split; [reflexivity | apply mem_ext_refl].
  - cbn [flush_nexts]. cbn [List.length] in Hm.
    rewrite int_add_ok by lia. cbn [lift bind].
    pose proof (bitbuffer_index ((i + k * 8) / 8)) as O.
    destruct (load64_total m BitBuffer (8 * (((i + k * 8) / 8) mod bitbuffersizeqwords)))
      as (q & L); [lia | rewrite Hb; lia |].
    rewrite L. cbn [bind].
    destruct (store64_total m BitBuffer
                (8 * (((i + k * 8) / 8) mod bitbuffersizeqwords)) (Z.lxor q x))
      as (m1 & S & X); [discriminate | lia | rewrite Hb; lia |].
    rewrite S. cbn [bind].
    destruct (IH m1 (k + 1)) as (m' & E & X'); [lia | lia | lia | |].
    { rewrite (region_size_ext m m1); assumption. }
    exists m'. split; [exact E | eapply mem_ext_trans; eassumption].
Qed.

Lemma zero_lanes_total (n : nat) (m : memory) (i j : Z) :
  region_size m BitBuffer = 131072 ->
  exists m', zero_lanes n m i j = Next m' /\ mem_ext m m'.
Proof.
  revert m j. induction n as [|n IH]; intros m j Hb.
  - exists m. split; [reflexivity | apply mem_ext_refl].
  - cbn [zero_lanes].
    pose proof (bitbuffer_index (u64 (j + i / 8))) as O.
    destruct (store64_total m BitBuffer
                (8 * (u64 (j + i / 8) mod bitbuffersizeqwords)) 0)
      as (m1 & S & X); [discriminate | lia | rewrite Hb; lia |].
    rewrite S. cbn [bind].
    destruct (IH m1 (j + 1)) as (m' & E & X').
    { rewrite (region_size_ext m m1); assumption. }
    exists m'. split; [exact E | eapply mem_ext_trans; eassumption].
Qed.

Lemma tail_bytes_total (fs : list Z) (m : memory) (i j crc : Z) :
  0 <= i -> 0 <= j -> j + i + Z.of_nat (List.length fs) <= INT_MAX ->
  region_size m BitBuffer = 131072 ->
  exists c, tail_bytes m i j fs crc = Next c.
Proof.
  pose proof INT_MAX_value as HM.
  revert j crc. induction fs as [|f fs IH]; intros j crc H0 Hj Hm Hb.
  - exists crc. reflexivity.
  - cbn [tail_bytes]. cbn [List.length] in Hm.
    rewrite int_add_ok by lia. cbn [lift bind].
    pose proof (Z.mod_pos_bound (j + i) bitbuffersizebytes ltac:(reflexivity)) as O.
    change bitbuffersizebytes with 131072 in *.
    destruct (load_total m BitBuffer ((j + i) mod 131072) 1) as (bs & L & _);
      [lia | lia | rewrite Hb; lia |].
    rewrite L. cbn [bind]. apply IH; lia.
Qed.

(** The large routine runs to completion and leaves the input untouched. *)
Lemma chorba_118960_total (crc len : Z) (m : memory) :
  0 <= len <= INT_MAX - 79 ->
  len <= region_size m Input -> region_size m BitBuffer = 131072 ->
  exists c m',
    chorba_118960_nondestructive crc len m = Next (c, m')
    /\ m_input m' = m_input m.
Proof.
  intros Hlen Hin Hb. pose proof INT_MAX_value as HM.
  unfold chorba_118960_nondestructive.
  destruct (Z.ltb_spec len (118960 * 2 + 512)) as [Hs|Hs];
    [apply chorba_small_total; lia|].
  (* first pass *)
  destruct (pass_loop_total (guard_lt 118784) Prime 118784 118784 len) with
    (fuel := Z.to_nat len) (m := m) (i := 0)
    (nx := u64 (Z.shiftl crc 32) :: repeat 0 21)
    as (m1 & i1 & nx1 & E1 & X1 & Hi1 & Ha1 & HB1 & _ & N1);
    [reflexivity | lia | reflexivity | lia | lia | reflexivity | lia | lia | lia
     | reflexivity |].
  rewrite E1. cbn [bind].
  (* intermediate pass *)
  destruct (pass_loop_total (guard_lt 119040) Half 119040 119040 len) with
    (fuel := Z.to_nat len) (m := m1) (i := i1) (nx := nx1)
    as (m2 & i2 & nx2 & E2 & X2 & Hi2 & Ha2 & HB2 & _ & N2);
    [reflexivity | lia | reflexivity | lia | lia | exact Ha1 | lia
     | rewrite (region_size_ext m m1) by assumption; lia
     | rewrite (region_size_ext m m1) by assumption; lia | exact N1 |].
  rewrite E2. cbn [bind].
  assert (X02 : mem_ext m m2) by (eapply mem_ext_trans; eassumption).
  (* main pass *)
  set (U := Z.max 119040 (256 * ((len - 119217) / 256))).
  assert (HU : 119040 <= U /\ len - 119472 <= U /\ U <= len - 119217
               /\ U <= INT_MAX - 119551 /\ U mod 256 = 0).
  { assert (E : U = 256 * Z.max 465 ((len - 119217) / 256)) by (unfold U; lia).
    split; [lia|]. split; [unfold U; Z.div_mod_to_equations; lia|].
    split; [unfold U; Z.div_mod_to_equations; lia|].
    split; [unfold U; Z.div_mod_to_equations; lia|].
    rewrite E, Z.mul_comm. apply Z.mod_mul. lia. }
  assert (len - 119472 <= U <= len - 119217 /\ U + 119551 <= INT_MAX
          /\ 119040 <= U) by lia.
  destruct (pass_loop_total (guard_main len) Full (len - 119472) U len)
    with (fuel := Z.to_nat len) (m := m2) (i := i2) (nx := nx2)
    as (m3 & i3 & nx3 & E3 & X3 & Hi3 & Ha3 & HB3 & _ & N3);
    [intros j Hj _; apply guard_main_value; lia | lia | apply HU | lia | lia
     | exact Ha2 | lia
     | rewrite (region_size_ext m m2) by assumption; lia
     | rewrite (region_size_ext m m2) by assumption; lia | exact N2 |].
  clearbody U.
  rewrite E3. cbn [bind].
  assert (X03 : mem_ext m m3) by (eapply mem_ext_trans; eassumption).
  (* flushing the pending lanes, clearing 60 lanes *)
  destruct (flush_nexts_total nx3 m3 i3 0) as (m4 & E4 & X4);
    [lia | lia | rewrite N3; lia
     | rewrite (region_size_ext m m3) by assumption; lia |].
  {   rewrite E4. cbn [bind].
      assert (X04 : mem_ext m m4) by (eapply mem_ext_trans; eassumption).
      destruct (zero_lanes_total 60 m4 i3 (118960 / 8)) as (m5 & E5 & X5);
        [rewrite (region_size_ext m m4) by assumption; lia|].
      rewrite E5. cbn [bind].
      assert (X05 : mem_ext m m5) by (eapply mem_ext_trans; eassumption).
      set (m6 := set_region m5 Final (repeat 0 72)).
      assert (I6 : region_size m6 Input = region_size m Input).
      { unfold region_size. cbn. destruct X05 as (A & _). rewrite A. reflexivity. }
      assert (B6 : region_size m6 BitBuffer = 131072).
      { rewrite <- Hb. unfold region_size. cbn. destruct X05 as (_ & _ & B).
        rewrite B. reflexivity. }
      assert (F6 : region_size m6 Final = 72) by reflexivity.
      destruct (stride32_loop_exit (tail_body m6) len ltac:(lia)) with
        (fuel := Z.to_nat len) (i := i3) (nx := mkNexts 0 0 0 0 0)
        as (i4 & nx4 & E6 & Hi4 & Hl4).
      { intros j nx0 Hj Hj2. apply tail_body_total; lia. }
      { lia. }
      { revert Ha3. Z.div_mod_to_equations. lia. }
      { lia. }
      { lia. }
      rewrite E6. cbn [bind].
      destruct (fill_final_total m6 len i4 nx4) as (m7 & E7 & X7); [lia..|].
      rewrite E7. cbn [bind].
      unfold u64 at 1. rewrite Z.mod_small by lia.
      destruct (load_total m7 Final 0 (len - i4)) as (fs & E8 & L8);
        [lia | lia | rewrite (region_size_ext m6 m7) by assumption; lia |].
      rewrite E8. cbn [bind].
      destruct (tail_bytes_total fs m7 i4 0 0) as (c & E9);
        [lia | lia | lia | rewrite (region_size_ext m6 m7) by assumption; lia |].
      rewrite E9. cbn [bind].
      exists c, m7. split; [reflexivity|].
      destruct X7 as (A & _). rewrite A. cbn.
      destruct X05 as (A5 & _). exact A5. }
Qed.

(** ** The largest lengths the [int] index can follow

    On a length above [INT_MAX - 23] the guard [i + 32 + 40 < len] still
    holds at [i = 2^31 - 96], and at the next index the addition
    [i + 32 + 40] overflows. *)
Lemma stride32_loop_overflows (body : Z -> nexts -> outcome nexts) (len : Z) :
  INT_MAX - 23 < len ->
  (forall i nx, 0 <= i -> i + 72 <= INT_MAX -> exists nx', body i nx = Next nx') ->
  forall (fuel : nat) (i : Z) (nx : nexts),
    0 <= i -> i mod 32 = 0 -> INT_MAX - 72 - i < 32 * Z.of_nat fuel ->
    stride32_loop fuel body len i nx = Undefined.
Proof.
  intros Hlen Hbody. pose proof INT_MAX_value as HM.
  assert (Hover : forall fuel i nx, INT_MAX < i + 72 ->
                    stride32_loop fuel body len i nx = Undefined).
  { intros fuel i nx Hi. unfold int_add.
    destruct fuel; cbn [stride32_loop]; unfold int_add;
      (destruct (Z.leb_spec (- INT_MAX - 1) (i + 32)); cbn [andb lift bind];
       [|reflexivity];
       destruct (Z.leb_spec (i + 32) INT_MAX); cbn [andb lift bind]; [|reflexivity];
       destruct (Z.leb_spec (- INT_MAX - 1) (i + 32 + 40)); cbn [andb lift bind];
       [|reflexivity];
       destruct (Z.leb_spec (i + 32 + 40) INT_MAX); cbn [andb lift bind];
       [lia | reflexivity]). }
  induction fuel as [|fuel IH]; intros i nx Hi Ha Hf.
  - apply Hover. lia.
  - destruct (Z.le_gt_cases (i + 72) INT_MAX) as [Hle|Hgt]; [|apply Hover; lia].
    assert (Hb : i + 72 <= INT_MAX - 23)
      by (revert Ha; Z.div_mod_to_equations; lia).
    cbn [stride32_loop]. rewrite int_add_ok by lia. cbn [lift bind].
    rewrite int_add_ok by lia. cbn [lift bind].
    unfold u64. rewrite Z.mod_small by lia.
    destruct (Z.ltb_spec (i + 32 + 40) len); [|lia].
    destruct (Hbody i nx) as (nx' & E); [lia..|]. rewrite E. cbn [lift bind].
    apply IH; [lia | | lia].
    rewrite <- Z.add_mod_idemp_l, Ha by lia. reflexivity.
Qed.

Lemma chorba_small_overflows (crc len : Z) (m : memory) :
  INT_MAX - 23 < len -> len <= region_size m Input ->
  chorba_small_nondestructive crc len m = Undefined.
Proof.
  intros Hlen Hin. pose proof INT_MAX_value as HM.
  unfold chorba_small_nondestructive.
  rewrite (stride32_loop_overflows _ len Hlen); [reflexivity | | lia | reflexivity | lia].
  intros i nx Hi Hi2. apply small_body_total; [lia|].
  change (region_size (set_region m Final (repeat 0 72)) Input)
    with (region_size m Input). lia.
Qed.

(** In [chorba_118960_nondestructive] the guard [i + 118960 + 512 < len] of
    the main pass overflows first: on a length above [INT_MAX - 79] it
    still holds at [i = 2^31 - 119552]. *)
Lemma guard_main_overflows (len i : Z) :
  INT_MAX < i + 119472 -> guard_main len i = Undefined.
Proof.
  intros Hi. unfold guard_main, int_add.
  destruct (Z.leb_spec (- INT_MAX - 1) (i + 118960)); cbn [andb lift bind];
    [|reflexivity].
  destruct (Z.leb_spec (i + 118960) INT_MAX); cbn [andb lift bind]; [|reflexivity].
  destruct (Z.leb_spec (- INT_MAX - 1) (i + 118960 + 512)); cbn [andb lift bind];
    [|reflexivity].
  destruct (Z.leb_spec (i + 118960 + 512) INT_MAX); cbn [andb lift bind];
    [lia | reflexivity].
Qed.

Lemma pass_loop_overflows (p : pass) (len : Z) :
  INT_MAX - 79 < len ->
  forall (fuel : nat) (m : memory) (i : Z) (nx : list Z),
    0 <= i -> i mod 256 = 0 ->
    INT_MAX - 119472 - i < 256 * Z.of_nat fuel ->
    len <= region_size m Input -> region_size m BitBuffer = 131072 ->
    List.length nx = 22%nat ->
    pass_loop fuel (guard_main len) p m i nx = Undefined.
Proof.
  intros Hlen. pose proof INT_MAX_value as HM.
  assert (Hover : forall fuel m i nx, INT_MAX < i + 119472 ->
                    pass_loop fuel (guard_main len) p m i nx = Undefined).
  { intros fuel m i nx Hi.
    destruct fuel; cbn [pass_loop]; rewrite guard_main_overflows by exact Hi;
      reflexivity. }
  induction fuel as [|fuel IH]; intros m i nx Hi Ha Hf Hin Hb Hnx.
  - apply Hover. lia.
  - destruct (Z.le_gt_cases (i + 119472) INT_MAX) as [Hle|Hgt];
      [|apply Hover; lia].
    assert (Hal : i + 119472 <= INT_MAX - 79)
      by (revert Ha; Z.div_mod_to_equations; lia).
    cbn [pass_loop]. rewrite guard_main_value by lia. cbn [bind].
    destruct (Z.ltb_spec i (len - 119472)); [|lia].
    destruct (pass_body_total p m i nx) as (m1 & nx1 & E & X & N1); [lia..|].
    rewrite E. cbn [bind]. rewrite int_add_ok by lia. cbn [lift bind].
    apply IH.
    + lia.
    + rewrite <- Z.add_mod_idemp_l, Ha by lia. reflexivity.
    + lia.
    + rewrite (region_size_ext m m1) by assumption. lia.
    + rewrite (region_size_ext m m1) by assumption. lia.
    + exact N1.
Qed.

Lemma chorba_118960_overflows (crc len : Z) (m : memory) :
  INT_MAX - 79 < len -> len <= region_size m Input ->
  region_size m BitBuffer = 131072 ->
  chorba_118960_nondestructive crc len m = Undefined.
Proof.
  intros Hlen Hin Hb. pose proof INT_MAX_value as HM.
  unfold chorba_118960_nondestructive.
  destruct (Z.ltb_spec len (118960 * 2 + 512)) as [Hs|Hs]; [lia|].
  destruct (pass_loop_total (guard_lt 118784) Prime 118784 118784 len) with
    (fuel := Z.to_nat len) (m := m) (i := 0)
    (nx := u64 (Z.shiftl crc 32) :: repeat 0 21)
    as (m1 & i1 & nx1 & E1 & X1 & Hi1 & Ha1 & HB1 & _ & N1);
    [reflexivity | lia | reflexivity | lia | lia | reflexivity | lia | lia | lia
     | reflexivity |].
  rewrite E1. cbn [bind].
  destruct (pass_loop_total (guard_lt 119040) Half 119040 119040 len) with
    (fuel := Z.to_nat len) (m := m1) (i := i1) (nx := nx1)
    as (m2 & i2 & nx2 & E2 & X2 & Hi2 & Ha2 & HB2 & _ & N2);
    [reflexivity | lia | reflexivity | lia | lia | exact Ha1 | lia
     | rewrite (region_size_ext m m1) by assumption; lia
     | rewrite (region_size_ext m m1) by assumption; lia | exact N1 |].
  rewrite E2. cbn [bind].
  assert (X02 : mem_ext m m2) by (eapply mem_ext_trans; eassumption).
  rewrite (pass_loop_overflows Full len Hlen); [reflexivity | lia | exact Ha2 | lia | | | exact N2].
  - rewrite (region_size_ext m m2) by assumption. lia.
  - rewrite (region_size_ext m m2) by assumption. lia.
Qed.

Lemma stride32_loop_short (body : Z -> nexts -> outcome nexts) (fuel : nat)
  (len : Z) (nx : nexts) :
  0 <= len <= 72 -> stride32_loop fuel body len 0 nx = Next (0, nx).
Proof.
  intros Hlen. pose proof INT_MAX_value as HM.
  destruct fuel; cbn [stride32_loop];
    (rewrite int_add_ok by lia; cbn [lift bind];
     rewrite int_add_ok by lia; cbn [lift bind];
     unfold u64; rewrite Z.mod_small by lia;
     destruct (Z.ltb_spec (0 + 32 + 40) len); [lia | reflexivity]).
Qed.

(** ** The loop on a machine whose [int] additions wrap *)

Lemma int_add_wrapped_exact (a b c : Z) :
  int_add a b = Some c -> int_add_wrapped a b = c.
Proof.
  pose proof INT_MAX_value as HM. unfold int_add, int_add_wrapped.
  destruct (Z.leb_spec (- INT_MAX - 1) (a + b)); cbn [andb]; [|discriminate].
  destruct (Z.leb_spec (a + b) INT_MAX); [|discriminate].
  intros E. injection E as <-. rewrite Z.mod_small by lia. lia.
Qed.

(** Where no addition overflows, the wrapping loop is the loop of the
    model: it is left at the same index. *)
Lemma stride32_exit_wrapped_agrees (body : Z -> nexts -> outcome nexts)
  (len : Z) (fuel : nat) :
  forall (i : Z) (nx : nexts) (i' : Z) (nx' : nexts),
    stride32_loop fuel body len i nx = Next (i', nx') ->
    stride32_exit_wrapped fuel len i = Some i'.
Proof.
  induction fuel as [|fuel IH]; intros i nx i' nx'; cbn [stride32_loop stride32_exit_wrapped].
  - destruct (int_add i 32) as [s|] eqn:E1; cbn [lift bind]; [|discriminate].
    destruct (int_add s 40) as [t|] eqn:E2; cbn [lift bind]; [|discriminate].
    rewrite (int_add_wrapped_exact _ _ _ E1), (int_add_wrapped_exact _ _ _ E2).
    destruct (u64 t <? len); [discriminate|]. intros E. injection E as <- _.
    reflexivity.
  - destruct (int_add i 32) as [s|] eqn:E1; cbn [lift bind]; [|discriminate].
    destruct (int_add s 40) as [t|] eqn:E2; cbn [lift bind]; [|discriminate].
    rewrite (int_add_wrapped_exact _ _ _ E1), (int_add_wrapped_exact _ _ _ E2).
    destruct (u64 t <? len).
    + destruct (body i nx) as [nx1| | |]; cbn [bind]; try discriminate.
      apply IH.
    + intros E. injection E as <- _. reflexivity.
Qed.

(** On a length between 2^31 + 9 and 2^63 the wrapping loop runs up to
    [i = 2^31 - 64], where [i + 32 + 40] wraps to a negative [int] that
    the comparison with the [size_t] [len] reads as a value near 2^64. *)
Lemma stride32_exit_wrapped_far (len : Z) :
  2 ^ 31 + 9 <= len <= 2 ^ 63 ->
  forall (fuel : nat) (i : Z),
    0 <= i <= 2 ^ 31 - 64 -> i mod 32 = 0 ->
    2 ^ 31 - 64 - i <= 32 * Z.of_nat fuel ->
    stride32_exit_wrapped fuel len i = Some (2 ^ 31 - 64).
Proof.
  intros Hlen.
  assert (Hlast : forall fuel,
             stride32_exit_wrapped fuel len (2 ^ 31 - 64) = Some (2 ^ 31 - 64)).
  { intros fuel.
    assert (E : u64 (int_add_wrapped (int_add_wrapped (2 ^ 31 - 64) 32) 40)
                = 2 ^ 64 - 2 ^ 31 + 8) by reflexivity.
    destruct fuel; cbn [stride32_exit_wrapped]; rewrite E;
      (destruct (Z.ltb_spec (2 ^ 64 - 2 ^ 31 + 8) len); [lia | reflexivity]). }
  induction fuel as [|fuel IH]; intros i Hi Ha Hf.
  - replace i with (2 ^ 31 - 64) by lia. apply Hlast.
  - destruct (Z.eq_dec i (2 ^ 31 - 64)) as [->|Hne]; [apply Hlast|].
    assert (Hb : i + 32 <= 2 ^ 31 - 64)
      by (revert Ha; Z.div_mod_to_equations; lia).
    cbn [stride32_exit_wrapped].
    assert (E1 : int_add_wrapped i 32 = i + 32)
      by (unfold int_add_wrapped; rewrite Z.mod_small by lia; lia).
    assert (E2 : int_add_wrapped (i + 32) 40 = i + 32 + 40)
      by (unfold int_add_wrapped; rewrite Z.mod_small by lia; lia).
    rewrite E1, E2. unfold u64. rewrite Z.mod_small by lia.
    destruct (Z.ltb_spec (i + 32 + 40) len); [|lia].
    apply IH; [lia | | lia].
    rewrite <- Z.add_mod_idemp_l, Ha by lia. reflexivity.
Qed.

(** [memcpy (final, input + i, len - i)] with more than 72 bytes left does
    not fit the array [final]. *)
Lemma fill_final_overrun (m : memory) (len i : Z) (nx : nexts) :
  region_size m Final = 72 -> 72 < len - i < 2 ^ 64 ->
  fill_final m len i nx = Undefined.
Proof.
  intros HF Hl. unfold fill_final, load.
  destruct (slice (region_bytes m Input) i (u64 (len - i))) as [bs|] eqn:E;
    cbn [lift bind]; [|reflexivity].
  apply slice_length in E. unfold u64 in E. rewrite Z.mod_small in E by lia.
  unfold store, blit. unfold region_size in HF.
  destruct (Z.leb_spec 0 0); [|lia]. cbn [andb].
  destruct (Z.leb_spec (0 + Z.of_nat (List.length bs))
                       (Z.of_nat (List.length (region_bytes m Final)))); [lia|].
  reflexivity.
Qed.

(** The steps of [chorba_small_nondestructive] after its loop: exit index,
    copy into [final], byte pass. *)
Lemma small_tail_steps (crc len : Z) (m : memory) :
  0 <= len <= INT_MAX - 23 -> len <= region_size m Input ->
  let m0 := set_region m Final (repeat 0 72) in
  exists i nx m1 fs,
    stride32_loop (Z.to_nat len) (small_body m0) len 0
                  (mkNexts (u64 (Z.shiftl crc 32)) 0 0 0 0) = Next (i, nx)
    /\ 0 <= i /\ 0 <= len - i <= 72
    /\ fill_final m0 len i nx = Next m1
    /\ load m1 Final 0 (u64 (len - i)) = Next fs
    /\ Z.of_nat (List.length fs) = len - i.
Proof.
  intros Hlen Hin m0. pose proof INT_MAX_value as HM.
  assert (I0 : region_size m0 Input = region_size m Input) by reflexivity.
  assert (F0 : region_size m0 Final = 72) by reflexivity.
  destruct (stride32_loop_exit (small_body m0) len ltac:(lia)) with
    (fuel := Z.to_nat len) (i := 0) (nx := mkNexts (u64 (Z.shiftl crc 32)) 0 0 0 0)
    as (i & nx & E & Hi & Hl & _).
  { intros j nx0 Hj Hj2. apply small_body_total; lia. }
  { lia. }
  { reflexivity. }
  { lia. }
  { lia. }
  exists i, nx.
  destruct (fill_final_total m0 len i nx) as (m1 & E1 & X1); [lia..|].
  replace (u64 (len - i)) with (len - i)
    by (unfold u64; rewrite Z.mod_small; lia).
  destruct (load_total m1 Final 0 (len - i)) as (fs & E2 & L2);
    [lia | lia | rewrite (region_size_ext m0 m1) by assumption; lia |].
  exists m1, fs. repeat apply conj; (assumption || lia).
Qed.

(** The same steps in the tail of [chorba_118960_nondestructive], entered
    with a multiple of 32 between 0 and [len], as the 256-byte passes
    leave. *)
Lemma large_tail_steps (len i0 : Z) (m : memory) :
  0 <= i0 <= len -> i0 mod 32 = 0 -> i0 + 72 <= INT_MAX ->
  len <= INT_MAX - 23 ->
  len <= region_size m Input -> region_size m BitBuffer = 131072 ->
  let m6 := set_region m Final (repeat 0 72) in
  exists i nx m7 fs c,
    stride32_loop (Z.to_nat len) (tail_body m6) len i0 (mkNexts 0 0 0 0 0)
    = Next (i, nx)
    /\ i0 <= i /\ 0 <= len - i <= 72
    /\ fill_final m6 len i nx = Next m7
    /\ load m7 Final 0 (u64 (len - i)) = Next fs
    /\ Z.of_nat (List.length fs) = len - i
    /\ tail_bytes m7 i 0 fs 0 = Next c.
Proof.
  intros Hi0 Ha0 Hm0 Hlen Hin Hb m6. pose proof INT_MAX_value as HM.
  assert (I6 : region_size m6 Input = region_size m Input) by reflexivity.
  assert (B6 : region_size m6 BitBuffer = 131072) by exact Hb.
  assert (F6 : region_size m6 Final = 72) by reflexivity.
  destruct (stride32_loop_exit (tail_body m6) len ltac:(lia)) with
    (fuel := Z.to_nat len) (i := i0) (nx := mkNexts 0 0 0 0 0)
    as (i & nx & E & Hi & Hl & _).
  { intros j nx0 Hj Hj2. apply tail_body_total; lia. }
  { lia. }
  { exact Ha0. }
  { lia. }
  { lia. }
  exists i, nx.
  destruct (fill_final_total m6 len i nx) as (m7 & E7 & X7); [lia..|].
  replace (u64 (len - i)) with (len - i)
    by (unfold u64; rewrite Z.mod_small; lia).
  destruct (load_total m7 Final 0 (len - i)) as (fs & E8 & L8);
    [lia | lia | rewrite (region_size_ext m6 m7) by assumption; lia |].
  destruct (tail_bytes_total fs m7 i 0 0) as (c & E9);
    [lia | lia | lia | rewrite (region_size_ext m6 m7) by assumption; lia |].
  exists m7, fs, c. repeat apply conj; (assumption || lia).
Qed.







(** ** Division by the generator *)

Lemma POLY_G_pos : 0 < POLY_G.
Proof. reflexivity. Qed.

Lemma POLY_G_log2 : Z.log2 POLY_G = 32.
Proof. reflexivity. Qed.

Lemma shifted_G_nonneg (j : Z) : 0 <= Z.shiftl POLY_G j.
Proof. apply Z.shiftl_nonneg. pose proof POLY_G_pos. lia. Qed.

Lemma lxor_nonneg (a b : Z) : 0 <= a -> 0 <= b -> 0 <= Z.lxor a b.
Proof. intros Ha Hb. apply Z.lxor_nonneg. tauto. Qed.

Lemma gf2_reduce_lxor (n : nat) (a b : Z) :
  gf2_reduce n (Z.lxor a b) = Z.lxor (gf2_reduce n a) (gf2_reduce n b).
Proof.
  revert a b. induction n as [|n IH]; intros a b; [reflexivity|].
  cbn [gf2_reduce]. rewrite Z.lxor_spec.
  destruct (Z.testbit a (Z.of_nat n + 32)), (Z.testbit b (Z.of_nat n + 32));
    cbn [xorb]; rewrite <- IH; f_equal.
  - rewrite lxor_swap4, Z.lxor_nilpotent, Z.lxor_0_r. reflexivity.
  - rewrite !Z.lxor_assoc. f_equal. apply Z.lxor_comm.
  - rewrite Z.lxor_assoc. reflexivity.
Qed.

Lemma high_bit_clear (a k : Z) : 0 <= a < 2 ^ k -> forall i, k <= i -> Z.testbit a i = false.
Proof.
  intros Ha i Hi.
  destruct (Z.eq_dec a 0) as [->|Hz]; [apply Z.testbit_0_l|].
  apply Z.bits_above_log2; [lia|].
  assert (Z.log2 a < k) by (apply Z.log2_lt_pow2; lia). lia.
Qed.

Lemma gf2_reduce_extra (k n : nat) (a : Z) :
  0 <= a < 2 ^ (Z.of_nat n + 32) -> gf2_reduce (k + n) a = gf2_reduce n a.
Proof.
  intros Ha. induction k as [|k IH]; [reflexivity|].
  cbn [Nat.add gf2_reduce].
  rewrite (high_bit_clear a (Z.of_nat n + 32)) by lia. exact IH.
Qed.

Lemma gf2_mod_reduce (n : nat) (a : Z) :
  0 <= a < 2 ^ (Z.of_nat n + 32) -> gf2_mod a = gf2_reduce n a.
Proof.
  intros Ha. unfold gf2_mod.
  set (n0 := Z.to_nat (Z.log2 a + 1 - 32)).
  destruct (Z.eq_dec a 0) as [E|E].
  - subst a. subst n0. cbn [Z.log2 Z.add Z.sub Z.to_nat Z.opp Z.pos_sub].
    change (Z.to_nat (0 + 1 - 32)) with 0%nat.
    rewrite <- (gf2_reduce_extra n 0 0); [f_equal; lia | cbn; lia].
  - assert (Hlog : Z.log2 a < Z.of_nat n + 32) by (apply Z.log2_lt_pow2; lia).
    assert (Hn : (n0 <= n)%nat) by (subst n0; lia).
    replace n with ((n - n0) + n0)%nat by lia.
    symmetry. apply gf2_reduce_extra. split; [lia|].
    pose proof (Z.log2_spec a ltac:(lia)) as [_ Hu].
    eapply Z.lt_le_trans; [exact Hu|].
    apply Z.pow_le_mono_r; [lia|]. subst n0. pose proof (Z.log2_nonneg a). lia.
Qed.

Lemma pow2_bound (a : Z) : 0 <= a -> exists n : nat, a < 2 ^ (Z.of_nat n + 32).
Proof.
  intros Ha. exists (Z.to_nat (Z.log2 a + 1)).
  destruct (Z.eq_dec a 0) as [->|E]; [apply Z.pow_pos_nonneg; lia|].
  pose proof (Z.log2_spec a ltac:(lia)) as [_ Hu].
  pose proof (Z.log2_nonneg a).
  eapply Z.lt_le_trans; [exact Hu|]. apply Z.pow_le_mono_r; lia.
Qed.

Lemma pow2_mono_nat (a : Z) (n m : nat) :
  a < 2 ^ (Z.of_nat n + 32) -> (n <= m)%nat -> a < 2 ^ (Z.of_nat m + 32).
Proof.
  intros Ha Hnm. eapply Z.lt_le_trans; [exact Ha|].
  apply Z.pow_le_mono_r; lia.
Qed.

(** Remainders add up. *)
Lemma gf2_mod_lxor (a b : Z) :
  0 <= a -> 0 <= b -> gf2_mod (Z.lxor a b) = Z.lxor (gf2_mod a) (gf2_mod b).
Proof.
  intros Ha Hb.
  destruct (pow2_bound a Ha) as (na & Hna).
  destruct (pow2_bound b Hb) as (nb & Hnb).
  set (n := Nat.max na nb).
  assert (Ha' : a < 2 ^ (Z.of_nat n + 32)) by (eapply pow2_mono_nat; [eassumption | lia]).
  assert (Hb' : b < 2 ^ (Z.of_nat n + 32)) by (eapply pow2_mono_nat; [eassumption | lia]).
  assert (Hx : 0 <= Z.lxor a b < 2 ^ (Z.of_nat n + 32)).
  { split; [apply lxor_nonneg; assumption|].
    destruct (Z.eq_dec (Z.lxor a b) 0) as [->|E]; [apply Z.pow_pos_nonneg; lia|].
    apply Z.log2_lt_pow2; [pose proof (lxor_nonneg a b Ha Hb); lia|].
    pose proof (Z.log2_lxor a b Ha Hb) as Hl.
    assert (Z.log2 a < Z.of_nat n + 32).
    { destruct (Z.eq_dec a 0) as [->|Ea]; [cbn; lia|]. apply Z.log2_lt_pow2; lia. }
    assert (Z.log2 b < Z.of_nat n + 32).
    { destruct (Z.eq_dec b 0) as [->|Eb]; [cbn; lia|]. apply Z.log2_lt_pow2; lia. }
    lia. }
  rewrite (gf2_mod_reduce n (Z.lxor a b)) by exact Hx.
  rewrite (gf2_mod_reduce n a), (gf2_mod_reduce n b) by lia.
  apply gf2_reduce_lxor.
Qed.

(** A polynomial of degree below 32 is its own remainder. *)
Lemma gf2_mod_small (a : Z) : 0 <= a < 2 ^ 32 -> gf2_mod a = a.
Proof. intros Ha. rewrite (gf2_mod_reduce 0 a); [reflexivity | exact Ha]. Qed.

(** The multiples G * x^j leave no remainder. *)
Lemma gf2_mod_shifted_G (j : Z) : 0 <= j -> gf2_mod (Z.shiftl POLY_G j) = 0.
Proof.
  intros Hj.
  assert (Hb : Z.testbit (Z.shiftl POLY_G j) (j + 32) = true).
  { rewrite Z.shiftl_spec by lia. replace (j + 32 - j) with 32 by lia. reflexivity. }
  rewrite (gf2_mod_reduce (S (Z.to_nat j))).
  - cbn [gf2_reduce]. rewrite Z2Nat.id by lia. rewrite Hb.
    rewrite Z.lxor_nilpotent.
    clear. induction (Z.to_nat j) as [|n IH]; [reflexivity|].
    cbn [gf2_reduce]. rewrite Z.testbit_0_l. exact IH.
  - split; [apply shifted_G_nonneg|].
    apply Z.log2_lt_pow2.
    + pose proof POLY_G_pos.
      rewrite Z.shiftl_mul_pow2 by lia.
      apply Z.mul_pos_pos; [lia | apply Z.pow_pos_nonneg; lia].
    + rewrite Z.log2_shiftl by (pose proof POLY_G_pos; lia).
      rewrite POLY_G_log2. lia.
Qed.

Lemma gf2_reduce_nonneg (n : nat) (a : Z) : 0 <= a -> 0 <= gf2_reduce n a.
Proof.
  revert a. induction n as [|n IH]; intros a Ha; [exact Ha|].
  cbn [gf2_reduce]. apply IH.
  destruct (Z.testbit a (Z.of_nat n + 32)); [|exact Ha].
  apply lxor_nonneg; [exact Ha | apply shifted_G_nonneg].
Qed.

(** Reducing before a multiplication by x^k does not change the
    remainder of the product. *)
Lemma gf2_mod_shift_reduce (n : nat) (a k : Z) :
  0 <= a -> 0 <= k ->
  gf2_mod (Z.shiftl (gf2_reduce n a) k) = gf2_mod (Z.shiftl a k).
Proof.
  intros Ha Hk. revert a Ha. induction n as [|n IH]; intros a Ha; [reflexivity|].
  cbn [gf2_reduce].
  destruct (Z.testbit a (Z.of_nat n + 32)); [|apply IH, Ha].
  rewrite IH by (apply lxor_nonneg; [exact Ha | apply shifted_G_nonneg]).
  rewrite Z.shiftl_lxor, Z.shiftl_shiftl by lia.
  rewrite gf2_mod_lxor.
  - rewrite gf2_mod_shifted_G by lia. apply Z.lxor_0_r.
  - apply Z.shiftl_nonneg, Ha.
  - apply shifted_G_nonneg.
Qed.

Lemma gf2_mod_shift_mod (a k : Z) :
  0 <= a -> 0 <= k ->
  gf2_mod (Z.shiftl (gf2_mod a) k) = gf2_mod (Z.shiftl a k).
Proof. intros Ha Hk. unfold gf2_mod at 2. apply gf2_mod_shift_reduce; assumption. Qed.

(** The remainder has degree below 32. *)
Lemma gf2_reduce_range (n : nat) (a : Z) :
  0 <= a < 2 ^ (Z.of_nat n + 32) -> 0 <= gf2_reduce n a < 2 ^ 32.
Proof.
  revert a. induction n as [|n IH]; intros a Ha; [exact Ha|].
  cbn [gf2_reduce]. apply IH.
  assert (Hclear : forall y, 0 <= y ->
            (forall i, Z.of_nat n + 32 <= i -> Z.testbit y i = false) ->
            y < 2 ^ (Z.of_nat n + 32)).
  { intros y Hy Hbits.
    destruct (Z.eq_dec y 0) as [->|E]; [apply Z.pow_pos_nonneg; lia|].
    apply Z.log2_lt_pow2; [lia|].
    destruct (Z.lt_ge_cases (Z.log2 y) (Z.of_nat n + 32)) as [L|L]; [exact L|].
    pose proof (Z.bit_log2 y ltac:(lia)) as Hb.
    rewrite Hbits in Hb by exact L. discriminate. }
  destruct (Z.testbit a (Z.of_nat n + 32)) eqn:Eb.
  - split; [apply lxor_nonneg; [lia | apply shifted_G_nonneg]|].
    apply Hclear; [apply lxor_nonneg; [lia | apply shifted_G_nonneg]|].
    intros i Hi. rewrite Z.lxor_spec, Z.shiftl_spec by lia.
    destruct (Z.eq_dec i (Z.of_nat n + 32)) as [->|Ne].
    + rewrite Eb. replace (Z.of_nat n + 32 - Z.of_nat n) with 32 by lia. reflexivity.
    + rewrite (high_bit_clear a (Z.of_nat (S n) + 32)) by lia.
      rewrite (high_bit_clear POLY_G 33) by (cbn; lia). reflexivity.
  - split; [lia|]. apply Hclear; [lia|].
    intros i Hi. destruct (Z.eq_dec i (Z.of_nat n + 32)) as [->|Ne]; [exact Eb|].
    apply (high_bit_clear a (Z.of_nat (S n) + 32)); lia.
Qed.

Lemma gf2_mod_range (a : Z) : 0 <= a -> 0 <= gf2_mod a < 2 ^ 32.
Proof.
  intros Ha. destruct (pow2_bound a Ha) as (n & Hn).
  rewrite (gf2_mod_reduce n a) by lia. apply gf2_reduce_range. lia.
Qed.

(** ** The byte rule computes the remainder *)

Lemma msg_poly_nonneg (bs : list Z) : Forall is_byte bs -> 0 <= msg_poly bs.
Proof.
  unfold msg_poly. intros Hb.
  assert (G : forall acc, 0 <= acc ->
            0 <= fold_left (fun acc b => Z.lor (Z.shiftl acc 8) b) bs acc).
  { induction Hb as [|b bs Hb1 Hb2 IH]; intros acc Hacc; [exact Hacc|].
    cbn [fold_left]. apply IH. apply Z.lor_nonneg. split.
    - apply Z.shiftl_nonneg, Hacc.
    - unfold is_byte in Hb1. lia. }
  apply G. lia.
Qed.

Lemma shl8_split (x : Z) :
  0 <= x < 2 ^ 32 ->
  Z.shiftl x 8 = Z.lxor (Z.shiftl (Z.shiftr x 24) 32) (u32 (Z.shiftl x 8)).
Proof. intros Hx. unfold u32. bb. Qed.

Lemma top_byte_range (x : Z) : 0 <= x < 2 ^ 32 -> 0 <= Z.shiftr x 24 < 256.
Proof.
  intros Hx. rewrite Z.shiftr_div_pow2 by lia. split.
  - apply Z.div_pos; lia.
  - apply Z.div_lt_upper_bound; lia.
Qed.

(** One step on a zero byte multiplies the register by x^8 modulo G. *)
Lemma zstep_poly (x : Z) : 0 <= x < 2 ^ 32 -> zstep x = gf2_mod (Z.shiftl x 8).
Proof.
  intros Hx. pose proof (top_byte_range x Hx) as Hh.
  unfold zstep, crc_update.
  rewrite Z.lxor_0_r, (land_255_byte _ Hh).
  pose proof (forallb_byte _ (Z.shiftr x 24) crctab_row0_check_ok Hh) as E.
  cbn beta in E. apply Z.eqb_eq in E. rewrite E.
  rewrite (shl8_split x Hx) at 2.
  rewrite gf2_mod_lxor.
  - rewrite (gf2_mod_small (u32 _)) by (unfold u32; apply Z.mod_pos_bound; lia).
    apply Z.lxor_comm.
  - apply Z.shiftl_nonneg. lia.
  - unfold u32. apply Z.mod_pos_bound. lia.
Qed.

Lemma crc_ref_range (bs : list Z) : 0 <= crc_ref bs < 2 ^ 32.
Proof. unfold crc_ref. apply fold_crc_update_range. lia. Qed.

Lemma shl24_range (b : Z) : 0 <= b < 256 -> 0 <= Z.shiftl b 24 < 2 ^ 32.
Proof. intros Hb. rewrite Z.shiftl_mul_pow2 by lia. lia. Qed.

Lemma crc_ref_is_crc_poly (bs : list Z) :
  Forall is_byte bs -> crc_ref bs = crc_poly bs.
Proof.
  induction bs as [|b bs IH] using rev_ind; intros Hb.
  - reflexivity.
  - apply Forall_app in Hb as [Hbs Hb1].
    assert (Hb' : 0 <= b < 256) by (inversion Hb1; assumption).
    specialize (IH Hbs). pose proof (msg_poly_nonneg bs Hbs) as Hm.
    pose proof (crc_ref_range bs) as Hr.
    unfold crc_ref in *. rewrite fold_left_app. cbn [fold_left].
    rewrite update_as_zstep, IH.
    rewrite zstep_poly
      by (apply lxor_range32; [rewrite <- IH; exact Hr | apply shl24_range, Hb']).
    unfold crc_poly, msg_poly. rewrite fold_left_app. cbn [fold_left].
    fold (msg_poly bs).
    rewrite lor_shl8 by exact Hb'.
    rewrite !Z.shiftl_lxor, !Z.shiftl_shiftl by lia.
    rewrite !gf2_mod_lxor.
    + f_equal. unfold crc_poly.
      rewrite gf2_mod_shift_mod by (try apply Z.shiftl_nonneg; lia).
      rewrite Z.shiftl_shiftl by lia. reflexivity.
    + apply Z.shiftl_nonneg. lia.
    + apply Z.shiftl_nonneg. lia.
    + apply Z.shiftl_nonneg. unfold crc_poly.
      apply gf2_mod_range. apply Z.shiftl_nonneg, Hm.
    + apply Z.shiftl_nonneg. lia.
Qed.

(** X1. The table-driven byte rule computes the polynomial remainder.  For
    every stream of bytes the byte-by-byte loop, started from register 0,
    and [cksum_slice8] both leave in the low 32 bits of the register the
    remainder (message * x^32) mod G, where the message is read as a
    polynomial over GF(2) whose highest coefficient is the most
    significant bit of the first byte; [cksum_slice8] also returns the
    byte count. *)
Theorem slice8_computes_polynomial_remainder (data : list Z) :
  Forall is_byte data -> Z.of_nat (List.length data) < 2 ^ 64 ->
  (crc_bytes_tail 0 data) mod 2 ^ 32 = crc_poly data
  /\ exists c,
       cksum_slice8 (fopen_bytes data)
       = Some (CksumDone true c (Z.of_nat (List.length data)))
       /\ c mod 2 ^ 32 = crc_poly data.
Proof.
  intros Hb Hl. split.
  - unfold crc_bytes_tail. rewrite fold_crc_byte_low by exact Hb.
    apply (crc_ref_is_crc_poly data Hb).
  - destruct (cksum_slice8_spec data Hb Hl) as (c & E1 & E2).
    exists c. split; [exact E1|]. rewrite E2. apply crc_ref_is_crc_poly, Hb.
Qed.

Lemma slice8_computes_polynomial_remainder_witness :
  (crc_bytes_tail 0 digits_1_to_9) mod 2 ^ 32 = crc_poly digits_1_to_9
  /\ exists c,
       cksum_slice8 (fopen_bytes digits_1_to_9)
       = Some (CksumDone true c (Z.of_nat (List.length digits_1_to_9)))
       /\ c mod 2 ^ 32 = crc_poly digits_1_to_9.
Proof.
  apply (slice8_computes_polynomial_remainder digits_1_to_9).
  - unfold digits_1_to_9, is_byte.
    repeat (apply Forall_cons; [lia|]). apply Forall_nil.
  - vm_compute. reflexivity.
Defined.

(** X2. The checksum [crc_sum_stream] stores is a polynomial remainder: for
    a stream of bytes of length l it is the 32-bit complement of
    (M * x^32) mod G, where M is the message polynomial of the data
    followed by the bytes of l, least significant first and without
    high-order zero bytes; that remainder fits 32 bits. *)
Theorem checksum_is_polynomial_remainder (machine : cpu) (stack data : list Z) :
  Forall is_byte data -> Z.of_nat (List.length data) < 2 ^ 64 ->
  let l := Z.of_nat (List.length data) in
  snd (crc_sum_stream machine stack None (fopen_bytes data))
  = Some (SumOk (complement32 (crc_poly (data ++ length_bytes_le 8 l))) l)
  /\ 0 <= crc_poly (data ++ length_bytes_le 8 l) < 2 ^ 32.
Proof.
  intros Hb Hl l.
  assert (Hall : Forall is_byte (data ++ length_bytes_le 8 l)).
  { apply Forall_app. split; [exact Hb|].
    apply (length_bytes_le_minimal 8 l). subst l. lia. }
  split.
  - rewrite crc_sum_stream_spec by assumption. cbn [snd].
    fold l. rewrite (crc_ref_is_crc_poly _ Hall). reflexivity.
  - rewrite <- (crc_ref_is_crc_poly _ Hall). apply crc_ref_range.
Qed.

Lemma checksum_is_polynomial_remainder_witness :
  let l := Z.of_nat (List.length digits_1_to_9) in
  snd (crc_sum_stream all_features [] None (fopen_bytes digits_1_to_9))
  = Some (SumOk (complement32 (crc_poly (digits_1_to_9 ++ length_bytes_le 8 l))) l)
  /\ 0 <= crc_poly (digits_1_to_9 ++ length_bytes_le 8 l) < 2 ^ 32.
Proof.
  apply (checksum_is_polynomial_remainder all_features [] digits_1_to_9).
  - unfold digits_1_to_9, is_byte.
    repeat (apply Forall_cons; [lia|]). apply Forall_nil.
  - vm_compute. reflexivity.
Defined.

(** ** Sources that fail *)

Lemma slice8_loop_failing (fuel : nat) (data : list Z) (e : bool) (crc len : Z) :
  Forall is_byte data -> (List.length data < fuel)%nat -> 0 <= len ->
  len + Z.of_nat (List.length data) < 2 ^ 64 ->
  exists c,
    slice8_loop fuel (mkFILE data true false e) crc len
    = Some (CksumDone false c (len + Z.of_nat (List.length data)))
    /\ c mod 2 ^ 32 = fold_left crc_update data (crc mod 2 ^ 32).
Proof.
  revert data e crc len.
  induction fuel as [|fuel IH]; intros data e crc len Hb Hf Hl Hs; [lia|].
  cbn [slice8_loop]. unfold fread. cbn [f_data f_bad f_eof f_err].
  pose proof BUFLEN_value as HB.
  destruct (Nat.ltb_spec (List.length data) (Z.to_nat BUFLEN)) as [Hk|Hk].
  - rewrite firstn_all2 by lia. rewrite skipn_all2 by lia.
    cbn [ferror feof f_eof f_err orb negb].
    rewrite orb_true_r. cbn [negb].
    destruct (Z.eqb_spec (Z.of_nat (List.length data)) 0) as [E|E].
    + exists crc. split; [do 2 f_equal; lia|].
      destruct data; [reflexivity | cbn in E; lia].
    + rewrite add_length_spec by lia.
      destruct (Z.ltb_spec (len + Z.of_nat (List.length data)) (2 ^ 64)) as [H|H];
        [|lia].
      destruct (IH [] true (slice8_block crc data)
                   (len + Z.of_nat (List.length data))) as (c & E1 & E2).
      * constructor.
      * cbn. lia.
      * lia.
      * cbn. lia.
      * exists c. split.
        -- rewrite E1. cbn [List.length]. do 2 f_equal. lia.
        -- rewrite E2. cbn [fold_left]. apply slice8_block_low, Hb.
  - assert (Hlen : List.length (firstn (Z.to_nat BUFLEN) data) = Z.to_nat BUFLEN)
      by (apply firstn_length_le; lia).
    rewrite Hlen. cbn [ferror feof f_eof f_err].
    destruct (Z.eqb_spec (Z.of_nat (Z.to_nat BUFLEN)) 0) as [E|E]; [lia|].
    assert (Hd : Z.of_nat (List.length data)
                 = Z.of_nat (Z.to_nat BUFLEN)
                   + Z.of_nat (List.length (skipn (Z.to_nat BUFLEN) data))).
    { rewrite length_skipn. lia. }
    rewrite add_length_spec by lia.
    destruct (Z.ltb_spec (len + Z.of_nat (Z.to_nat BUFLEN)) (2 ^ 64)) as [H|H];
      [|lia].
    destruct (IH (skipn (Z.to_nat BUFLEN) data) e
                 (slice8_block crc (firstn (Z.to_nat BUFLEN) data))
                 (len + Z.of_nat (Z.to_nat BUFLEN))) as (c & E1 & E2).
    + apply Forall_skipn, Hb.
    + rewrite length_skipn. lia.
    + lia.
    + lia.
    + exists c. split.
      * rewrite E1. do 2 f_equal. lia.
      * rewrite E2, slice8_block_low by (apply Forall_firstn, Hb).
        rewrite <- fold_left_app, firstn_skipn. reflexivity.
Qed.

(** X3. A read error is reported, never a checksum.  When the source fails
    after delivering its data, [cksum_slice8] still consumes every byte
    delivered (register and count are those of the data) but returns
    false, and [crc_sum_stream] returns -1 without storing a checksum. *)
Theorem read_error_is_reported (machine : cpu) (stack data : list Z) :
  Forall is_byte data -> Z.of_nat (List.length data) < 2 ^ 64 ->
  (exists c,
     cksum_slice8 (mkFILE data true false false)
     = Some (CksumDone false c (Z.of_nat (List.length data)))
     /\ c mod 2 ^ 32 = crc_ref data)
  /\ snd (crc_sum_stream machine stack None (mkFILE data true false false))
     = Some SumFail.
Proof.
  intros Hb Hl.
  destruct (slice8_loop_failing (S (List.length data)) data false 0 0 Hb)
    as (c & E1 & E2); [lia | lia | lia |].
  split.
  - exists c. split; [exact E1 | exact E2].
  - unfold crc_sum_stream. cbn [snd call_backend].
    unfold cksum_slice8. cbn [f_data]. rewrite E1. reflexivity.
Qed.

Lemma read_error_is_reported_witness :
  (exists c,
     cksum_slice8 (mkFILE digits_1_to_9 true false false)
     = Some (CksumDone false c (Z.of_nat (List.length digits_1_to_9)))
     /\ c mod 2 ^ 32 = crc_ref digits_1_to_9)
  /\ snd (crc_sum_stream all_features [] None (mkFILE digits_1_to_9 true false false))
     = Some SumFail.
Proof.
  apply (read_error_is_reported all_features [] digits_1_to_9).
  - unfold digits_1_to_9, is_byte.
    repeat (apply Forall_cons; [lia|]). apply Forall_nil.
  - vm_compute. reflexivity.
Defined.

(** ** Zero bytes and linearity *)

Lemma zstep_zero : zstep 0 = 0.
Proof. vm_compute. reflexivity. Qed.

Lemma crc_update_zeros (n : nat) :
  fold_left crc_update (repeat 0 n) 0 = 0.
Proof.
  induction n as [|n IH]; [reflexivity|].
  cbn [repeat fold_left]. change (crc_update 0 0) with (zstep 0).
  rewrite zstep_zero. exact IH.
Qed.

Lemma lxor_byte (a b : Z) :
  0 <= a < 256 -> 0 <= b < 256 -> 0 <= Z.lxor a b < 256.
Proof.
  intros Ha Hb.
  assert (E : Z.lxor a b = Z.land (Z.lxor a b) 0xFF).
  { rewrite <- (land_255_byte a), <- (land_255_byte b) by assumption. bb. }
  rewrite E. apply land_255_range.
Qed.

Lemma crctab_rows_additive (k : nat) (a b : Z) :
  (k < 8)%nat -> 0 <= a < 256 -> 0 <= b < 256 ->
  crctab_at k (Z.lxor a b) = Z.lxor (crctab_at k a) (crctab_at k b).
Proof.
  intros Hk Ha Hb.
  pose proof (lxor_byte a b Ha Hb) as Hab.
  induction k as [|k IH].
  - apply crctab0_additive; assumption.
  - rewrite <- !crctab_chain by (assumption || lia).
    rewrite IH by lia. apply zstep_additive.
Qed.

Lemma zeros_bytes (n : nat) : Forall is_byte (repeat 0 n).
Proof.
  apply Forall_forall. intros x Hx. apply repeat_spec in Hx. subst x.
  unfold is_byte. lia.
Qed.

Lemma crc_ref_leading_zeros (n : nat) (data : list Z) :
  crc_ref (repeat 0 n ++ data) = crc_ref data.
Proof. unfold crc_ref. rewrite fold_left_app, crc_update_zeros. reflexivity. Qed.

(** X4. Leading zero bytes are invisible to the running CRC: with the
    register started at 0, [cksum_slice8] leaves the same low 32 bits for
    a stream and for the same stream preceded by any number of zero bytes;
    only the returned byte counts differ. *)
Theorem leading_zero_bytes_are_invisible (n : nat) (data : list Z) :
  Forall is_byte data -> Z.of_nat n + Z.of_nat (List.length data) < 2 ^ 64 ->
  crc_ref (repeat 0 n ++ data) = crc_ref data
  /\ exists c c',
       cksum_slice8 (fopen_bytes (repeat 0 n ++ data))
       = Some (CksumDone true c (Z.of_nat n + Z.of_nat (List.length data)))
       /\ cksum_slice8 (fopen_bytes data)
          = Some (CksumDone true c' (Z.of_nat (List.length data)))
       /\ c mod 2 ^ 32 = c' mod 2 ^ 32.
Proof.
  intros Hb Hl. split; [apply crc_ref_leading_zeros|].
  assert (Hall : Forall is_byte (repeat 0 n ++ data))
    by (apply Forall_app; split; [apply zeros_bytes | exact Hb]).
  assert (Hlen : Z.of_nat (List.length (repeat 0 n ++ data))
                 = Z.of_nat n + Z.of_nat (List.length data))
    by (rewrite length_app, repeat_length; lia).
  destruct (cksum_slice8_spec (repeat 0 n ++ data) Hall) as (c & E1 & E2); [lia|].
  destruct (cksum_slice8_spec data Hb) as (c' & E1' & E2'); [lia|].
  exists c, c'. rewrite <- Hlen. split; [exact E1|]. split; [exact E1'|].
  rewrite E2, E2'. apply crc_ref_leading_zeros.
Qed.

Lemma leading_zero_bytes_are_invisible_witness :
  crc_ref (repeat 0 3 ++ digits_1_to_9) = crc_ref digits_1_to_9
  /\ exists c c',
       cksum_slice8 (fopen_bytes (repeat 0 3 ++ digits_1_to_9))
       = Some (CksumDone true c
                 (Z.of_nat 3 + Z.of_nat (List.length digits_1_to_9)))
       /\ cksum_slice8 (fopen_bytes digits_1_to_9)
          = Some (CksumDone true c' (Z.of_nat (List.length digits_1_to_9)))
       /\ c mod 2 ^ 32 = c' mod 2 ^ 32.
Proof.
  apply (leading_zero_bytes_are_invisible 3 digits_1_to_9).
  - unfold digits_1_to_9, is_byte.
    repeat (apply Forall_cons; [lia|]). apply Forall_nil.
  - vm_compute. reflexivity.
Defined.

(** X5. Every row of the generated table is linear over GF(2): for each of
    the eight rows, the entry of the xor of two bytes is the xor of their
    entries, and the entry of byte 0 is 0. *)
Theorem table_rows_are_linear (k : nat) (a b : Z) :
  (k < 8)%nat -> 0 <= a < 256 -> 0 <= b < 256 ->
  crctab_at k (Z.lxor a b) = Z.lxor (crctab_at k a) (crctab_at k b)
  /\ crctab_at k 0 = 0.
Proof.
  intros Hk Ha Hb. split; [apply crctab_rows_additive; assumption|].
  pose proof (crctab_rows_additive k 0 0 Hk ltac:(lia) ltac:(lia)) as E.
  rewrite !Z.lxor_nilpotent in E. exact E.
Qed.

Lemma table_rows_are_linear_witness :
  crctab_at 5 (Z.lxor 3 200) = Z.lxor (crctab_at 5 3) (crctab_at 5 200)
  /\ crctab_at 5 0 = 0.
Proof. apply (table_rows_are_linear 5 3 200); lia. Defined.

(** ** Streams shorter than two registers *)

Lemma fread_all (n : Z) (data : list Z) (eof : bool) :
  (List.length data < Z.to_nat n)%nat ->
  fread n (mkFILE data false eof false) = (data, mkFILE [] false true false).
Proof.
  intros H. unfold fread. cbn [f_data f_bad f_eof f_err].
  destruct (Nat.ltb_spec (List.length data) (Z.to_nat n)) as [_|]; [|lia].
  rewrite firstn_all2, skipn_all2 by lia.
  cbn [negb orb]. rewrite orb_true_r. reflexivity.
Qed.

Lemma blit_prefix (buf bs : list Z) :
  (List.length bs <= List.length buf)%nat ->
  blit buf 0 bs = Some (bs ++ skipn (List.length bs) buf).
Proof.
  intros H. unfold blit.
  destruct (Z.leb_spec 0 0); [|lia].
  destruct (Z.leb_spec (0 + Z.of_nat (List.length bs)) (Z.of_nat (List.length buf)));
    [|lia].
  reflexivity.
Qed.

Lemma blit_nothing (buf : list Z) (off : Z) :
  0 <= off <= Z.of_nat (List.length buf) -> blit buf off [] = Some buf.
Proof.
  intros H. unfold blit. cbn [List.length].
  destruct (Z.leb_spec 0 off); [|lia].
  destruct (Z.leb_spec (off + Z.of_nat 0) (Z.of_nat (List.length buf))); [|lia].
  cbn [andb app]. rewrite Nat.add_0_r, firstn_skipn. reflexivity.
Qed.

Lemma slice_prefix (bs rest : list Z) :
  slice (bs ++ rest) 0 (Z.of_nat (List.length bs)) = Some bs.
Proof.
  unfold slice.
  destruct (Z.leb_spec 0 0); [|lia].
  destruct (Z.leb_spec 0 (Z.of_nat (List.length bs))); [|lia].
  destruct (Z.leb_spec (0 + Z.of_nat (List.length bs))
                       (Z.of_nat (List.length (bs ++ rest)))) as [_|Hlen].
  - cbn [andb Z.to_nat skipn]. rewrite Nat2Z.id.
    rewrite firstn_app, firstn_all, Nat.sub_diag. cbn [firstn].
    rewrite app_nil_r. reflexivity.
  - rewrite length_app in Hlen. lia.
Qed.

Lemma simd_backend_short (c : simd_cfg) (nch : nat) (main : step) (K1 : vec)
  (fuel : nat) (buf0 data : list Z) :
  (List.length data < Z.to_nat (cfg_half c))%nat ->
  Z.of_nat (List.length data) < 2 * cfg_vbytes c ->
  (List.length data <= List.length buf0)%nat ->
  0 <= cfg_vbytes c * (cfg_words c / 2) <= Z.of_nat (List.length buf0) ->
  0 < cfg_words c ->
  Z.of_nat (List.length data) < 2 ^ 64 ->
  (forall st, sd_bytes_read st < 2 * cfg_vbytes c -> main st = Next st) ->
  simd_backend c nch main K1 fuel buf0 (fopen_bytes data)
  = Next (CksumDone true (crc_bytes_tail 0 data) (Z.of_nat (List.length data))).
Proof.
  intros Hhalf Hshort Hbuf Hoff Hw H64 Hmain.
  unfold simd_backend, simd_init, fopen_bytes.
  rewrite fread_all by exact Hhalf.
  rewrite blit_prefix by exact Hbuf. cbn [lift bind].
  rewrite (fread_all (cfg_half c) [] true) by (cbn [List.length]; lia).
  rewrite blit_nothing
    by (rewrite length_app, length_skipn; lia).
  cbn [lift bind sd_bytes_read sd_length sd_fp sd_crc List.length].
  change (Z.of_nat 0) with 0.
  assert (Eu : u64 (Z.of_nat (List.length data) + 0) = Z.of_nat (List.length data))
    by (unfold u64; rewrite Z.add_0_r, Z.mod_small; lia).
  rewrite !Eu.
  destruct (Z.ltb_spec 0 (Z.of_nat (List.length data))) as [Hpos|Hzero].
  - rewrite add_length_spec by lia. cbn [Z.add].
    destruct (Z.ltb_spec (Z.of_nat (List.length data)) (2 ^ 64)) as [_|]; [|lia].
    rewrite Hmain by (cbn [set_length sd_bytes_read]; exact Hshort).
    cbn [bind]. unfold single_fold. cbn [set_length sd_bytes_read].
    destruct (Z.ltb_spec (Z.of_nat (List.length data)) (2 * cfg_vbytes c)) as [_|];
      [|lia].
    cbn [bind]. unfold simd_tail, set_length.
    cbn [sd_data_offset sd_buf sd_bytes_read sd_crc].
    rewrite Z.mod_0_l by lia.
    rewrite slice_prefix. cbn [lift bind].
    unfold set_bytes_read, set_crc.
    cbn [sd_fp sd_crc sd_length ferror f_err negb].
    reflexivity.
  - assert (E : data = []) by (destruct data; [reflexivity | cbn in Hzero; lia]).
    subst data. reflexivity.
Qed.

Lemma crc_bytes_tail_low (data : list Z) :
  Forall is_byte data -> (crc_bytes_tail 0 data) mod 2 ^ 32 = crc_ref data.
Proof.
  intros Hb. unfold crc_bytes_tail, crc_ref.
  rewrite fold_crc_byte_low by exact Hb. reflexivity.
Qed.

Lemma pclmul_main_skips (fuel : nat) (st : simd) :
  sd_bytes_read st < 2 * cfg_vbytes pclmul_cfg -> pclmul_main fuel st = Next st.
Proof.
  intros H. unfold pclmul_main. change (2 * cfg_vbytes pclmul_cfg) with 32 in H.
  destruct (Z.ltb_spec (sd_bytes_read st) (16 * 8)); [reflexivity | lia].
Qed.

Lemma avx2_main_skips (fuel : nat) (st : simd) :
  sd_bytes_read st < 2 * cfg_vbytes avx2_cfg -> avx2_main fuel st = Next st.
Proof.
  intros H. unfold avx2_main. change (2 * cfg_vbytes avx2_cfg) with 64 in H.
  destruct (Z.ltb_spec (sd_bytes_read st) (32 * 2)); [reflexivity | lia].
Qed.

Lemma avx512_main_skips (fuel : nat) (st : simd) :
  sd_bytes_read st < 2 * cfg_vbytes avx512_cfg -> avx512_main fuel st = Next st.
Proof.
  intros H. unfold avx512_main. change (2 * cfg_vbytes avx512_cfg) with 128 in H.
  destruct (Z.ltb_spec (sd_bytes_read st) (16 * 8 * 4)); [reflexivity | lia].
Qed.


Lemma sum_of_done (c l : Z) :
  u32 (Z.land (Z.lnot (length_fold 8 c l)) 0xFFFFFFFF)
  = complement32 (fold_left crc_update (length_bytes_le 8 l) (c mod 2 ^ 32)).
Proof. rewrite complement_low, length_fold_low. reflexivity. Qed.

Lemma sum_stream_of_backend (machine : cpu) (stack : list Z) (b : backend)
  (stream : FILE) (c l : Z) :
  call_backend b stack stream = Some (CksumDone true c l) ->
  snd (crc_sum_stream machine stack (Some b) stream)
  = Some (SumOk (complement32
                   (fold_left crc_update (length_bytes_le 8 l) (c mod 2 ^ 32))) l).
Proof.
  intros E. unfold crc_sum_stream. cbn [snd]. rewrite E.
  cbv zeta. rewrite sum_of_done. reflexivity.
Qed.

Lemma sum_stream_reference (machine : cpu) (stack data : list Z) :
  Forall is_byte data -> Z.of_nat (List.length data) < 2 ^ 64 ->
  snd (crc_sum_stream machine stack None (fopen_bytes data))
  = Some (SumOk (complement32
                   (fold_left crc_update
                      (length_bytes_le 8 (Z.of_nat (List.length data)))
                      (crc_ref data)))
                (Z.of_nat (List.length data))).
Proof.
  intros Hb Hl. rewrite crc_sum_stream_spec by assumption. cbn [snd].
  unfold crc_ref. rewrite fold_left_app. reflexivity.
Qed.


(** X6. Streams shorter than two registers (32 bytes) never reach the
    folding code of [cksum_pclmul]: for every such stream of bytes the backend
    returns the byte count and the register of the byte-by-byte rule, whose
    low 32 bits are the reference CRC, and [crc_sum_stream] run with this
    backend stores the same checksum as with [cksum_slice8].  The bound is
    sharp: there is a stream of 32 bytes on which the register returned
    differs from the reference CRC. *)
Theorem pclmul_short_streams (machine : cpu) (buf0 data : list Z) :
  Z.of_nat (List.length buf0) = 65536 ->
  Forall is_byte data -> Z.of_nat (List.length data) < 32 ->
  cksum_pclmul buf0 (fopen_bytes data)
  = Some (CksumDone true (crc_bytes_tail 0 data) (Z.of_nat (List.length data)))
  /\ (crc_bytes_tail 0 data) mod 2 ^ 32 = crc_ref data
  /\ snd (crc_sum_stream machine buf0 (Some Cksum_pclmul) (fopen_bytes data))
     = snd (crc_sum_stream machine buf0 None (fopen_bytes data))
  /\ (exists long c,
        Z.of_nat (List.length long) = 32 /\ Forall is_byte long
        /\ cksum_pclmul (repeat 0 (Z.to_nat 65536)) (fopen_bytes long)
           = Some (CksumDone true c 32)
        /\ c mod 2 ^ 32 <> crc_ref long).
Proof.
  intros Hbuf Hb Hl.
  assert (E : cksum_pclmul buf0 (fopen_bytes data)
              = Some (CksumDone true (crc_bytes_tail 0 data)
                                (Z.of_nat (List.length data)))).
  { unfold cksum_pclmul. rewrite simd_backend_short; [reflexivity | ..].
    - change (Z.to_nat (cfg_half pclmul_cfg)) with (Z.to_nat 32768). lia.
    - change (cfg_vbytes pclmul_cfg) with 16. lia.
    - lia.
    - change (cfg_vbytes pclmul_cfg * (cfg_words pclmul_cfg / 2)) with 32768. lia.
    - reflexivity.
    - lia.
    - apply pclmul_main_skips. }
  split; [exact E|]. split; [apply crc_bytes_tail_low, Hb|]. split.
  - rewrite (sum_stream_of_backend machine buf0 Cksum_pclmul (fopen_bytes data) _ _ E).
    rewrite sum_stream_reference by (assumption || lia).
    rewrite crc_bytes_tail_low by exact Hb. reflexivity.
  - exists (1 :: repeat 0 31), 0.
    split; [vm_compute; reflexivity|].
    split; [apply Forall_cons; [unfold is_byte; lia | apply zeros_bytes]|].
    split; [vm_compute; reflexivity|].
    intros H. vm_compute in H. discriminate H.
Qed.

Lemma pclmul_short_streams_witness :
  cksum_pclmul (repeat 0 (Z.to_nat 65536)) (fopen_bytes digits_1_to_9)
  = Some (CksumDone true (crc_bytes_tail 0 digits_1_to_9)
            (Z.of_nat (List.length digits_1_to_9)))
  /\ (crc_bytes_tail 0 digits_1_to_9) mod 2 ^ 32 = crc_ref digits_1_to_9
  /\ snd (crc_sum_stream all_features (repeat 0 (Z.to_nat 65536))
            (Some Cksum_pclmul) (fopen_bytes digits_1_to_9))
     = snd (crc_sum_stream all_features (repeat 0 (Z.to_nat 65536)) None
              (fopen_bytes digits_1_to_9))
  /\ (exists long c,
        Z.of_nat (List.length long) = 32 /\ Forall is_byte long
        /\ cksum_pclmul (repeat 0 (Z.to_nat 65536)) (fopen_bytes long)
           = Some (CksumDone true c 32)
        /\ c mod 2 ^ 32 <> crc_ref long).
Proof.
  apply (pclmul_short_streams all_features (repeat 0 (Z.to_nat 65536))
           digits_1_to_9).
  - rewrite repeat_length. lia.
  - unfold digits_1_to_9, is_byte.
    repeat (apply Forall_cons; [lia|]). apply Forall_nil.
  - vm_compute. reflexivity.
Defined.

(** X7. Streams shorter than two registers (64 bytes) never reach the
    folding code of [cksum_avx2]: for every such stream of bytes the backend
    returns the byte count and the register of the byte-by-byte rule, whose
    low 32 bits are the reference CRC, and [crc_sum_stream] run with this
    backend stores the same checksum as with [cksum_slice8].  The bound is
    sharp: there is a stream of 64 bytes on which the register returned
    differs from the reference CRC. *)
Theorem avx2_short_streams (machine : cpu) (buf0 data : list Z) :
  Z.of_nat (List.length buf0) = 2097152 ->
  Forall is_byte data -> Z.of_nat (List.length data) < 64 ->
  cksum_avx2 buf0 (fopen_bytes data)
  = Some (CksumDone true (crc_bytes_tail 0 data) (Z.of_nat (List.length data)))
  /\ (crc_bytes_tail 0 data) mod 2 ^ 32 = crc_ref data
  /\ snd (crc_sum_stream machine buf0 (Some Cksum_avx2) (fopen_bytes data))
     = snd (crc_sum_stream machine buf0 None (fopen_bytes data))
  /\ (exists long c,
        Z.of_nat (List.length long) = 64 /\ Forall is_byte long
        /\ cksum_avx2 (repeat 0 (Z.to_nat 2097152)) (fopen_bytes long)
           = Some (CksumDone true c 64)
        /\ c mod 2 ^ 32 <> crc_ref long).
Proof.
  intros Hbuf Hb Hl.
  assert (E : cksum_avx2 buf0 (fopen_bytes data)
              = Some (CksumDone true (crc_bytes_tail 0 data)
                                (Z.of_nat (List.length data)))).
  { unfold cksum_avx2. rewrite simd_backend_short; [reflexivity | ..].
    - change (Z.to_nat (cfg_half avx2_cfg)) with (Z.to_nat 1048576). lia.
    - change (cfg_vbytes avx2_cfg) with 32. lia.
    - lia.
    - change (cfg_vbytes avx2_cfg * (cfg_words avx2_cfg / 2)) with 1048576. lia.
    - reflexivity.
    - lia.
    - apply avx2_main_skips. }
  split; [exact E|]. split; [apply crc_bytes_tail_low, Hb|]. split.
  - rewrite (sum_stream_of_backend machine buf0 Cksum_avx2 (fopen_bytes data) _ _ E).
    rewrite sum_stream_reference by (assumption || lia).
    rewrite crc_bytes_tail_low by exact Hb. reflexivity.
  - exists (1 :: repeat 0 63), 0.
    split; [vm_compute; reflexivity|].
    split; [apply Forall_cons; [unfold is_byte; lia | apply zeros_bytes]|].
    split; [vm_compute; reflexivity|].
    intros H. vm_compute in H. discriminate H.
Qed.

Lemma avx2_short_streams_witness :
  cksum_avx2 (repeat 0 (Z.to_nat 2097152)) (fopen_bytes digits_1_to_9)
  = Some (CksumDone true (crc_bytes_tail 0 digits_1_to_9)
            (Z.of_nat (List.length digits_1_to_9)))
  /\ (crc_bytes_tail 0 digits_1_to_9) mod 2 ^ 32 = crc_ref digits_1_to_9
  /\ snd (crc_sum_stream all_features (repeat 0 (Z.to_nat 2097152))
            (Some Cksum_avx2) (fopen_bytes digits_1_to_9))
     = snd (crc_sum_stream all_features (repeat 0 (Z.to_nat 2097152)) None
              (fopen_bytes digits_1_to_9))
  /\ (exists long c,
        Z.of_nat (List.length long) = 64 /\ Forall is_byte long
        /\ cksum_avx2 (repeat 0 (Z.to_nat 2097152)) (fopen_bytes long)
           = Some (CksumDone true c 64)
        /\ c mod 2 ^ 32 <> crc_ref long).
Proof.
  apply (avx2_short_streams all_features (repeat 0 (Z.to_nat 2097152))
           digits_1_to_9).
  - rewrite repeat_length. lia.
  - unfold digits_1_to_9, is_byte.
    repeat (apply Forall_cons; [lia|]). apply Forall_nil.
  - vm_compute. reflexivity.
Defined.

(** X8. Streams shorter than two registers (128 bytes) never reach the
    folding code of [cksum_avx512]: for every such stream of bytes the backend
    returns the byte count and the register of the byte-by-byte rule, whose
    low 32 bits are the reference CRC, and [crc_sum_stream] run with this
    backend stores the same checksum as with [cksum_slice8].  The bound is
    sharp: there is a stream of 128 bytes on which the register returned
    differs from the reference CRC. *)
Theorem avx512_short_streams (machine : cpu) (buf0 data : list Z) :
  Z.of_nat (List.length buf0) = 2097152 ->
  Forall is_byte data -> Z.of_nat (List.length data) < 128 ->
  cksum_avx512 buf0 (fopen_bytes data)
  = Some (CksumDone true (crc_bytes_tail 0 data) (Z.of_nat (List.length data)))
  /\ (crc_bytes_tail 0 data) mod 2 ^ 32 = crc_ref data
  /\ snd (crc_sum_stream machine buf0 (Some Cksum_avx512) (fopen_bytes data))
     = snd (crc_sum_stream machine buf0 None (fopen_bytes data))
  /\ (exists long c,
        Z.of_nat (List.length long) = 128 /\ Forall is_byte long
        /\ cksum_avx512 (repeat 0 (Z.to_nat 2097152)) (fopen_bytes long)
           = Some (CksumDone true c 128)
        /\ c mod 2 ^ 32 <> crc_ref long).
Proof.
  intros Hbuf Hb Hl.
  assert (E : cksum_avx512 buf0 (fopen_bytes data)
              = Some (CksumDone true (crc_bytes_tail 0 data)
                                (Z.of_nat (List.length data)))).
  { unfold cksum_avx512. rewrite simd_backend_short; [reflexivity | ..].
    - change (Z.to_nat (cfg_half avx512_cfg)) with (Z.to_nat 1048576). lia.
    - change (cfg_vbytes avx512_cfg) with 64. lia.
    - lia.
    - change (cfg_vbytes avx512_cfg * (cfg_words avx512_cfg / 2)) with 1048576. lia.
    - reflexivity.
    - lia.
    - apply avx512_main_skips. }
  split; [exact E|]. split; [apply crc_bytes_tail_low, Hb|]. split.
  - rewrite (sum_stream_of_backend machine buf0 Cksum_avx512 (fopen_bytes data) _ _ E).
    rewrite sum_stream_reference by (assumption || lia).
    rewrite crc_bytes_tail_low by exact Hb. reflexivity.
  - exists (1 :: repeat 0 127), 0.
    split; [vm_compute; reflexivity|].
    split; [apply Forall_cons; [unfold is_byte; lia | apply zeros_bytes]|].
    split; [vm_compute; reflexivity|].
    intros H. vm_compute in H. discriminate H.
Qed.

Lemma avx512_short_streams_witness :
  cksum_avx512 (repeat 0 (Z.to_nat 2097152)) (fopen_bytes digits_1_to_9)
  = Some (CksumDone true (crc_bytes_tail 0 digits_1_to_9)
            (Z.of_nat (List.length digits_1_to_9)))
  /\ (crc_bytes_tail 0 digits_1_to_9) mod 2 ^ 32 = crc_ref digits_1_to_9
  /\ snd (crc_sum_stream all_features (repeat 0 (Z.to_nat 2097152))
            (Some Cksum_avx512) (fopen_bytes digits_1_to_9))
     = snd (crc_sum_stream all_features (repeat 0 (Z.to_nat 2097152)) None
              (fopen_bytes digits_1_to_9))
  /\ (exists long c,
        Z.of_nat (List.length long) = 128 /\ Forall is_byte long
        /\ cksum_avx512 (repeat 0 (Z.to_nat 2097152)) (fopen_bytes long)
           = Some (CksumDone true c 128)
        /\ c mod 2 ^ 32 <> crc_ref long).
Proof.
  apply (avx512_short_streams all_features (repeat 0 (Z.to_nat 2097152))
           digits_1_to_9).
  - rewrite repeat_length. lia.
  - unfold digits_1_to_9, is_byte.
    repeat (apply Forall_cons; [lia|]). apply Forall_nil.
  - vm_compute. reflexivity.
Defined.

(** ** crc32b_sum_stream *)

Lemma crc32b_loop_counts (fuel : nat) (data : list Z) (bad e : bool) (len : Z) :
  (List.length data < fuel)%nat -> 0 <= len ->
  len + Z.of_nat (List.length data) < 2 ^ 64 ->
  crc32b_loop fuel (mkFILE data bad false e) 0 len
  = Some (CksumDone (negb (e || bad)) 0 (len + Z.of_nat (List.length data))).
Proof.
  revert data e len.
  induction fuel as [|fuel IH]; intros data e len Hf Hl Hs; [lia|].
  cbn [crc32b_loop]. unfold fread. cbn [f_data f_bad f_eof f_err].
  pose proof BUFLEN_value as HB.
  destruct (Nat.ltb_spec (List.length data) (Z.to_nat BUFLEN)) as [Hk|Hk].
  - rewrite firstn_all2, skipn_all2 by lia.
    cbn [ferror feof f_eof f_err orb].
    destruct (Z.ltb_spec 0 (Z.of_nat (List.length data))) as [Hpos|Hzero].
    + rewrite add_length_spec by lia.
      destruct (Z.ltb_spec (len + Z.of_nat (List.length data)) (2 ^ 64)) as [_|];
        [|lia].
      destruct bad; cbn [negb].
      * rewrite IH by (cbn [List.length]; lia).
        rewrite !orb_true_r. cbn [List.length]. do 2 f_equal. lia.
      * rewrite !orb_false_r. reflexivity.
    + assert (E : data = []) by (destruct data; [reflexivity | cbn in Hzero; lia]).
      subst data. cbn [List.length]. do 2 f_equal. lia.
  - assert (Hlen : List.length (firstn (Z.to_nat BUFLEN) data) = Z.to_nat BUFLEN)
      by (apply firstn_length_le; lia).
    rewrite Hlen. cbn [ferror feof f_eof f_err].
    destruct (Z.ltb_spec 0 (Z.of_nat (Z.to_nat BUFLEN))) as [_|]; [|lia].
    assert (Hd : Z.of_nat (List.length data)
                 = Z.of_nat (Z.to_nat BUFLEN)
                   + Z.of_nat (List.length (skipn (Z.to_nat BUFLEN) data))).
    { rewrite length_skipn. lia. }
    rewrite add_length_spec by lia.
    destruct (Z.ltb_spec (len + Z.of_nat (Z.to_nat BUFLEN)) (2 ^ 64)) as [_|];
      [|lia].
    rewrite IH by (rewrite ?length_skipn; lia).
    do 2 f_equal. lia.
Qed.

(** X9. [crc32b_sum_stream] only counts: its checksum update is disabled
    in the source, so for every stream, whatever its bytes, the digest it
    stores is 0 and the length is the number of bytes read; it returns 0,
    or -1 if the source failed (the two results are stored even then). *)
Theorem crc32b_digest_is_zero (data : list Z) (bad : bool) :
  Z.of_nat (List.length data) < 2 ^ 64 ->
  crc32b_sum_stream (mkFILE data bad false false)
  = Some (CksumDone (negb bad) 0 (Z.of_nat (List.length data))).
Proof.
  intros Hl. unfold crc32b_sum_stream. cbn [f_data].
  rewrite crc32b_loop_counts by lia. reflexivity.
Qed.

Lemma crc32b_digest_is_zero_witness :
  crc32b_sum_stream (mkFILE digits_1_to_9 false false false)
  = Some (CksumDone (negb false) 0 (Z.of_nat (List.length digits_1_to_9))).
Proof.
  apply (crc32b_digest_is_zero digits_1_to_9 false). vm_compute. reflexivity.
Defined.

(** ** output_crc *)

Lemma be_bytes_rev (l : list Z) : be_bytes (rev l) = le_bytes l.
Proof.
  induction l as [|b l IH]; [reflexivity|].
  cbn [rev]. unfold be_bytes in *. rewrite fold_left_app, IH.
  cbn [fold_left le_bytes fold_right]. apply Z.lor_comm.
Qed.

Lemma to_le_bytes_bytes (n : nat) (x : Z) : Forall is_byte (to_le_bytes n x).
Proof.
  revert x. induction n as [|n IH]; intros x; [constructor|].
  cbn [to_le_bytes]. constructor; [apply land_255_range | apply IH].
Qed.

(** A byte swap writes the bytes in the opposite order. *)
Lemma bswap_bytes (n : nat) (x : Z) :
  to_le_bytes n (bswap n x) = rev (to_le_bytes n x).
Proof.
  unfold bswap.
  rewrite <- (rev_involutive (to_le_bytes n x)) at 1.
  rewrite be_bytes_rev.
  assert (L : List.length (rev (to_le_bytes n x)) = n)
    by (rewrite length_rev; apply to_le_bytes_length).
  rewrite <- L at 1. apply to_le_bytes_le_bytes.
  apply Forall_rev, to_le_bytes_bytes.
Qed.

Lemma le_bytes_to_le_bytes (n : nat) (x : Z) :
  le_bytes (to_le_bytes n x) = x mod 2 ^ (8 * Z.of_nat n).
Proof.
  revert x. induction n as [|n IH]; intros x.
  - cbn. rewrite Z.mod_1_r. reflexivity.
  - cbn [to_le_bytes le_bytes fold_right]. fold (le_bytes (to_le_bytes n (Z.shiftr x 8))).
    rewrite IH.
    replace (8 * Z.of_nat (S n)) with (8 * Z.of_nat n + 8) by lia.
    assert (0 <= 8 * Z.of_nat n) by lia.
    generalize dependent (8 * Z.of_nat n). intros k _ Hk.
    change 0xFF with (Z.ones 8).
    Z.bitblast.
Qed.

(** X10. In raw mode [output_crc] writes exactly four bytes, the 32-bit
    digest in network byte order (most significant byte first), whatever
    the file name, length, delimiter and flags; read back as a big-endian
    number they give the digest. *)
Theorem raw_output_is_big_endian
  (file : list Z) (binary_file digest : Z) (tagged : bool) (delim : Z)
  (args : bool) (length : Z) :
  let out := output_crc file binary_file digest true tagged delim args length in
  out = [Z.land (Z.shiftr digest 24) 0xFF; Z.land (Z.shiftr digest 16) 0xFF;
         Z.land (Z.shiftr digest 8) 0xFF; Z.land digest 0xFF]
  /\ be_bytes out = digest mod 2 ^ 32
  /\ Forall is_byte out.
Proof.
  cbv zeta. unfold output_crc, htobe32.
  rewrite bswap_bytes. split; [|split].
  - cbn [to_le_bytes rev app].
    rewrite !Z.shiftr_shiftr by lia. reflexivity.
  - rewrite be_bytes_rev, le_bytes_to_le_bytes. reflexivity.
  - apply Forall_rev, to_le_bytes_bytes.
Qed.

(** ** Blocks that fit [final] *)

Lemma set_final_same (m : memory) : set_region m Final (m_final m) = m.
Proof. destruct m; reflexivity. Qed.

Lemma slice_at (F : list Z) (off n : Z) :
  0 <= off -> 0 <= n -> off + n <= Z.of_nat (List.length F) ->
  slice F off n = Some (firstn (Z.to_nat n) (skipn (Z.to_nat off) F)).
Proof.
  intros H1 H2 H3. unfold slice.
  destruct (Z.leb_spec 0 off); [|lia].
  destruct (Z.leb_spec 0 n); [|lia].
  destruct (Z.leb_spec (off + n) (Z.of_nat (List.length F))); [|lia].
  reflexivity.
Qed.

Lemma load64_final (m : memory) (off : Z) :
  0 <= off -> off + 8 <= Z.of_nat (List.length (m_final m)) ->
  load64 m Final off
  = Next (le_bytes (firstn 8 (skipn (Z.to_nat off) (m_final m)))).
Proof.
  intros H1 H2. unfold load64, load. cbn [region_bytes].
  rewrite slice_at by lia. reflexivity.
Qed.

Lemma store64_final (m : memory) (off x : Z) :
  0 <= off -> off + 8 <= Z.of_nat (List.length (m_final m)) ->
  store64 m Final off x
  = Next (set_region m Final
            (firstn (Z.to_nat off) (m_final m) ++ to_le_bytes 8 x
             ++ skipn (Z.to_nat off + 8) (m_final m))).
Proof.
  intros H1 H2. unfold store64, store, blit. cbn [region_bytes].
  rewrite to_le_bytes_length.
  destruct (Z.leb_spec 0 off); [|lia].
  destruct (Z.leb_spec (off + Z.of_nat 8) (Z.of_nat (List.length (m_final m))));
    [|lia].
  reflexivity.
Qed.

Lemma firstn_mid_skipn (F : list Z) (k : nat) :
  firstn k F ++ firstn 8 (skipn k F) ++ skipn (k + 8) F = F.
Proof.
  rewrite Nat.add_comm, <- skipn_skipn.
  rewrite (firstn_skipn 8 (skipn k F)). apply firstn_skipn.
Qed.

Lemma be64toh_zero : be64toh 0 = 0.
Proof. reflexivity. Qed.

(** Xoring a zero lane into [final] changes nothing. *)
Lemma xor64_zero (m : memory) (off : Z) :
  Forall is_byte (m_final m) ->
  0 <= off -> off + 8 <= Z.of_nat (List.length (m_final m)) ->
  store64 m Final off
          (Z.lxor (le_bytes (firstn 8 (skipn (Z.to_nat off) (m_final m)))) (be64toh 0))
  = Next m.
Proof.
  intros Hb H1 H2. rewrite store64_final by assumption.
  rewrite be64toh_zero, Z.lxor_0_r.
  assert (L : List.length (firstn 8 (skipn (Z.to_nat off) (m_final m))) = 8%nat).
  { rewrite length_firstn, length_skipn. lia. }
  rewrite <- L at 1.
  rewrite to_le_bytes_le_bytes by (apply Forall_firstn, Forall_skipn, Hb).
  rewrite firstn_mid_skipn. rewrite set_final_same. reflexivity.
Qed.

Lemma to_le_bytes_lxor (n : nat) (a b : Z) :
  to_le_bytes n (Z.lxor a b) = map2 Z.lxor (to_le_bytes n a) (to_le_bytes n b).
Proof.
  revert a b. induction n as [|n IH]; intros a b; [reflexivity|].
  cbn [to_le_bytes]. unfold map2 in *. cbn [combine map fst snd].
  rewrite Z.shiftr_lxor, IH. f_equal. bb.
Qed.

(** The bytes of [be64toh (crc << 32)] as they lie in memory: the CRC, most
    significant byte first, then four zero bytes. *)
Lemma crc_lane_bytes (crc : Z) :
  to_le_bytes 8 (be64toh (u64 (Z.shiftl crc 32)))
  = [Z.land (Z.shiftr crc 24) 0xFF; Z.land (Z.shiftr crc 16) 0xFF;
     Z.land (Z.shiftr crc 8) 0xFF; Z.land crc 0xFF; 0; 0; 0; 0].
Proof.
  unfold be64toh. rewrite bswap_bytes.
  cbn [to_le_bytes rev app]. rewrite !Z.shiftr_shiftr by lia.
  cbn [Z.add Pos.add Pos.succ Pos.add_carry].
  unfold u64.
  repeat (apply (f_equal2 (@cons Z))); try reflexivity; bb.
Qed.

Lemma crc_byte32_update (c b : Z) :
  0 <= c < 2 ^ 32 -> is_byte b -> crc_byte32 c b = crc_update c b.
Proof.
  intros Hc Hb. unfold crc_byte32, crc_update.
  pose proof (top_byte_range c Hc) as Hh.
  pose proof (lxor_byte _ _ Hh Hb) as Hx.
  rewrite (land_255_byte _ Hx).
  unfold u32 at 1. rewrite Z.mod_small.
  - apply Z.lxor_comm.
  - apply lxor_range32.
    + apply crctab_range; [lia | exact Hx].
    + unfold u32. apply Z.mod_pos_bound. lia.
Qed.

Lemma crc_byte32_fold (xs : list Z) (c : Z) :
  Forall is_byte xs -> 0 <= c < 2 ^ 32 ->
  fold_left crc_byte32 xs c = fold_left crc_update xs c.
Proof.
  intros Hb. revert c. induction Hb as [|x xs Hx Hxs IH]; intros c Hc; [reflexivity|].
  cbn [fold_left]. rewrite crc_byte32_update by assumption.
  apply IH, crc_update_range.
Qed.

Lemma word_be_lxor (a0 a1 a2 a3 b0 b1 b2 b3 : Z) :
  word_be (Z.lxor a0 b0) (Z.lxor a1 b1) (Z.lxor a2 b2) (Z.lxor a3 b3)
  = Z.lxor (word_be a0 a1 a2 a3) (word_be b0 b1 b2 b3).
Proof. unfold word_be. bb. Qed.

(** Xoring the CRC into the first four bytes of a block and starting from
    register 0 is the same as starting from the CRC. *)
Lemma crc_in_first_word (crc b0 b1 b2 b3 : Z) (rest : list Z) :
  0 <= crc < 2 ^ 32 ->
  is_byte b0 -> is_byte b1 -> is_byte b2 -> is_byte b3 ->
  fold_left crc_update
    (Z.lxor b0 (Z.land (Z.shiftr crc 24) 0xFF)
     :: Z.lxor b1 (Z.land (Z.shiftr crc 16) 0xFF)
     :: Z.lxor b2 (Z.land (Z.shiftr crc 8) 0xFF)
     :: Z.lxor b3 (Z.land crc 0xFF) :: rest) 0
  = fold_left crc_update (b0 :: b1 :: b2 :: b3 :: rest) crc.
Proof.
  intros Hc H0 H1 H2 H3.
  change (?a :: ?b :: ?c :: ?d :: rest) with ([a; b; c; d] ++ rest).
  rewrite !fold_left_app. f_equal.
  rewrite !four_updates
    by (assumption || apply lxor_byte; (assumption || apply land_255_range)).
  do 4 f_equal.
  rewrite word_be_lxor, <- word_bytes, Z.mod_small by exact Hc.
  rewrite Z.lxor_0_l. apply Z.lxor_comm.
Qed.


Ltac zero_lane :=
  rewrite load64_final by (cbn [m_final]; lia); cbn [bind];
  rewrite xor64_zero by (cbn [m_final]; (assumption || lia)); cbn [bind].

Lemma chorba_small_fits (crc len : Z) (m : memory) :
  0 <= crc < 2 ^ 32 -> 0 <= len <= 72 -> len <= region_size m Input ->
  Forall is_byte (m_input m) -> crc = 0 \/ 4 <= len ->
  exists m',
    chorba_small_nondestructive crc len m
    = Next (fold_left crc_update (firstn (Z.to_nat len) (m_input m)) crc, m').
Proof.
  intros Hc Hlen Hsz Hb Hcase.
  unfold chorba_small_nondestructive.
  rewrite stride32_loop_short by exact Hlen. cbn [bind].
  remember (firstn (Z.to_nat len) (m_input m)) as bs eqn:Ebs.
  assert (Lbs : len = Z.of_nat (List.length bs)).
  { subst bs. rewrite length_firstn. unfold region_size in Hsz. cbn in Hsz. lia. }
  assert (Bbs : Forall is_byte bs) by (subst bs; apply Forall_firstn, Hb).
  unfold fill_final.
  rewrite !Z.sub_0_r.
  replace (u64 len) with len by (unfold u64; rewrite Z.mod_small; lia).
  unfold load at 1. cbn [region_bytes set_region m_input].
  rewrite slice_at by (unfold region_size in Hsz; cbn in Hsz; lia).
  cbn [skipn Z.to_nat]. rewrite <- Ebs. cbn [lift bind].
  unfold store at 1. cbn [region_bytes set_region m_final m_input m_bitbuffer].
  rewrite blit_prefix by (rewrite repeat_length; lia). cbn [lift bind].
  remember (skipn (List.length bs) (repeat 0 72)) as zs eqn:Ezs.
  assert (Lzs : List.length zs = (72 - List.length bs)%nat)
    by (subst zs; rewrite length_skipn, repeat_length; reflexivity).
  assert (Bzs : Forall is_byte zs) by (subst zs; apply Forall_skipn, zeros_bytes).
  cbn [next1 next2 next3 next4 next5].
  assert (HL : List.length (bs ++ zs) = 72%nat) by (rewrite length_app; lia).
  assert (HB : Forall is_byte (bs ++ zs)) by (apply Forall_app; split; assumption).
  destruct (Z.eq_dec crc 0) as [Ez|Enz].
  - subst crc. change (u64 (Z.shiftl 0 32)) with 0.
    do 5 zero_lane.
    unfold load. cbn [region_bytes m_final].
    assert (Es : slice (bs ++ zs) 0 len = Some bs)
      by (rewrite Lbs; apply slice_prefix).
    rewrite Es. cbn [lift bind].
    eexists. rewrite crc_byte32_fold by (assumption || lia). reflexivity.
  - assert (H4 : 4 <= len) by (destruct Hcase; [contradiction | assumption]).
    destruct bs as [|b0 [|b1 [|b2 [|b3 rest]]]]; try (cbn [List.length] in Lbs; lia).
    remember (rest ++ zs) as Y eqn:EY.
    assert (LY : List.length Y = 68%nat).
    { subst Y. rewrite length_app. cbn [List.length] in Lzs, Lbs. lia. }
    destruct Y as [|y0 [|y1 [|y2 [|y3 Y']]]]; try (cbn [List.length] in LY; lia).
    cbn [app] in *. rewrite <- EY in *.
    apply Forall_cons_iff in Bbs as [B0 Bbs].
    apply Forall_cons_iff in Bbs as [B1 Bbs].
    apply Forall_cons_iff in Bbs as [B2 Bbs].
    apply Forall_cons_iff in Bbs as [B3 Brest].
    change (0 * 8) with 0.
    rewrite load64_final by (cbn [m_final]; lia). cbn [bind].
    rewrite store64_final by (cbn [m_final]; lia). cbn [bind].
    cbn [m_final Z.to_nat skipn firstn app Nat.add set_region m_input m_bitbuffer].
    rewrite to_le_bytes_lxor, crc_lane_bytes.
    assert (E8 : to_le_bytes 8 (le_bytes [b0; b1; b2; b3; y0; y1; y2; y3])
                 = [b0; b1; b2; b3; y0; y1; y2; y3]).
    { apply (to_le_bytes_le_bytes [b0; b1; b2; b3; y0; y1; y2; y3]).
      apply (Forall_firstn _ 8) in HB. exact HB. }
    rewrite E8. unfold map2. cbn [combine map fst snd app].
    rewrite !Z.lxor_0_r.
    set (x0 := Z.lxor b0 (Z.land (Z.shiftr crc 24) 0xFF)).
    set (x1 := Z.lxor b1 (Z.land (Z.shiftr crc 16) 0xFF)).
    set (x2 := Z.lxor b2 (Z.land (Z.shiftr crc 8) 0xFF)).
    set (x3 := Z.lxor b3 (Z.land crc 0xFF)).
    assert (X0 : is_byte x0) by (apply lxor_byte; [exact B0 | apply land_255_range]).
    assert (X1 : is_byte x1) by (apply lxor_byte; [exact B1 | apply land_255_range]).
    assert (X2 : is_byte x2) by (apply lxor_byte; [exact B2 | apply land_255_range]).
    assert (X3 : is_byte x3) by (apply lxor_byte; [exact B3 | apply land_255_range]).
    assert (HL2 : List.length (x0 :: x1 :: x2 :: x3 :: y0 :: y1 :: y2 :: y3 :: Y')
                  = 72%nat) by exact HL.
    assert (HB2 : Forall is_byte (x0 :: x1 :: x2 :: x3 :: y0 :: y1 :: y2 :: y3 :: Y')).
    { repeat (apply Forall_cons; [assumption|]).
      apply (Forall_skipn _ 4) in HB. exact HB. }
    do 4 zero_lane.
    unfold load. cbn [region_bytes m_final].
    assert (Es : slice (x0 :: x1 :: x2 :: x3 :: y0 :: y1 :: y2 :: y3 :: Y') 0 len
                 = Some (x0 :: x1 :: x2 :: x3 :: rest)).
    { rewrite EY.
      change (x0 :: x1 :: x2 :: x3 :: rest ++ zs)
        with ((x0 :: x1 :: x2 :: x3 :: rest) ++ zs).
      rewrite Lbs. apply (slice_prefix (x0 :: x1 :: x2 :: x3 :: rest)). }
    rewrite Es. cbn [lift bind]. eexists.
    rewrite crc_byte32_fold
      by (lia || (repeat (apply Forall_cons; [assumption|]); exact Brest)).
    subst x0 x1 x2 x3. rewrite crc_in_first_word by assumption. reflexivity.
Qed.

Lemma chorba_small_empty (crc : Z) (m : memory) :
  exists m', chorba_small_nondestructive crc 0 m = Next (0, m').
Proof.
  unfold chorba_small_nondestructive.
  rewrite stride32_loop_short by lia. cbn [bind].
  destruct (fill_final_total (set_region m Final (repeat 0 72)) 0 0
              (mkNexts (u64 (Z.shiftl crc 32)) 0 0 0 0))
    as (m1 & E & X); [lia | lia | unfold region_size; lia | reflexivity |].
  rewrite E. cbn [bind].
  assert (R : region_size m1 Final = 72)
    by (rewrite (region_size_ext _ m1 Final X); reflexivity).
  unfold load. change (u64 (0 - 0)) with 0.
  rewrite slice_at by (unfold region_size in R; lia).
  cbn [lift bind Z.to_nat firstn fold_left]. eexists. reflexivity.
Qed.

(** X11. Blocks that fit the 72-byte [final] array.  For a block of at most
    72 bytes [chorba_small_nondestructive] (and [chorba_118960_nondestructive],
    which delegates to it) continues the byte-by-byte rule from the
    incoming CRC, provided the incoming CRC is 0 or the block has at least
    four bytes: the CRC enters only through the first four bytes of the
    block.  On an empty block the routine returns 0 whatever the
    incoming CRC. *)
Theorem chorba_short_blocks (crc len : Z) (m : memory) :
  0 <= crc < 2 ^ 32 -> 0 <= len <= 72 -> len <= region_size m Input ->
  Forall is_byte (m_input m) ->
  (crc = 0 \/ 4 <= len ->
   exists m',
     chorba_small_nondestructive crc len m
     = Next (fold_left crc_update (firstn (Z.to_nat len) (m_input m)) crc, m')
     /\ chorba_118960_nondestructive crc len m
        = chorba_small_nondestructive crc len m)
  /\ (exists m', chorba_small_nondestructive crc 0 m = Next (0, m')).
Proof.
  intros Hc Hlen Hsz Hb. split; [|apply chorba_small_empty].
  intros Hcase.
  destruct (chorba_small_fits crc len m Hc Hlen Hsz Hb Hcase) as (m' & E).
  exists m'. split; [exact E|].
  unfold chorba_118960_nondestructive.
  destruct (Z.ltb_spec len (118960 * 2 + 512)); [reflexivity | lia].
Qed.

Lemma chorba_short_blocks_witness :
  (5 = 0 \/ 4 <= 9 ->
   exists m',
     chorba_small_nondestructive 5 9 (mkMem digits_1_to_9 [] [])
     = Next (fold_left crc_update
               (firstn (Z.to_nat 9) (m_input (mkMem digits_1_to_9 [] []))) 5, m')
     /\ chorba_118960_nondestructive 5 9 (mkMem digits_1_to_9 [] [])
        = chorba_small_nondestructive 5 9 (mkMem digits_1_to_9 [] []))
  /\ (exists m',
        chorba_small_nondestructive 5 0 (mkMem digits_1_to_9 [] []) = Next (0, m')).
Proof.
  apply (chorba_short_blocks 5 9 (mkMem digits_1_to_9 [] [])).
  - lia.
  - lia.
  - vm_compute. discriminate.
  - unfold m_input, digits_1_to_9, is_byte.
    repeat (apply Forall_cons; [lia|]). apply Forall_nil.
Defined.

(** ** Carry-less multiplication and folding *)

Lemma clmul64_fold (a b : Z) :
  clmul64 a b = fold_left (clmul_term a b) (seq 0 64) 0.
Proof. reflexivity. Qed.

Lemma clmul_fold_lxor (a1 a2 b : Z) (l : list nat) (acc1 acc2 : Z) :
  fold_left (clmul_term (Z.lxor a1 a2) b) l (Z.lxor acc1 acc2)
  = Z.lxor (fold_left (clmul_term a1 b) l acc1) (fold_left (clmul_term a2 b) l acc2).
Proof.
  revert acc1 acc2. induction l as [|i l IH]; intros acc1 acc2; [reflexivity|].
  cbn [fold_left]. rewrite <- IH. f_equal. unfold clmul_term.
  destruct (Z.testbit b (Z.of_nat i)); [|reflexivity].
  rewrite Z.shiftl_lxor. apply lxor_swap4.
Qed.

Lemma clmul_fold_shift (a b k : Z) (l : list nat) (acc : Z) :
  0 <= k ->
  fold_left (clmul_term (Z.shiftl a k) b) l (Z.shiftl acc k)
  = Z.shiftl (fold_left (clmul_term a b) l acc) k.
Proof.
  intros Hk. revert acc. induction l as [|i l IH]; intros acc; [reflexivity|].
  cbn [fold_left]. rewrite <- IH. f_equal. unfold clmul_term.
  destruct (Z.testbit b (Z.of_nat i)); [|reflexivity].
  rewrite Z.shiftl_lxor, !Z.shiftl_shiftl by lia.
  do 2 f_equal. lia.
Qed.

Lemma clmul_fold_nonneg (a b : Z) (l : list nat) (acc : Z) :
  0 <= a -> 0 <= acc -> 0 <= fold_left (clmul_term a b) l acc.
Proof.
  intros Ha. revert acc. induction l as [|i l IH]; intros acc Hacc; [exact Hacc|].
  cbn [fold_left]. apply IH. unfold clmul_term.
  destruct (Z.testbit b (Z.of_nat i)); [|exact Hacc].
  apply lxor_nonneg; [exact Hacc | apply Z.shiftl_nonneg, Ha].
Qed.

Lemma clmul64_lxor (a1 a2 b : Z) :
  clmul64 (Z.lxor a1 a2) b = Z.lxor (clmul64 a1 b) (clmul64 a2 b).
Proof.
  rewrite !clmul64_fold. rewrite <- clmul_fold_lxor. reflexivity.
Qed.

Lemma clmul64_shift (a b k : Z) :
  0 <= k -> clmul64 (Z.shiftl a k) b = Z.shiftl (clmul64 a b) k.
Proof.
  intros Hk. rewrite !clmul64_fold. rewrite <- clmul_fold_shift by exact Hk.
  rewrite Z.shiftl_0_l. reflexivity.
Qed.

Lemma clmul64_nonneg (a b : Z) : 0 <= a -> 0 <= clmul64 a b.
Proof. intros Ha. rewrite clmul64_fold. apply clmul_fold_nonneg; [exact Ha | lia]. Qed.

Lemma clmul64_zero (b : Z) : clmul64 0 b = 0.
Proof.
  rewrite <- (Z.lxor_nilpotent 0) at 1. rewrite clmul64_lxor.
  apply Z.lxor_nilpotent.
Qed.

Lemma low_bits_step (b : Z) (k : nat) :
  b mod 2 ^ Z.of_nat (S k)
  = if Z.testbit b (Z.of_nat k)
    then Z.lxor (b mod 2 ^ Z.of_nat k) (Z.shiftl 1 (Z.of_nat k))
    else b mod 2 ^ Z.of_nat k.
Proof.
  rewrite Z.shiftl_1_l.
  apply Z.bits_inj'. intros i Hi.
  rewrite Z.testbit_mod_pow2 by lia.
  destruct (Z.testbit b (Z.of_nat k)) eqn:E.
  - rewrite Z.lxor_spec, Z.testbit_mod_pow2, Z.pow2_bits_eqb by lia.
    destruct (Z.eqb_spec (Z.of_nat k) i) as [<-|Ne].
    + rewrite E. destruct (Z.ltb_spec (Z.of_nat k) (Z.of_nat (S k))); [|lia].
      destruct (Z.ltb_spec (Z.of_nat k) (Z.of_nat k)); [lia|]. reflexivity.
    + rewrite xorb_false_r.
      destruct (Z.ltb_spec i (Z.of_nat (S k))), (Z.ltb_spec i (Z.of_nat k));
        try reflexivity; lia.
  - rewrite Z.testbit_mod_pow2 by lia.
    destruct (Z.eq_dec i (Z.of_nat k)) as [->|Ne].
    + rewrite E, !andb_false_r. reflexivity.
    + destruct (Z.ltb_spec i (Z.of_nat (S k))), (Z.ltb_spec i (Z.of_nat k));
        try reflexivity; lia.
Qed.

Lemma clmul_one_upto (b : Z) (k : nat) :
  fold_left (clmul_term 1 b) (seq 0 k) 0 = b mod 2 ^ Z.of_nat k.
Proof.
  induction k as [|k IH].
  - cbn. rewrite Z.mod_1_r. reflexivity.
  - rewrite seq_S, fold_left_app, IH. cbn [fold_left Nat.add].
    unfold clmul_term. symmetry. apply low_bits_step.
Qed.

Lemma clmul64_one (b : Z) : 0 <= b < 2 ^ 64 -> clmul64 1 b = b.
Proof.
  intros Hb. rewrite clmul64_fold, clmul_one_upto.
  apply Z.mod_small. exact Hb.
Qed.

(** Multiplying by the remainder of x^n is, modulo G, a shift by n. *)
Lemma clmul64_power (n : Z) (a : Z) :
  0 <= n -> 0 <= a ->
  gf2_mod (clmul64 a (gf2_mod (2 ^ n))) = gf2_mod (Z.shiftl a n).
Proof.
  intros Hn Ha.
  assert (Hp : 0 <= 2 ^ n) by (apply Z.pow_nonneg; lia).
  pose proof (gf2_mod_range (2 ^ n) Hp) as Hr.
  set (r := gf2_mod (2 ^ n)) in *.
  assert (Hone : gf2_mod (clmul64 1 r) = gf2_mod (Z.shiftl 1 n)).
  { rewrite clmul64_one by lia. rewrite Z.shiftl_1_l.
    rewrite gf2_mod_small by exact Hr. reflexivity. }
  destruct a as [|p|p]; [| |lia].
  - rewrite clmul64_zero, Z.shiftl_0_l. reflexivity.
  - clear Ha. induction p as [p IH|p IH|].
    + assert (Hd : gf2_mod (clmul64 (Z.pos p~0) r) = gf2_mod (Z.shiftl (Z.pos p~0) n)).
      { change (Z.pos p~0) with (Z.shiftl (Z.pos p) 1).
        rewrite clmul64_shift by lia.
        rewrite <- gf2_mod_shift_mod by (try apply clmul64_nonneg; lia).
        rewrite IH.
        rewrite gf2_mod_shift_mod by (try apply Z.shiftl_nonneg; lia).
        rewrite !Z.shiftl_shiftl by lia. do 2 f_equal. lia. }
      change (Z.pos p~1) with (Z.lxor (Z.pos p~0) 1).
      rewrite clmul64_lxor, Z.shiftl_lxor.
      rewrite !gf2_mod_lxor
        by (try apply clmul64_nonneg; try apply Z.shiftl_nonneg; lia).
      rewrite Hd, Hone. reflexivity.
    + change (Z.pos p~0) with (Z.shiftl (Z.pos p) 1).
      rewrite clmul64_shift by lia.
      rewrite <- gf2_mod_shift_mod by (try apply clmul64_nonneg; lia).
      rewrite IH.
      rewrite gf2_mod_shift_mod by (try apply Z.shiftl_nonneg; lia).
      rewrite !Z.shiftl_shiftl by lia. do 2 f_equal. lia.
    + exact Hone.
Qed.

Lemma set_epi64x_low (hi lo : Z) :
  0 <= lo < 2 ^ 64 -> u64 (mm_set_epi64x hi lo) = lo.
Proof.
  intros Hlo. unfold mm_set_epi64x, u64.
  rewrite <- (Z.mod_small lo (2 ^ 64)) at 2 by exact Hlo.
  bb.
Qed.

Lemma set_epi64x_high (hi lo : Z) :
  0 <= hi < 2 ^ 64 -> Z.shiftr (mm_set_epi64x hi lo) 64 = hi.
Proof.
  intros Hhi. unfold mm_set_epi64x, u64.
  rewrite <- (Z.mod_small hi (2 ^ 64)) at 2 by exact Hhi.
  bb.
Qed.

Lemma split_lane (d : Z) :
  d = Z.lxor (Z.shiftl (Z.shiftr d 64) 64) (u64 d).
Proof. unfold u64. bb. Qed.

(** One lane of a fold with the constant (x^(n+64) mod G, x^n mod G): the
    register is multiplied by x^n before the new block is added. *)
Lemma fold_lane (n d x : Z) :
  0 <= n -> 0 <= d -> 0 <= x ->
  let K := mm_set_epi64x (gf2_mod (2 ^ (n + 64))) (gf2_mod (2 ^ n)) in
  gf2_mod (Z.lxor (Z.lxor (clmul_lane 0x11 d K) (clmul_lane 0x00 d K)) x)
  = gf2_mod (Z.lxor (Z.shiftl d n) x).
Proof.
  intros Hn Hd Hx K.
  assert (R1 : 0 <= gf2_mod (2 ^ n) < 2 ^ 32)
    by (apply gf2_mod_range, Z.pow_nonneg; lia).
  assert (R2 : 0 <= gf2_mod (2 ^ (n + 64)) < 2 ^ 32)
    by (apply gf2_mod_range, Z.pow_nonneg; lia).
  assert (Hhi : 0 <= Z.shiftr d 64) by (apply Z.shiftr_nonneg, Hd).
  assert (Hlo : 0 <= u64 d) by (unfold u64; apply Z.mod_pos_bound; lia).
  unfold clmul_lane.
  change (Z.testbit 0x11 0) with true. change (Z.testbit 0x11 4) with true.
  change (Z.testbit 0x00 0) with false. change (Z.testbit 0x00 4) with false.
  cbv iota. subst K.
  rewrite set_epi64x_low, set_epi64x_high by lia.
  rewrite !gf2_mod_lxor
    by (try apply lxor_nonneg; try apply clmul64_nonneg;
        try apply Z.shiftl_nonneg; lia).
  f_equal.
  rewrite !clmul64_power by lia.
  rewrite <- gf2_mod_lxor by (apply Z.shiftl_nonneg; lia).
  f_equal.
  rewrite (split_lane d) at 3.
  rewrite Z.shiftl_lxor, Z.shiftl_shiftl by lia.
  do 2 f_equal. lia.
Qed.

Lemma five_fold_powers :
  gf2_mod (2 ^ 640) = 0xF91A84E2 /\ gf2_mod (2 ^ (640 + 64)) = 0xE2CA9D03.
Proof. repeat (apply conj); vm_compute; reflexivity. Qed.

Lemma fold_reg_lane (K d x : Z) :
  fold_reg [K] [d] [x]
  = [Z.lxor (Z.lxor (clmul_lane 0x11 d K) (clmul_lane 0x00 d K)) x].
Proof. reflexivity. Qed.

Lemma fold_reg_cons (K d x : Z) (Ks ds xs : vec) :
  fold_reg (K :: Ks) (d :: ds) (x :: xs)
  = Z.lxor (Z.lxor (clmul_lane 0x11 d K) (clmul_lane 0x00 d K)) x
    :: fold_reg Ks ds xs.
Proof. reflexivity. Qed.

Lemma fold_reg_nil : fold_reg [] [] [] = [].
Proof. reflexivity. Qed.

Ltac fold_lanes :=
  repeat rewrite fold_reg_cons; rewrite fold_reg_nil;
  cbn [map];
  repeat (apply (f_equal2 (@cons Z));
          [match goal with
           | |- gf2_mod (Z.lxor (Z.lxor (clmul_lane _ ?d
                                   (mm_set_epi64x _ (gf2_mod (2 ^ ?n)))) _) ?x) = _ =>
               exact (fold_lane n d x ltac:(lia) ltac:(lia) ltac:(lia))
           end|]);
  reflexivity.

(** X13. A fold step multiplies by a power of x modulo G.  In each lane,
    the register after [fold_reg] -- the two carry-less products of the old
    register with the backend's constant, xored with the new block -- is
    congruent modulo G to the old register shifted left by the fold
    distance, plus the new block: 128, 512 and 640 bits for the single-,
    four- and five-fold constants of [cksum_pclmul]; 256, 1024 and 3072
    bits for the single-, four- and twelve-fold constants of [cksum_avx2];
    512, 2048 and 6144 bits for those of [cksum_avx512]. *)
Theorem fold_multiplies_by_power_of_x (d0 d1 d2 d3 x0 x1 x2 x3 : Z) :
  0 <= d0 -> 0 <= d1 -> 0 <= d2 -> 0 <= d3 ->
  0 <= x0 -> 0 <= x1 -> 0 <= x2 -> 0 <= x3 ->
  let after n d x := gf2_mod (Z.lxor (Z.shiftl d n) x) in
  map gf2_mod (fold_reg pclmul_single_mult_constant [d0] [x0]) = [after 128 d0 x0]
  /\ map gf2_mod (fold_reg pclmul_four_mult_constant [d0] [x0]) = [after 512 d0 x0]
  /\ map gf2_mod (fold_reg pclmul_five_mult_constant [d0] [x0]) = [after 640 d0 x0]
  /\ map gf2_mod (fold_reg avx2_single_mult_constant [d0; d1] [x0; x1])
     = [after 256 d0 x0; after 256 d1 x1]
  /\ map gf2_mod (fold_reg avx2_four_mult_constant [d0; d1] [x0; x1])
     = [after 1024 d0 x0; after 1024 d1 x1]
  /\ map gf2_mod (fold_reg avx2_twelve_mult_constant [d0; d1] [x0; x1])
     = [after 3072 d0 x0; after 3072 d1 x1]
  /\ map gf2_mod (fold_reg avx512_single_mult_constant [d0; d1; d2; d3] [x0; x1; x2; x3])
     = [after 512 d0 x0; after 512 d1 x1; after 512 d2 x2; after 512 d3 x3]
  /\ map gf2_mod (fold_reg avx512_four_mult_constant [d0; d1; d2; d3] [x0; x1; x2; x3])
     = [after 2048 d0 x0; after 2048 d1 x1; after 2048 d2 x2; after 2048 d3 x3]
  /\ map gf2_mod (fold_reg avx512_twelve_mult_constant [d0; d1; d2; d3] [x0; x1; x2; x3])
     = [after 6144 d0 x0; after 6144 d1 x1; after 6144 d2 x2; after 6144 d3 x3].
Proof.
  intros D0 D1 D2 D3 X0 X1 X2 X3 after.
  destruct powers_of_x
    as (P1 & P2 & P3 & P4 & P5 & P6 & P7 & P8 & P9 & P10 & P11 & P12 & P13 & P14).
  destruct five_fold_powers as (P15 & P16).
  subst after. cbv beta.
  unfold pclmul_single_mult_constant, pclmul_four_mult_constant,
    pclmul_five_mult_constant, avx2_single_mult_constant, avx2_four_mult_constant,
    avx2_twelve_mult_constant, avx512_single_mult_constant,
    avx512_four_mult_constant, avx512_twelve_mult_constant,
    mm256_set_epi64x, mm512_set_epi64.
  rewrite <- P1, <- P2, <- P3, <- P4, <- P5, <- P6, <- P7, <- P8, <- P9, <- P10,
    <- P11, <- P12, <- P13, <- P14, <- P15, <- P16.
  clear P1 P2 P3 P4 P5 P6 P7 P8 P9 P10 P11 P12 P13 P14 P15 P16.
  repeat (apply conj).
  - fold_lanes.
  - fold_lanes.
  - fold_lanes.
  - fold_lanes.
  - change 1024 with (256 * 4). fold_lanes.
  - change 3072 with (256 * 12). fold_lanes.
  - fold_lanes.
  - change 2048 with (512 * 4). fold_lanes.
  - change 6144 with (512 * 12). fold_lanes.
Qed.

Lemma fold_multiplies_by_power_of_x_witness :
  let after n d x := gf2_mod (Z.lxor (Z.shiftl d n) x) in
  map gf2_mod (fold_reg pclmul_single_mult_constant [1] [5]) = [after 128 1 5]
  /\ map gf2_mod (fold_reg pclmul_four_mult_constant [1] [5]) = [after 512 1 5]
  /\ map gf2_mod (fold_reg pclmul_five_mult_constant [1] [5]) = [after 640 1 5]
  /\ map gf2_mod (fold_reg avx2_single_mult_constant [1; 2] [5; 6])
     = [after 256 1 5; after 256 2 6]
  /\ map gf2_mod (fold_reg avx2_four_mult_constant [1; 2] [5; 6])
     = [after 1024 1 5; after 1024 2 6]
  /\ map gf2_mod (fold_reg avx2_twelve_mult_constant [1; 2] [5; 6])
     = [after 3072 1 5; after 3072 2 6]
  /\ map gf2_mod (fold_reg avx512_single_mult_constant [1; 2; 3; 4] [5; 6; 7; 8])
     = [after 512 1 5; after 512 2 6; after 512 3 7; after 512 4 8]
  /\ map gf2_mod (fold_reg avx512_four_mult_constant [1; 2; 3; 4] [5; 6; 7; 8])
     = [after 2048 1 5; after 2048 2 6; after 2048 3 7; after 2048 4 8]
  /\ map gf2_mod (fold_reg avx512_twelve_mult_constant [1; 2; 3; 4] [5; 6; 7; 8])
     = [after 6144 1 5; after 6144 2 6; after 6144 3 7; after 6144 4 8].
Proof. apply (fold_multiplies_by_power_of_x 1 2 3 4 5 6 7 8); lia. Defined.

(** ** The 32-byte loop as a polynomial division *)



Lemma chorba_mul_one : gf2_mod (chorba_mul 1) = 0.
Proof. vm_compute. reflexivity. Qed.

Lemma chorba_mul_lxor (a b : Z) :
  chorba_mul (Z.lxor a b) = Z.lxor (chorba_mul a) (chorba_mul b).
Proof.
  unfold chorba_mul. rewrite !Z.shiftl_lxor.
  apply Z.bits_inj'. intros i Hi. rewrite !Z.lxor_spec. btauto.
Qed.

Lemma chorba_mul_shift (a k : Z) :
  0 <= k -> chorba_mul (Z.shiftl a k) = Z.shiftl (chorba_mul a) k.
Proof.
  intros Hk. unfold chorba_mul. rewrite !Z.shiftl_lxor, !Z.shiftl_shiftl by lia.
  rewrite (Z.add_comm k 300), (Z.add_comm k 155), (Z.add_comm k 117),
    (Z.add_comm k 89).
  reflexivity.
Qed.

Lemma chorba_mul_nonneg (a : Z) : 0 <= a -> 0 <= chorba_mul a.
Proof.
  intros Ha. unfold chorba_mul.
  repeat apply lxor_nonneg; try apply Z.shiftl_nonneg; exact Ha.
Qed.

(** x^300 + x^155 + x^117 + x^89 + 1 is a multiple of G, so is each of
    its multiples. *)
Lemma chorba_mul_multiple (a : Z) : 0 <= a -> gf2_mod (chorba_mul a) = 0.
Proof.
  intros Ha. destruct a as [|p|p]; [reflexivity | | lia]. clear Ha.
  assert (Hd : forall q, gf2_mod (chorba_mul (Z.pos q)) = 0 ->
                         gf2_mod (chorba_mul (Z.pos q~0)) = 0).
  { intros q IH. change (Z.pos q~0) with (Z.shiftl (Z.pos q) 1).
    rewrite chorba_mul_shift by lia.
    rewrite <- gf2_mod_shift_mod by (try apply chorba_mul_nonneg; lia).
    rewrite IH. reflexivity. }
  induction p as [p IH|p IH|].
  - change (Z.pos p~1) with (Z.lxor (Z.pos p~0) 1).
    rewrite chorba_mul_lxor.
    rewrite gf2_mod_lxor by (apply chorba_mul_nonneg; lia).
    rewrite (Hd p IH), chorba_mul_one. reflexivity.
  - apply Hd, IH.
  - apply chorba_mul_one.
Qed.

Lemma join_halves (x a b : Z) :
  0 <= a <= 64 -> 0 <= b ->
  Z.lxor (Z.shiftl (Z.shiftr x a) (b + 64)) (Z.shiftl (u64 (Z.shiftl x (64 - a))) b)
  = Z.shiftl x (b + 64 - a).
Proof. intros Ha Hb. unfold u64. bb. Qed.

Ltac xor_ac :=
  apply Z.bits_inj'; intros ?i ?Hi; rewrite !Z.lxor_spec; btauto.

(** What one consumed lane [x] leaves behind, five lanes further down:
    x * (x^300 + x^155 + x^117 + x^89 + 1) * x^20. *)
Lemma lane_elimination (x : Z) :
  Z.lxor (Z.shiftl x 320)
         (Z.lxor (Z.shiftl (sh1 x) 192)
                 (Z.lxor (Z.shiftl (sh2 x) 128)
                         (Z.lxor (Z.shiftl (sh3 x) 64) (sh4 x))))
  = Z.shiftl (chorba_mul x) 20.
Proof.
  unfold chorba_mul, sh1, sh2, sh3, sh4.
  rewrite !Z.shiftl_lxor, !Z.shiftl_shiftl by lia.
  cbn [Z.add Pos.add Pos.succ Pos.add_carry].
  assert (J1 : Z.lxor (Z.shiftl (Z.shiftr x 17) 192) (Z.shiftl (u64 (Z.shiftl x 47)) 128)
               = Z.shiftl x 175) by (apply (join_halves x 17 128); lia).
  assert (J2 : Z.lxor (Z.shiftl (Z.shiftr x 55) 192) (Z.shiftl (u64 (Z.shiftl x 9)) 128)
               = Z.shiftl x 137) by (apply (join_halves x 55 128); lia).
  assert (J3 : Z.lxor (Z.shiftl (Z.shiftr x 19) 128) (Z.shiftl (u64 (Z.shiftl x 45)) 64)
               = Z.shiftl x 109) by (apply (join_halves x 19 64); lia).
  assert (J4 : Z.lxor (Z.shiftl (Z.shiftr x 44) 64) (Z.shiftl (u64 (Z.shiftl x 20)) 0)
               = Z.shiftl x 20) by (apply (join_halves x 44 0); lia).
  rewrite Z.shiftl_0_r in J4.
  transitivity
    (Z.lxor (Z.shiftl x 320)
       (Z.lxor
          (Z.lxor (Z.shiftl (Z.shiftr x 17) 192) (Z.shiftl (u64 (Z.shiftl x 47)) 128))
          (Z.lxor
             (Z.lxor (Z.shiftl (Z.shiftr x 55) 192)
                     (Z.shiftl (u64 (Z.shiftl x 9)) 128))
             (Z.lxor
                (Z.lxor (Z.shiftl (Z.shiftr x 19) 128)
                        (Z.shiftl (u64 (Z.shiftl x 45)) 64))
                (Z.lxor (Z.shiftl (Z.shiftr x 44) 64) (u64 (Z.shiftl x 20)))))));
    [xor_ac|].
  rewrite J1, J2, J3, J4. xor_ac.
Qed.


Lemma lxor_cancel_r (a b : Z) : Z.lxor (Z.lxor a b) b = a.
Proof. rewrite Z.lxor_assoc, Z.lxor_nilpotent. apply Z.lxor_0_r. Qed.

Lemma equal_remainders (a b : Z) :
  0 <= a -> 0 <= b -> gf2_mod (Z.lxor a b) = 0 -> gf2_mod a = gf2_mod b.
Proof.
  intros Ha Hb H. rewrite gf2_mod_lxor in H by assumption.
  apply Z.lxor_eq. exact H.
Qed.

Lemma shifted_multiple (x k : Z) :
  0 <= x -> 0 <= k -> gf2_mod (Z.shiftl (chorba_mul x) k) = 0.
Proof.
  intros Hx Hk.
  rewrite <- gf2_mod_shift_mod by (try apply chorba_mul_nonneg; lia).
  rewrite chorba_mul_multiple by exact Hx.
  rewrite Z.shiftl_0_l. reflexivity.
Qed.

Lemma pending_nonneg (nx : nexts) :
  0 <= next1 nx -> 0 <= next2 nx -> 0 <= next3 nx -> 0 <= next4 nx ->
  0 <= next5 nx -> 0 <= pending nx.
Proof.
  intros. unfold pending.
  repeat apply lxor_nonneg; try apply Z.shiftl_nonneg; assumption.
Qed.

Lemma sh_nonneg (x : Z) :
  0 <= x -> 0 <= sh1 x /\ 0 <= sh2 x /\ 0 <= sh3 x /\ 0 <= sh4 x.
Proof.
  intros Hx. unfold sh1, sh2, sh3, sh4, u64.
  repeat split; repeat apply lxor_nonneg; try apply Z.shiftr_nonneg;
    try (apply Z.mod_pos_bound; lia); exact Hx.
Qed.

(** One iteration of the 32-byte loop preserves the remainder: the four
    lanes consumed, with the fifth pending lane behind them, are congruent
    modulo G to the five lanes left pending, 256 bits further down. *)
Lemma small_outs_remainder (nx : nexts) (in1 in2 in3 in4 : Z) :
  0 <= in1 -> 0 <= in2 -> 0 <= in3 -> 0 <= in4 -> 0 <= next5 nx ->
  gf2_mod
    (Z.shiftl
       (pending (mkNexts in1 in2 (Z.lxor in3 (sh1 in1))
                         (Z.lxor (Z.lxor in4 (sh2 in1)) (sh1 in2)) (next5 nx)))
       256)
  = gf2_mod (pending (small_outs nx in1 in2 in3 in4)).
Proof.
  intros H1 H2 H3 H4 H5.
  destruct (sh_nonneg in1 H1) as (A1 & A2 & A3 & A4).
  destruct (sh_nonneg in2 H2) as (B1 & B2 & B3 & B4).
  destruct (sh_nonneg in3 H3) as (C1 & C2 & C3 & C4).
  destruct (sh_nonneg in4 H4) as (D1 & D2 & D3 & D4).
  apply equal_remainders.
  - apply Z.shiftl_nonneg, pending_nonneg; cbn [next1 next2 next3 next4 next5];
      repeat (first [assumption | apply lxor_nonneg]).
  - apply pending_nonneg; unfold small_outs; cbn [next1 next2 next3 next4 next5];
      repeat (first [assumption | apply lxor_nonneg]).
  - assert (E :
      Z.lxor
        (Z.shiftl
           (pending (mkNexts in1 in2 (Z.lxor in3 (sh1 in1))
                             (Z.lxor (Z.lxor in4 (sh2 in1)) (sh1 in2)) (next5 nx)))
           256)
        (pending (small_outs nx in1 in2 in3 in4))
      = Z.lxor (Z.shiftl (chorba_mul in1) (20 + 192))
          (Z.lxor (Z.shiftl (chorba_mul in2) (20 + 128))
             (Z.lxor (Z.shiftl (chorba_mul in3) (20 + 64))
                     (Z.shiftl (chorba_mul in4) 20)))).
    { rewrite <- !Z.shiftl_shiftl by lia.
      rewrite <- !lane_elimination.
      unfold pending, small_outs. cbn [next1 next2 next3 next4 next5].
      rewrite !Z.shiftl_lxor, !Z.shiftl_shiftl by lia.
      cbn [Z.add Pos.add Pos.succ Pos.add_carry].
      xor_ac. }
    rewrite E.
    rewrite !gf2_mod_lxor
      by (repeat apply lxor_nonneg; apply Z.shiftl_nonneg, chorba_mul_nonneg;
          assumption).
    rewrite !shifted_multiple by lia. reflexivity.
Qed.

(** ** Message polynomials of byte strings *)

Lemma msg_poly_from (bs : list Z) (acc : Z) :
  Forall is_byte bs ->
  fold_left (fun acc b => Z.lor (Z.shiftl acc 8) b) bs acc
  = Z.lxor (Z.shiftl acc (8 * Z.of_nat (List.length bs))) (msg_poly bs).
Proof.
  intros Hb. revert acc. induction Hb as [|b bs Hb1 Hb2 IH]; intros acc.
  - cbn [fold_left List.length]. change (8 * Z.of_nat 0) with 0.
    rewrite Z.shiftl_0_r. unfold msg_poly. cbn [fold_left].
    rewrite Z.lxor_0_r. reflexivity.
  - unfold msg_poly. cbn [fold_left List.length].
    rewrite IH, (IH (Z.lor (Z.shiftl 0 8) b)).
    rewrite !lor_shl8 by exact Hb1.
    rewrite Z.shiftl_0_l, Z.lxor_0_l.
    rewrite Z.shiftl_lxor, Z.shiftl_shiftl by lia.
    replace (8 + 8 * Z.of_nat (List.length bs))
      with (8 * Z.of_nat (S (List.length bs))) by lia.
    apply Z.lxor_assoc.
Qed.

Lemma msg_poly_app (a b : list Z) :
  Forall is_byte b ->
  msg_poly (a ++ b)
  = Z.lxor (Z.shiftl (msg_poly a) (8 * Z.of_nat (List.length b))) (msg_poly b).
Proof.
  intros Hb. unfold msg_poly at 1. rewrite fold_left_app.
  apply msg_poly_from, Hb.
Qed.

Lemma byte_below_shift (m b : Z) :
  0 <= b < 256 -> Z.lor (Z.shiftl m 8) b = m * 256 + b.
Proof.
  intros Hb. rewrite Z.or_to_plus.
  - rewrite Z.shiftl_mul_pow2 by lia. reflexivity.
  - rewrite <- (land_255_byte b Hb). bb.
Qed.

Lemma msg_poly_range (bs : list Z) :
  Forall is_byte bs -> 0 <= msg_poly bs < 2 ^ (8 * Z.of_nat (List.length bs)).
Proof.
  induction bs as [|b bs IH] using rev_ind; intros Hb.
  - cbn. lia.
  - apply Forall_app in Hb as [Hbs Hb1].
    assert (Hb' : 0 <= b < 256) by (inversion Hb1; assumption).
    specialize (IH Hbs).
    unfold msg_poly in *. rewrite fold_left_app. cbn [fold_left].
    rewrite length_app. cbn [List.length].
    set (m := fold_left (fun acc b0 => Z.lor (Z.shiftl acc 8) b0) bs 0) in *.
    replace (8 * Z.of_nat (List.length bs + 1))
      with (8 * Z.of_nat (List.length bs) + 8) by lia.
    set (k := 8 * Z.of_nat (List.length bs)) in *.
    assert (Hk : 0 <= k) by (subst k; lia).
    rewrite byte_below_shift by exact Hb'.
    rewrite Z.pow_add_r by lia. change (2 ^ 8) with 256. nia.
Qed.

Lemma msg_poly_zeros (n : nat) : msg_poly (repeat 0 n) = 0.
Proof.
  unfold msg_poly. induction n as [|n IH]; [reflexivity|].
  cbn [repeat fold_left]. exact IH.
Qed.

(** The first [n] bytes of a string, as a polynomial: the high part. *)
Lemma msg_poly_firstn (n : nat) (bs : list Z) :
  Forall is_byte bs -> (n <= List.length bs)%nat ->
  msg_poly (firstn n bs)
  = Z.shiftr (msg_poly bs) (8 * Z.of_nat (List.length bs - n)).
Proof.
  intros Hb Hn.
  rewrite <- (firstn_skipn n bs) at 2.
  rewrite msg_poly_app by (apply Forall_skipn, Hb).
  rewrite length_skipn.
  pose proof (msg_poly_range (skipn n bs) (Forall_skipn _ _ _ Hb)) as Hr.
  rewrite length_skipn in Hr.
  set (k := 8 * Z.of_nat (List.length bs - n)) in *.
  assert (Hk : 0 <= k) by (subst k; lia).
  rewrite Z.shiftr_lxor, Z.shiftr_shiftl_l, Z.sub_diag, Z.shiftl_0_r by lia.
  rewrite (Z.shiftr_div_pow2 (msg_poly (skipn n bs))) by lia.
  rewrite Z.div_small by exact Hr. symmetry. apply Z.lxor_0_r.
Qed.

(** ** Byte swaps are linear involutions *)

Lemma be_bytes_from_lxor (l1 l2 : list Z) (a1 a2 : Z) :
  Forall is_byte l1 -> Forall is_byte l2 ->
  fold_left (fun acc b => Z.lor (Z.shiftl acc 8) b) (map2 Z.lxor l1 l2)
            (Z.lxor a1 a2)
  = Z.lxor (fold_left (fun acc b => Z.lor (Z.shiftl acc 8) b) l1 a1)
           (fold_left (fun acc b => Z.lor (Z.shiftl acc 8) b) l2 a2)
  \/ List.length l1 <> List.length l2.
Proof.
  intros H1. revert l2 a1 a2.
  induction H1 as [|b1 l1 Hb1 Hl1 IH]; intros l2 a1 a2 H2.
  - destruct l2; [left; reflexivity | right; discriminate].
  - destruct H2 as [|b2 l2 Hb2 Hl2]; [right; discriminate|].
    unfold map2 in *. cbn [combine map fst snd fold_left].
    destruct (IH l2 (Z.lor (Z.shiftl a1 8) b1) (Z.lor (Z.shiftl a2 8) b2) Hl2)
      as [E|E]; [left | right; cbn; congruence].
    rewrite <- E. f_equal.
    rewrite !lor_shl8 by (assumption || apply lxor_byte; assumption).
    rewrite Z.shiftl_lxor. apply lxor_swap4.
Qed.

Lemma bswap_lxor (n : nat) (a b : Z) :
  bswap n (Z.lxor a b) = Z.lxor (bswap n a) (bswap n b).
Proof.
  unfold bswap, be_bytes. rewrite to_le_bytes_lxor.
  rewrite <- (Z.lxor_0_l 0) at 1.
  destruct (be_bytes_from_lxor (to_le_bytes n a) (to_le_bytes n b) 0 0
              (to_le_bytes_bytes n a) (to_le_bytes_bytes n b)) as [E|E].
  - exact E.
  - rewrite !to_le_bytes_length in E. congruence.
Qed.

Lemma bswap_involutive (n : nat) (x : Z) :
  bswap n (bswap n x) = x mod 2 ^ (8 * Z.of_nat n).
Proof.
  unfold bswap at 1. rewrite bswap_bytes, be_bytes_rev.
  apply le_bytes_to_le_bytes.
Qed.

Lemma bswap_le_bytes (bs : list Z) :
  Forall is_byte bs -> bswap (List.length bs) (le_bytes bs) = msg_poly bs.
Proof.
  intros Hb. unfold bswap. rewrite to_le_bytes_le_bytes by exact Hb. reflexivity.
Qed.

Lemma bswap_range (n : nat) (x : Z) : 0 <= bswap n x < 2 ^ (8 * Z.of_nat n).
Proof.
  unfold bswap.
  pose proof (msg_poly_range (to_le_bytes n x) (to_le_bytes_bytes n x)) as H.
  rewrite to_le_bytes_length in H. exact H.
Qed.



Lemma lxor_range64 (x y : Z) :
  0 <= x < 2 ^ 64 -> 0 <= y < 2 ^ 64 -> 0 <= Z.lxor x y < 2 ^ 64.
Proof.
  intros Hx Hy.
  rewrite <- (Z.mod_small x (2 ^ 64)), <- (Z.mod_small y (2 ^ 64)) by assumption.
  replace (Z.lxor (x mod 2 ^ 64) (y mod 2 ^ 64))
    with ((Z.lxor x y) mod 2 ^ 64) by bb.
  apply Z.mod_pos_bound. lia.
Qed.

Lemma shiftr_range64 (x k : Z) : 0 <= x < 2 ^ 64 -> 0 <= k -> 0 <= Z.shiftr x k < 2 ^ 64.
Proof.
  intros Hx Hk. rewrite Z.shiftr_div_pow2 by lia.
  assert (0 < 2 ^ k) by (apply Z.pow_pos_nonneg; lia).
  split; [apply Z.div_pos; lia|].
  apply Z.div_lt_upper_bound; [lia|]. nia.
Qed.

Lemma sh_range (x : Z) :
  0 <= x < 2 ^ 64 ->
  0 <= sh1 x < 2 ^ 64 /\ 0 <= sh2 x < 2 ^ 64 /\ 0 <= sh3 x < 2 ^ 64
  /\ 0 <= sh4 x < 2 ^ 64.
Proof.
  intros Hx. unfold sh1, sh2, sh3, sh4.
  assert (U : forall y, 0 <= u64 y < 2 ^ 64)
    by (intros y; unfold u64; apply Z.mod_pos_bound; lia).
  split; [|split; [|split]]; repeat apply lxor_range64;
    try apply U; try (apply shiftr_range64; lia).
Qed.

Lemma small_outs_ok (nx : nexts) (in1 in2 in3 in4 : Z) :
  lanes_ok nx ->
  0 <= in1 < 2 ^ 64 -> 0 <= in2 < 2 ^ 64 -> 0 <= in3 < 2 ^ 64 -> 0 <= in4 < 2 ^ 64 ->
  lanes_ok (small_outs nx in1 in2 in3 in4).
Proof.
  intros (N1 & N2 & N3 & N4 & N5) H1 H2 H3 H4.
  destruct (sh_range in1 H1) as (A1 & A2 & A3 & A4).
  destruct (sh_range in2 H2) as (B1 & B2 & B3 & B4).
  destruct (sh_range in3 H3) as (C1 & C2 & C3 & C4).
  destruct (sh_range in4 H4) as (D1 & D2 & D3 & D4).
  unfold lanes_ok, small_outs. cbn [next1 next2 next3 next4 next5].
  split; [|split; [|split; [|split]]];
    repeat (first [assumption | apply lxor_range64]).
Qed.

(** ** Loads from the block *)

Lemma load64_at (m : memory) (r : region) (off : Z) :
  0 <= off -> off + 8 <= region_size m r ->
  load64 m r off
  = Next (le_bytes (firstn 8 (skipn (Z.to_nat off) (region_bytes m r)))).
Proof.
  intros H1 H2. unfold load64, load, region_size in *.
  rewrite slice_at by lia. reflexivity.
Qed.

Lemma htobe64_le_bytes (seg : list Z) :
  Forall is_byte seg -> List.length seg = 8%nat ->
  htobe64 (le_bytes seg) = msg_poly seg.
Proof.
  intros Hb Hl. unfold htobe64. rewrite <- Hl. apply bswap_le_bytes, Hb.
Qed.

Lemma qword_length (l : list Z) (off : nat) :
  (off + 8 <= List.length l)%nat -> List.length (firstn 8 (skipn off l)) = 8%nat.
Proof. intros H. rewrite length_firstn, length_skipn. lia. Qed.

Lemma qword_range (l : list Z) (off : nat) :
  Forall is_byte l -> (off + 8 <= List.length l)%nat ->
  0 <= msg_poly (firstn 8 (skipn off l)) < 2 ^ 64.
Proof.
  intros Hb H.
  pose proof (msg_poly_range (firstn 8 (skipn off l))
                (Forall_firstn _ _ _ (Forall_skipn _ _ _ Hb))) as R.
  rewrite qword_length in R by exact H. exact R.
Qed.

(** The value of the loop body in terms of the big-endian qwords of the
    block. *)
Lemma small_body_value (m : memory) (i : Z) (nx : nexts) :
  Forall is_byte (m_input m) -> 0 <= i -> i + 32 <= region_size m Input ->
  let w k := msg_poly (firstn 8 (skipn (Z.to_nat (i + 8 * k)) (m_input m))) in
  let in1 := Z.lxor (w 0) (next1 nx) in
  let in2 := Z.lxor (w 1) (next2 nx) in
  let in3 := Z.lxor (Z.lxor (w 2) (next3 nx)) (sh1 in1) in
  let in4 := Z.lxor (Z.lxor (Z.lxor (w 3) (next4 nx)) (sh2 in1)) (sh1 in2) in
  small_body m i nx = Next (small_outs nx in1 in2 in3 in4).
Proof.
  intros Hb Hi Hsz w in1 in2 in3 in4.
  assert (Q : forall k, 0 <= k <= 3 ->
            load64 m Input (i + 8 * k) = Next (le_bytes (firstn 8 (skipn (Z.to_nat (i + 8 * k)) (m_input m))))
            /\ htobe64 (le_bytes (firstn 8 (skipn (Z.to_nat (i + 8 * k)) (m_input m)))) = w k).
  { intros k Hk. split.
    - rewrite load64_at by lia. reflexivity.
    - apply htobe64_le_bytes.
      + apply Forall_firstn, Forall_skipn, Hb.
      + apply qword_length. unfold region_size in Hsz. cbn in Hsz. lia. }
  unfold small_body.
  destruct (Q 0 ltac:(lia)) as [L0 E0]. rewrite Z.mul_0_r, Z.add_0_r in L0.
  destruct (Q 1 ltac:(lia)) as [L1 E1].
  destruct (Q 2 ltac:(lia)) as [L2 E2].
  destruct (Q 3 ltac:(lia)) as [L3 E3].
  rewrite L0. cbn [bind]. rewrite L1. cbn [bind].
  rewrite L2. cbn [bind]. rewrite L3. cbn [bind].
  rewrite Z.mul_0_r, Z.add_0_r in E0.
  rewrite E0, E1, E2, E3.
  subst in1 in2 in3 in4. subst w. cbv beta. rewrite Z.mul_0_r, Z.add_0_r.
  reflexivity.
Qed.

Lemma split_qword (l : list Z) (off : nat) :
  skipn off l = firstn 8 (skipn off l) ++ skipn (off + 8) l.
Proof.
  rewrite (Nat.add_comm off 8), <- skipn_skipn.
  symmetry. apply firstn_skipn.
Qed.

Lemma msg_poly_qword (l : list Z) (off : nat) :
  Forall is_byte l -> (off + 8 <= List.length l)%nat ->
  msg_poly (skipn off l)
  = Z.lxor (Z.shiftl (msg_poly (firstn 8 (skipn off l)))
                     (8 * (Z.of_nat (List.length l) - Z.of_nat off) - 64))
           (msg_poly (skipn (off + 8) l)).
Proof.
  intros Hb Hl. rewrite (split_qword l off) at 1.
  rewrite msg_poly_app by (apply Forall_skipn, Hb).
  rewrite length_skipn. do 2 f_equal. lia.
Qed.

(** The bytes from [i] on: the four qwords the loop body reads, then the
    rest. *)
Lemma msg_poly_four_qwords (D : list Z) (o : nat) :
  Forall is_byte D -> (o + 32 <= List.length D)%nat ->
  let w k := msg_poly (firstn 8 (skipn (o + 8 * k) D)) in
  let n := Z.of_nat (List.length D) - Z.of_nat o in
  msg_poly (skipn o D)
  = Z.lxor (Z.shiftl (w 0%nat) (8 * n - 64))
      (Z.lxor (Z.shiftl (w 1%nat) (8 * n - 128))
         (Z.lxor (Z.shiftl (w 2%nat) (8 * n - 192))
            (Z.lxor (Z.shiftl (w 3%nat) (8 * n - 256))
                    (msg_poly (skipn (o + 32) D))))).
Proof.
  intros Hb Hl w n. subst w n. cbv beta.
  rewrite (msg_poly_qword D o) by (assumption || lia).
  rewrite (msg_poly_qword D (o + 8)) by (assumption || lia).
  rewrite (msg_poly_qword D (o + 8 + 8)) by (assumption || lia).
  rewrite (msg_poly_qword D (o + 8 + 8 + 8)) by (assumption || lia).
  replace (o + 8 * 0)%nat with o by lia.
  replace (o + 8 * 1)%nat with (o + 8)%nat by lia.
  replace (o + 8 * 2)%nat with (o + 8 + 8)%nat by lia.
  replace (o + 8 * 3)%nat with (o + 8 + 8 + 8)%nat by lia.
  replace (o + 8 + 8 + 8 + 8)%nat with (o + 32)%nat by lia.
  repeat (f_equal; try lia).
Qed.

Lemma window_regroup (w0 w1 w2 w3 : Z) (nx : nexts) :
  let in1 := Z.lxor w0 (next1 nx) in
  let in2 := Z.lxor w1 (next2 nx) in
  let in3 := Z.lxor (Z.lxor w2 (next3 nx)) (sh1 in1) in
  let in4 := Z.lxor (Z.lxor (Z.lxor w3 (next4 nx)) (sh2 in1)) (sh1 in2) in
  Z.lxor (Z.shiftl w0 512)
    (Z.lxor (Z.shiftl w1 448)
       (Z.lxor (Z.shiftl w2 384)
          (Z.lxor (Z.shiftl w3 320) (Z.shiftl (pending nx) 256))))
  = Z.shiftl
      (pending (mkNexts in1 in2 (Z.lxor in3 (sh1 in1))
                        (Z.lxor (Z.lxor in4 (sh2 in1)) (sh1 in2)) (next5 nx)))
      256.
Proof.
  intros in1 in2 in3 in4. subst in3 in4.
  set (a := sh1 in1). set (b := sh2 in1). set (c := sh1 in2).
  subst in1 in2.
  unfold pending. cbn [next1 next2 next3 next4 next5].
  rewrite !Z.shiftl_lxor, !Z.shiftl_shiftl by lia.
  cbn [Z.add Pos.add Pos.succ Pos.add_carry].
  xor_ac.
Qed.

Lemma chorba_step (D : list Z) (o : nat) (nx : nexts) :
  Forall is_byte D -> lanes_ok nx -> (o + 72 < List.length D)%nat ->
  let w k := msg_poly (firstn 8 (skipn (o + 8 * k) D)) in
  let in1 := Z.lxor (w 0%nat) (next1 nx) in
  let in2 := Z.lxor (w 1%nat) (next2 nx) in
  let in3 := Z.lxor (Z.lxor (w 2%nat) (next3 nx)) (sh1 in1) in
  let in4 := Z.lxor (Z.lxor (Z.lxor (w 3%nat) (next4 nx)) (sh2 in1)) (sh1 in2) in
  lanes_ok (small_outs nx in1 in2 in3 in4)
  /\ gf2_mod (chorba_state_poly D (Z.of_nat o) nx)
     = gf2_mod (chorba_state_poly D (Z.of_nat o + 32)
                                  (small_outs nx in1 in2 in3 in4)).
Proof.
  intros Hb Hnx Hl w in1 in2 in3 in4.
  assert (W : forall k, (k <= 3)%nat -> 0 <= w k < 2 ^ 64)
    by (intros k Hk; apply qword_range; [exact Hb | lia]).
  pose proof (W 0%nat ltac:(lia)) as W0. pose proof (W 1%nat ltac:(lia)) as W1.
  pose proof (W 2%nat ltac:(lia)) as W2. pose proof (W 3%nat ltac:(lia)) as W3.
  destruct Hnx as (N1 & N2 & N3 & N4 & N5).
  assert (I1 : 0 <= in1 < 2 ^ 64) by (apply lxor_range64; assumption).
  assert (I2 : 0 <= in2 < 2 ^ 64) by (apply lxor_range64; assumption).
  destruct (sh_range in1 I1) as (A1 & A2 & _ & _).
  destruct (sh_range in2 I2) as (B1 & _ & _ & _).
  assert (I3 : 0 <= in3 < 2 ^ 64)
    by (subst in3; repeat (first [assumption | apply lxor_range64])).
  assert (I4 : 0 <= in4 < 2 ^ 64)
    by (subst in4; repeat (first [assumption | apply lxor_range64])).
  assert (Hnx' : lanes_ok (small_outs nx in1 in2 in3 in4))
    by (apply small_outs_ok; unfold lanes_ok; auto).
  split; [exact Hnx'|].
  unfold chorba_state_poly.
  replace (Z.to_nat (Z.of_nat o + 32)) with (o + 32)%nat by lia.
  rewrite Nat2Z.id.
  rewrite (msg_poly_four_qwords D o) by (assumption || lia).
  cbv zeta. fold (w 0%nat) (w 1%nat) (w 2%nat) (w 3%nat).
  set (S' := msg_poly (skipn (o + 32) D)).
  set (e := 8 * (Z.of_nat (List.length D) - (Z.of_nat o + 32)) - 320).
  assert (He : 0 <= e) by (subst e; lia).
  replace (8 * (Z.of_nat (List.length D) - Z.of_nat o) - 64) with (512 + e)
    by (subst e; lia).
  replace (8 * (Z.of_nat (List.length D) - Z.of_nat o) - 128) with (448 + e)
    by (subst e; lia).
  replace (8 * (Z.of_nat (List.length D) - Z.of_nat o) - 192) with (384 + e)
    by (subst e; lia).
  replace (8 * (Z.of_nat (List.length D) - Z.of_nat o) - 256) with (320 + e)
    by (subst e; lia).
  replace (8 * (Z.of_nat (List.length D) - Z.of_nat o) - 320) with (256 + e)
    by (subst e; lia).
  rewrite <- !Z.shiftl_shiftl by lia.
  assert (S0 : 0 <= S') by (apply msg_poly_nonneg, Forall_skipn, Hb).
  transitivity
    (gf2_mod
       (Z.lxor S'
          (Z.shiftl
             (Z.lxor (Z.shiftl (w 0%nat) 512)
                (Z.lxor (Z.shiftl (w 1%nat) 448)
                   (Z.lxor (Z.shiftl (w 2%nat) 384)
                      (Z.lxor (Z.shiftl (w 3%nat) 320)
                              (Z.shiftl (pending nx) 256))))) e))).
  { f_equal. rewrite !Z.shiftl_lxor. xor_ac. }
  rewrite (window_regroup (w 0%nat) (w 1%nat) (w 2%nat) (w 3%nat) nx).
  fold in1 in2. fold in3. fold in4.
  assert (P0 : 0 <= pending (small_outs nx in1 in2 in3 in4)).
  { destruct Hnx' as (M1 & M2 & M3 & M4 & M5). apply pending_nonneg; lia. }
  assert (P1 : 0 <= pending (mkNexts in1 in2 (Z.lxor in3 (sh1 in1))
                               (Z.lxor (Z.lxor in4 (sh2 in1)) (sh1 in2))
                               (next5 nx))).
  { apply pending_nonneg; cbn [next1 next2 next3 next4 next5];
      repeat (first [lia | apply lxor_nonneg]). }
  rewrite !gf2_mod_lxor by (try apply Z.shiftl_nonneg; try apply Z.shiftl_nonneg; assumption).
  f_equal.
  rewrite <- gf2_mod_shift_mod by (try apply Z.shiftl_nonneg; assumption).
  rewrite small_outs_remainder by lia.
  apply gf2_mod_shift_mod; assumption.
Qed.

Lemma qword_firstn (l : list Z) (off n : nat) :
  (off + 8 <= n)%nat ->
  firstn 8 (skipn off (firstn n l)) = firstn 8 (skipn off l).
Proof.
  intros H. rewrite skipn_firstn_comm, firstn_firstn.
  f_equal. lia.
Qed.

(** The 32-byte loop of [chorba_small_nondestructive] runs to its exit and
    keeps the remainder of what is left to process. *)
Lemma small_loop_remainder (m : memory) (len : Z) :
  Forall is_byte (m_input m) -> 0 <= len <= INT_MAX - 72 ->
  len <= region_size m Input ->
  let D := firstn (Z.to_nat len) (m_input m) in
  forall (fuel : nat) (i : Z) (nx : nexts),
    0 <= i <= len -> len - i - 72 <= 32 * Z.of_nat fuel -> lanes_ok nx ->
    exists i' nx',
      stride32_loop fuel (small_body m) len i nx = Next (i', nx')
      /\ i <= i' <= len /\ len - i' <= 72 /\ lanes_ok nx'
      /\ gf2_mod (chorba_state_poly D i' nx') = gf2_mod (chorba_state_poly D i nx)
      /\ (i' = i \/ 40 < len - i').
Proof.
  intros Hb Hlen Hsz D. pose proof INT_MAX_value as HM.
  assert (LD : Z.of_nat (List.length D) = len).
  { subst D. rewrite length_firstn. unfold region_size in Hsz. cbn in Hsz. lia. }
  assert (BD : Forall is_byte D) by (subst D; apply Forall_firstn, Hb).
  induction fuel as [|fuel IH]; intros i nx Hi Hf Hnx.
  - cbn [stride32_loop]. rewrite int_add_ok by lia. cbn [lift bind].
    rewrite int_add_ok by lia. cbn [lift bind].
    unfold u64. rewrite Z.mod_small by lia.
    destruct (Z.ltb_spec (i + 32 + 40) len); [lia|].
    exists i, nx. repeat (split; [reflexivity || lia || assumption|]).
    left. reflexivity.
  - cbn [stride32_loop]. rewrite int_add_ok by lia. cbn [lift bind].
    rewrite int_add_ok by lia. cbn [lift bind].
    unfold u64. rewrite Z.mod_small by lia.
    destruct (Z.ltb_spec (i + 32 + 40) len) as [Hlt|Hge].
    + rewrite small_body_value by (assumption || lia). cbv zeta. cbn [bind].
      pose proof (chorba_step D (Z.to_nat i) nx BD Hnx ltac:(lia)) as Hstep.
      cbv beta zeta in Hstep.
      assert (Q : forall k, (k <= 3)%nat ->
                msg_poly (firstn 8 (skipn (Z.to_nat i + 8 * k) D))
                = msg_poly (firstn 8 (skipn (Z.to_nat (i + 8 * Z.of_nat k))
                                            (m_input m)))).
      { intros k Hk. subst D. rewrite qword_firstn by lia.
        do 3 f_equal. lia. }
      rewrite !Q in Hstep by lia.
      change (Z.of_nat 0) with 0 in Hstep. change (Z.of_nat 1) with 1 in Hstep.
      change (Z.of_nat 2) with 2 in Hstep. change (Z.of_nat 3) with 3 in Hstep.
      rewrite Z2Nat.id in Hstep by lia.
      destruct Hstep as [Hnx' Hrem].
      match type of Hnx' with
      | lanes_ok ?n' =>
          destruct (IH (i + 32) n') as (i' & nx'' & E & B1 & B2 & B3 & B4 & B5);
            [lia | lia | exact Hnx' |]
      end.
      exists i', nx''. split; [exact E|].
      split; [lia|]. split; [lia|]. split; [exact B3|].
      split; [rewrite B4; symmetry; exact Hrem|].
      right. destruct B5 as [->|B5]; lia.
    + exists i, nx. repeat (split; [reflexivity || lia || assumption|]).
      left. reflexivity.
Qed.

(** ** The 72-byte tail *)

Lemma msg_poly_swapped (seg : list Z) (v : Z) :
  Forall is_byte seg -> List.length seg = 8%nat -> 0 <= v < 2 ^ 64 ->
  msg_poly (to_le_bytes 8 (Z.lxor (le_bytes seg) (be64toh v)))
  = Z.lxor (msg_poly seg) v.
Proof.
  intros Hb Hl Hv.
  change (msg_poly (to_le_bytes 8 (Z.lxor (le_bytes seg) (be64toh v))))
    with (bswap 8 (Z.lxor (le_bytes seg) (be64toh v))).
  rewrite bswap_lxor. unfold be64toh. rewrite bswap_involutive.
  change (8 * Z.of_nat 8) with 64. rewrite (Z.mod_small v) by exact Hv.
  f_equal. rewrite <- Hl. apply bswap_le_bytes, Hb.
Qed.

(** Xoring a lane into qword [k] of [final] xors it into the 72-byte
    number [final] holds. *)
Lemma final_xor_poly (m : memory) (k v : Z) :
  Forall is_byte (m_final m) -> List.length (m_final m) = 72%nat ->
  0 <= k <= 8 -> 0 <= v < 2 ^ 64 ->
  exists m',
    store64 m Final (k * 8)
      (Z.lxor (le_bytes (firstn 8 (skipn (Z.to_nat (k * 8)) (m_final m))))
              (be64toh v)) = Next m'
    /\ m_input m' = m_input m
    /\ Forall is_byte (m_final m') /\ List.length (m_final m') = 72%nat
    /\ msg_poly (m_final m')
       = Z.lxor (msg_poly (m_final m)) (Z.shiftl v (8 * (64 - 8 * k))).
Proof.
  intros Hb Hl Hk Hv.
  rewrite store64_final by lia.
  set (F := m_final m) in *.
  set (o := Z.to_nat (k * 8)).
  set (seg := firstn 8 (skipn o F)).
  set (seg' := to_le_bytes 8 (Z.lxor (le_bytes seg) (be64toh v))).
  assert (Lseg : List.length seg = 8%nat) by (subst seg; apply qword_length; lia).
  assert (Bseg : Forall is_byte seg)
    by (subst seg; apply Forall_firstn, Forall_skipn, Hb).
  assert (Bseg' : Forall is_byte seg') by (subst seg'; apply to_le_bytes_bytes).
  assert (BC : Forall is_byte (skipn (o + 8) F)) by (apply Forall_skipn, Hb).
  assert (LC : Z.of_nat (List.length (skipn (o + 8) F)) = 64 - 8 * k)
    by (rewrite length_skipn; subst o; lia).
  eexists. split; [reflexivity|].
  destruct m as [inp fin bb]. cbn [set_region m_input m_final] in *.
  split; [reflexivity|]. split.
  { apply Forall_app. split; [apply Forall_firstn, Hb|].
    apply Forall_app. split; assumption. }
  split.
  { rewrite !length_app, length_firstn, length_skipn.
    subst seg'. rewrite to_le_bytes_length. subst o. lia. }
  rewrite <- (firstn_mid_skipn F o) at 3. fold seg.
  rewrite !msg_poly_app
    by (try (apply Forall_app; split); assumption).
  rewrite !length_app, LC.
  subst seg'. rewrite msg_poly_swapped by assumption.
  rewrite to_le_bytes_length, Lseg.
  rewrite !Z.shiftl_lxor. xor_ac.
Qed.

Lemma msg_poly_all_zero (l : list Z) : Forall (fun b => b = 0) l -> msg_poly l = 0.
Proof.
  unfold msg_poly. intros H. induction H as [|b l Hb Hl IH]; [reflexivity|].
  subst b. cbn [fold_left]. exact IH.
Qed.

Lemma zeros_all_zero (n : nat) : Forall (fun b => b = 0) (repeat 0 n).
Proof. apply Forall_forall. intros x Hx. apply repeat_spec in Hx. exact Hx. Qed.

Lemma pending_split (nx : nexts) (e : Z) :
  0 <= e ->
  Z.shiftl (pending nx) e
  = Z.lxor (Z.shiftl (next1 nx) (256 + e))
      (Z.lxor (Z.shiftl (next2 nx) (192 + e))
         (Z.lxor (Z.shiftl (next3 nx) (128 + e))
            (Z.lxor (Z.shiftl (next4 nx) (64 + e)) (Z.shiftl (next5 nx) e)))).
Proof.
  intros He. unfold pending.
  rewrite !Z.shiftl_lxor, !Z.shiftl_shiftl by lia. reflexivity.
Qed.

(** The tail of [chorba_small_nondestructive]: the bytes the final loop
    reads are the rest of the block with the pending lanes xored in. *)
Lemma small_tail_poly (m : memory) (len i : Z) (nx : nexts) :
  Forall is_byte (m_input m) -> m_final m = repeat 0 72 ->
  0 <= i -> 40 <= len - i <= 72 -> len <= region_size m Input -> lanes_ok nx ->
  let D := firstn (Z.to_nat len) (m_input m) in
  exists m1 fs,
    fill_final m len i nx = Next m1
    /\ load m1 Final 0 (u64 (len - i)) = Next fs
    /\ Forall is_byte fs
    /\ msg_poly fs = chorba_state_poly D i nx.
Proof.
  intros Hb Hf Hi Hn Hsz (N1 & N2 & N3 & N4 & N5) D.
  assert (Hin : Z.of_nat (List.length (m_input m)) = region_size m Input) by reflexivity.
  unfold fill_final.
  replace (u64 (len - i)) with (len - i) by (unfold u64; rewrite Z.mod_small; lia).
  unfold load at 1. cbn [region_bytes].
  rewrite slice_at by lia. cbn [lift bind].
  set (bs := firstn (Z.to_nat (len - i)) (skipn (Z.to_nat i) (m_input m))).
  assert (Lbs : List.length bs = Z.to_nat (len - i)).
  { subst bs. rewrite length_firstn, length_skipn. lia. }
  assert (Bbs : Forall is_byte bs)
    by (subst bs; apply Forall_firstn, Forall_skipn, Hb).
  unfold store at 1. cbn [region_bytes]. rewrite Hf.
  rewrite blit_prefix by (rewrite repeat_length; lia). cbn [lift bind].
  set (zs := skipn (List.length bs) (repeat 0 72)).
  assert (Lzs : List.length zs = (72 - List.length bs)%nat)
    by (subst zs; rewrite length_skipn, repeat_length; reflexivity).
  assert (Zzs : msg_poly zs = 0).
  { subst zs. apply msg_poly_all_zero, Forall_skipn, zeros_all_zero. }
  assert (Bzs : Forall is_byte zs) by (subst zs; apply Forall_skipn, zeros_bytes).
  set (m1 := set_region m Final (bs ++ zs)).
  assert (B1 : Forall is_byte (m_final m1)).
  { subst m1. destruct m as [inp fin bb]. cbn. apply Forall_app. split; assumption. }
  assert (L1 : List.length (m_final m1) = 72%nat).
  { subst m1. destruct m as [inp fin bb]. cbn. rewrite length_app. lia. }
  assert (P1 : msg_poly (m_final m1)
               = Z.shiftl (msg_poly bs) (8 * (72 - (len - i)))).
  { subst m1. destruct m as [inp fin bb]. cbn [set_region m_final].
    rewrite msg_poly_app by exact Bzs. rewrite Zzs, Z.lxor_0_r.
    f_equal. lia. }
  assert (I1 : m_input m1 = m_input m) by (subst m1; destruct m as [inp fin bb]; reflexivity).
  clearbody m1.
  rewrite load64_final by lia. cbn [bind].
  destruct (final_xor_poly m1 0 (next1 nx) B1 L1 ltac:(lia) N1)
    as (m2 & E2 & I2 & B2 & L2 & P2).
  rewrite E2. cbn [bind].
  rewrite load64_final by lia. cbn [bind].
  destruct (final_xor_poly m2 1 (next2 nx) B2 L2 ltac:(lia) N2)
    as (m3 & E3 & I3 & B3 & L3 & P3).
  rewrite E3. cbn [bind].
  rewrite load64_final by lia. cbn [bind].
  destruct (final_xor_poly m3 2 (next3 nx) B3 L3 ltac:(lia) N3)
    as (m4 & E4 & I4 & B4 & L4 & P4).
  rewrite E4. cbn [bind].
  rewrite load64_final by lia. cbn [bind].
  destruct (final_xor_poly m4 3 (next4 nx) B4 L4 ltac:(lia) N4)
    as (m5 & E5 & I5 & B5 & L5 & P5).
  rewrite E5. cbn [bind].
  rewrite load64_final by lia. cbn [bind].
  destruct (final_xor_poly m5 4 (next5 nx) B5 L5 ltac:(lia) N5)
    as (m6 & E6 & I6 & B6 & L6 & P6).
  rewrite E6. cbn [bind].
  exists m6, (firstn (Z.to_nat (len - i)) (m_final m6)).
  split; [reflexivity|]. split.
  { unfold load. cbn [region_bytes]. rewrite slice_at by lia. reflexivity. }
  split; [apply Forall_firstn, B6|].
  rewrite msg_poly_firstn by (assumption || lia).
  rewrite L6, P6, P5, P4, P3, P2, P1.
  assert (LD : Z.of_nat (List.length D) = len).
  { subst D. rewrite length_firstn. lia. }
  assert (SD : skipn (Z.to_nat i) D = bs).
  { subst D bs. rewrite skipn_firstn_comm. f_equal. lia. }
  unfold chorba_state_poly. rewrite SD, LD.
  set (e := 8 * (len - i) - 320).
  assert (He : 0 <= e <= 256) by (subst e; lia).
  rewrite pending_split by lia.
  replace (8 * Z.of_nat (72 - Z.to_nat (len - i))) with (256 - e) by (subst e; lia).
  replace (8 * (72 - (len - i))) with (256 - e) by (subst e; lia).
  rewrite !Z.shiftr_lxor, !Z.shiftr_shiftl_l by lia.
  replace (256 - e - (256 - e)) with 0 by lia.
  replace (8 * (64 - 8 * 0) - (256 - e)) with (256 + e) by lia.
  replace (8 * (64 - 8 * 1) - (256 - e)) with (192 + e) by lia.
  replace (8 * (64 - 8 * 2) - (256 - e)) with (128 + e) by lia.
  replace (8 * (64 - 8 * 3) - (256 - e)) with (64 + e) by lia.
  replace (8 * (64 - 8 * 4) - (256 - e)) with e by lia.
  rewrite Z.shiftl_0_r. xor_ac.
Qed.

(** The byte rule continued from any register: the remainder of the
    register times x^(8 * length) plus the message times x^32. *)
Lemma crc_update_fold_poly (bs : list Z) (crc : Z) :
  Forall is_byte bs -> 0 <= crc < 2 ^ 32 ->
  fold_left crc_update bs crc
  = gf2_mod (Z.lxor (Z.shiftl crc (8 * Z.of_nat (List.length bs)))
                    (Z.shiftl (msg_poly bs) 32)).
Proof.
  intros Hb Hc. induction bs as [|b bs IH] using rev_ind.
  - cbn [fold_left List.length]. change (8 * Z.of_nat 0) with 0.
    rewrite Z.shiftl_0_r. change (Z.shiftl (msg_poly []) 32) with 0.
    rewrite Z.lxor_0_r, gf2_mod_small by exact Hc. reflexivity.
  - apply Forall_app in Hb as [Hbs Hb1].
    assert (Hb' : 0 <= b < 256) by (inversion Hb1; assumption).
    specialize (IH Hbs). pose proof (msg_poly_nonneg bs Hbs) as Hm.
    assert (Hr : 0 <= fold_left crc_update bs crc < 2 ^ 32)
      by (apply fold_crc_update_range; exact Hc).
    rewrite fold_left_app. cbn [fold_left].
    rewrite update_as_zstep.
    rewrite zstep_poly by (apply lxor_range32; [exact Hr | apply shl24_range, Hb']).
    rewrite IH.
    rewrite msg_poly_app by exact Hb1.
    cbn [List.length]. change (8 * Z.of_nat 1) with 8.
    change (msg_poly [b]) with (Z.lor (Z.shiftl 0 8) b).
    rewrite Z.shiftl_0_l, Z.lor_0_l.
    rewrite length_app. cbn [List.length].
    rewrite !Z.shiftl_lxor, !Z.shiftl_shiftl by lia.
    assert (N1 : 0 <= Z.shiftl crc (8 * Z.of_nat (List.length bs)))
      by (apply Z.shiftl_nonneg; lia).
    assert (N2 : 0 <= Z.shiftl (msg_poly bs) 32) by (apply Z.shiftl_nonneg, Hm).
    assert (N3 : 0 <= Z.lxor (Z.shiftl crc (8 * Z.of_nat (List.length bs)))
                             (Z.shiftl (msg_poly bs) 32))
      by (apply lxor_nonneg; assumption).
    pose proof (gf2_mod_range _ N3) as N4.
    rewrite gf2_mod_lxor by (apply Z.shiftl_nonneg; lia).
    rewrite gf2_mod_shift_mod by lia.
    rewrite <- gf2_mod_lxor by (apply Z.shiftl_nonneg; lia).
    f_equal.
    rewrite !Z.shiftl_lxor, !Z.shiftl_shiftl by lia.
    replace (8 * Z.of_nat (List.length bs + 1))
      with (8 * Z.of_nat (List.length bs) + 8) by lia.
    change (24 + 8) with 32. change (8 + 32) with 40. change (32 + 8) with 40.
    xor_ac.
Qed.

(** [chorba_small_nondestructive] on a block longer than [final]. *)
Lemma chorba_small_long (crc len : Z) (m : memory) :
  0 <= crc < 2 ^ 32 -> 72 < len <= INT_MAX - 72 -> len <= region_size m Input ->
  Forall is_byte (m_input m) ->
  exists m',
    chorba_small_nondestructive crc len m
    = Next (fold_left crc_update (firstn (Z.to_nat len) (m_input m)) crc, m').
Proof.
  intros Hc Hlen Hsz Hb. pose proof INT_MAX_value as HM.
  unfold chorba_small_nondestructive.
  set (m0 := set_region m Final (repeat 0 72)).
  assert (I0 : m_input m0 = m_input m) by (subst m0; destruct m as [a b c]; reflexivity).
  assert (F0 : m_final m0 = repeat 0 72) by (subst m0; destruct m as [a b c]; reflexivity).
  assert (S0 : region_size m0 Input = region_size m Input)
    by (unfold region_size; cbn [region_bytes]; rewrite I0; reflexivity).
  set (nx0 := mkNexts (u64 (Z.shiftl crc 32)) 0 0 0 0).
  assert (U : u64 (Z.shiftl crc 32) = Z.shiftl crc 32).
  { unfold u64. apply Z.mod_small. rewrite Z.shiftl_mul_pow2 by lia. lia. }
  assert (Hnx0 : lanes_ok nx0).
  { subst nx0. unfold lanes_ok. cbn [next1 next2 next3 next4 next5].
    rewrite U. rewrite Z.shiftl_mul_pow2 by lia. lia. }
  set (D := firstn (Z.to_nat len) (m_input m)).
  assert (LD : Z.of_nat (List.length D) = len).
  { subst D. rewrite length_firstn. unfold region_size in Hsz. cbn in Hsz. lia. }
  assert (BD : Forall is_byte D) by (subst D; apply Forall_firstn, Hb).
  destruct (small_loop_remainder m0 len) with (fuel := Z.to_nat len) (i := 0)
    (nx := nx0) as (i & nx & E & Bi & Bn & Hnx & Hrem & Hrun);
    [rewrite I0; exact Hb | lia | lia | lia | lia | exact Hnx0 |].
  rewrite I0 in Hrem. fold D in Hrem.
  rewrite E. cbn [bind].
  destruct (small_tail_poly m0 len i nx) as (m1 & fs & E1 & E2 & Bfs & Pfs);
    [rewrite I0; exact Hb | exact F0 | lia | | lia | exact Hnx |].
  { destruct Hrun as [->|Hrun]; lia. }
  rewrite I0 in Pfs. fold D in Pfs.
  rewrite E1. cbn [bind]. rewrite E2. cbn [bind].
  exists m1. f_equal. f_equal.
  rewrite crc_byte32_fold by (assumption || lia).
  fold (crc_ref fs). rewrite (crc_ref_is_crc_poly fs Bfs).
  unfold crc_poly. rewrite Pfs.
  rewrite crc_update_fold_poly by assumption. rewrite LD.
  assert (P0 : 0 <= chorba_state_poly D i nx).
  { rewrite <- Pfs. apply msg_poly_nonneg, Bfs. }
  assert (Q0 : chorba_state_poly D 0 nx0
               = Z.lxor (msg_poly D) (Z.shiftl crc (8 * len - 32))).
  { unfold chorba_state_poly. cbn [Z.to_nat skipn]. rewrite LD.
    f_equal. subst nx0. unfold pending. cbn [next1 next2 next3 next4 next5].
    rewrite U, !Z.shiftl_0_l, !Z.lxor_0_r, !Z.shiftl_shiftl by lia.
    f_equal. lia. }
  assert (Q1 : 0 <= chorba_state_poly D 0 nx0).
  { rewrite Q0. apply lxor_nonneg; [apply msg_poly_nonneg, BD|].
    apply Z.shiftl_nonneg. lia. }
  rewrite <- gf2_mod_shift_mod by lia.
  rewrite Hrem.
  rewrite gf2_mod_shift_mod by lia.
  rewrite Q0. f_equal.
  rewrite Z.shiftl_lxor, Z.shiftl_shiftl by lia.
  replace (8 * len - 32 + 32) with (8 * len) by lia.
  apply Z.lxor_comm.
Qed.

(** ** chorba_small_nondestructive computes the byte rule *)

(** X14. One iteration of the 32-byte loop of [chorba_small_nondestructive]
    preserves the remainder modulo G.  x^300 + x^155 + x^117 + x^89 + 1 is a
    multiple of G, and the loop body uses it to trade the four qwords it
    consumes for xors into the five qwords behind them: whenever more than
    72 bytes are left, the body returns new 64-bit pending lanes, and the
    polynomial of what is left to process (the bytes from the loop index
    on, with the pending lanes xored into the first 40 of them) has the
    same remainder before and after. *)
Theorem chorba_loop_preserves_remainder (m : memory) (i : Z) (nx : nexts) :
  Forall is_byte (m_input m) -> lanes_ok nx ->
  0 <= i -> i + 72 < region_size m Input ->
  gf2_mod (chorba_mul 1) = 0
  /\ exists nx',
       small_body m i nx = Next nx' /\ lanes_ok nx'
       /\ gf2_mod (chorba_state_poly (m_input m) i nx)
          = gf2_mod (chorba_state_poly (m_input m) (i + 32) nx').
Proof.
  intros Hb Hnx Hi Hsz. split; [apply chorba_mul_one|].
  unfold region_size in Hsz. cbn [region_bytes] in Hsz.
  rewrite small_body_value by (unfold region_size; cbn [region_bytes]; (assumption || lia)).
  cbv beta zeta.
  pose proof (chorba_step (m_input m) (Z.to_nat i) nx Hb Hnx ltac:(lia)) as Hstep.
  cbv beta zeta in Hstep.
  replace (Z.to_nat i + 8 * 0)%nat with (Z.to_nat (i + 8 * 0)) in Hstep by lia.
  replace (Z.to_nat i + 8 * 1)%nat with (Z.to_nat (i + 8 * 1)) in Hstep by lia.
  replace (Z.to_nat i + 8 * 2)%nat with (Z.to_nat (i + 8 * 2)) in Hstep by lia.
  replace (Z.to_nat i + 8 * 3)%nat with (Z.to_nat (i + 8 * 3)) in Hstep by lia.
  rewrite Z2Nat.id in Hstep by lia.
  destruct Hstep as [Hok Hrem].
  eexists. split; [reflexivity|]. split; [exact Hok | exact Hrem].
Qed.

Lemma chorba_loop_preserves_remainder_witness :
  gf2_mod (chorba_mul 1) = 0
  /\ exists nx',
       small_body (mkMem (repeat 7 200) [] []) 32 (mkNexts 1 2 3 4 5) = Next nx'
       /\ lanes_ok nx'
       /\ gf2_mod (chorba_state_poly (m_input (mkMem (repeat 7 200) [] [])) 32
                                     (mkNexts 1 2 3 4 5))
          = gf2_mod (chorba_state_poly (m_input (mkMem (repeat 7 200) [] []))
                                       (32 + 32) nx').
Proof.
  apply (chorba_loop_preserves_remainder (mkMem (repeat 7 200) [] []) 32
           (mkNexts 1 2 3 4 5)).
  - cbn [m_input]. apply Forall_forall. intros x Hx.
    apply repeat_spec in Hx. subst x. unfold is_byte. lia.
  - unfold lanes_ok. cbn [next1 next2 next3 next4 next5]. lia.
  - lia.
  - vm_compute. reflexivity.
Defined.

Lemma chorba_small_any (crc len : Z) (m : memory) :
  0 <= crc < 2 ^ 32 -> 0 <= len <= INT_MAX - 72 -> len <= region_size m Input ->
  Forall is_byte (m_input m) -> crc = 0 \/ 4 <= len ->
  exists m',
    chorba_small_nondestructive crc len m
    = Next (fold_left crc_update (firstn (Z.to_nat len) (m_input m)) crc, m').
Proof.
  intros Hc Hlen Hsz Hb Hcase.
  destruct (Z.le_gt_cases len 72) as [Hs|Hl].
  - apply chorba_small_fits; (assumption || lia).
  - apply chorba_small_long; (assumption || lia).
Qed.

(** X15. [chorba_small_nondestructive] computes the byte rule.  For every
    block of bytes of length at most INT_MAX - 72 and every incoming 32-bit
    CRC that is 0 or is followed by at least four bytes, the routine
    returns the state the byte-by-byte rule reaches from the incoming CRC
    over the block, and leaves the block unchanged;
    [chorba_118960_nondestructive] returns the same for blocks shorter
    than 2 * 118960 + 512 bytes. *)
Theorem chorba_small_is_byte_rule (crc len : Z) (m : memory) :
  0 <= crc < 2 ^ 32 -> 0 <= len <= INT_MAX - 72 -> len <= region_size m Input ->
  Forall is_byte (m_input m) -> crc = 0 \/ 4 <= len ->
  exists m',
    chorba_small_nondestructive crc len m
    = Next (fold_left crc_update (firstn (Z.to_nat len) (m_input m)) crc, m')
    /\ m_input m' = m_input m
    /\ (len < 118960 * 2 + 512 ->
        chorba_118960_nondestructive crc len m
        = Next (fold_left crc_update (firstn (Z.to_nat len) (m_input m)) crc, m')).
Proof.
  intros Hc Hlen Hsz Hb Hcase.
  destruct (chorba_small_any crc len m Hc Hlen Hsz Hb Hcase) as (m' & E).
  exists m'. split; [exact E|]. split.
  - apply (chorba_small_frame crc len m _ m' E).
  - intros Hs. unfold chorba_118960_nondestructive.
    destruct (Z.ltb_spec len (118960 * 2 + 512)); [exact E | lia].
Qed.

Lemma chorba_small_is_byte_rule_witness :
  exists m',
    chorba_small_nondestructive 5 200 (mkMem (repeat 7 200) [] [])
    = Next (fold_left crc_update
              (firstn (Z.to_nat 200) (m_input (mkMem (repeat 7 200) [] []))) 5, m')
    /\ m_input m' = m_input (mkMem (repeat 7 200) [] [])
    /\ (200 < 118960 * 2 + 512 ->
        chorba_118960_nondestructive 5 200 (mkMem (repeat 7 200) [] [])
        = Next (fold_left crc_update
                  (firstn (Z.to_nat 200) (m_input (mkMem (repeat 7 200) [] []))) 5,
                m')).
Proof.
  apply (chorba_small_is_byte_rule 5 200 (mkMem (repeat 7 200) [] [])).
  - lia.
  - vm_compute. split; discriminate.
  - vm_compute. discriminate.
  - cbn [m_input]. apply Forall_forall. intros x Hx.
    apply repeat_spec in Hx. subst x. unfold is_byte. lia.
  - right. lia.
Defined.

Lemma chorba_file_one_block (heap data : list Z) :
  Forall is_byte data -> Z.of_nat (List.length data) < 118960 * 2 + 512 ->
  cksum_chorba_file heap (fopen_bytes data)
  = Some (CksumDone true (crc_ref data) (Z.of_nat (List.length data))).
Proof.
  intros Hb Hl. unfold cksum_chorba_file, fopen_bytes. cbn [f_data chorba_file_loop].
  pose proof BUFLEN_value as HB. pose proof INT_MAX_value as HM.
  rewrite fread_all by lia.
  destruct (Z.eqb_spec (Z.of_nat (List.length data)) 0) as [E|E].
  - assert (data = []) by (destruct data; [reflexivity | cbn in E; lia]).
    subst data. reflexivity.
  - rewrite add_length_spec by lia. cbn [Z.add].
    destruct (Z.ltb_spec (Z.of_nat (List.length data)) (2 ^ 64)) as [_|]; [|lia].
    destruct (chorba_small_is_byte_rule 0 (Z.of_nat (List.length data))
                (mkMem data [] heap)) as (m' & _ & _ & Em);
      [lia | lia | unfold region_size; cbn; lia | exact Hb | left; reflexivity |].
    rewrite Em by lia. cbn [bind fst feof f_eof ferror f_err negb finish m_input].
    rewrite Nat2Z.id, firstn_all. reflexivity.
Qed.

(** X12. On every stream of fewer than 2 * 118960 + 512 = 238432 bytes
    [cksum_chorba_file] returns the reference CRC of the data (already
    reduced to 32 bits) and the byte count, whatever the initial content of
    the block it allocates; its register agrees with that of
    [cksum_slice8] in the low 32 bits. *)
Theorem chorba_file_streams (heap data : list Z) :
  Forall is_byte data -> Z.of_nat (List.length data) < 118960 * 2 + 512 ->
  cksum_chorba_file heap (fopen_bytes data)
  = Some (CksumDone true (crc_ref data) (Z.of_nat (List.length data)))
  /\ exists c,
       cksum_slice8 (fopen_bytes data)
       = Some (CksumDone true c (Z.of_nat (List.length data)))
       /\ c mod 2 ^ 32 = crc_ref data.
Proof.
  intros Hb Hl. split; [apply chorba_file_one_block; assumption|].
  apply cksum_slice8_spec; [exact Hb | lia].
Qed.

Lemma chorba_file_streams_witness :
  cksum_chorba_file [] (fopen_bytes digits_1_to_9)
  = Some (CksumDone true (crc_ref digits_1_to_9)
            (Z.of_nat (List.length digits_1_to_9)))
  /\ exists c,
       cksum_slice8 (fopen_bytes digits_1_to_9)
       = Some (CksumDone true c (Z.of_nat (List.length digits_1_to_9)))
       /\ c mod 2 ^ 32 = crc_ref digits_1_to_9.
Proof.
  apply (chorba_file_streams [] digits_1_to_9).
  - unfold digits_1_to_9, is_byte.
    repeat (apply Forall_cons; [lia|]). apply Forall_nil.
  - vm_compute. reflexivity.
Defined.

(** * The fold loops of the carry-less multiplication backends *)


(** ** Registers as polynomials *)

Lemma shuffle_indices :
  map (lane_byte (mm_set_epi8 [0; 1; 2; 3; 4; 5; 6; 7; 8; 9; 10; 11; 12; 13; 14; 15]))
      lane_index
  = [15; 14; 13; 12; 11; 10; 9; 8; 7; 6; 5; 4; 3; 2; 1; 0].
Proof. vm_compute. reflexivity. Qed.

(** Shuffling with the byte-swap constant reverses the bytes of a lane. *)
Lemma shuffle_lane_bswap (a : Z) :
  shuffle_lane a (mm_set_epi8 [0; 1; 2; 3; 4; 5; 6; 7; 8; 9; 10; 11; 12; 13; 14; 15])
  = bswap 16 a.
Proof.
  unfold shuffle_lane.
  rewrite <- (map_map (lane_byte (mm_set_epi8 _))
                (fun c => if Z.testbit c 7 then 0 else lane_byte a (Z.land c 0x0F))).
  rewrite shuffle_indices. cbn [map].
  change (Z.testbit 15 7) with false. change (Z.testbit 14 7) with false.
  change (Z.testbit 13 7) with false. change (Z.testbit 12 7) with false.
  change (Z.testbit 11 7) with false. change (Z.testbit 10 7) with false.
  change (Z.testbit 9 7) with false. change (Z.testbit 8 7) with false.
  change (Z.testbit 7 7) with false. change (Z.testbit 6 7) with false.
  change (Z.testbit 5 7) with false. change (Z.testbit 4 7) with false.
  change (Z.testbit 3 7) with false. change (Z.testbit 2 7) with false.
  change (Z.testbit 1 7) with false. change (Z.testbit 0 7) with false.
  cbv iota.
  unfold bswap. rewrite <- (rev_involutive (to_le_bytes 16 a)), be_bytes_rev.
  apply (f_equal le_bytes).
  change (Z.land 15 15) with 15. change (Z.land 14 15) with 14.
  change (Z.land 13 15) with 13. change (Z.land 12 15) with 12.
  change (Z.land 11 15) with 11. change (Z.land 10 15) with 10.
  change (Z.land 9 15) with 9. change (Z.land 8 15) with 8.
  change (Z.land 7 15) with 7. change (Z.land 6 15) with 6.
  change (Z.land 5 15) with 5. change (Z.land 4 15) with 4.
  change (Z.land 3 15) with 3. change (Z.land 2 15) with 2.
  change (Z.land 1 15) with 1. change (Z.land 0 15) with 0.
  cbn [to_le_bytes rev app]. unfold lane_byte.
  rewrite !Z.shiftr_shiftr by lia.
  rewrite Z.shiftr_0_r. reflexivity.
Qed.

Lemma shuffle_register (v : vec) :
  mm_shuffle_epi8 v (shuffle_constant (List.length v)) = map (bswap 16) v.
Proof.
  unfold mm_shuffle_epi8, shuffle_constant, vbroadcast, map2.
  induction v as [|d v IH]; [reflexivity|].
  cbn [List.length repeat combine map fst snd].
  rewrite shuffle_lane_bswap. f_equal. exact IH.
Qed.

Lemma lanes_of_bytes_length (n : nat) (bs : list Z) :
  List.length (lanes_of_bytes n bs) = n.
Proof.
  revert bs. induction n as [|n IH]; intros bs; [reflexivity|].
  cbn [lanes_of_bytes List.length]. rewrite IH. reflexivity.
Qed.

(** A loaded and byte-swapped block is the message polynomial of its bytes. *)
Lemma reg_poly_loaded (n : nat) (bs : list Z) :
  Forall is_byte bs -> List.length bs = (16 * n)%nat ->
  reg_poly (map (bswap 16) (lanes_of_bytes n bs)) = msg_poly bs.
Proof.
  revert bs. induction n as [|n IH]; intros bs Hb Hl.
  - destruct bs; [reflexivity | discriminate].
  - cbn [lanes_of_bytes map reg_poly].
    rewrite length_map, lanes_of_bytes_length.
    rewrite IH by (try apply Forall_skipn; try rewrite length_skipn; try lia; exact Hb).
    assert (L16 : List.length (firstn 16 bs) = 16%nat)
      by (rewrite length_firstn; lia).
    rewrite <- L16 at 1.
    rewrite bswap_le_bytes by (apply Forall_firstn, Hb).
    rewrite <- (firstn_skipn 16 bs) at 3.
    rewrite msg_poly_app by (apply Forall_skipn, Hb).
    rewrite length_skipn. do 2 f_equal. lia.
Qed.

Lemma msg_poly_be_bytes (l : list Z) : msg_poly l = be_bytes l.
Proof. reflexivity. Qed.


Lemma bswap16_bytes (d : Z) :
  to_le_bytes 16 (bswap 16 d) = rev (to_le_bytes 16 d).
Proof. apply bswap_bytes. Qed.

(** The bytes a byte-swapped register is stored as spell its polynomial. *)
Lemma stored_register (v : vec) :
  lanes_fit v ->
  let bs := bytes_of_lanes (map (bswap 16) v) in
  List.length bs = (16 * List.length v)%nat /\ Forall is_byte bs
  /\ msg_poly bs = reg_poly v.
Proof.
  intros Hv. cbv zeta. unfold bytes_of_lanes.
  induction Hv as [|d v Hd Hv IH].
  - split; [reflexivity | split; [constructor | reflexivity]].
  - destruct IH as (IL & IB & IP).
    cbn [map flat_map List.length reg_poly].
    rewrite bswap16_bytes.
    assert (LB : List.length (rev (to_le_bytes 16 d)) = 16%nat)
      by (rewrite length_rev; apply to_le_bytes_length).
    split; [rewrite length_app, IL, LB; lia|].
    split; [apply Forall_app; split;
            [apply Forall_rev, to_le_bytes_bytes | exact IB]|].
    rewrite msg_poly_app by exact IB.
    rewrite IP, IL. f_equal.
    rewrite msg_poly_be_bytes, be_bytes_rev, le_bytes_to_le_bytes.
    change (8 * Z.of_nat 16) with 128. rewrite Z.mod_small by exact Hd.
    f_equal. lia.
Qed.

(** ** A fold keeps a register within 128-bit lanes and multiplies its
    polynomial *)

Lemma lxor_range (n x y : Z) :
  0 <= n -> 0 <= x < 2 ^ n -> 0 <= y < 2 ^ n -> 0 <= Z.lxor x y < 2 ^ n.
Proof.
  intros Hn Hx Hy.
  rewrite <- (Z.mod_small x (2 ^ n)), <- (Z.mod_small y (2 ^ n)) by assumption.
  replace (Z.lxor (x mod 2 ^ n) (y mod 2 ^ n)) with ((Z.lxor x y) mod 2 ^ n).
  - apply Z.mod_pos_bound. apply Z.pow_pos_nonneg; lia.
  - Z.bitblast.
Qed.

Lemma shiftl_range (a i n : Z) :
  0 <= i -> 0 <= a < 2 ^ n -> 0 <= n -> 0 <= Z.shiftl a i < 2 ^ (n + i).
Proof.
  intros Hi Ha Hn. rewrite Z.shiftl_mul_pow2, Z.pow_add_r by lia.
  assert (0 < 2 ^ i) by (apply Z.pow_pos_nonneg; lia). nia.
Qed.

Lemma clmul_fold_range (a b : Z) (l : list nat) (acc : Z) :
  0 <= a < 2 ^ 64 -> Forall (fun i => (i < 64)%nat) l -> 0 <= acc < 2 ^ 128 ->
  0 <= fold_left (clmul_term a b) l acc < 2 ^ 128.
Proof.
  intros Ha Hl. revert acc. induction Hl as [|i l Hi Hl IH]; intros acc Hacc.
  - exact Hacc.
  - cbn [fold_left]. apply IH. unfold clmul_term.
    destruct (Z.testbit b (Z.of_nat i)); [|exact Hacc].
    apply lxor_range; [lia | exact Hacc |].
    pose proof (shiftl_range a (Z.of_nat i) 64 ltac:(lia) Ha ltac:(lia)) as Hs.
    split; [lia|]. eapply Z.lt_le_trans; [apply Hs|].
    apply Z.pow_le_mono_r; lia.
Qed.

Lemma clmul64_range (a b : Z) :
  0 <= a < 2 ^ 64 -> 0 <= clmul64 a b < 2 ^ 128.
Proof.
  intros Ha. rewrite clmul64_fold. apply clmul_fold_range; [exact Ha | | lia].
  apply Forall_forall. intros i Hi. apply in_seq in Hi. lia.
Qed.

Lemma clmul_lane_range (imm d K : Z) :
  0 <= d < 2 ^ 128 -> 0 <= clmul_lane imm d K < 2 ^ 128.
Proof.
  intros Hd. unfold clmul_lane. apply clmul64_range.
  destruct (Z.testbit imm 0).
  - rewrite Z.shiftr_div_pow2 by lia. split.
    + apply Z.div_pos; lia.
    + apply Z.div_lt_upper_bound; lia.
  - unfold u64. apply Z.mod_pos_bound. lia.
Qed.

Lemma reg_poly_nonneg (v : vec) : lanes_fit v -> 0 <= reg_poly v.
Proof.
  induction 1 as [|d v Hd Hv IH]; cbn [reg_poly]; [lia|].
  apply lxor_nonneg; [apply Z.shiftl_nonneg; lia | exact IH].
Qed.

(** The register after [fold_reg] with the constant of distance [n]: every
    lane still fits 128 bits, and the polynomial is, modulo G, the old one
    times x^n plus the new block. *)
Lemma fold_reg_poly (n : Z) (d x : vec) :
  0 <= n -> lanes_fit d -> lanes_fit x -> List.length x = List.length d ->
  let K := repeat (mm_set_epi64x (gf2_mod (2 ^ (n + 64))) (gf2_mod (2 ^ n)))
                  (List.length d) in
  lanes_fit (fold_reg K d x)
  /\ List.length (fold_reg K d x) = List.length d
  /\ gf2_mod (reg_poly (fold_reg K d x))
     = gf2_mod (Z.lxor (Z.shiftl (reg_poly d) n) (reg_poly x)).
Proof.
  intros Hn Hd. revert x. induction Hd as [|d0 d Hd0 Hd IH]; intros x Hx Hl.
  - destruct x; [|discriminate]. cbv zeta. cbn [List.length repeat].
    rewrite fold_reg_nil. split; [constructor|]. split; [reflexivity|].
    cbn [reg_poly]. rewrite Z.shiftl_0_l. reflexivity.
  - destruct Hx as [|x0 x Hx0 Hx]; [discriminate|].
    cbn [List.length] in Hl. injection Hl as Hl.
    specialize (IH x Hx Hl). cbv zeta in IH. destruct IH as (IF & IL & IP).
    cbv zeta. cbn [List.length repeat]. rewrite fold_reg_cons.
    set (K0 := mm_set_epi64x (gf2_mod (2 ^ (n + 64))) (gf2_mod (2 ^ n))) in *.
    set (f0 := Z.lxor (Z.lxor (clmul_lane 17 d0 K0) (clmul_lane 0 d0 K0)) x0).
    set (fs := fold_reg (repeat K0 (List.length d)) d x) in *.
    assert (F0 : 0 <= f0 < 2 ^ 128).
    { subst f0. apply lxor_range; [lia | | exact Hx0].
      apply lxor_range; [lia | |]; apply clmul_lane_range; exact Hd0. }
    split; [constructor; assumption|]. split; [cbn [List.length]; congruence|].
    cbn [reg_poly]. rewrite IL, Hl.
    set (s := 128 * Z.of_nat (List.length d)).
    assert (Hs : 0 <= s) by (subst s; lia).
    pose proof (reg_poly_nonneg d Hd) as Nd.
    pose proof (reg_poly_nonneg x Hx) as Nx.
    pose proof (reg_poly_nonneg fs IF) as Nf.
    assert (E0 : gf2_mod f0 = gf2_mod (Z.lxor (Z.shiftl d0 n) x0))
      by (subst f0 K0; apply fold_lane; lia).
    rewrite gf2_mod_lxor by (try apply Z.shiftl_nonneg; lia).
    rewrite <- gf2_mod_shift_mod by lia.
    rewrite E0, IP.
    rewrite gf2_mod_shift_mod
      by (try apply lxor_nonneg; try apply Z.shiftl_nonneg; lia).
    rewrite <- gf2_mod_lxor
      by (repeat (first [lia | apply lxor_nonneg | apply Z.shiftl_nonneg])).
    f_equal. rewrite !Z.shiftl_lxor, !Z.shiftl_shiftl by lia.
    rewrite (Z.add_comm s n). xor_ac.
Qed.


(** ** Accesses behind a prefix of the buffer *)

Lemma slice_after (pre b : list Z) (off len : Z) :
  0 <= off ->
  slice (pre ++ b) (Z.of_nat (List.length pre) + off) len = slice b off len.
Proof.
  intros H. unfold slice. rewrite length_app, Nat2Z.inj_add.
  replace (Z.to_nat (Z.of_nat (List.length pre) + off))
    with (List.length pre + Z.to_nat off)%nat by lia.
  rewrite skipn_app, skipn_all2 by lia.
  replace (List.length pre + Z.to_nat off - List.length pre)%nat
    with (Z.to_nat off) by lia.
  cbn [app].
  destruct (Z.leb_spec 0 (Z.of_nat (List.length pre) + off)); [|lia].
  destruct (Z.leb_spec 0 off); [|lia].
  destruct (Z.leb_spec 0 len); cbn [andb]; [|reflexivity].
  destruct (Z.leb_spec (Z.of_nat (List.length pre) + off + len)
                       (Z.of_nat (List.length pre) + Z.of_nat (List.length b))),
    (Z.leb_spec (off + len) (Z.of_nat (List.length b)));
    try reflexivity; lia.
Qed.

Lemma slice_inside (a rest : list Z) (off len : Z) :
  0 <= off -> 0 <= len -> off + len <= Z.of_nat (List.length a) ->
  slice (a ++ rest) off len = slice a off len.
Proof.
  intros H1 H2 H3. rewrite !slice_at by (rewrite ?length_app; lia).
  f_equal. rewrite skipn_app, firstn_app, length_skipn.
  replace (Z.to_nat len - (List.length a - Z.to_nat off))%nat with 0%nat by lia.
  cbn [firstn]. apply app_nil_r.
Qed.

Lemma blit_at (buf bs : list Z) (off : Z) :
  0 <= off -> off + Z.of_nat (List.length bs) <= Z.of_nat (List.length buf) ->
  blit buf off bs
  = Some (firstn (Z.to_nat off) buf ++ bs
          ++ skipn (Z.to_nat off + List.length bs) buf).
Proof.
  intros H1 H2. unfold blit.
  destruct (Z.leb_spec 0 off); [|lia].
  destruct (Z.leb_spec (off + Z.of_nat (List.length bs)) (Z.of_nat (List.length buf)));
    [|lia].
  reflexivity.
Qed.

(** Overwriting the middle of a buffer. *)
Lemma blit_mid (p x r bs : list Z) :
  List.length bs = List.length x ->
  blit (p ++ x ++ r) (Z.of_nat (List.length p)) bs = Some (p ++ bs ++ r).
Proof.
  intros Hl. rewrite blit_at by (rewrite ?length_app; lia).
  rewrite Nat2Z.id. do 2 f_equal.
  - rewrite firstn_app, firstn_all, Nat.sub_diag. cbn [firstn].
    apply app_nil_r.
  - f_equal. rewrite skipn_app, skipn_all2 by lia.
    replace (List.length p + List.length bs - List.length p)%nat
      with (List.length x) by lia.
    cbn [app]. rewrite skipn_app, skipn_all, Nat.sub_diag. reflexivity.
Qed.

Lemma append_block (data : list Z) (a b : nat) :
  firstn (a + b) data = firstn a data ++ firstn b (skipn a data).
Proof.
  revert data. induction a as [|a IH]; intros data; [reflexivity|].
  destruct data as [|x data]; [cbn; rewrite firstn_nil; reflexivity|].
  cbn [Nat.add firstn skipn app]. rewrite IH. reflexivity.
Qed.

(** ** The single-fold loop *)

Lemma mm_xor_zero (v : vec) : lanes_fit v -> mm_xor v (repeat 0 (List.length v)) = v.
Proof.
  unfold mm_xor, map2. induction 1 as [|d v Hd Hv IH]; [reflexivity|].
  cbn [List.length repeat combine map fst snd]. rewrite Z.lxor_0_r, IH. reflexivity.
Qed.

Lemma loaded_fits (n : nat) (bs : list Z) :
  lanes_fit (map (bswap 16) (lanes_of_bytes n bs)).
Proof.
  unfold lanes_fit. apply Forall_map, Forall_forall. intros d _.
  apply (bswap_range 16 d).
Qed.

Lemma loaded_length (n : nat) (bs : list Z) :
  List.length (map (bswap 16) (lanes_of_bytes n bs)) = n.
Proof. rewrite length_map. apply lanes_of_bytes_length. Qed.


Lemma block_bytes (c : simd_cfg) (data : list Z) (j : Z) :
  Forall is_byte data -> Forall is_byte (block c data j).
Proof. intros H. apply Forall_firstn, Forall_skipn, H. Qed.

Lemma block_length (c : simd_cfg) (data : list Z) (j : Z) :
  0 <= j -> cfg_vbytes c * (j + 1) <= Z.of_nat (List.length data) ->
  List.length (block c data j) = (16 * cfg_lanes c)%nat.
Proof.
  intros Hj H. unfold block. rewrite length_firstn, length_skipn.
  unfold cfg_vbytes in *. nia.
Qed.

(** The register [bld] loads [q] registers past [data_offset], when the
    stream starts [j0] registers into the buffer. *)
Lemma bld_block (c : simd_cfg) (st : simd) (pre data rest : list Z) (j0 j q : Z) :
  sd_buf st = pre ++ data ++ rest ->
  Z.of_nat (List.length pre) = cfg_vbytes c * j0 ->
  0 <= j0 -> 0 <= j -> 0 <= q -> j0 + j < cfg_words c ->
  sd_data_offset st = j0 + j ->
  cfg_vbytes c * (j + q + 1) <= Z.of_nat (List.length data) ->
  bld c st q
  = Next (map (bswap 16) (lanes_of_bytes (cfg_lanes c) (block c data (j + q)))).
Proof.
  intros Hbuf Hpre Hj0 Hj Hq HW Hoff Hfit.
  assert (HV : cfg_vbytes c = 16 * Z.of_nat (cfg_lanes c)) by reflexivity.
  assert (HV0 : 0 <= cfg_vbytes c) by lia.
  unfold bld, dp, loadu. rewrite Hoff, Hbuf, Z.mod_small by lia.
  fold (cfg_vbytes c).
  replace (cfg_vbytes c * (j0 + j + q))
    with (Z.of_nat (List.length pre) + cfg_vbytes c * (j + q)) by lia.
  rewrite slice_after by nia.
  rewrite slice_inside by nia.
  rewrite slice_at by nia.
  cbn [lift bind]. fold (block c data (j + q)).
  rewrite <- (lanes_of_bytes_length (cfg_lanes c) (block c data (j + q))) at 2.
  rewrite shuffle_register. reflexivity.
Qed.

Lemma block_poly (c : simd_cfg) (data : list Z) (j : Z) :
  Forall is_byte data -> 0 <= j ->
  cfg_vbytes c * (j + 1) <= Z.of_nat (List.length data) ->
  reg_poly (map (bswap 16) (lanes_of_bytes (cfg_lanes c) (block c data j)))
  = msg_poly (block c data j).
Proof.
  intros Hb Hj Hfit. apply reg_poly_loaded.
  - apply block_bytes, Hb.
  - apply block_length; assumption.
Qed.

(** The first [j + 1] blocks are the first [j] blocks and block [j]. *)
Lemma next_block (c : simd_cfg) (data : list Z) (j : Z) :
  0 <= j -> 0 <= cfg_vbytes c ->
  firstn (Z.to_nat (cfg_vbytes c * (j + 1))) data
  = firstn (Z.to_nat (cfg_vbytes c * j)) data ++ block c data j.
Proof.
  intros Hj HV.
  replace (Z.to_nat (cfg_vbytes c * (j + 1)))
    with (Z.to_nat (cfg_vbytes c * j) + Z.to_nat (cfg_vbytes c))%nat by nia.
  apply append_block.
Qed.

Lemma single_loop (c : simd_cfg) (pre data rest : list Z) (j0 k : Z) (m : nat) :
  let V := cfg_vbytes c in
  let K := repeat (mm_set_epi64x (gf2_mod (2 ^ (8 * V + 64))) (gf2_mod (2 ^ (8 * V))))
                  (cfg_lanes c) in
  Forall is_byte data ->
  0 < V -> 0 <= j0 -> Z.of_nat (List.length pre) = V * j0 ->
  j0 + k < cfg_words c -> cfg_words c <= INT_MAX ->
  V * (k + 1) <= Z.of_nat (List.length data) < V * (k + 2) ->
  Z.of_nat (List.length data) < 2 ^ 64 ->
  forall (fuel : nat) (st : simd) (j : Z),
    (m <= fuel)%nat -> 0 <= j -> k = j + Z.of_nat m ->
    sd_buf st = pre ++ data ++ rest -> sd_data_offset st = j0 + j ->
    sd_bytes_read st = Z.of_nat (List.length data) - V * j ->
    lanes_fit (sd_data st) -> List.length (sd_data st) = cfg_lanes c ->
    gf2_mod (reg_poly (sd_data st))
    = gf2_mod (msg_poly (firstn (Z.to_nat (V * (j + 1))) data)) ->
    exists st',
      while_ge fuel (2 * V) (single_body c K) st = Next st'
      /\ sd_buf st' = pre ++ data ++ rest /\ sd_data_offset st' = j0 + k
      /\ sd_bytes_read st' = Z.of_nat (List.length data) - V * k
      /\ lanes_fit (sd_data st') /\ List.length (sd_data st') = cfg_lanes c
      /\ gf2_mod (reg_poly (sd_data st'))
         = gf2_mod (msg_poly (firstn (Z.to_nat (V * (k + 1))) data))
      /\ sd_fp st' = sd_fp st /\ sd_length st' = sd_length st
      /\ sd_crc st' = sd_crc st.
Proof.
  intros V K Hb HV Hj0 Hpre Hk HW Hn H64.
  induction m as [|m IH]; intros fuel st j Hf Hj Hkj Hbuf Hoff Hrd Hfit Hlen Hpoly.
  - exists st. rewrite Z.add_0_r in Hkj. subst j.
    split; [|repeat (split; [assumption || reflexivity|]); reflexivity].
    destruct fuel; cbn [while_ge]; rewrite Hrd;
      (destruct (Z.ltb_spec (Z.of_nat (List.length data) - V * k) (2 * V));
       [reflexivity | lia]).
  - destruct fuel as [|fuel]; [lia|]. cbn [while_ge]. rewrite Hrd.
    destruct (Z.ltb_spec (Z.of_nat (List.length data) - V * j) (2 * V)); [nia|].
    unfold single_body at 1. unfold adv. rewrite Hoff.
    rewrite int_add_ok by (rewrite INT_MAX_value in *; lia).
    cbn [lift bind].
    rewrite (bld_block c (set_offset st (j0 + j + 1)) pre data rest j0 (j + 1) 0)
      by (try exact Hbuf; try exact Hpre; try (cbn [sd_data_offset set_offset]);
          try (fold V); nia).
    rewrite Z.add_0_r.
    set (x := map (bswap 16) (lanes_of_bytes (cfg_lanes c) (block c data (j + 1)))).
    assert (Px : reg_poly x = msg_poly (block c data (j + 1)))
      by (apply block_poly; [exact Hb | lia | fold V; nia]).
    cbn [bind]. unfold sub.
    destruct (fold_reg_poly (8 * V) (sd_data st) x) as (Ff & Lf & Pf);
      [lia | exact Hfit | apply loaded_fits
       | unfold x; rewrite loaded_length; congruence |].
    rewrite Hlen in Ff, Lf, Pf. fold K in Ff, Lf, Pf.
    change (mm_xor (mm_xor (mm_clmulepi64 (sd_data (set_offset st (j0 + j + 1))) K 17)
                           (mm_clmulepi64 (sd_data (set_offset st (j0 + j + 1))) K 0)) x)
      with (fold_reg K (sd_data st) x).
    match goal with
    | |- exists st', bind (Next ?s) _ = _ /\ _ =>
        destruct (IH fuel s (j + 1))
          as (st' & E' & B' & O' & R' & F' & L' & P' & FP' & LN' & C')
    end.
    + lia.
    + lia.
    + lia.
    + exact Hbuf.
    + cbn [sd_data_offset set_bytes_read set_data set_offset]. lia.
    + cbn [sd_bytes_read set_bytes_read set_data set_offset]. rewrite Hrd.
      fold V. unfold u64. rewrite Z.mod_small by nia. lia.
    + exact Ff.
    + exact Lf.
    + cbn [sd_data set_bytes_read set_data]. rewrite Pf, Px.
      pose proof (reg_poly_nonneg _ Hfit) as N1.
      pose proof (msg_poly_nonneg _ (block_bytes c data (j + 1) Hb)) as N2.
      assert (Ba : Forall is_byte (firstn (Z.to_nat (V * (j + 1))) data))
        by (apply Forall_firstn, Hb).
      pose proof (msg_poly_nonneg _ Ba) as N3.
      rewrite gf2_mod_lxor by (try apply Z.shiftl_nonneg; lia).
      rewrite <- gf2_mod_shift_mod by lia.
      rewrite Hpoly.
      rewrite gf2_mod_shift_mod by lia.
      rewrite <- gf2_mod_lxor by (try apply Z.shiftl_nonneg; lia).
      f_equal. unfold V.
      rewrite (next_block c data (j + 1)) by lia.
      rewrite msg_poly_app by (apply block_bytes, Hb).
      rewrite block_length by (fold V; nia).
      do 2 f_equal. unfold V, cfg_vbytes. lia.
    + exists st'. cbn [bind]. split; [exact E'|].
      repeat (split; [assumption|]). exact C'.
Qed.

Lemma vlow_zero (n : nat) : vlow n (mm_set_epi32 0 0 0 0) = repeat 0 n.
Proof. destruct n; reflexivity. Qed.

Lemma split_at (b : list Z) (off len : nat) :
  (off + len <= List.length b)%nat ->
  exists x, b = firstn off b ++ x ++ skipn (off + len) b /\ List.length x = len.
Proof.
  intros H. exists (firstn len (skipn off b)). split.
  - rewrite Nat.add_comm, <- skipn_skipn.
    rewrite (firstn_skipn len (skipn off b)). symmetry. apply firstn_skipn.
  - rewrite length_firstn, length_skipn. lia.
Qed.

(** The [if (bytes_read >= 2 * sizeof data)] statement, when [data_offset]
    is [j0] and the unread stream lies [j0] registers into [buf]: it folds
    all full registers but the last into one, and stores that one,
    byte-swapped back, over the last full register it consumed. *)
Lemma single_fold_spec (c : simd_cfg) (pre data rest : list Z) (j0 k : Z)
  (fuel : nat) (st : simd) :
  let V := cfg_vbytes c in
  let K := repeat (mm_set_epi64x (gf2_mod (2 ^ (8 * V + 64))) (gf2_mod (2 ^ (8 * V))))
                  (cfg_lanes c) in
  Forall is_byte data ->
  0 < V -> 0 <= j0 -> Z.of_nat (List.length pre) = V * j0 ->
  1 <= k -> j0 + k < cfg_words c -> cfg_words c <= INT_MAX ->
  V * (k + 1) <= Z.of_nat (List.length data) < V * (k + 2) ->
  Z.of_nat (List.length data) < 2 ^ 64 ->
  (Z.to_nat k <= fuel)%nat ->
  sd_buf st = pre ++ data ++ rest -> sd_data_offset st = j0 -> sd_crc st = 0 ->
  sd_bytes_read st = Z.of_nat (List.length data) ->
  exists st1 F,
    single_fold c K fuel st = Next st1
    /\ sd_buf st1
       = pre ++ firstn (Z.to_nat (V * k)) data ++ F
         ++ skipn (Z.to_nat (V * (k + 1))) (data ++ rest)
    /\ Z.of_nat (List.length F) = V /\ Forall is_byte F
    /\ gf2_mod (msg_poly F)
       = gf2_mod (msg_poly (firstn (Z.to_nat (V * (k + 1))) data))
    /\ sd_data_offset st1 = j0 + k
    /\ sd_bytes_read st1 = Z.of_nat (List.length data) - V * k
    /\ sd_fp st1 = sd_fp st /\ sd_length st1 = sd_length st /\ sd_crc st1 = 0.
Proof.
  intros V K Hb HV Hj0 Hpre Hk1 Hk HW Hn H64 Hf Hbuf Hoff Hcrc Hrd.
  unfold single_fold. rewrite Hrd. fold V.
  destruct (Z.ltb_spec (Z.of_nat (List.length data)) (2 * V)); [nia|].
  rewrite (bld_block c st pre data rest j0 0 0)
    by (try exact Hbuf; try exact Hpre; try (fold V); nia).
  rewrite Z.add_0_r.
  set (x := map (bswap 16) (lanes_of_bytes (cfg_lanes c) (block c data 0))).
  assert (Px : reg_poly x = msg_poly (block c data 0))
    by (apply block_poly; [exact Hb | lia | fold V; nia]).
  assert (Fx : lanes_fit x) by apply loaded_fits.
  assert (Lx : List.length x = cfg_lanes c) by apply loaded_length.
  cbn [bind]. rewrite Hcrc, vlow_zero, <- Lx, mm_xor_zero by exact Fx.
  rewrite Lx. fold K.
  destruct (single_loop c pre data rest j0 k (Z.to_nat k) Hb HV Hj0 Hpre Hk HW Hn H64
              fuel
              (set_data (set_crc st 0) x (sd_data3 (set_crc st 0))
                 (sd_data5 (set_crc st 0)) (sd_data7 (set_crc st 0))) 0)
    as (st' & E' & B' & O' & R' & F' & L' & P' & FP' & LN' & C').
  - exact Hf.
  - lia.
  - lia.
  - exact Hbuf.
  - cbn [sd_data_offset set_data set_crc]. lia.
  - cbn [sd_bytes_read set_data set_crc]. rewrite Hrd. fold V. lia.
  - exact Fx.
  - exact Lx.
  - cbn [sd_data set_data]. rewrite Px.
    replace (cfg_vbytes c * (0 + 1)) with (cfg_vbytes c) by lia. unfold block.
    rewrite Z.mul_0_r. reflexivity.
  - fold V K in E'. rewrite E'. cbn [bind].
    assert (Esh : mm_shuffle_epi8 (sd_data st') (shuffle_constant (cfg_lanes c))
                  = map (bswap 16) (sd_data st'))
      by (rewrite <- L'; apply shuffle_register).
    cbv zeta. rewrite Esh.
    destruct (stored_register (sd_data st') F') as (SL & SB & SP).
    set (F := bytes_of_lanes (map (bswap 16) (sd_data st'))) in *.
    unfold storeu, dp. rewrite O', B', Z.mod_small, Z.add_0_r by lia.
    fold V. fold F.
    assert (LF : Z.of_nat (List.length F) = V)
      by (rewrite SL, L'; unfold V, cfg_vbytes; lia).
    destruct (split_at (data ++ rest) (Z.to_nat (V * k)) (Z.to_nat V))
      as (X & EX & LX); [rewrite length_app; nia|].
    assert (Efirst : firstn (Z.to_nat (V * k)) (data ++ rest)
                     = firstn (Z.to_nat (V * k)) data).
    { rewrite firstn_app.
      replace (Z.to_nat (V * k) - List.length data)%nat with 0%nat by nia.
      cbn [firstn]. apply app_nil_r. }
    rewrite Efirst in EX.
    replace (Z.to_nat (V * k) + Z.to_nat V)%nat with (Z.to_nat (V * (k + 1)))
      in EX by nia.
    assert (Eb : blit (pre ++ data ++ rest) (V * (j0 + k)) F
                 = Some (pre ++ firstn (Z.to_nat (V * k)) data ++ F
                         ++ skipn (Z.to_nat (V * (k + 1))) (data ++ rest))).
    { rewrite EX at 1. rewrite !app_assoc, <- (app_assoc _ X).
      replace (V * (j0 + k))
        with (Z.of_nat (List.length (pre ++ firstn (Z.to_nat (V * k)) data)))
        by (rewrite length_app, length_firstn; nia).
      rewrite blit_mid by lia. rewrite <- !app_assoc. reflexivity. }
    rewrite Eb. cbn [lift bind].
    eexists. exists F. split; [reflexivity|].
    cbn [sd_buf sd_data_offset sd_bytes_read sd_fp sd_length sd_crc
         set_buf set_data].
    split; [reflexivity|].
    split; [exact LF|]. split; [exact SB|]. split; [rewrite SP; exact P'|].
    split; [exact O'|]. split; [exact R'|]. split; [exact FP'|].
    split; [exact LN'|]. exact C'.
Qed.

(** Two strings whose heads are congruent modulo G and whose tails agree
    have the same CRC. *)
Lemma crc_ref_congruent (a a' t : list Z) :
  Forall is_byte a -> Forall is_byte a' -> Forall is_byte t ->
  gf2_mod (msg_poly a) = gf2_mod (msg_poly a') ->
  crc_ref (a ++ t) = crc_ref (a' ++ t).
Proof.
  intros Ha Ha' Ht E.
  rewrite !crc_ref_is_crc_poly by (apply Forall_app; split; assumption).
  unfold crc_poly. rewrite !msg_poly_app by exact Ht.
  pose proof (msg_poly_nonneg a Ha). pose proof (msg_poly_nonneg a' Ha').
  pose proof (msg_poly_nonneg t Ht).
  rewrite !Z.shiftl_lxor, !Z.shiftl_shiftl by lia.
  rewrite !gf2_mod_lxor by (apply Z.shiftl_nonneg; lia).
  f_equal.
  rewrite <- (gf2_mod_shift_mod (msg_poly a)) by lia.
  rewrite <- (gf2_mod_shift_mod (msg_poly a')) by lia.
  rewrite E. reflexivity.
Qed.

Lemma simd_init_short (c : simd_cfg) (nch : nat) (buf0 data : list Z) :
  (List.length data < Z.to_nat (cfg_half c))%nat ->
  (List.length data <= List.length buf0)%nat ->
  0 <= cfg_vbytes c * (cfg_words c / 2) <= Z.of_nat (List.length buf0) ->
  Z.of_nat (List.length data) < 2 ^ 64 ->
  simd_init c nch buf0 (fopen_bytes data)
  = Next (mkSimd (data ++ skipn (List.length data) buf0)
                 (mkFILE [] false true false) 0 true
                 (Z.of_nat (List.length data)) 0 0 0 [] [] [] []
                 (repeat (repeat 0 (cfg_lanes c)) nch)).
Proof.
  intros Hhalf Hbuf Hoff H64. unfold simd_init, fopen_bytes.
  rewrite fread_all by exact Hhalf.
  rewrite blit_prefix by exact Hbuf. cbn [lift bind].
  rewrite (fread_all (cfg_half c) [] true) by (cbn [List.length]; lia).
  rewrite blit_nothing by (rewrite length_app, length_skipn; lia).
  cbn [lift bind List.length]. change (Z.of_nat 0) with 0.
  unfold u64. rewrite Z.add_0_r, Z.mod_small by lia. reflexivity.
Qed.



(** ** The parallel fold *)

Lemma map2_app {A B C : Type} (f : A -> B -> C) (a1 a2 : list A) (b1 b2 : list B) :
  List.length a1 = List.length b1 ->
  map2 f (a1 ++ a2) (b1 ++ b2) = map2 f a1 b1 ++ map2 f a2 b2.
Proof.
  unfold map2. revert b1. induction a1 as [|x a1 IH]; intros [|y b1] H;
    try discriminate; [reflexivity|].
  cbn [app combine map]. rewrite IH by (cbn in H; lia). reflexivity.
Qed.

Lemma map2_length {A B C : Type} (f : A -> B -> C) (a : list A) (b : list B) :
  List.length a = List.length b -> List.length (map2 f a b) = List.length a.
Proof.
  unfold map2. intros H. rewrite length_map, length_combine. lia.
Qed.

Lemma fold_reg_length (K d x : vec) :
  List.length K = List.length d -> List.length x = List.length d ->
  List.length (fold_reg K d x) = List.length d.
Proof.
  intros HK Hx. unfold fold_reg, mm_xor, mm_clmulepi64.
  assert (H1 : forall imm, List.length (map2 (clmul_lane imm) d K) = List.length d)
    by (intros imm; apply map2_length; congruence).
  assert (H2 : List.length (map2 Z.lxor (map2 (clmul_lane 17) d K)
                                        (map2 (clmul_lane 0) d K))
               = List.length d)
    by (rewrite map2_length; rewrite !H1; reflexivity).
  rewrite map2_length; congruence.
Qed.

Lemma fold_reg_app (K1 K2 d1 d2 x1 x2 : vec) :
  List.length K1 = List.length d1 -> List.length x1 = List.length d1 ->
  fold_reg (K1 ++ K2) (d1 ++ d2) (x1 ++ x2)
  = fold_reg K1 d1 x1 ++ fold_reg K2 d2 x2.
Proof.
  intros HK Hx. unfold fold_reg, mm_xor, mm_clmulepi64.
  assert (H1 : forall imm, List.length (map2 (clmul_lane imm) d1 K1) = List.length d1)
    by (intros imm; apply map2_length; congruence).
  assert (H2 : List.length (map2 Z.lxor (map2 (clmul_lane 17) d1 K1)
                                        (map2 (clmul_lane 0) d1 K1))
               = List.length d1)
    by (rewrite map2_length; rewrite !H1; reflexivity).
  rewrite !(map2_app _ d1 d2 K1 K2) by congruence.
  rewrite (map2_app Z.lxor) by (rewrite !H1; reflexivity).
  rewrite (map2_app Z.lxor) by congruence.
  reflexivity.
Qed.

Lemma lanes_of_bytes_app (a b : nat) (bs1 bs2 : list Z) :
  List.length bs1 = (16 * a)%nat ->
  lanes_of_bytes (a + b) (bs1 ++ bs2)
  = lanes_of_bytes a bs1 ++ lanes_of_bytes b bs2.
Proof.
  revert bs1. induction a as [|a IH]; intros bs1 H.
  - destruct bs1; [reflexivity | discriminate].
  - cbn [Nat.add lanes_of_bytes app].
    rewrite firstn_app, skipn_app.
    replace (16 - List.length bs1)%nat with 0%nat by lia.
    rewrite firstn_O, skipn_O, app_nil_r.
    rewrite IH by (rewrite length_skipn; lia). reflexivity.
Qed.

Lemma lanes_fit_app (a b : vec) : lanes_fit a -> lanes_fit b -> lanes_fit (a ++ b).
Proof. intros Ha Hb. apply Forall_app. split; assumption. Qed.

(** The four blocks loaded in one round, as one string. *)
Lemma four_blocks (c : simd_cfg) (data : list Z) (j : Z) :
  0 <= j -> 0 <= cfg_vbytes c ->
  firstn (Z.to_nat (4 * cfg_vbytes c * (j + 1))) data
  = firstn (Z.to_nat (4 * cfg_vbytes c * j)) data
    ++ block c data (4 * j) ++ block c data (4 * j + 1)
    ++ block c data (4 * j + 2) ++ block c data (4 * j + 3).
Proof.
  intros Hj HV.
  replace (4 * cfg_vbytes c * (j + 1)) with (cfg_vbytes c * (4 * j + 3 + 1)) by lia.
  rewrite next_block by lia.
  replace (4 * j + 3) with (4 * j + 2 + 1) at 1 by lia.
  rewrite next_block by lia.
  replace (4 * j + 2) with (4 * j + 1 + 1) at 1 by lia.
  rewrite next_block by lia.
  rewrite next_block by lia.
  replace (cfg_vbytes c * (4 * j)) with (4 * cfg_vbytes c * j) by lia.
  rewrite <- !app_assoc. reflexivity.
Qed.

Lemma four_loaded (c : simd_cfg) (data : list Z) (j : Z) :
  Forall is_byte data -> 0 <= j ->
  cfg_vbytes c * (4 * j + 4) <= Z.of_nat (List.length data) ->
  let X := map (bswap 16) (lanes_of_bytes (cfg_lanes c) (block c data (4 * j)))
           ++ map (bswap 16) (lanes_of_bytes (cfg_lanes c) (block c data (4 * j + 1)))
           ++ map (bswap 16) (lanes_of_bytes (cfg_lanes c) (block c data (4 * j + 2)))
           ++ map (bswap 16) (lanes_of_bytes (cfg_lanes c) (block c data (4 * j + 3))) in
  let B := block c data (4 * j) ++ block c data (4 * j + 1)
           ++ block c data (4 * j + 2) ++ block c data (4 * j + 3) in
  lanes_fit X /\ List.length X = (4 * cfg_lanes c)%nat
  /\ reg_poly X = msg_poly B /\ Forall is_byte B
  /\ List.length B = (4 * (16 * cfg_lanes c))%nat.
Proof.
  intros Hb Hj Hfit X B.
  assert (HV : 0 <= cfg_vbytes c) by (unfold cfg_vbytes; lia).
  assert (L0 := block_length c data (4 * j) ltac:(lia) ltac:(lia)).
  assert (L1 := block_length c data (4 * j + 1) ltac:(lia) ltac:(lia)).
  assert (L2 := block_length c data (4 * j + 2) ltac:(lia) ltac:(lia)).
  assert (L3 := block_length c data (4 * j + 3) ltac:(lia) ltac:(lia)).
  assert (EX : X = map (bswap 16) (lanes_of_bytes (4 * cfg_lanes c) B)).
  { subst X B.
    replace (4 * cfg_lanes c)%nat
      with (cfg_lanes c + (cfg_lanes c + (cfg_lanes c + cfg_lanes c)))%nat by lia.
    rewrite !lanes_of_bytes_app by assumption.
    rewrite !map_app. reflexivity. }
  assert (BB : Forall is_byte B)
    by (subst B; repeat (apply Forall_app; split); apply block_bytes, Hb).
  assert (LB : List.length B = (4 * (16 * cfg_lanes c))%nat)
    by (subst B; rewrite !length_app; lia).
  split; [rewrite EX; apply loaded_fits|].
  split; [rewrite EX; apply loaded_length|].
  split; [rewrite EX; apply reg_poly_loaded; [exact BB | lia]|].
  split; assumption.
Qed.

Lemma fold4_step (c : simd_cfg) (data rest : list Z) (i : Z) (st : simd) :
  let V := cfg_vbytes c in
  let K := repeat (mm_set_epi64x (gf2_mod (2 ^ (32 * V + 64))) (gf2_mod (2 ^ (32 * V))))
                  (cfg_lanes c) in
  Forall is_byte data -> 0 < V -> 0 <= i ->
  Z.of_nat (List.length data) <= V * cfg_words c -> cfg_words c <= INT_MAX ->
  Z.of_nat (List.length data) < 2 ^ 64 ->
  fold4_inv c data rest i st -> 8 * V <= sd_bytes_read st ->
  exists s1 s2 s3,
    adv 4 st = Next s1 /\ fold4 c K [] [] [] [] s1 = Next s2
    /\ sub (4 * V) s2 = Next s3 /\ fold4_inv c data rest (i + 1) s3.
Proof.
  intros V K Hb HV Hi Hcap HW H64 Inv Hge.
  destruct Inv as (Ibuf & Ioff & Ird & Icrc & Ifp & Ilen & Inb & L0 & L3 & L5 & L7
                   & Ifit & Ipoly).
  fold V in Ird, Ipoly. rewrite Ird in Hge.
  assert (Hfit : V * (4 * (i + 1) + 4) <= Z.of_nat (List.length data)) by lia.
  assert (Hw : 4 * (i + 1) + 4 <= cfg_words c) by nia.
  unfold adv. rewrite Ioff.
  rewrite int_add_ok by (rewrite INT_MAX_value in *; lia).
  cbn [lift bind].
  do 3 eexists. split; [reflexivity|].
  unfold fold4.
  rewrite (bld_block c (set_offset st (4 * i + 4)) [] data rest 0 (4 * (i + 1)) 0)
    by (try exact Ibuf; cbn [sd_data_offset set_offset List.length]; fold V; lia).
  cbn [bind].
  rewrite (bld_block c (set_offset st (4 * i + 4)) [] data rest 0 (4 * (i + 1)) 1)
    by (try exact Ibuf; cbn [sd_data_offset set_offset List.length]; fold V; lia).
  cbn [bind].
  rewrite (bld_block c (set_offset st (4 * i + 4)) [] data rest 0 (4 * (i + 1)) 2)
    by (try exact Ibuf; cbn [sd_data_offset set_offset List.length]; fold V; lia).
  cbn [bind].
  rewrite (bld_block c (set_offset st (4 * i + 4)) [] data rest 0 (4 * (i + 1)) 3)
    by (try exact Ibuf; cbn [sd_data_offset set_offset List.length]; fold V; lia).
  cbn [bind xor_chorbas fold_left].
  split; [reflexivity|].
  unfold sub. split; [reflexivity|].
  destruct (four_loaded c data (i + 1) Hb ltac:(lia) ltac:(fold V; lia))
    as (FX & LX & PX & BB & LB).
  rewrite Z.add_0_r in *.
  set (x0 := map (bswap 16) (lanes_of_bytes (cfg_lanes c) (block c data (4 * (i + 1))))) in *.
  set (x1 := map (bswap 16) (lanes_of_bytes (cfg_lanes c) (block c data (4 * (i + 1) + 1)))) in *.
  set (x2 := map (bswap 16) (lanes_of_bytes (cfg_lanes c) (block c data (4 * (i + 1) + 2)))) in *.
  set (x3 := map (bswap 16) (lanes_of_bytes (cfg_lanes c) (block c data (4 * (i + 1) + 3)))) in *.
  set (B := block c data (4 * (i + 1)) ++ block c data (4 * (i + 1) + 1)
            ++ block c data (4 * (i + 1) + 2) ++ block c data (4 * (i + 1) + 3)) in *.
  assert (X0 : List.length x0 = cfg_lanes c) by apply loaded_length.
  assert (X1 : List.length x1 = cfg_lanes c) by apply loaded_length.
  assert (X2 : List.length x2 = cfg_lanes c) by apply loaded_length.
  assert (X3 : List.length x3 = cfg_lanes c) by apply loaded_length.
  assert (LK : List.length K = cfg_lanes c) by apply repeat_length.
  unfold fold4_inv, four_regs.
  cbn [sd_buf sd_data_offset sd_bytes_read sd_crc sd_fp sd_length sd_next_buf
       sd_data sd_data3 sd_data5 sd_data7 set_bytes_read set_data set_offset].
  split; [exact Ibuf|]. split; [lia|].
  split; [rewrite Ird; fold V; unfold u64; rewrite Z.mod_small by nia; lia|].
  split; [exact Icrc|]. split; [exact Ifp|]. split; [exact Ilen|].
  split; [exact Inb|].
  split; [rewrite fold_reg_length; congruence|].
  split; [rewrite fold_reg_length; congruence|].
  split; [rewrite fold_reg_length; congruence|].
  split; [rewrite fold_reg_length; congruence|].
  rewrite <- !fold_reg_app by congruence.
  assert (EK : K ++ K ++ K ++ K
               = repeat (mm_set_epi64x (gf2_mod (2 ^ (32 * V + 64)))
                                       (gf2_mod (2 ^ (32 * V))))
                        (List.length (four_regs st))).
  { unfold four_regs, K. rewrite !length_app, L0, L3, L5, L7.
    rewrite <- !repeat_app. reflexivity. }
  fold (four_regs st). rewrite EK.
  destruct (fold_reg_poly (32 * V) (four_regs st) (x0 ++ x1 ++ x2 ++ x3))
    as (Ff & _ & Pf);
    [lia | exact Ifit | exact FX
     | rewrite LX; unfold four_regs; rewrite !length_app; lia |].
  split; [exact Ff|].
  rewrite Pf, PX.
  pose proof (reg_poly_nonneg _ Ifit) as N1.
  pose proof (msg_poly_nonneg _ BB) as N2.
  assert (Ba : Forall is_byte (firstn (Z.to_nat (4 * V * (i + 1))) data))
    by (apply Forall_firstn, Hb).
  pose proof (msg_poly_nonneg _ Ba) as N3.
  rewrite gf2_mod_lxor by (try apply Z.shiftl_nonneg; lia).
  rewrite <- gf2_mod_shift_mod by lia.
  rewrite Ipoly.
  rewrite gf2_mod_shift_mod by lia.
  rewrite <- gf2_mod_lxor by (try apply Z.shiftl_nonneg; lia).
  f_equal. unfold V.
  rewrite (four_blocks c data (i + 1)) by lia. fold B.
  rewrite msg_poly_app by exact BB.
  rewrite LB. do 2 f_equal. unfold cfg_vbytes. lia.
Qed.

Lemma fold4_loop (c : simd_cfg) (data rest : list Z) (body : step) (M : Z) (m : nat) :
  let V := cfg_vbytes c in
  0 < V ->
  4 * V * (M + 1) <= Z.of_nat (List.length data) < 4 * V * (M + 2) ->
  (forall i st, 0 <= i -> fold4_inv c data rest i st -> 8 * V <= sd_bytes_read st ->
                exists st', body st = Next st' /\ fold4_inv c data rest (i + 1) st') ->
  forall (fuel : nat) (st : simd) (i : Z),
    (m <= fuel)%nat -> 0 <= i -> M = i + Z.of_nat m ->
    fold4_inv c data rest i st ->
    exists st', while_ge fuel (8 * V) body st = Next st'
                /\ fold4_inv c data rest M st'.
Proof.
  intros V HV Hn Hbody.
  induction m as [|m IH]; intros fuel st i Hf Hi HM Inv.
  - rewrite Z.add_0_r in HM. subst i. exists st. split; [|exact Inv].
    destruct Inv as (_ & _ & Ird & _). fold V in Ird.
    destruct fuel; cbn [while_ge]; rewrite Ird;
      (destruct (Z.ltb_spec (Z.of_nat (List.length data) - 4 * V * M) (8 * V));
       [reflexivity | lia]).
  - destruct fuel as [|fuel]; [lia|]. cbn [while_ge].
    assert (Ird : sd_bytes_read st = Z.of_nat (List.length data) - 4 * V * i)
      by (destruct Inv as (_ & _ & Ird & _); exact Ird).
    rewrite Ird.
    destruct (Z.ltb_spec (Z.of_nat (List.length data) - 4 * V * i) (8 * V)); [nia|].
    destruct (Hbody i st Hi Inv ltac:(lia)) as (st1 & E1 & Inv1).
    rewrite E1. cbn [bind].
    apply (IH fuel st1 (i + 1)); [lia | lia | lia | exact Inv1].
Qed.

Lemma load_four_spec (c : simd_cfg) (data rest : list Z) (st : simd) :
  Forall is_byte data -> 0 < cfg_words c ->
  4 * cfg_vbytes c <= Z.of_nat (List.length data) ->
  sd_buf st = data ++ rest -> sd_data_offset st = 0 -> sd_crc st = 0 ->
  sd_bytes_read st = Z.of_nat (List.length data) ->
  sd_fp st = mkFILE [] false true false ->
  sd_length st = Z.of_nat (List.length data) -> sd_next_buf st = 0 ->
  exists st', load_four c st = Next st' /\ fold4_inv c data rest 0 st'.
Proof.
  intros Hb HW Hn Hbuf Hoff Hcrc Hrd Hfp Hlen Hnb.
  assert (HV : 0 <= cfg_vbytes c) by (unfold cfg_vbytes; lia).
  unfold load_four.
  rewrite (bld_block c st [] data rest 0 0 0)
    by (try exact Hbuf; cbn [List.length]; lia).
  cbn [bind].
  rewrite (bld_block c (set_crc st 0) [] data rest 0 0 1)
    by (try exact Hbuf; cbn [List.length sd_data_offset set_crc]; lia).
  cbn [bind].
  rewrite (bld_block c (set_crc st 0) [] data rest 0 0 2)
    by (try exact Hbuf; cbn [List.length sd_data_offset set_crc]; lia).
  cbn [bind].
  rewrite (bld_block c (set_crc st 0) [] data rest 0 0 3)
    by (try exact Hbuf; cbn [List.length sd_data_offset set_crc]; lia).
  cbn [bind]. rewrite Hcrc, vlow_zero.
  change (0 + 0) with 0. change (0 + 1) with 1. change (0 + 2) with 2.
  change (0 + 3) with 3.
  destruct (four_loaded c data 0 Hb ltac:(lia) ltac:(lia))
    as (FX & LX & PX & BB & LB).
  change (4 * 0 + 1) with 1 in *. change (4 * 0 + 2) with 2 in *.
  change (4 * 0 + 3) with 3 in *. change (4 * 0) with 0 in *.
  set (x0 := map (bswap 16) (lanes_of_bytes (cfg_lanes c) (block c data 0))) in *.
  set (x1 := map (bswap 16) (lanes_of_bytes (cfg_lanes c) (block c data 1))) in *.
  set (x2 := map (bswap 16) (lanes_of_bytes (cfg_lanes c) (block c data 2))) in *.
  set (x3 := map (bswap 16) (lanes_of_bytes (cfg_lanes c) (block c data 3))) in *.
  assert (X0 : List.length x0 = cfg_lanes c) by apply loaded_length.
  assert (E0 : mm_xor x0 (repeat 0 (cfg_lanes c)) = x0)
    by (rewrite <- X0; apply mm_xor_zero, loaded_fits).
  rewrite E0.
  eexists. split; [reflexivity|].
  unfold fold4_inv, four_regs.
  cbn [sd_buf sd_data_offset sd_bytes_read sd_crc sd_fp sd_length sd_next_buf
       sd_data sd_data3 sd_data5 sd_data7 set_data set_crc].
  split; [exact Hbuf|]. split; [lia|]. split; [lia|]. split; [reflexivity|].
  split; [exact Hfp|]. split; [exact Hlen|]. split; [left; exact Hnb|].
  split; [exact X0|].
  split; [apply loaded_length|]. split; [apply loaded_length|].
  split; [apply loaded_length|].
  split; [exact FX|].
  rewrite PX. do 2 f_equal.
  rewrite (four_blocks c data 0) by lia.
  rewrite Z.mul_0_r. reflexivity.
Qed.

Lemma chunk_four (y : list Z) (v : nat) :
  List.length y = (4 * v)%nat ->
  exists x0 x1 x2 x3,
    y = x0 ++ x1 ++ x2 ++ x3
    /\ List.length x0 = v /\ List.length x1 = v
    /\ List.length x2 = v /\ List.length x3 = v.
Proof.
  intros H.
  exists (firstn v y), (firstn v (skipn v y)), (firstn v (skipn v (skipn v y))),
    (skipn v (skipn v (skipn v y))).
  split.
  - rewrite !firstn_skipn. reflexivity.
  - rewrite !length_firstn, !length_skipn. lia.
Qed.

Lemma bytes_of_lanes_app (a b : vec) :
  bytes_of_lanes (a ++ b) = bytes_of_lanes a ++ bytes_of_lanes b.
Proof. unfold bytes_of_lanes. apply flat_map_app. Qed.

Lemma bytes_of_lanes_length (v : vec) :
  List.length (bytes_of_lanes v) = (16 * List.length v)%nat.
Proof.
  unfold bytes_of_lanes. induction v as [|d v IH]; [reflexivity|].
  cbn [flat_map List.length]. rewrite length_app, IH, to_le_bytes_length. lia.
Qed.

(** "At end of loop we write out results from variables back into the
    buffer": the four registers replace the four blocks they stand for. *)
Lemma store_four_spec (c : simd_cfg) (data rest : list Z) (M : Z) (st : simd) :
  let V := cfg_vbytes c in
  0 < V -> 0 <= M -> 4 * M + 4 <= cfg_words c ->
  4 * V * (M + 1) <= Z.of_nat (List.length data) ->
  fold4_inv c data rest M st ->
  exists st' H,
    store_four c st = Next st'
    /\ sd_buf st'
       = firstn (Z.to_nat (4 * V * M)) data ++ H
         ++ skipn (Z.to_nat (4 * V * (M + 1))) (data ++ rest)
    /\ Z.of_nat (List.length H) = 4 * V /\ Forall is_byte H
    /\ gf2_mod (msg_poly H)
       = gf2_mod (msg_poly (firstn (Z.to_nat (4 * V * (M + 1))) data))
    /\ sd_data_offset st' = 4 * M
    /\ sd_bytes_read st' = Z.of_nat (List.length data) - 4 * V * M
    /\ sd_crc st' = 0 /\ sd_fp st' = sd_fp st /\ sd_length st' = sd_length st.
Proof.
  intros V HV HM HW Hn Inv.
  destruct Inv as (Ibuf & Ioff & Ird & Icrc & Ifp & Ilen & Inb & L0 & L3 & L5 & L7
                   & Ifit & Ipoly).
  fold V in Ird, Ipoly.
  assert (S0 : mm_shuffle_epi8 (sd_data st) (shuffle_constant (cfg_lanes c))
               = map (bswap 16) (sd_data st))
    by (rewrite <- L0; apply shuffle_register).
  assert (S3 : mm_shuffle_epi8 (sd_data3 st) (shuffle_constant (cfg_lanes c))
               = map (bswap 16) (sd_data3 st))
    by (rewrite <- L3; apply shuffle_register).
  assert (S5 : mm_shuffle_epi8 (sd_data5 st) (shuffle_constant (cfg_lanes c))
               = map (bswap 16) (sd_data5 st))
    by (rewrite <- L5; apply shuffle_register).
  assert (S7 : mm_shuffle_epi8 (sd_data7 st) (shuffle_constant (cfg_lanes c))
               = map (bswap 16) (sd_data7 st))
    by (rewrite <- L7; apply shuffle_register).
  set (h0 := bytes_of_lanes (map (bswap 16) (sd_data st))).
  set (h3 := bytes_of_lanes (map (bswap 16) (sd_data3 st))).
  set (h5 := bytes_of_lanes (map (bswap 16) (sd_data5 st))).
  set (h7 := bytes_of_lanes (map (bswap 16) (sd_data7 st))).
  assert (HL : forall v, List.length v = cfg_lanes c ->
                 List.length (bytes_of_lanes (map (bswap 16) v)) = Z.to_nat V).
  { intros v Lv. rewrite bytes_of_lanes_length, length_map, Lv.
    unfold V, cfg_vbytes. lia. }
  assert (Lh0 := HL _ L0). assert (Lh3 := HL _ L3).
  assert (Lh5 := HL _ L5). assert (Lh7 := HL _ L7).
  fold h0 in Lh0. fold h3 in Lh3. fold h5 in Lh5. fold h7 in Lh7.
  destruct (split_at (data ++ rest) (Z.to_nat (4 * V * M)) (4 * Z.to_nat V))
    as (Y & EY & LY); [rewrite length_app; nia|].
  destruct (chunk_four Y (Z.to_nat V) LY) as (x0 & x1 & x2 & x3 & EX & X0 & X1 & X2 & X3).
  assert (Efirst : firstn (Z.to_nat (4 * V * M)) (data ++ rest)
                   = firstn (Z.to_nat (4 * V * M)) data).
  { rewrite firstn_app.
    replace (Z.to_nat (4 * V * M) - List.length data)%nat with 0%nat by nia.
    cbn [firstn]. apply app_nil_r. }
  rewrite Efirst in EY.
  replace (Z.to_nat (4 * V * M) + 4 * Z.to_nat V)%nat
    with (Z.to_nat (4 * V * (M + 1))) in EY by nia.
  set (P := firstn (Z.to_nat (4 * V * M)) data) in *.
  set (R := skipn (Z.to_nat (4 * V * (M + 1))) (data ++ rest)) in *.
  assert (LP : Z.of_nat (List.length P) = 4 * V * M)
    by (unfold P; rewrite length_firstn; nia).
  subst Y.
  assert (B0 : storeu (sd_buf st) (dp c st 0) (map (bswap 16) (sd_data st))
               = Some (P ++ h0 ++ x1 ++ x2 ++ x3 ++ R)).
  { unfold storeu, dp. rewrite Ioff, Ibuf, EY, Z.mod_small, Z.add_0_r by lia.
    fold V h0. replace (V * (4 * M)) with (Z.of_nat (List.length P)) by lia.
    rewrite <- !app_assoc. apply blit_mid. lia. }
  assert (B1 : storeu (P ++ h0 ++ x1 ++ x2 ++ x3 ++ R) (dp c st 1)
                 (map (bswap 16) (sd_data3 st))
               = Some (P ++ h0 ++ h3 ++ x2 ++ x3 ++ R)).
  { unfold storeu, dp. rewrite Ioff, Z.mod_small by lia.
    fold V h3.
    replace (V * (4 * M + 1)) with (Z.of_nat (List.length (P ++ h0)))
      by (rewrite length_app; lia).
    rewrite (app_assoc P h0). rewrite blit_mid by lia.
    rewrite <- app_assoc. reflexivity. }
  assert (B2 : storeu (P ++ h0 ++ h3 ++ x2 ++ x3 ++ R) (dp c st 2)
                 (map (bswap 16) (sd_data5 st))
               = Some (P ++ h0 ++ h3 ++ h5 ++ x3 ++ R)).
  { unfold storeu, dp. rewrite Ioff, Z.mod_small by lia.
    fold V h5.
    replace (V * (4 * M + 2)) with (Z.of_nat (List.length ((P ++ h0) ++ h3)))
      by (rewrite !length_app; lia).
    rewrite (app_assoc P h0), (app_assoc (P ++ h0) h3). rewrite blit_mid by lia.
    rewrite <- !app_assoc. reflexivity. }
  assert (B3 : storeu (P ++ h0 ++ h3 ++ h5 ++ x3 ++ R) (dp c st 3)
                 (map (bswap 16) (sd_data7 st))
               = Some (P ++ h0 ++ h3 ++ h5 ++ h7 ++ R)).
  { unfold storeu, dp. rewrite Ioff, Z.mod_small by lia.
    fold V h7.
    replace (V * (4 * M + 3))
      with (Z.of_nat (List.length (((P ++ h0) ++ h3) ++ h5)))
      by (rewrite !length_app; lia).
    rewrite (app_assoc P h0), (app_assoc (P ++ h0) h3),
      (app_assoc ((P ++ h0) ++ h3) h5).
    rewrite <- (app_nil_l R) at 1. rewrite (app_assoc x3 [] R), app_nil_r.
    rewrite blit_mid by lia.
    rewrite <- !app_assoc. reflexivity. }
  unfold store_four. cbv zeta. rewrite S0, S3, S5, S7.
  rewrite B0. cbn [lift bind]. rewrite B1. cbn [lift bind].
  rewrite B2. cbn [lift bind]. rewrite B3. cbn [lift bind].
  destruct (stored_register (four_regs st) Ifit) as (SL & SB & SP).
  assert (EH : bytes_of_lanes (map (bswap 16) (four_regs st)) = h0 ++ h3 ++ h5 ++ h7).
  { unfold four_regs. rewrite !map_app, !bytes_of_lanes_app. reflexivity. }
  rewrite EH in SL, SB, SP.
  eexists. exists (h0 ++ h3 ++ h5 ++ h7). split; [reflexivity|].
  cbn [sd_buf sd_data_offset sd_bytes_read sd_crc sd_fp sd_length set_buf set_data].
  split; [rewrite <- !app_assoc; reflexivity|].
  split; [rewrite !length_app; lia|].
  split; [exact SB|]. split; [rewrite SP; exact Ipoly|].
  split; [exact Ioff|]. split; [exact Ird|]. split; [exact Icrc|].
  split; reflexivity.
Qed.

(** The refill at the end of a round, once the stream is exhausted: one
    more [fread] that delivers nothing. *)
Lemma refill_spec (c : simd_cfg) (data rest : list Z) (i : Z) (st : simd) :
  (0 < Z.to_nat (cfg_half c))%nat ->
  0 <= cfg_vbytes c * (cfg_words c / 2) <= Z.of_nat (List.length (data ++ rest)) ->
  Z.of_nat (List.length data) < 2 ^ 64 ->
  0 <= sd_bytes_read st < 2 ^ 64 ->
  fold4_inv c data rest i st ->
  exists st', refill c st = Next st' /\ fold4_inv c data rest i st'.
Proof.
  intros Hh Hoff H64 Hr Inv.
  pose proof Inv as (Ibuf & Ioff & Ird & Icrc & Ifp & Ilen & Inb & L0 & L3 & L5 & L7
                     & Ifit & Ipoly).
  unfold refill.
  destruct ((sd_bytes_read st <? cfg_half c) && sd_data_available st);
    [|exists st; split; [reflexivity | exact Inv]].
  rewrite Ifp, (fread_all (cfg_half c) [] true) by (cbn [List.length]; lia).
  rewrite Ibuf.
  assert (Hnb : 0 <= cfg_vbytes c * sd_next_buf st
                <= Z.of_nat (List.length (data ++ rest))).
  { destruct Inb as [E | E]; rewrite E; [rewrite Z.mul_0_r; lia | exact Hoff]. }
  rewrite blit_nothing by exact Hnb.
  cbn [lift bind List.length]. change (Z.of_nat 0) with 0.
  rewrite Ilen, add_length_spec by lia. rewrite Z.add_0_r.
  destruct (Z.ltb_spec (Z.of_nat (List.length data)) (2 ^ 64)); [|lia].
  eexists. split; [reflexivity|].
  unfold fold4_inv, four_regs.
  cbn [sd_buf sd_data_offset sd_bytes_read sd_crc sd_fp sd_length sd_next_buf
       sd_data sd_data3 sd_data5 sd_data7].
  split; [reflexivity|]. split; [exact Ioff|].
  split; [unfold u64; rewrite Z.add_0_r, Z.mod_small by lia; exact Ird|].
  split; [exact Icrc|]. split; [reflexivity|]. split; [reflexivity|].
  split.
  { destruct Inb as [-> | ->].
    - right. apply Z.lxor_0_l.
    - left. apply Z.lxor_nilpotent. }
  repeat (split; [assumption|]). exact Ipoly.
Qed.

Lemma slice_mid (a m r : list Z) :
  slice (a ++ m ++ r) (Z.of_nat (List.length a)) (Z.of_nat (List.length m)) = Some m.
Proof.
  rewrite slice_at by (rewrite ?length_app; lia).
  rewrite !Nat2Z.id. rewrite skipn_app, skipn_all, Nat.sub_diag.
  cbn [skipn app]. rewrite firstn_app, firstn_all, Nat.sub_diag.
  cbn [firstn]. rewrite app_nil_r. reflexivity.
Qed.

Lemma slice_firstn (a : list Z) (m : nat) (off len : Z) :
  0 <= off -> 0 <= len -> off + len <= Z.of_nat m -> (m <= List.length a)%nat ->
  slice (firstn m a) off len = slice a off len.
Proof.
  intros H1 H2 H3 H4.
  rewrite <- (firstn_skipn m a) at 2.
  symmetry. apply slice_inside; [lia | lia |].
  rewrite length_firstn. lia.
Qed.

(** A stream read in full by the first [fread] and filling at least two
    registers.  Whatever the main block folds it leaves, [j0] registers
    into [buf], a string with the CRC of the stream; the single fold
    leaves in [buf], at the register offset [data_offset], a string with
    that CRC again; the byte tail reads at the byte offset [data_offset]
    instead. *)
Lemma simd_backend_folds (c : simd_cfg) (nch : nat) (main : step)
  (fuel : nat) (buf0 data : list Z) (k : Z) :
  let V := cfg_vbytes c in
  let K := repeat (mm_set_epi64x (gf2_mod (2 ^ (8 * V + 64))) (gf2_mod (2 ^ (8 * V))))
                  (cfg_lanes c) in
  let n := Z.of_nat (List.length data) in
  let r := n - V * k in
  let rest0 := skipn (List.length data) buf0 in
  Forall is_byte data ->
  0 < V -> 1 <= k < cfg_words c -> cfg_words c <= INT_MAX ->
  V * (k + 1) <= n < V * (k + 2) ->
  (Z.to_nat k <= fuel)%nat ->
  (List.length data < Z.to_nat (cfg_half c))%nat ->
  (List.length data <= List.length buf0)%nat ->
  0 <= V * (cfg_words c / 2) <= Z.of_nat (List.length buf0) ->
  n < 2 ^ 64 ->
  (forall st, sd_buf st = data ++ rest0 ->
              sd_data_offset st = 0 -> sd_crc st = 0 -> sd_bytes_read st = n ->
              sd_fp st = mkFILE [] false true false -> sd_length st = n ->
              sd_next_buf st = 0 ->
              exists stm j0 data',
                main st = Next stm
                /\ 0 <= j0 /\ V * j0 + 2 * V <= n
                /\ sd_buf stm = firstn (Z.to_nat (V * j0)) data ++ data' ++ rest0
                /\ Z.of_nat (List.length data') = n - V * j0
                /\ Forall is_byte data' /\ crc_ref data' = crc_ref data
                /\ sd_data_offset stm = j0 /\ sd_crc stm = 0
                /\ sd_bytes_read stm = n - V * j0
                /\ sd_fp stm = sd_fp st /\ sd_length stm = sd_length st
                /\ ((j0 = 0 /\ data' = data) \/ k + r <= V * j0)) ->
  exists st0 stm st1 right wrong,
    simd_init c nch buf0 (fopen_bytes data) = Next st0
    /\ main (set_length st0 n) = Next stm
    /\ single_fold c K fuel stm = Next st1
    /\ sd_data_offset st1 = k /\ sd_bytes_read st1 = r
    /\ slice (sd_buf st1) (V * k) r = Some right
    /\ crc_ref right = crc_ref data
    /\ slice (sd_buf st1) k r = Some wrong
    /\ simd_backend c nch main K fuel buf0 (fopen_bytes data)
       = Next (CksumDone true (crc_bytes_tail 0 wrong) n)
    /\ (k + r <= V * k ->
        wrong = firstn (Z.to_nat r) (skipn (Z.to_nat k) data)).
Proof.
  intros V K n r rest0 Hb HV Hk HW Hn Hf Hhalf Hbuf Hoff H64 Hmain.
  pose proof (simd_init_short c nch buf0 data Hhalf Hbuf Hoff H64) as Einit.
  fold rest0 in Einit.
  set (st0 := mkSimd (data ++ rest0)
                (mkFILE [] false true false) 0 true
                (Z.of_nat (List.length data)) 0 0 0 [] [] [] []
                (repeat (repeat 0 (cfg_lanes c)) nch)) in *.
  destruct (Hmain (set_length st0 n))
    as (stm & j0 & data' & Em & Hj0 & Hj0n & Bm & Lm & Bbm & Cm & Om & Crm & Rm
        & Fm & Lnm & Hcase);
    [reflexivity | reflexivity | reflexivity | reflexivity | reflexivity
     | reflexivity | reflexivity |].
  set (pre := firstn (Z.to_nat (V * j0)) data) in *.
  assert (Lpre : Z.of_nat (List.length pre) = V * j0)
    by (unfold pre; rewrite length_firstn; unfold n in *; nia).
  set (k' := k - j0).
  assert (Hk' : 1 <= k') by (unfold k'; nia).
  destruct (single_fold_spec c pre data' rest0 j0 k' fuel stm Bbm HV Hj0 Lpre Hk')
    as (st1 & F & E1 & B1 & LF & BF & PF & O1 & R1 & F1 & L1 & C1);
    [unfold k'; lia | exact HW | rewrite Lm; unfold k'; nia | lia
     | unfold k'; lia | exact Bm | exact Om | exact Crm | rewrite Rm; lia |].
  fold V K in E1, B1, LF, PF, R1.
  set (T := skipn (Z.to_nat (V * (k' + 1))) data').
  assert (BT : Forall is_byte T) by (apply Forall_skipn, Bbm).
  assert (LT : Z.of_nat (List.length T) = n - V * (k + 1))
    by (unfold T, k'; rewrite length_skipn; nia).
  set (A := pre ++ firstn (Z.to_nat (V * k')) data').
  assert (LA : Z.of_nat (List.length A) = V * k)
    by (unfold A, k'; rewrite length_app, length_firstn; nia).
  assert (Ebuf : sd_buf st1 = A ++ (F ++ T) ++ rest0).
  { rewrite B1. rewrite skipn_app.
    replace (Z.to_nat (V * (k' + 1)) - List.length data')%nat with 0%nat
      by (unfold k'; nia).
    rewrite skipn_O. fold T. unfold A. rewrite <- !app_assoc. reflexivity. }
  assert (Lbuf : Z.of_nat (List.length (sd_buf st1))
                 = Z.of_nat (List.length buf0)).
  { rewrite Ebuf, !length_app. unfold rest0. rewrite length_skipn.
    rewrite !Nat2Z.inj_add, LA, LF, LT. unfold n. lia. }
  assert (Er : slice (sd_buf st1) (V * k) r = Some (F ++ T)).
  { pose proof (slice_mid A (F ++ T) rest0) as Hs.
    rewrite LA, length_app, Nat2Z.inj_add, LF, LT in Hs.
    rewrite Ebuf. replace r with (V + (n - V * (k + 1))) by (unfold r; lia).
    exact Hs. }
  destruct (slice_ok (sd_buf st1) k r) as (wrong & Ew & Lw);
    [lia | unfold r; nia | rewrite Lbuf; unfold r, n; nia |].
  exists st0, stm, st1, (F ++ T), wrong.
  split; [exact Einit|]. split; [exact Em|]. split; [exact E1|].
  split; [rewrite O1; unfold k'; lia|].
  split; [rewrite R1, Lm; unfold r, k'; nia|]. split; [exact Er|].
  split.
  { rewrite <- Cm.
    transitivity (crc_ref (firstn (Z.to_nat (V * (k' + 1))) data' ++ T)).
    - apply crc_ref_congruent;
        [exact BF | apply Forall_firstn, Bbm | exact BT | exact PF].
    - unfold T. rewrite firstn_skipn. reflexivity. }
  split; [exact Ew|]. split.
  - unfold simd_backend. rewrite Einit. cbn [bind].
    change (sd_bytes_read st0) with n. change (sd_length st0) with 0.
    destruct (Z.ltb_spec 0 n); [|nia].
    rewrite add_length_spec by lia. cbn [Z.add].
    destruct (Z.ltb_spec n (2 ^ 64)); [|lia].
    rewrite Em. cbn [bind]. rewrite E1. cbn [bind].
    unfold simd_tail. rewrite O1, R1, C1, Lm.
    replace (j0 + k') with k by (unfold k'; lia).
    rewrite Z.mod_small by lia.
    replace (n - V * j0 - V * k') with r by (unfold r, k'; nia).
    rewrite Ew. cbn [lift bind].
    unfold set_bytes_read, set_crc. cbn [sd_fp sd_crc sd_length].
    rewrite F1, L1, Fm, Lnm. reflexivity.
  - intros Hfree.
    rewrite Ebuf in Ew.
    rewrite slice_inside in Ew by lia.
    unfold A in Ew.
    destruct Hcase as [(Ej & Ed) | Hfar].
    + subst data'. unfold pre in Ew. rewrite Ej, Z.mul_0_r in Ew.
      cbn [Z.to_nat firstn app] in Ew.
      rewrite slice_firstn in Ew by (unfold k', n in *; nia).
      rewrite slice_at in Ew by (unfold r, n in *; nia).
      congruence.
    + rewrite slice_inside in Ew by lia.
      unfold pre in Ew.
      rewrite slice_firstn in Ew by (unfold n in *; nia).
      rewrite slice_at in Ew by (unfold r, n in *; nia).
      congruence.
Qed.

Lemma four_fold_constants :
  pclmul_four_mult_constant
  = repeat (mm_set_epi64x (gf2_mod (2 ^ (32 * 16 + 64))) (gf2_mod (2 ^ (32 * 16)))) 1
  /\ avx2_four_mult_constant
     = repeat (mm_set_epi64x (gf2_mod (2 ^ (32 * 32 + 64))) (gf2_mod (2 ^ (32 * 32)))) 2
  /\ avx512_four_mult_constant
     = repeat (mm_set_epi64x (gf2_mod (2 ^ (32 * 64 + 64))) (gf2_mod (2 ^ (32 * 64)))) 4.
Proof.
  destruct powers_of_x
    as (_ & _ & P3 & P4 & _ & _ & P7 & P8 & _ & _ & P11 & P12 & _).
  change (32 * 16) with 512. change (32 * 32) with (256 * 4).
  change (32 * 64) with (512 * 4).
  rewrite P3, P4, P7, P8, P11, P12. repeat (apply conj); reflexivity.
Qed.

Lemma while_ge_skip (fuel : nat) (t : Z) (body : step) (st : simd) :
  sd_bytes_read st < t -> while_ge fuel t body st = Next st.
Proof.
  intros H. destruct fuel; cbn [while_ge];
    (destruct (Z.ltb_spec (sd_bytes_read st) t); [reflexivity | lia]).
Qed.

(** "Fold in parallel": loading four registers, the rounds of the
    four-fold loop, and the write-back, on a stream read in full by the
    first [fread]. *)
Lemma parallel_fold_spec (c : simd_cfg) (data rest0 : list Z) (body : step)
  (fuel : nat) (st : simd) (M : Z) :
  let V := cfg_vbytes c in
  let n := Z.of_nat (List.length data) in
  Forall is_byte data -> 0 < V -> 0 < cfg_words c ->
  n <= V * cfg_words c ->
  1 <= M -> 4 * V * (M + 1) <= n < 4 * V * (M + 2) ->
  (Z.to_nat M <= fuel)%nat ->
  (forall i s, 0 <= i -> fold4_inv c data rest0 i s -> 8 * V <= sd_bytes_read s ->
               exists s', body s = Next s' /\ fold4_inv c data rest0 (i + 1) s') ->
  sd_buf st = data ++ rest0 -> sd_data_offset st = 0 -> sd_crc st = 0 ->
  sd_bytes_read st = n -> sd_fp st = mkFILE [] false true false ->
  sd_length st = n -> sd_next_buf st = 0 ->
  exists st1 st2 stm data',
    load_four c st = Next st1 /\ sd_bytes_read st1 = n
    /\ while_ge fuel (8 * V) body st1 = Next st2
    /\ store_four c st2 = Next stm
    /\ sd_buf stm = firstn (Z.to_nat (V * (4 * M))) data ++ data' ++ rest0
    /\ Z.of_nat (List.length data') = n - V * (4 * M)
    /\ Forall is_byte data' /\ crc_ref data' = crc_ref data
    /\ sd_data_offset stm = 4 * M /\ sd_crc stm = 0
    /\ sd_bytes_read stm = n - V * (4 * M)
    /\ sd_fp stm = sd_fp st /\ sd_length stm = sd_length st.
Proof.
  intros V n Hb HV HW Hcap HM Hn Hf Hbody Hbuf Hoff Hcrc Hrd Hfp Hlen Hnb.
  assert (A1 : 4 * cfg_vbytes c <= Z.of_nat (List.length data))
    by (fold V n; nia).
  assert (A2 : 4 * M + 4 <= cfg_words c) by nia.
  assert (A3 : 4 * cfg_vbytes c * (M + 1) <= Z.of_nat (List.length data))
    by (fold V n; lia).
  destruct (load_four_spec c data rest0 st Hb HW A1
              Hbuf Hoff Hcrc Hrd Hfp Hlen Hnb) as (st1 & E1 & Inv1).
  destruct (fold4_loop c data rest0 body M (Z.to_nat M) HV Hn Hbody fuel st1 0
              Hf ltac:(lia) ltac:(lia) Inv1) as (st2 & E2 & Inv2).
  destruct (store_four_spec c data rest0 M st2 HV ltac:(lia) A2 A3 Inv2)
    as (stm & H & E3 & B3 & LH & BH & PH & O3 & R3 & C3 & F3 & L3).
  fold V in B3, LH, PH, R3.
  set (T := skipn (Z.to_nat (4 * V * (M + 1))) data).
  assert (BT : Forall is_byte T) by (apply Forall_skipn, Hb).
  exists st1, st2, stm, (H ++ T).
  split; [exact E1|].
  split; [destruct Inv1 as (_ & _ & Ird & _); rewrite Ird; fold n; lia|].
  split; [exact E2|]. split; [exact E3|].
  split.
  { rewrite B3. rewrite skipn_app.
    replace (Z.to_nat (4 * V * (M + 1)) - List.length data)%nat with 0%nat
      by (unfold n in *; nia).
    rewrite skipn_O. fold T.
    replace (V * (4 * M)) with (4 * V * M) by lia.
    rewrite <- !app_assoc. reflexivity. }
  split; [rewrite length_app, Nat2Z.inj_add, LH; unfold T;
          rewrite length_skipn; unfold n in *; nia|].
  split; [apply Forall_app; split; assumption|].
  split.
  { transitivity (crc_ref (firstn (Z.to_nat (4 * V * (M + 1))) data ++ T)).
    - apply crc_ref_congruent;
        [exact BH | apply Forall_firstn, Hb | exact BT | exact PH].
    - unfold T. rewrite firstn_skipn. reflexivity. }
  split; [exact O3|]. split; [exact C3|].
  split; [rewrite R3; fold n; lia|].
  destruct Inv2 as (_ & _ & _ & _ & Ifp & Ilen & _).
  split; [rewrite F3, Ifp, Hfp; reflexivity|].
  rewrite L3, Ilen, Hlen. reflexivity.
Qed.

Lemma run_fold_body (c : simd_cfg) (K : vec) (t : Z) (st s1 s2 s3 : simd) :
  adv 4 st = Next s1 -> fold4 c K [] [] [] [] s1 = Next s2 ->
  sub t s2 = Next s3 ->
  run [adv 4; fold4 c K [] [] [] []; sub t] st = Next s3.
Proof.
  intros E1 E2 E3. cbn [run]. rewrite E1. cbn [bind]. rewrite E2. cbn [bind].
  rewrite E3. reflexivity.
Qed.

Lemma run_fold_body_refill (c : simd_cfg) (K : vec) (t : Z)
  (st s1 s2 s3 s4 : simd) :
  adv 4 st = Next s1 -> fold4 c K [] [] [] [] s1 = Next s2 ->
  sub t s2 = Next s3 -> refill c s3 = Next s4 ->
  run [adv 4; fold4 c K [] [] [] []; sub t; refill c] st = Next s4.
Proof.
  intros E1 E2 E3 E4. cbn [run]. rewrite E1. cbn [bind]. rewrite E2. cbn [bind].
  rewrite E3. cbn [bind]. rewrite E4. reflexivity.
Qed.

Lemma pclmul_main_idle (fuel : nat) (st : simd) :
  sd_bytes_read st < 128 -> pclmul_main fuel st = Next st.
Proof.
  intros H. unfold pclmul_main.
  destruct (Z.ltb_spec (sd_bytes_read st) (16 * 8)); [reflexivity | lia].
Qed.

Lemma avx512_main_idle (fuel : nat) (st : simd) :
  sd_bytes_read st < 512 -> avx512_main fuel st = Next st.
Proof.
  intros H. unfold avx512_main.
  destruct (Z.ltb_spec (sd_bytes_read st) (16 * 8 * 4)); [reflexivity | lia].
Qed.

Lemma pclmul_fold_round (data rest0 : list Z) (i : Z) (s : simd) :
  Forall is_byte data -> Z.of_nat (List.length data) <= 65536 ->
  0 <= i -> fold4_inv pclmul_cfg data rest0 i s ->
  8 * cfg_vbytes pclmul_cfg <= sd_bytes_read s ->
  exists s', run pclmul_fold_body s = Next s'
             /\ fold4_inv pclmul_cfg data rest0 (i + 1) s'.
Proof.
  intros Hb Hn Hi Inv Hge.
  destruct four_fold_constants as (EK & _ & _).
  destruct (fold4_step pclmul_cfg data rest0 i s Hb ltac:(reflexivity) Hi)
    as (s1 & s2 & s3 & E1 & E2 & E3 & Inv');
    [exact Hn | rewrite INT_MAX_value; change (cfg_words pclmul_cfg) with 4096; lia
     | lia | exact Inv | exact Hge |].
  exists s3. split; [|exact Inv'].
  unfold pclmul_fold_body. rewrite EK.
  apply (run_fold_body _ _ _ _ s1 s2 s3); assumption.
Qed.

Lemma avx2_fold_round (data rest0 : list Z) (i : Z) (s : simd) :
  Forall is_byte data -> Z.of_nat (List.length data) <= 2097152 ->
  0 <= i -> fold4_inv avx2_cfg data rest0 i s ->
  8 * cfg_vbytes avx2_cfg <= sd_bytes_read s ->
  exists s', run avx2_fold_body s = Next s'
             /\ fold4_inv avx2_cfg data rest0 (i + 1) s'.
Proof.
  intros Hb Hn Hi Inv Hge.
  destruct four_fold_constants as (_ & EK & _).
  destruct (fold4_step avx2_cfg data rest0 i s Hb ltac:(reflexivity) Hi)
    as (s1 & s2 & s3 & E1 & E2 & E3 & Inv');
    [exact Hn | rewrite INT_MAX_value; change (cfg_words avx2_cfg) with 65536; lia
     | lia | exact Inv | exact Hge |].
  exists s3. split; [|exact Inv'].
  unfold avx2_fold_body. rewrite EK.
  apply (run_fold_body _ _ _ _ s1 s2 s3); assumption.
Qed.

Lemma avx512_fold_round (data rest0 : list Z) (i : Z) (s : simd) :
  Forall is_byte data -> Z.of_nat (List.length data) <= 2097152 ->
  1048576 <= Z.of_nat (List.length (data ++ rest0)) ->
  0 <= i -> fold4_inv avx512_cfg data rest0 i s ->
  8 * cfg_vbytes avx512_cfg <= sd_bytes_read s ->
  exists s', run avx512_fold_body s = Next s'
             /\ fold4_inv avx512_cfg data rest0 (i + 1) s'.
Proof.
  intros Hb Hn Hbuf Hi Inv Hge.
  destruct four_fold_constants as (_ & _ & EK).
  destruct (fold4_step avx512_cfg data rest0 i s Hb ltac:(reflexivity) Hi)
    as (s1 & s2 & s3 & E1 & E2 & E3 & Inv');
    [exact Hn | rewrite INT_MAX_value; change (cfg_words avx512_cfg) with 32768; lia
     | lia | exact Inv | exact Hge |].
  assert (R3 : 0 <= sd_bytes_read s3 < 2 ^ 64).
  { unfold sub in E3. injection E3 as <-. cbn [sd_bytes_read set_bytes_read].
    unfold u64. apply Z.mod_pos_bound. lia. }
  destruct (refill_spec avx512_cfg data rest0 (i + 1) s3) as (s4 & E4 & Inv4);
    [change (Z.to_nat (cfg_half avx512_cfg)) with (Z.to_nat 1048576); lia
     | change (cfg_vbytes avx512_cfg * (cfg_words avx512_cfg / 2)) with 1048576; lia
     | lia | exact R3 | exact Inv' |].
  exists s4. split; [|exact Inv4].
  unfold avx512_fold_body. rewrite EK.
  apply (run_fold_body_refill _ _ _ _ s1 s2 s3 s4); assumption.
Qed.

(** ** Loading four registers and storing them back *)

Lemma bytes_of_swapped_twice (v : vec) :
  bytes_of_lanes (map (bswap 16) (map (bswap 16) v)) = bytes_of_lanes v.
Proof.
  unfold bytes_of_lanes. induction v as [|d v IH]; [reflexivity|].
  cbn [map flat_map]. rewrite IH, !bswap16_bytes, rev_involutive. reflexivity.
Qed.

Lemma bytes_of_lanes_of_bytes (n : nat) (bs : list Z) :
  Forall is_byte bs -> List.length bs = (16 * n)%nat ->
  bytes_of_lanes (lanes_of_bytes n bs) = bs.
Proof.
  unfold bytes_of_lanes. revert bs. induction n as [|n IH]; intros bs Hb Hl.
  - destruct bs; [reflexivity | discriminate].
  - cbn [lanes_of_bytes flat_map].
    rewrite IH by (try apply Forall_skipn; try rewrite length_skipn; try lia; exact Hb).
    assert (L16 : List.length (firstn 16 bs) = 16%nat)
      by (rewrite length_firstn; lia).
    rewrite <- L16 at 1.
    rewrite to_le_bytes_le_bytes by (apply Forall_firstn, Hb).
    apply firstn_skipn.
Qed.

Lemma blit_same (buf : list Z) (off len : Z) :
  0 <= off -> 0 <= len -> off + len <= Z.of_nat (List.length buf) ->
  blit buf off (firstn (Z.to_nat len) (skipn (Z.to_nat off) buf)) = Some buf.
Proof.
  intros H1 H2 H3.
  assert (L : List.length (firstn (Z.to_nat len) (skipn (Z.to_nat off) buf))
              = Z.to_nat len) by (rewrite length_firstn, length_skipn; lia).
  rewrite blit_at by (rewrite ?L; lia).
  rewrite L. f_equal.
  rewrite Nat.add_comm, <- skipn_skipn.
  rewrite (firstn_skipn (Z.to_nat len)). apply firstn_skipn.
Qed.

Lemma bld_at (c : simd_cfg) (st : simd) (k : Z) :
  sd_data_offset st = 0 -> 0 < cfg_words c -> 0 <= k ->
  cfg_vbytes c * (k + 1) <= Z.of_nat (List.length (sd_buf st)) ->
  bld c st k
  = Next (map (bswap 16)
            (lanes_of_bytes (cfg_lanes c)
               (firstn (Z.to_nat (cfg_vbytes c))
                  (skipn (Z.to_nat (cfg_vbytes c * k)) (sd_buf st))))).
Proof.
  intros Ho HW Hk Hfit.
  assert (HV : cfg_vbytes c = 16 * Z.of_nat (cfg_lanes c)) by reflexivity.
  unfold bld, dp, loadu. rewrite Ho, Z.mod_0_l, Z.add_0_l by lia.
  fold (cfg_vbytes c). rewrite slice_at by nia. cbn [lift bind].
  rewrite <- (lanes_of_bytes_length (cfg_lanes c)
                (firstn (Z.to_nat (cfg_vbytes c))
                   (skipn (Z.to_nat (cfg_vbytes c * k)) (sd_buf st)))) at 2.
  rewrite shuffle_register. reflexivity.
Qed.

(** Storing a loaded register back, byte-swapped twice, rewrites the bytes
    that were there. *)
Lemma store_back (c : simd_cfg) (buf : list Z) (k : Z) :
  Forall is_byte buf -> 0 <= k ->
  cfg_vbytes c * (k + 1) <= Z.of_nat (List.length buf) ->
  storeu buf (cfg_vbytes c * k)
    (mm_shuffle_epi8
       (map (bswap 16)
          (lanes_of_bytes (cfg_lanes c)
             (firstn (Z.to_nat (cfg_vbytes c))
                (skipn (Z.to_nat (cfg_vbytes c * k)) buf))))
       (shuffle_constant (cfg_lanes c)))
  = Some buf.
Proof.
  intros Hb Hk Hfit.
  assert (HV : cfg_vbytes c = 16 * Z.of_nat (cfg_lanes c)) by reflexivity.
  set (bs := firstn (Z.to_nat (cfg_vbytes c))
               (skipn (Z.to_nat (cfg_vbytes c * k)) buf)).
  assert (E : mm_shuffle_epi8 (map (bswap 16) (lanes_of_bytes (cfg_lanes c) bs))
                (shuffle_constant (cfg_lanes c))
              = map (bswap 16) (map (bswap 16) (lanes_of_bytes (cfg_lanes c) bs))).
  { rewrite <- (lanes_of_bytes_length (cfg_lanes c) bs) at 2.
    rewrite <- (length_map (bswap 16)). apply shuffle_register. }
  rewrite E. unfold storeu. rewrite bytes_of_swapped_twice.
  rewrite bytes_of_lanes_of_bytes.
  - apply blit_same; nia.
  - apply Forall_firstn, Forall_skipn, Hb.
  - unfold bs. rewrite length_firstn, length_skipn. nia.
Qed.

Lemma avx2_main_short (fuel : nat) (st : simd) :
  Forall is_byte (sd_buf st) -> 128 <= Z.of_nat (List.length (sd_buf st)) ->
  sd_data_offset st = 0 -> sd_crc st = 0 -> 64 <= sd_bytes_read st < 256 ->
  exists st', avx2_main fuel st = Next st'
    /\ sd_buf st' = sd_buf st /\ sd_data_offset st' = 0
    /\ sd_crc st' = 0 /\ sd_bytes_read st' = sd_bytes_read st
    /\ sd_fp st' = sd_fp st /\ sd_length st' = sd_length st.
Proof.
  intros Hb Hl Ho Hc Hr. unfold avx2_main.
  destruct (Z.ltb_spec (sd_bytes_read st) (32 * 2)); [lia|].
  unfold load_four.
  assert (HW : 0 < cfg_words avx2_cfg) by reflexivity.
  assert (HV : cfg_vbytes avx2_cfg = 32) by reflexivity.
  rewrite (bld_at avx2_cfg st 0) by (rewrite ?HV; lia).
  cbn [bind].
  rewrite (bld_at avx2_cfg (set_crc st 0) 1)
    by (cbn [sd_buf set_crc sd_data_offset]; rewrite ?HV; lia).
  cbn [bind].
  rewrite (bld_at avx2_cfg (set_crc st 0) 2)
    by (cbn [sd_buf set_crc sd_data_offset]; rewrite ?HV; lia).
  cbn [bind].
  rewrite (bld_at avx2_cfg (set_crc st 0) 3)
    by (cbn [sd_buf set_crc sd_data_offset]; rewrite ?HV; lia).
  cbn [bind]. rewrite Hc, vlow_zero.
  cbn [sd_buf set_crc].
  set (x0 := map (bswap 16) (lanes_of_bytes (cfg_lanes avx2_cfg)
               (firstn (Z.to_nat (cfg_vbytes avx2_cfg))
                  (skipn (Z.to_nat (cfg_vbytes avx2_cfg * 0)) (sd_buf st))))).
  assert (E0 : mm_xor x0 (repeat 0 (cfg_lanes avx2_cfg)) = x0).
  { rewrite <- (mm_xor_zero x0) at 2 by apply loaded_fits.
    unfold x0. rewrite loaded_length. reflexivity. }
  rewrite E0.
  rewrite while_ge_skip by (cbn [sd_bytes_read set_data set_crc]; lia).
  cbn [bind].
  rewrite while_ge_skip by (cbn [sd_bytes_read set_data set_crc]; lia).
  cbn [bind].
  unfold store_four, dp.
  cbn [sd_data sd_data3 sd_data5 sd_data7 sd_buf sd_data_offset set_data set_crc].
  rewrite Ho, Z.mod_0_l, !Z.add_0_l by lia.
  unfold x0.
  rewrite (store_back avx2_cfg (sd_buf st) 0) by (rewrite ?HV; lia || exact Hb).
  cbn [lift bind].
  rewrite (store_back avx2_cfg (sd_buf st) 1) by (rewrite ?HV; lia || exact Hb).
  cbn [lift bind].
  rewrite (store_back avx2_cfg (sd_buf st) 2) by (rewrite ?HV; lia || exact Hb).
  cbn [lift bind].
  rewrite (store_back avx2_cfg (sd_buf st) 3) by (rewrite ?HV; lia || exact Hb).
  cbn [lift bind].
  eexists. split; [reflexivity|].
  cbn [sd_buf sd_data_offset sd_crc sd_bytes_read sd_fp sd_length
       set_buf set_data set_crc].
  repeat (split; [assumption || reflexivity|]). reflexivity.
Qed.

(** ** The main blocks below the Chorba threshold *)

Lemma pclmul_main_post (fuel : nat) (data rest0 : list Z) (st : simd) :
  let n := Z.of_nat (List.length data) in
  let k := n / 16 - 1 in
  let r := n - 16 * k in
  Forall is_byte data -> 32 <= n < 512 * 2 + 64 + 16 * 8 ->
  (List.length data <= fuel)%nat ->
  sd_buf st = data ++ rest0 ->
  sd_data_offset st = 0 -> sd_crc st = 0 -> sd_bytes_read st = n ->
  sd_fp st = mkFILE [] false true false -> sd_length st = n ->
  sd_next_buf st = 0 ->
  exists stm j0 data',
    pclmul_main fuel st = Next stm
    /\ 0 <= j0 /\ 16 * j0 + 2 * 16 <= n
    /\ sd_buf stm = firstn (Z.to_nat (16 * j0)) data ++ data' ++ rest0
    /\ Z.of_nat (List.length data') = n - 16 * j0
    /\ Forall is_byte data' /\ crc_ref data' = crc_ref data
    /\ sd_data_offset stm = j0 /\ sd_crc stm = 0
    /\ sd_bytes_read stm = n - 16 * j0
    /\ sd_fp stm = sd_fp st /\ sd_length stm = sd_length st
    /\ ((j0 = 0 /\ data' = data) \/ k + r <= 16 * j0).
Proof.
  intros n k r Hb Hn Hf Hbuf Hoff Hcrc Hrd Hfp Hlen Hnb.
  destruct (Z.lt_ge_cases n 128) as [Hs | Hl].
  - exists st, 0, data. rewrite pclmul_main_idle by lia.
    split; [reflexivity|]. split; [lia|]. split; [lia|].
    split; [exact Hbuf|]. split; [fold n; lia|]. split; [exact Hb|].
    split; [reflexivity|]. split; [exact Hoff|]. split; [exact Hcrc|].
    split; [lia|]. split; [reflexivity|]. split; [reflexivity|].
    left. split; reflexivity.
  - pose proof (Z.div_mod n 64 ltac:(lia)) as D.
    pose proof (Z.mod_pos_bound n 64 ltac:(lia)) as Dm.
    pose proof (Z.div_mod n 16 ltac:(lia)) as D'.
    pose proof (Z.mod_pos_bound n 16 ltac:(lia)) as Dm'.
    set (M := n / 64 - 1).
    destruct (parallel_fold_spec pclmul_cfg data rest0 (run pclmul_fold_body)
                fuel st M Hb ltac:(reflexivity) ltac:(reflexivity))
      as (st1 & st2 & stm & data' & E1 & R1 & E2 & E3 & B3 & L3 & Bb & C3 & O3 & Cr
          & R3 & F3 & Ln3);
      try assumption.
    + change (cfg_vbytes pclmul_cfg * cfg_words pclmul_cfg) with 65536.
      fold n. lia.
    + unfold M. lia.
    + change (cfg_vbytes pclmul_cfg) with 16. fold n. unfold M. lia.
    + unfold M. fold n in Hf. lia.
    + intros i s Hi Inv Hge. apply pclmul_fold_round; try assumption. fold n. lia.
    + change (cfg_vbytes pclmul_cfg) with 16 in *. fold n in L3, R3.
      exists stm, (4 * M), data'.
      split.
      { unfold pclmul_main. rewrite Hrd.
        destruct (Z.ltb_spec n (16 * 8)); [lia|].
        rewrite E1. cbn [bind]. rewrite R1. fold n.
        destruct (Z.ltb_spec n (512 * 2 + 64 + 16 * 8)); [|lia].
        cbn [bind]. change (16 * 8) with (8 * 16). rewrite E2. cbn [bind].
        exact E3. }
      split; [unfold M; lia|]. split; [unfold M; lia|].
      split; [exact B3|]. split; [exact L3|]. split; [exact Bb|].
      split; [exact C3|]. split; [exact O3|]. split; [exact Cr|].
      split; [exact R3|]. split; [exact F3|]. split; [exact Ln3|].
      right. unfold r, k, M. lia.
Qed.

Lemma avx2_main_post (fuel : nat) (data rest0 : list Z) (st : simd) :
  let n := Z.of_nat (List.length data) in
  let k := n / 32 - 1 in
  let r := n - 32 * k in
  Forall is_byte data -> Forall is_byte rest0 ->
  128 <= Z.of_nat (List.length (data ++ rest0)) ->
  64 <= n < 1024 + 128 + 32 * 8 ->
  (List.length data <= fuel)%nat ->
  sd_buf st = data ++ rest0 ->
  sd_data_offset st = 0 -> sd_crc st = 0 -> sd_bytes_read st = n ->
  sd_fp st = mkFILE [] false true false -> sd_length st = n ->
  sd_next_buf st = 0 ->
  exists stm j0 data',
    avx2_main fuel st = Next stm
    /\ 0 <= j0 /\ 32 * j0 + 2 * 32 <= n
    /\ sd_buf stm = firstn (Z.to_nat (32 * j0)) data ++ data' ++ rest0
    /\ Z.of_nat (List.length data') = n - 32 * j0
    /\ Forall is_byte data' /\ crc_ref data' = crc_ref data
    /\ sd_data_offset stm = j0 /\ sd_crc stm = 0
    /\ sd_bytes_read stm = n - 32 * j0
    /\ sd_fp stm = sd_fp st /\ sd_length stm = sd_length st
    /\ ((j0 = 0 /\ data' = data) \/ k + r <= 32 * j0).
Proof.
  intros n k r Hb Hb0 Hlb Hn Hf Hbuf Hoff Hcrc Hrd Hfp Hlen Hnb.
  destruct (Z.lt_ge_cases n 256) as [Hs | Hl].
  - destruct (avx2_main_short fuel st) as (st' & E & P1 & P2 & P3 & P4 & P5 & P6).
    + rewrite Hbuf. apply Forall_app. split; assumption.
    + rewrite Hbuf. exact Hlb.
    + exact Hoff.
    + exact Hcrc.
    + lia.
    + exists st', 0, data.
      split; [exact E|]. split; [lia|]. split; [lia|].
      split; [rewrite P1; exact Hbuf|]. split; [fold n; lia|]. split; [exact Hb|].
      split; [reflexivity|]. split; [exact P2|]. split; [exact P3|].
      split; [rewrite P4; lia|]. split; [exact P5|]. split; [exact P6|].
      left. split; reflexivity.
  - pose proof (Z.div_mod n 128 ltac:(lia)) as D.
    pose proof (Z.mod_pos_bound n 128 ltac:(lia)) as Dm.
    pose proof (Z.div_mod n 32 ltac:(lia)) as D'.
    pose proof (Z.mod_pos_bound n 32 ltac:(lia)) as Dm'.
    set (M := n / 128 - 1).
    destruct (parallel_fold_spec avx2_cfg data rest0 (run avx2_fold_body)
                fuel st M Hb ltac:(reflexivity) ltac:(reflexivity))
      as (st1 & st2 & stm & data' & E1 & R1 & E2 & E3 & B3 & L3 & Bb & C3 & O3 & Cr
          & R3 & F3 & Ln3);
      try assumption.
    + change (cfg_vbytes avx2_cfg * cfg_words avx2_cfg) with 2097152.
      fold n. lia.
    + unfold M. lia.
    + change (cfg_vbytes avx2_cfg) with 32. fold n. unfold M. lia.
    + unfold M. fold n in Hf. lia.
    + intros i s Hi Inv Hge. apply avx2_fold_round; try assumption. fold n. lia.
    + change (cfg_vbytes avx2_cfg) with 32 in *. fold n in L3, R3.
      exists stm, (4 * M), data'.
      split.
      { unfold avx2_main. rewrite Hrd.
        destruct (Z.ltb_spec n (32 * 2)); [lia|].
        rewrite E1. cbn [bind].
        rewrite while_ge_skip by (rewrite R1; fold n; lia). cbn [bind].
        change (32 * 8) with (8 * 32). rewrite E2. cbn [bind].
        exact E3. }
      split; [unfold M; lia|]. split; [unfold M; lia|].
      split; [exact B3|]. split; [exact L3|]. split; [exact Bb|].
      split; [exact C3|]. split; [exact O3|]. split; [exact Cr|].
      split; [exact R3|]. split; [exact F3|]. split; [exact Ln3|].
      right. unfold r, k, M. lia.
Qed.

Lemma avx512_main_post (fuel : nat) (data rest0 : list Z) (st : simd) :
  let n := Z.of_nat (List.length data) in
  let k := n / 64 - 1 in
  let r := n - 64 * k in
  Forall is_byte data ->
  1048576 <= Z.of_nat (List.length (data ++ rest0)) ->
  128 <= n < 2048 + 256 + 64 * 8 ->
  (List.length data <= fuel)%nat ->
  sd_buf st = data ++ rest0 ->
  sd_data_offset st = 0 -> sd_crc st = 0 -> sd_bytes_read st = n ->
  sd_fp st = mkFILE [] false true false -> sd_length st = n ->
  sd_next_buf st = 0 ->
  exists stm j0 data',
    avx512_main fuel st = Next stm
    /\ 0 <= j0 /\ 64 * j0 + 2 * 64 <= n
    /\ sd_buf stm = firstn (Z.to_nat (64 * j0)) data ++ data' ++ rest0
    /\ Z.of_nat (List.length data') = n - 64 * j0
    /\ Forall is_byte data' /\ crc_ref data' = crc_ref data
    /\ sd_data_offset stm = j0 /\ sd_crc stm = 0
    /\ sd_bytes_read stm = n - 64 * j0
    /\ sd_fp stm = sd_fp st /\ sd_length stm = sd_length st
    /\ ((j0 = 0 /\ data' = data) \/ k + r <= 64 * j0).
Proof.
  intros n k r Hb Hlb Hn Hf Hbuf Hoff Hcrc Hrd Hfp Hlen Hnb.
  destruct (Z.lt_ge_cases n 512) as [Hs | Hl].
  - exists st, 0, data. rewrite avx512_main_idle by lia.
    split; [reflexivity|]. split; [lia|]. split; [lia|].
    split; [exact Hbuf|]. split; [fold n; lia|]. split; [exact Hb|].
    split; [reflexivity|]. split; [exact Hoff|]. split; [exact Hcrc|].
    split; [lia|]. split; [reflexivity|]. split; [reflexivity|].
    left. split; reflexivity.
  - pose proof (Z.div_mod n 256 ltac:(lia)) as D.
    pose proof (Z.mod_pos_bound n 256 ltac:(lia)) as Dm.
    pose proof (Z.div_mod n 64 ltac:(lia)) as D'.
    pose proof (Z.mod_pos_bound n 64 ltac:(lia)) as Dm'.
    set (M := n / 256 - 1).
    destruct (parallel_fold_spec avx512_cfg data rest0 (run avx512_fold_body)
                fuel st M Hb ltac:(reflexivity) ltac:(reflexivity))
      as (st1 & st2 & stm & data' & E1 & R1 & E2 & E3 & B3 & L3 & Bb & C3 & O3 & Cr
          & R3 & F3 & Ln3);
      try assumption.
    + change (cfg_vbytes avx512_cfg * cfg_words avx512_cfg) with 2097152.
      fold n. lia.
    + unfold M. lia.
    + change (cfg_vbytes avx512_cfg) with 64. fold n. unfold M. lia.
    + unfold M. fold n in Hf. lia.
    + intros i s Hi Inv Hge. apply avx512_fold_round; try assumption. fold n. lia.
    + change (cfg_vbytes avx512_cfg) with 64 in *. fold n in L3, R3.
      exists stm, (4 * M), data'.
      split.
      { unfold avx512_main. rewrite Hrd.
        destruct (Z.ltb_spec n (16 * 8 * 4)); [lia|].
        rewrite E1. cbn [bind].
        rewrite while_ge_skip by (rewrite R1; fold n; lia). cbn [bind].
        change (64 * 8) with (8 * 64). rewrite E2. cbn [bind].
        exact E3. }
      split; [unfold M; lia|]. split; [unfold M; lia|].
      split; [exact B3|]. split; [exact L3|]. split; [exact Bb|].
      split; [exact C3|]. split; [exact O3|]. split; [exact Cr|].
      split; [exact R3|]. split; [exact F3|]. split; [exact Ln3|].
      right. unfold r, k, M. lia.
Qed.

Lemma single_constants :
  pclmul_single_mult_constant
  = repeat (mm_set_epi64x (gf2_mod (2 ^ (8 * 16 + 64))) (gf2_mod (2 ^ (8 * 16)))) 1
  /\ avx2_single_mult_constant
     = repeat (mm_set_epi64x (gf2_mod (2 ^ (8 * 32 + 64))) (gf2_mod (2 ^ (8 * 32)))) 2
  /\ avx512_single_mult_constant
     = repeat (mm_set_epi64x (gf2_mod (2 ^ (8 * 64 + 64))) (gf2_mod (2 ^ (8 * 64)))) 4.
Proof.
  destruct powers_of_x as (P1 & P2 & P3 & P4 & P5 & P6 & _).
  change (8 * 16) with 128. change (8 * 32) with 256. change (8 * 64) with 512.
  rewrite P1, P2, P3, P4, P5, P6. repeat (apply conj); reflexivity.
Qed.

(** X16. Streams of 32 to 1215 bytes through [cksum_pclmul], below the
    Chorba threshold.  The folding is right: after the main block (which
    passes over streams shorter than 128 bytes, and otherwise folds four
    registers in parallel and writes them back) and the single fold,
    [data_offset] is k = n / 16 - 1, [bytes_read] is r = n - 16 * k, and the
    r bytes of [buf] at the register offset k, that is at byte 16 * k, have
    the reference CRC of the whole stream.  The byte tail does not read
    them: it reads the r bytes at byte offset k, and the register returned
    is the byte rule over those.  From 64 bytes on these are the bytes
    k ... k + r - 1 of the stream itself, which no fold has written, so the
    result depends on those 16 to 31 bytes only. *)
Theorem pclmul_fold_result_is_not_read (buf0 data : list Z) :
  Z.of_nat (List.length buf0) = 65536 -> Forall is_byte data ->
  32 <= Z.of_nat (List.length data) < 512 * 2 + 64 + 16 * 8 ->
  let n := Z.of_nat (List.length data) in
  let k := n / 16 - 1 in
  let r := n - 16 * k in
  let fuel := S (List.length data) in
  exists st0 stm st1 right wrong,
    simd_init pclmul_cfg 4 buf0 (fopen_bytes data) = Next st0
    /\ pclmul_main fuel (set_length st0 n) = Next stm
    /\ single_fold pclmul_cfg pclmul_single_mult_constant fuel stm = Next st1
    /\ sd_data_offset st1 = k /\ sd_bytes_read st1 = r
    /\ slice (sd_buf st1) (16 * k) r = Some right
    /\ crc_ref right = crc_ref data
    /\ slice (sd_buf st1) k r = Some wrong
    /\ cksum_pclmul buf0 (fopen_bytes data)
       = Some (CksumDone true (crc_bytes_tail 0 wrong) n)
    /\ (64 <= n -> wrong = firstn (Z.to_nat r) (skipn (Z.to_nat k) data)).
Proof.
  intros Hbuf Hb Hn n k r fuel.
  destruct single_constants as (EK & _ & _).
  pose proof (Z.div_mod n 16 ltac:(lia)) as D.
  pose proof (Z.mod_pos_bound n 16 ltac:(lia)) as Dm.
  fold n in Hn.
  destruct (simd_backend_folds pclmul_cfg 4 (pclmul_main fuel) fuel buf0 data k)
    as (st0 & stm & st1 & right & wrong & H1 & H2 & H3 & H4 & H5 & H6 & H7 & H8
        & H9 & H10).
  - exact Hb.
  - reflexivity.
  - change (cfg_words pclmul_cfg) with 4096. unfold k. lia.
  - rewrite INT_MAX_value. change (cfg_words pclmul_cfg) with 4096. lia.
  - change (cfg_vbytes pclmul_cfg) with 16. fold n. unfold k. lia.
  - unfold fuel, k. fold n. lia.
  - change (Z.to_nat (cfg_half pclmul_cfg)) with (Z.to_nat 32768). fold n in Hn. lia.
  - lia.
  - change (cfg_vbytes pclmul_cfg * (cfg_words pclmul_cfg / 2)) with 32768. lia.
  - lia.
  - intros st B O C R F L N.
    change (cfg_vbytes pclmul_cfg) with 16. fold n k.
    apply pclmul_main_post; try assumption. unfold fuel. lia.
  - change (cfg_vbytes pclmul_cfg) with 16 in *.
    change (cfg_lanes pclmul_cfg) with 1%nat in *.
    rewrite <- EK in *. fold n in H2, H5, H6, H8, H9, H10. fold r in H5, H6, H8, H10.
    exists st0, stm, st1, right, wrong.
    repeat (split; [assumption|]).
    split; [unfold cksum_pclmul; cbn [f_data fopen_bytes]; fold fuel; rewrite H9;
            reflexivity|].
    intros H64. apply H10. unfold r, k. lia.
Qed.

Lemma pclmul_fold_result_is_not_read_witness :
  let data := repeat 1 (Z.to_nat 200) in
  let buf0 := repeat 0 (Z.to_nat 65536) in
  let n := Z.of_nat (List.length data) in
  let k := n / 16 - 1 in
  let r := n - 16 * k in
  let fuel := S (List.length data) in
  exists st0 stm st1 right wrong,
    simd_init pclmul_cfg 4 buf0 (fopen_bytes data) = Next st0
    /\ pclmul_main fuel (set_length st0 n) = Next stm
    /\ single_fold pclmul_cfg pclmul_single_mult_constant fuel stm = Next st1
    /\ sd_data_offset st1 = k /\ sd_bytes_read st1 = r
    /\ slice (sd_buf st1) (16 * k) r = Some right
    /\ crc_ref right = crc_ref data
    /\ slice (sd_buf st1) k r = Some wrong
    /\ cksum_pclmul buf0 (fopen_bytes data)
       = Some (CksumDone true (crc_bytes_tail 0 wrong) n)
    /\ (64 <= n -> wrong = firstn (Z.to_nat r) (skipn (Z.to_nat k) data)).
Proof.
  apply (pclmul_fold_result_is_not_read
           (repeat 0 (Z.to_nat 65536)) (repeat 1 (Z.to_nat 200))).
  - rewrite repeat_length. lia.
  - apply Forall_forall. intros x Hx. apply repeat_spec in Hx. subst x.
    unfold is_byte. lia.
  - rewrite repeat_length. lia.
Defined.

(** X17. Streams of 64 to 1407 bytes through [cksum_avx2], below the
    Chorba threshold, in a buffer of bytes.  After the main block (four
    registers loaded and written back, with the four-fold rounds in between
    from 256 bytes on) and the single fold, [data_offset] is k = n / 32 - 1,
    [bytes_read] is r = n - 32 * k, and the r bytes of [buf] at byte 32 * k
    have the reference CRC of the whole stream.  The byte tail reads the r
    bytes at byte offset k instead, and the register returned is the byte
    rule over those; from 128 bytes on they are the bytes k ... k + r - 1
    of the stream itself. *)
Theorem avx2_fold_result_is_not_read (buf0 data : list Z) :
  Z.of_nat (List.length buf0) = 2097152 -> Forall is_byte buf0 ->
  Forall is_byte data ->
  64 <= Z.of_nat (List.length data) < 1024 + 128 + 32 * 8 ->
  let n := Z.of_nat (List.length data) in
  let k := n / 32 - 1 in
  let r := n - 32 * k in
  let fuel := S (List.length data) in
  exists st0 stm st1 right wrong,
    simd_init avx2_cfg 8 buf0 (fopen_bytes data) = Next st0
    /\ avx2_main fuel (set_length st0 n) = Next stm
    /\ single_fold avx2_cfg avx2_single_mult_constant fuel stm = Next st1
    /\ sd_data_offset st1 = k /\ sd_bytes_read st1 = r
    /\ slice (sd_buf st1) (32 * k) r = Some right
    /\ crc_ref right = crc_ref data
    /\ slice (sd_buf st1) k r = Some wrong
    /\ cksum_avx2 buf0 (fopen_bytes data)
       = Some (CksumDone true (crc_bytes_tail 0 wrong) n)
    /\ (128 <= n -> wrong = firstn (Z.to_nat r) (skipn (Z.to_nat k) data)).
Proof.
  intros Hbuf Hb0 Hb Hn n k r fuel.
  destruct single_constants as (_ & EK & _).
  pose proof (Z.div_mod n 32 ltac:(lia)) as D.
  pose proof (Z.mod_pos_bound n 32 ltac:(lia)) as Dm.
  fold n in Hn.
  destruct (simd_backend_folds avx2_cfg 8 (avx2_main fuel) fuel buf0 data k)
    as (st0 & stm & st1 & right & wrong & H1 & H2 & H3 & H4 & H5 & H6 & H7 & H8
        & H9 & H10).
  - exact Hb.
  - reflexivity.
  - change (cfg_words avx2_cfg) with 65536. unfold k. lia.
  - rewrite INT_MAX_value. change (cfg_words avx2_cfg) with 65536. lia.
  - change (cfg_vbytes avx2_cfg) with 32. fold n. unfold k. lia.
  - unfold fuel, k. fold n. lia.
  - change (Z.to_nat (cfg_half avx2_cfg)) with (Z.to_nat 1048576). fold n in Hn. lia.
  - lia.
  - change (cfg_vbytes avx2_cfg * (cfg_words avx2_cfg / 2)) with 1048576. lia.
  - lia.
  - intros st B O C R F L N.
    change (cfg_vbytes avx2_cfg) with 32. fold n k.
    apply avx2_main_post; try assumption.
    + apply Forall_skipn, Hb0.
    + rewrite length_app, length_skipn. lia.
    + unfold fuel. lia.
  - change (cfg_vbytes avx2_cfg) with 32 in *.
    change (cfg_lanes avx2_cfg) with 2%nat in *.
    rewrite <- EK in *. fold n in H2, H5, H6, H8, H9, H10. fold r in H5, H6, H8, H10.
    exists st0, stm, st1, right, wrong.
    repeat (split; [assumption|]).
    split; [unfold cksum_avx2; cbn [f_data fopen_bytes]; fold fuel; rewrite H9;
            reflexivity|].
    intros H64. apply H10. unfold r, k. lia.
Qed.

Lemma avx2_fold_result_is_not_read_witness :
  let data := repeat 1 (Z.to_nat 300) in
  let buf0 := repeat 0 (Z.to_nat 2097152) in
  let n := Z.of_nat (List.length data) in
  let k := n / 32 - 1 in
  let r := n - 32 * k in
  let fuel := S (List.length data) in
  exists st0 stm st1 right wrong,
    simd_init avx2_cfg 8 buf0 (fopen_bytes data) = Next st0
    /\ avx2_main fuel (set_length st0 n) = Next stm
    /\ single_fold avx2_cfg avx2_single_mult_constant fuel stm = Next st1
    /\ sd_data_offset st1 = k /\ sd_bytes_read st1 = r
    /\ slice (sd_buf st1) (32 * k) r = Some right
    /\ crc_ref right = crc_ref data
    /\ slice (sd_buf st1) k r = Some wrong
    /\ cksum_avx2 buf0 (fopen_bytes data)
       = Some (CksumDone true (crc_bytes_tail 0 wrong) n)
    /\ (128 <= n -> wrong = firstn (Z.to_nat r) (skipn (Z.to_nat k) data)).
Proof.
  apply (avx2_fold_result_is_not_read
           (repeat 0 (Z.to_nat 2097152)) (repeat 1 (Z.to_nat 300))).
  - rewrite repeat_length. lia.
  - apply Forall_forall. intros x Hx. apply repeat_spec in Hx. subst x.
    unfold is_byte. lia.
  - apply Forall_forall. intros x Hx. apply repeat_spec in Hx. subst x.
    unfold is_byte. lia.
  - rewrite repeat_length. lia.
Defined.

(** X18. Streams of 128 to 2815 bytes through [cksum_avx512], below the
    Chorba threshold.  After the main block (which passes over streams
    shorter than 512 bytes, and otherwise folds four registers in parallel,
    refilling after each round, and writes them back) and the single fold,
    [data_offset] is k = n / 64 - 1, [bytes_read] is r = n - 64 * k, and the
    r bytes of [buf] at byte 64 * k have the reference CRC of the whole
    stream.  The byte tail reads the r bytes at byte offset k instead, and
    the register returned is the byte rule over those; from 256 bytes on
    they are the bytes k ... k + r - 1 of the stream itself. *)
Theorem avx512_fold_result_is_not_read (buf0 data : list Z) :
  Z.of_nat (List.length buf0) = 2097152 -> Forall is_byte data ->
  128 <= Z.of_nat (List.length data) < 2048 + 256 + 64 * 8 ->
  let n := Z.of_nat (List.length data) in
  let k := n / 64 - 1 in
  let r := n - 64 * k in
  let fuel := S (List.length data) in
  exists st0 stm st1 right wrong,
    simd_init avx512_cfg 8 buf0 (fopen_bytes data) = Next st0
    /\ avx512_main fuel (set_length st0 n) = Next stm
    /\ single_fold avx512_cfg avx512_single_mult_constant fuel stm = Next st1
    /\ sd_data_offset st1 = k /\ sd_bytes_read st1 = r
    /\ slice (sd_buf st1) (64 * k) r = Some right
    /\ crc_ref right = crc_ref data
    /\ slice (sd_buf st1) k r = Some wrong
    /\ cksum_avx512 buf0 (fopen_bytes data)
       = Some (CksumDone true (crc_bytes_tail 0 wrong) n)
    /\ (256 <= n -> wrong = firstn (Z.to_nat r) (skipn (Z.to_nat k) data)).
Proof.
  intros Hbuf Hb Hn n k r fuel.
  destruct single_constants as (_ & _ & EK).
  pose proof (Z.div_mod n 64 ltac:(lia)) as D.
  pose proof (Z.mod_pos_bound n 64 ltac:(lia)) as Dm.
  fold n in Hn.
  destruct (simd_backend_folds avx512_cfg 8 (avx512_main fuel) fuel buf0 data k)
    as (st0 & stm & st1 & right & wrong & H1 & H2 & H3 & H4 & H5 & H6 & H7 & H8
        & H9 & H10).
  - exact Hb.
  - reflexivity.
  - change (cfg_words avx512_cfg) with 32768. unfold k. lia.
  - rewrite INT_MAX_value. change (cfg_words avx512_cfg) with 32768. lia.
  - change (cfg_vbytes avx512_cfg) with 64. fold n. unfold k. lia.
  - unfold fuel, k. fold n. lia.
  - change (Z.to_nat (cfg_half avx512_cfg)) with (Z.to_nat 1048576). fold n in Hn. lia.
  - lia.
  - change (cfg_vbytes avx512_cfg * (cfg_words avx512_cfg / 2)) with 1048576. lia.
  - lia.
  - intros st B O C R F L N.
    change (cfg_vbytes avx512_cfg) with 64. fold n k.
    apply avx512_main_post; try assumption.
    + rewrite length_app, length_skipn. lia.
    + unfold fuel. lia.
  - change (cfg_vbytes avx512_cfg) with 64 in *.
    change (cfg_lanes avx512_cfg) with 4%nat in *.
    rewrite <- EK in *. fold n in H2, H5, H6, H8, H9, H10. fold r in H5, H6, H8, H10.
    exists st0, stm, st1, right, wrong.
    repeat (split; [assumption|]).
    split; [unfold cksum_avx512; cbn [f_data fopen_bytes]; fold fuel; rewrite H9;
            reflexivity|].
    intros H64. apply H10. unfold r, k. lia.
Qed.

Lemma avx512_fold_result_is_not_read_witness :
  let data := repeat 1 (Z.to_nat 600) in
  let buf0 := repeat 0 (Z.to_nat 2097152) in
  let n := Z.of_nat (List.length data) in
  let k := n / 64 - 1 in
  let r := n - 64 * k in
  let fuel := S (List.length data) in
  exists st0 stm st1 right wrong,
    simd_init avx512_cfg 8 buf0 (fopen_bytes data) = Next st0
    /\ avx512_main fuel (set_length st0 n) = Next stm
    /\ single_fold avx512_cfg avx512_single_mult_constant fuel stm = Next st1
    /\ sd_data_offset st1 = k /\ sd_bytes_read st1 = r
    /\ slice (sd_buf st1) (64 * k) r = Some right
    /\ crc_ref right = crc_ref data
    /\ slice (sd_buf st1) k r = Some wrong
    /\ cksum_avx512 buf0 (fopen_bytes data)
       = Some (CksumDone true (crc_bytes_tail 0 wrong) n)
    /\ (256 <= n -> wrong = firstn (Z.to_nat r) (skipn (Z.to_nat k) data)).
Proof.
  apply (avx512_fold_result_is_not_read
           (repeat 0 (Z.to_nat 2097152)) (repeat 1 (Z.to_nat 600))).
  - rewrite repeat_length. lia.
  - apply Forall_forall. intros x Hx. apply repeat_spec in Hx. subst x.
    unfold is_byte. lia.
  - rewrite repeat_length. lia.
Defined.

(** ** Length accounting of the carry-less multiplication backends *)

Lemma bld_cases (c : simd_cfg) (st : simd) (k : Z) :
  (exists v, bld c st k = Next v) \/ bld c st k = Undefined.
Proof.
  unfold bld. destruct (loadu (cfg_lanes c) (sd_buf st) (dp c st k));
    cbn [lift bind]; eauto.
Qed.

Lemma silent_adv (k : Z) : silent (adv k).
Proof.
  intros st. unfold adv.
  destruct (int_add (sd_data_offset st) k); cbn [lift bind]; [|exact I].
  repeat split.
Qed.

Lemma silent_chorba_load (c : simd_cfg) (j k : Z) (js : list Z) :
  silent (chorba_load c j k js).
Proof.
  intros st. unfold chorba_load.
  destruct (bld_cases c st k) as [(v & E)|E]; rewrite E; cbn [bind]; [|exact I].
  repeat split.
Qed.

Lemma silent_fold4 (c : simd_cfg) (K : vec) (js0 js1 js2 js3 : list Z) :
  silent (fold4 c K js0 js1 js2 js3).
Proof.
  intros st. unfold fold4.
  destruct (bld_cases c st 0) as [(v0 & E)|E]; rewrite E; cbn [bind]; [|exact I].
  destruct (bld_cases c st 1) as [(v1 & E1)|E1]; rewrite E1; cbn [bind]; [|exact I].
  destruct (bld_cases c st 2) as [(v2 & E2)|E2]; rewrite E2; cbn [bind]; [|exact I].
  destruct (bld_cases c st 3) as [(v3 & E3)|E3]; rewrite E3; cbn [bind]; [|exact I].
  repeat split.
Qed.

Lemma silent_load_four (c : simd_cfg) : silent (load_four c).
Proof.
  intros st. unfold load_four.
  destruct (bld_cases c st 0) as [(v0 & E)|E]; rewrite E; cbn [bind]; [|exact I].
  destruct (bld_cases c (set_crc st 0) 1) as [(v1 & E1)|E1]; rewrite E1;
    cbn [bind]; [|exact I].
  destruct (bld_cases c (set_crc st 0) 2) as [(v2 & E2)|E2]; rewrite E2;
    cbn [bind]; [|exact I].
  destruct (bld_cases c (set_crc st 0) 3) as [(v3 & E3)|E3]; rewrite E3;
    cbn [bind]; [|exact I].
  repeat split.
Qed.

Lemma silent_store_four (c : simd_cfg) : silent (store_four c).
Proof.
  intros st. unfold store_four. cbv zeta.
  destruct (storeu (sd_buf st) _ _) as [b0|]; cbn [lift bind]; [|exact I].
  destruct (storeu b0 _ _) as [b1|]; cbn [lift bind]; [|exact I].
  destruct (storeu b1 _ _) as [b2|]; cbn [lift bind]; [|exact I].
  destruct (storeu b2 _ _) as [b3|]; cbn [lift bind]; [|exact I].
  repeat split.
Qed.

Lemma u64_range (x : Z) : 0 <= u64 x < 2 ^ 64.
Proof. unfold u64. apply Z.mod_pos_bound. lia. Qed.

Lemma quiet_simd_tail (c : simd_cfg) : quiet (simd_tail c).
Proof.
  intros st. unfold simd_tail. cbv zeta.
  destruct (slice (sd_buf st) _ _) as [bs|]; cbn [lift bind]; [|exact I].
  split; reflexivity.
Qed.

Lemma silent_quiet (f : step) : silent f -> forall st,
  0 <= sd_bytes_read st < 2 ^ 64 ->
  match f st with
  | Next st' =>
      sd_fp st' = sd_fp st /\ sd_length st' = sd_length st
      /\ sd_data_available st' = sd_data_available st
      /\ sd_bytes_read st' = sd_bytes_read st
      /\ 0 <= sd_bytes_read st' < 2 ^ 64
  | Return _ => False
  | _ => True
  end.
Proof.
  intros H st Hb. specialize (H st). destruct (f st); try exact H.
  destruct H as (A & B & C & D). rewrite D. auto.
Qed.

(** A refill-free list leaves the stream and the counter alone; it
    subtracts [k] from [bytes_read] when that many bytes are there. *)
Lemma run_consumes (fs : list step) (k : Z) :
  consumes fs k ->
  0 <= k
  /\ forall st,
      0 <= sd_bytes_read st < 2 ^ 64 ->
      match run fs st with
      | Next st' =>
          sd_fp st' = sd_fp st /\ sd_length st' = sd_length st
          /\ sd_data_available st' = sd_data_available st
          /\ 0 <= sd_bytes_read st' < 2 ^ 64
          /\ (k <= sd_bytes_read st -> sd_bytes_read st' = sd_bytes_read st - k)
      | Return _ => False
      | _ => True
      end.
Proof.
  induction 1 as [|f fs k Hf Hc [IH0 IH]|j fs k k' Hj Hc [IH0 IH] ->].
  - split; [lia|]. intros st Hb. cbn [run]. repeat split; lia.
  - split; [exact IH0|]. intros st Hb. cbn [run].
    pose proof (silent_quiet f Hf st Hb) as H.
    destruct (f st) as [st1| | |]; cbn [bind]; try exact H.
    destruct H as (A & B & C & D & E).
    specialize (IH st1 E). destruct (run fs st1); try exact IH.
    destruct IH as (A' & B' & C' & D' & E').
    rewrite A', B', C', <- A, <- B, <- C. repeat split; lia.
  - split; [lia|]. intros st Hb. cbn [run]. unfold sub at 1. cbn [bind].
    set (st1 := set_bytes_read st (u64 (sd_bytes_read st - j))).
    pose proof (u64_range (sd_bytes_read st - j)) as Hu.
    specialize (IH st1 Hu). destruct (run fs st1); try exact IH.
    destruct IH as (A' & B' & C' & D' & E').
    rewrite A', B', C'. repeat split; try lia.
    intros Hk. rewrite E'.
    + cbn [st1 set_bytes_read sd_bytes_read]. unfold u64.
      rewrite Z.mod_small by lia. lia.
    + cbn [st1 set_bytes_read sd_bytes_read]. unfold u64.
      rewrite Z.mod_small by lia. lia.
Qed.

Lemma run_app (a b : list step) (st : simd) :
  run (a ++ b) st = (st' <- run a st ;; run b st').
Proof.
  revert st. induction a as [|f a IH]; intros st; cbn [app run bind];
    [reflexivity|].
  destruct (f st); cbn [bind]; auto.
Qed.

Lemma run_one (f : step) (st : simd) : run [f] st = f st.
Proof. cbn [run]. destruct (f st); reflexivity. Qed.

(** The refill step on a stream of [T] bytes: it keeps the accounting, it
    fails only when [T] does not fit 64 bits, and it leaves either an
    exhausted stream or at least half a buffer of unread bytes. *)
Lemma refill_accounted (T : Z) (c : simd_cfg) (st : simd) :
  0 < cfg_half c < 2 ^ 63 -> acct T st ->
  accounted T
    (fun st' => acct T st'
                /\ (drained st' \/ cfg_half c <= sd_bytes_read st')
                /\ (drained st -> drained st'))
    (refill c st).
Proof.
  intros Hh (A1 & A2 & A3 & A4). unfold refill.
  destruct (Z.ltb_spec (sd_bytes_read st) (cfg_half c)) as [Hlt|Hge];
    cbn [andb].
  2:{ cbn [accounted]. unfold acct, drained. repeat split; auto; lia. }
  destruct (sd_data_available st) eqn:Eav.
  2:{ cbn [accounted]. unfold acct, drained. rewrite Eav.
      repeat split; auto; lia. }
  unfold fread.
  set (data := f_data (sd_fp st)) in *.
  set (k := Z.to_nat (cfg_half c)).
  assert (Hgot : Z.of_nat (List.length (firstn k data))
                 = Z.min (cfg_half c) (Z.of_nat (List.length data))).
  { rewrite length_firstn. unfold k. lia. }
  assert (Hrest : Z.of_nat (List.length (skipn k data))
                  = Z.of_nat (List.length data)
                    - Z.of_nat (List.length (firstn k data))).
  { rewrite length_skipn, length_firstn. lia. }
  assert (Hcase : forall fp',
             f_data fp' = skipn k data ->
             accounted T
               (fun st' => acct T st'
                           /\ (drained st' \/ cfg_half c <= sd_bytes_read st')
                           /\ (drained st -> drained st'))
               (buf <- lift (blit (sd_buf st) (cfg_vbytes c * sd_next_buf st)
                                  (firstn k data)) ;;
                match add_length (sd_length st)
                                 (Z.of_nat (List.length (firstn k data))) with
                | None => Return (CksumFail (Some EOVERFLOW))
                | Some len =>
                    Next (mkSimd buf fp' (Z.lxor (sd_next_buf st) (cfg_words c / 2))
                                 (negb (Z.of_nat (List.length (firstn k data)) =? 0))
                                 (u64 (sd_bytes_read st
                                       + Z.of_nat (List.length (firstn k data))))
                                 len (sd_crc st) (sd_data_offset st)
                                 (sd_data st) (sd_data3 st) (sd_data5 st)
                                 (sd_data7 st) (sd_chorba st))
                end)).
  { intros fp' Hfp.
    destruct (blit (sd_buf st) _ _) as [buf|]; cbn [lift bind]; [|exact I].
    rewrite add_length_spec by lia.
    destruct (Z.ltb_spec (sd_length st + Z.of_nat (List.length (firstn k data)))
                         (2 ^ 64)) as [Hok|Hov]; cbn [accounted].
    - unfold acct, drained.
      cbn [sd_fp sd_length sd_bytes_read sd_data_available].
      rewrite Hfp. pose proof (u64_range (sd_bytes_read st
                      + Z.of_nat (List.length (firstn k data)))) as Hu.
      split; [repeat split; try lia|split].
      + intros Hz. apply negb_false_iff, Z.eqb_eq in Hz.
        apply length_zero_iff_nil. lia.
      + destruct (Z.le_gt_cases (cfg_half c) (Z.of_nat (List.length data))).
        * right. unfold u64. rewrite Z.mod_small by lia. lia.
        * left. apply length_zero_iff_nil. lia.
      + intros Hd. fold data in Hd. rewrite Hd. destruct k; reflexivity.
    - split; [reflexivity | lia]. }
  destruct (List.length data <? k)%nat; apply Hcase; reflexivity.
Qed.

Lemma accounted_bind (T : Z) (Q R : simd -> Prop) (o : outcome simd) (f : step) :
  accounted T Q o -> (forall st, Q st -> accounted T R (f st)) ->
  accounted T R (st <- o ;; f st).
Proof.
  intros Ho Hf. destruct o; cbn [bind accounted] in *; auto.
Qed.

Lemma accounted_weaken (T : Z) (Q R : simd -> Prop) (o : outcome simd) :
  accounted T Q o -> (forall st, Q st -> R st) -> accounted T R o.
Proof.
  intros Ho H. destruct o; cbn [accounted] in *; auto.
Qed.

(** [while (bytes_read >= t) body] keeps what its body keeps. *)
Lemma while_ge_accounted (T : Z) (Inv : simd -> Prop) (t : Z) (body : step) :
  (forall st, Inv st -> t <= sd_bytes_read st -> accounted T Inv (body st)) ->
  forall (fuel : nat) (st : simd),
    Inv st ->
    accounted T (fun st' => Inv st' /\ sd_bytes_read st' < t)
              (while_ge fuel t body st).
Proof.
  intros Hbody. induction fuel as [|fuel IH]; intros st HI; cbn [while_ge];
    destruct (Z.ltb_spec (sd_bytes_read st) t) as [Hlt|Hge];
    cbn [accounted]; auto.
  eapply accounted_bind; [apply Hbody; assumption|]. intros st' HI'.
  apply IH, HI'.
Qed.

(** A refill-free list on a stream that still agrees with the
    accounting. *)
Lemma consumes_accounted (T : Z) (fs : list step) (k : Z) (st : simd) :
  consumes fs k -> acct T st ->
  accounted T
    (fun st' => acct T st' /\ (drained st -> drained st')
                /\ sd_fp st' = sd_fp st
                /\ (k <= sd_bytes_read st ->
                    sd_bytes_read st' = sd_bytes_read st - k))
    (run fs st).
Proof.
  intros Hc (A1 & A2 & A3 & A4).
  destruct (run_consumes fs k Hc) as (_ & H). specialize (H st A3).
  destruct (run fs st) as [st'| | |]; cbn [accounted]; auto; [|contradiction].
  destruct H as (B1 & B2 & B3 & B4 & B5).
  unfold acct, drained. rewrite B1, B2, B3. repeat split; auto; lia.
Qed.

(** A loop body that ends with a refill, on a stream of [T] bytes: entered
    with at least [t] unread bytes in the buffer, it leaves at least [t]
    again unless the stream is exhausted. *)
Lemma refill_body_accounted (T : Z) (c : simd_cfg) (pre : list step)
  (k t : Z) (st : simd) :
  consumes pre k -> k <= t <= cfg_half c -> 0 < cfg_half c < 2 ^ 63 ->
  acct T st -> t <= sd_bytes_read st ->
  accounted T (fun st' => acct T st' /\ (drained st' \/ t <= sd_bytes_read st'))
            (run (pre ++ [refill c]) st).
Proof.
  intros Hc Hk Hh Ha Ht. rewrite run_app.
  eapply accounted_bind; [apply (consumes_accounted T pre k st Hc Ha)|].
  intros st1 (A1 & _ & _ & B1). rewrite run_one.
  eapply accounted_weaken; [apply refill_accounted; assumption|].
  intros st2 (A2 & [D|D] & _); split; auto. right. lia.
Qed.

(** Once the stream is exhausted, it stays so, whatever the list does,
    and a refill at its end reads nothing. *)
Lemma drained_body_accounted (T : Z) (fs : list step) (k : Z) (st : simd) :
  consumes fs k -> acct T st /\ drained st ->
  accounted T (fun st' => acct T st' /\ drained st') (run fs st).
Proof.
  intros Hc (Ha & Hd).
  eapply accounted_weaken; [apply (consumes_accounted T fs k st Hc Ha)|].
  intros st1 (A1 & D1 & _). auto.
Qed.

Lemma drained_refill_body_accounted (T : Z) (c : simd_cfg) (pre : list step)
  (k : Z) (st : simd) :
  consumes pre k -> 0 < cfg_half c < 2 ^ 63 -> acct T st /\ drained st ->
  accounted T (fun st' => acct T st' /\ drained st') (run (pre ++ [refill c]) st).
Proof.
  intros Hc Hh Ha. rewrite run_app.
  eapply accounted_bind; [apply (drained_body_accounted T pre k st Hc Ha)|].
  intros st1 (A1 & D1). rewrite run_one.
  eapply accounted_weaken; [apply refill_accounted; assumption|].
  intros st2 (A2 & _ & D2). auto.
Qed.

Ltac consume :=
  first
    [ apply consumes_nil
    | eapply consumes_sub; [lia | consume | reflexivity]
    | eapply consumes_silent;
      [ first [ apply silent_adv | apply silent_chorba_load | apply silent_fold4 ]
      | consume ] ].

Ltac body_consumes body :=
  exists (removelast body); split;
  [ reflexivity | unfold body; cbn [removelast]; consume ].

Lemma pclmul_chorba_body_consumes :
  exists pre,
    pclmul_chorba_body = pre ++ [refill pclmul_cfg] /\ consumes pre 576.
Proof. body_consumes pclmul_chorba_body. Qed.

Lemma pclmul_cleanup_consumes :
  exists pre,
    pclmul_cleanup = pre ++ [refill pclmul_cfg] /\ consumes pre 512.
Proof. body_consumes pclmul_cleanup. Qed.

Lemma pclmul_fold_body_consumes : consumes pclmul_fold_body 64.
Proof. unfold pclmul_fold_body. consume. Qed.

Lemma avx2_chorba_body_consumes :
  exists pre,
    avx2_chorba_body = pre ++ [refill avx2_cfg] /\ consumes pre 1280.
Proof. body_consumes avx2_chorba_body. Qed.

Lemma avx2_fold_body_consumes : consumes avx2_fold_body 128.
Proof. unfold avx2_fold_body. consume. Qed.

Lemma avx512_chorba_body_consumes : consumes avx512_chorba_body 2560.
Proof. unfold avx512_chorba_body. consume. Qed.

Lemma avx512_fold_body_consumes :
  exists pre,
    avx512_fold_body = pre ++ [refill avx512_cfg] /\ consumes pre 256.
Proof. body_consumes avx512_fold_body. Qed.

Lemma silent_accounted (T : Z) (f : step) (st : simd) :
  silent f -> acct T st ->
  accounted T (fun st' => acct T st' /\ sd_fp st' = sd_fp st
                          /\ sd_bytes_read st' = sd_bytes_read st)
            (f st).
Proof.
  intros Hf (A1 & A2 & A3 & A4). specialize (Hf st).
  destruct (f st) as [st'| | |]; cbn [accounted]; auto; [|contradiction].
  destruct Hf as (B1 & B2 & B3 & B4). unfold acct.
  rewrite B1, B2, B3, B4. auto.
Qed.

Lemma pclmul_half : cfg_half pclmul_cfg = 32768.
Proof. reflexivity. Qed.

Lemma avx2_half : cfg_half avx2_cfg = 1048576.
Proof. reflexivity. Qed.

Lemma avx512_half : cfg_half avx512_cfg = 1048576.
Proof. reflexivity. Qed.

(** [cksum_pclmul]'s main block reads the stream to its end, once entered
    with a full Chorba round in the buffer or with the stream exhausted. *)
Lemma pclmul_main_accounted (T : Z) (fuel : nat) (st : simd) :
  acct T st -> drained st \/ 512 * 2 + 64 + 16 * 8 <= sd_bytes_read st ->
  accounted T (fun st' => acct T st' /\ drained st') (pclmul_main fuel st).
Proof.
  intros Ha Hd. unfold pclmul_main.
  destruct (Z.ltb_spec (sd_bytes_read st) (16 * 8)).
  { cbn [accounted]. split; [exact Ha|]. destruct Hd; [assumption | lia]. }
  eapply accounted_bind;
    [apply silent_accounted; [apply silent_load_four | exact Ha]|].
  intros st1 (A1 & F1 & B1).
  eapply accounted_bind with (Q := fun st' => acct T st' /\ drained st').
  - destruct (Z.ltb_spec (sd_bytes_read st1) (512 * 2 + 64 + 16 * 8)).
    + cbn [accounted]. split; [exact A1|]. unfold drained in *. rewrite F1.
      destruct Hd; [assumption | lia].
    + eapply accounted_bind.
      * apply (while_ge_accounted T
                 (fun s => acct T s
                           /\ (drained s \/ 512 * 2 + 64 + 16 * 8 <= sd_bytes_read s))).
        -- intros s (As & _) Hs.
           destruct pclmul_chorba_body_consumes as (pre & E & Hc). rewrite E.
           apply refill_body_accounted with (k := 576);
             (assumption || rewrite ?pclmul_half; lia).
        -- split; [exact A1 | right; lia].
      * intros s ((As & Ds) & Hs).
        destruct pclmul_cleanup_consumes as (pre & E & Hc). rewrite E.
        apply drained_refill_body_accounted with (k := 512);
          [exact Hc | rewrite pclmul_half; lia |].
        split; [exact As | destruct Ds; [assumption | lia]].
  - intros st2 (A2 & D2). eapply accounted_bind.
    + apply (while_ge_accounted T (fun s => acct T s /\ drained s)).
      * intros s Hs _.
        apply drained_body_accounted with (k := 64);
          [apply pclmul_fold_body_consumes | exact Hs].
      * split; assumption.
    + intros st3 ((A3 & D3) & _).
      eapply accounted_weaken;
        [apply silent_accounted; [apply silent_store_four | exact A3]|].
      intros st4 (A4 & F4 & _). split; [exact A4|].
      unfold drained in *. rewrite F4. exact D3.
Qed.

Lemma avx2_main_accounted (T : Z) (fuel : nat) (st : simd) :
  acct T st -> drained st \/ 1024 + 128 + 32 * 8 <= sd_bytes_read st ->
  accounted T (fun st' => acct T st' /\ drained st') (avx2_main fuel st).
Proof.
  intros Ha Hd. unfold avx2_main.
  destruct (Z.ltb_spec (sd_bytes_read st) (32 * 2)).
  { cbn [accounted]. split; [exact Ha|]. destruct Hd; [assumption | lia]. }
  eapply accounted_bind;
    [apply silent_accounted; [apply silent_load_four | exact Ha]|].
  intros st1 (A1 & F1 & B1).
  eapply accounted_bind.
  - apply (while_ge_accounted T
             (fun s => acct T s
                       /\ (drained s \/ 1024 + 128 + 32 * 8 <= sd_bytes_read s))).
    + intros s (As & _) Hs.
      destruct avx2_chorba_body_consumes as (pre & E & Hc). rewrite E.
      apply refill_body_accounted with (k := 1280);
        (assumption || rewrite ?avx2_half; lia).
    + split; [exact A1|]. unfold drained in *. rewrite F1, B1. exact Hd.
  - intros st2 ((A2 & D2) & H2). eapply accounted_bind.
    + apply (while_ge_accounted T (fun s => acct T s /\ drained s)).
      * intros s Hs _.
        apply drained_body_accounted with (k := 128);
          [apply avx2_fold_body_consumes | exact Hs].
      * split; [exact A2 | destruct D2; [assumption | lia]].
    + intros st3 ((A3 & D3) & _).
      eapply accounted_weaken;
        [apply silent_accounted; [apply silent_store_four | exact A3]|].
      intros st4 (A4 & F4 & _). split; [exact A4|].
      unfold drained in *. rewrite F4. exact D3.
Qed.

(** The Chorba loop of [cksum_avx512] has no refill: it takes 2560 bytes
    per round, and from a full buffer of 2 MiB it stops with 512 bytes, so
    the fold loop, which refills, is entered. *)
Lemma avx512_main_accounted (T : Z) (fuel : nat) (st : simd) :
  acct T st -> drained st \/ sd_bytes_read st mod 2560 = 512 ->
  accounted T (fun st' => acct T st' /\ drained st') (avx512_main fuel st).
Proof.
  intros Ha Hd. unfold avx512_main.
  assert (Hb : 0 <= sd_bytes_read st) by (destruct Ha as (_ & _ & H & _); lia).
  destruct (Z.ltb_spec (sd_bytes_read st) (16 * 8 * 4)).
  { cbn [accounted]. split; [exact Ha|]. destruct Hd as [|Hd]; [assumption|].
    rewrite Z.mod_small in Hd by lia. lia. }
  eapply accounted_bind;
    [apply silent_accounted; [apply silent_load_four | exact Ha]|].
  intros st1 (A1 & F1 & B1).
  eapply accounted_bind.
  - apply (while_ge_accounted T
             (fun s => acct T s
                       /\ (drained s \/ sd_bytes_read s mod 2560 = 512))).
    + intros s (As & Ds) Hs.
      eapply accounted_weaken;
        [apply (consumes_accounted T _ 2560 s avx512_chorba_body_consumes As)|].
      intros s' (As' & Dd & Fs & Bs). split; [exact As'|].
      destruct Ds as [Ds|Ds]; [left; auto|]. right.
      rewrite Bs by lia.
      replace (sd_bytes_read s - 2560) with (sd_bytes_read s + (- 1) * 2560)
        by lia.
      rewrite Z.mod_add by lia. exact Ds.
    + split; [exact A1|]. unfold drained in *. rewrite F1, B1. exact Hd.
  - intros st2 ((A2 & D2) & H2).
    assert (D2' : drained st2 \/ 64 * 8 <= sd_bytes_read st2).
    { destruct D2 as [D2|D2]; [left; exact D2|]. right.
      destruct A2 as (_ & _ & Hr & _).
      revert D2. Z.div_mod_to_equations. lia. }
    eapply accounted_bind.
    + apply (while_ge_accounted T
               (fun s => acct T s /\ (drained s \/ 64 * 8 <= sd_bytes_read s))).
      * intros s (As & _) Hs.
        destruct avx512_fold_body_consumes as (pre & E & Hc). rewrite E.
        apply refill_body_accounted with (k := 256);
          (assumption || rewrite ?avx512_half; lia).
      * split; assumption.
    + intros st3 ((A3 & D3) & H3).
      eapply accounted_weaken;
        [apply silent_accounted; [apply silent_store_four | exact A3]|].
      intros st4 (A4 & F4 & _). split; [exact A4|].
      unfold drained in *. rewrite F4. destruct D3; [assumption | lia].
Qed.

Lemma quiet_while_ge (t : Z) (body : step) :
  quiet body -> forall fuel, quiet (while_ge fuel t body).
Proof.
  intros Hb. induction fuel as [|fuel IH]; intros st; cbn [while_ge];
    destruct (sd_bytes_read st <? t); auto.
  specialize (Hb st). destruct (body st) as [st1| | |]; cbn [bind]; auto.
  destruct Hb as (A & B). specialize (IH st1).
  destruct (while_ge fuel t body st1); auto.
  destruct IH as (A' & B'). rewrite A', B'. auto.
Qed.

Lemma quiet_single_body (c : simd_cfg) (K : vec) : quiet (single_body c K).
Proof.
  intros st. unfold single_body.
  pose proof (silent_adv 1 st) as H.
  destruct (adv 1 st) as [st1| | |]; cbn [bind]; auto.
  destruct H as (A & B & _).
  destruct (bld_cases c st1 0) as [(v & E)|E]; rewrite E; cbn [bind]; [|exact I].
  unfold sub. cbn [set_bytes_read set_data sd_fp sd_length]. auto.
Qed.

Lemma quiet_single_fold (c : simd_cfg) (K : vec) (fuel : nat) :
  quiet (single_fold c K fuel).
Proof.
  intros st. unfold single_fold.
  destruct (sd_bytes_read st <? 2 * cfg_vbytes c); [split; reflexivity|].
  destruct (bld_cases c st 0) as [(v & E)|E]; rewrite E; cbn [bind]; [|exact I].
  cbv zeta.
  match goal with
  | |- context [while_ge fuel ?t ?b ?s] =>
      pose proof (quiet_while_ge t b (quiet_single_body c K) fuel s) as H;
      destruct (while_ge fuel t b s) as [st1| | |]; cbn [bind]; auto
  end.
  destruct H as (A & B).
  destruct (storeu (sd_buf st1) _ _) as [b|]; cbn [lift bind]; [|exact I].
  cbn [set_buf set_data sd_fp sd_length]. rewrite A, B. split; reflexivity.
Qed.

Lemma fread_lengths (n : Z) (fp : FILE) :
  0 <= n ->
  Z.of_nat (List.length (fst (fread n fp)))
  = Z.min n (Z.of_nat (List.length (f_data fp)))
  /\ Z.of_nat (List.length (f_data (snd (fread n fp))))
     = Z.of_nat (List.length (f_data fp))
       - Z.min n (Z.of_nat (List.length (f_data fp))).
Proof.
  intros Hn. unfold fread.
  destruct (List.length (f_data fp) <? Z.to_nat n)%nat;
    cbn [fst snd f_data]; rewrite length_firstn, length_skipn; lia.
Qed.

(** What a backend returns on a stream of [T] bytes, given that its main
    block reads the stream to its end: the count [T], or the [EOVERFLOW]
    failure when [T] does not fit 64 bits. *)
Lemma simd_backend_accounted (c : simd_cfg) (nch : nat) (main : step)
  (K1 : vec) (fuel : nat) (buf0 : list Z) (fp : FILE) :
  0 < cfg_half c < 2 ^ 62 ->
  (forall T st,
      acct T st -> drained st \/ sd_bytes_read st = 2 * cfg_half c ->
      accounted T (fun st' => acct T st' /\ drained st') (main st)) ->
  match simd_backend c nch main K1 fuel buf0 fp with
  | Next r =>
      exists ok crc,
        r = CksumDone ok crc (Z.of_nat (List.length (f_data fp)))
        /\ Z.of_nat (List.length (f_data fp)) < 2 ^ 64
  | Return r =>
      r = CksumFail (Some EOVERFLOW)
      /\ 2 ^ 64 <= Z.of_nat (List.length (f_data fp))
  | _ => True
  end.
Proof.
  intros Hh Hmain. unfold simd_backend, simd_init.
  pose proof (fread_lengths (cfg_half c) fp ltac:(lia)) as (L1 & R1).
  destruct (fread (cfg_half c) fp) as [r1 fp1]. cbn [fst snd] in L1, R1.
  destruct (blit buf0 0 r1) as [b1|]; cbn [lift bind]; [|exact I].
  pose proof (fread_lengths (cfg_half c) fp1 ltac:(lia)) as (L2 & R2).
  destruct (fread (cfg_half c) fp1) as [r2 fp2]. cbn [fst snd] in L2, R2.
  destruct (blit b1 _ r2) as [b2|]; cbn [lift bind]; [|exact I].
  cbn [sd_bytes_read sd_length sd_fp].
  set (br := u64 (Z.of_nat (List.length r1) + Z.of_nat (List.length r2))).
  assert (Ebr : br = Z.of_nat (List.length r1) + Z.of_nat (List.length r2))
    by (unfold br, u64; rewrite Z.mod_small; lia).
  destruct (Z.ltb_spec 0 br) as [Hpos|Hzero].
  - rewrite add_length_spec by lia. cbn [Z.add].
    destruct (Z.ltb_spec br (2 ^ 64)) as [_|]; [|lia].
    match goal with
    | |- context [main ?s] => set (st0 := s)
    end.
    assert (A0 : acct (Z.of_nat (List.length (f_data fp))) st0).
    { unfold acct, st0.
      cbn [set_length sd_length sd_fp sd_bytes_read sd_data_available].
      repeat split; (lia || discriminate). }
    assert (D0 : drained st0 \/ sd_bytes_read st0 = 2 * cfg_half c).
    { unfold drained, st0. cbn [set_length sd_fp sd_bytes_read].
      destruct (Z.le_gt_cases (2 * cfg_half c)
                              (Z.of_nat (List.length (f_data fp)))).
      - right. lia.
      - left. apply length_zero_iff_nil. lia. }
    pose proof (Hmain _ st0 A0 D0) as H.
    destruct (main st0) as [stm|r| |]; cbn [bind accounted] in *; auto.
    destruct H as ((A1 & A2 & _) & D).
    pose proof (quiet_single_fold c K1 fuel stm) as H1.
    destruct (single_fold c K1 fuel stm) as [st1| | |]; cbn [bind]; auto;
      [|contradiction].
    destruct H1 as (F1 & G1).
    pose proof (quiet_simd_tail c st1) as H2.
    destruct (simd_tail c st1) as [st2| | |]; cbn [bind]; auto;
      [|contradiction].
    destruct H2 as (F2 & G2).
    exists (negb (ferror (sd_fp st2))), (sd_crc st2).
    unfold drained in D. rewrite G1 in G2.
    rewrite G2. rewrite D in A1. cbn [List.length] in A1.
    split; [f_equal; lia | lia].
  - exists (negb (ferror fp2)), 0.
    assert (Z.of_nat (List.length (f_data fp)) = 0) by lia.
    split; [f_equal; lia | lia].
Qed.

(** The first accounting of a backend (cksum_pclmul.c:93-98) adds the bytes
    of the two initial reads to a counter that is still zero. *)
Lemma simd_init_accounting (c : simd_cfg) (nch : nat) (buf0 : list Z)
  (fp : FILE) (st : simd) :
  0 < cfg_half c < 2 ^ 62 ->
  simd_init c nch buf0 fp = Next st ->
  sd_length st = 0
  /\ add_length (sd_length st) (sd_bytes_read st) = Some (sd_bytes_read st)
  /\ sd_bytes_read st + Z.of_nat (List.length (f_data (sd_fp st)))
     = Z.of_nat (List.length (f_data fp)).
Proof.
  intros Hh. unfold simd_init.
  pose proof (fread_lengths (cfg_half c) fp ltac:(lia)) as (L1 & R1).
  destruct (fread (cfg_half c) fp) as [r1 fp1]. cbn [fst snd] in L1, R1.
  destruct (blit buf0 0 r1) as [b1|]; cbn [lift bind]; [|discriminate].
  pose proof (fread_lengths (cfg_half c) fp1 ltac:(lia)) as (L2 & R2).
  destruct (fread (cfg_half c) fp1) as [r2 fp2]. cbn [fst snd] in L2, R2.
  destruct (blit b1 _ r2) as [b2|]; cbn [lift bind]; [|discriminate].
  intros E. injection E as <-. cbn [sd_length sd_bytes_read sd_fp].
  assert (Ebr : u64 (Z.of_nat (List.length r1) + Z.of_nat (List.length r2))
                = Z.of_nat (List.length r1) + Z.of_nat (List.length r2))
    by (unfold u64; rewrite Z.mod_small; lia).
  rewrite Ebr. split; [reflexivity|]. split; [|lia].
  rewrite add_length_spec by lia. cbn [Z.add].
  destruct (Z.ltb_spec (Z.of_nat (List.length r1) + Z.of_nat (List.length r2))
                       (2 ^ 64)); [reflexivity | lia].
Qed.

Lemma pclmul_backend_accounted (fuel : nat) (buf0 : list Z) (fp : FILE) :
  match simd_backend pclmul_cfg 4 (pclmul_main fuel)
                     pclmul_single_mult_constant fuel buf0 fp with
  | Next r =>
      exists ok crc,
        r = CksumDone ok crc (Z.of_nat (List.length (f_data fp)))
        /\ Z.of_nat (List.length (f_data fp)) < 2 ^ 64
  | Return r =>
      r = CksumFail (Some EOVERFLOW)
      /\ 2 ^ 64 <= Z.of_nat (List.length (f_data fp))
  | _ => True
  end.
Proof.
  apply simd_backend_accounted; [rewrite pclmul_half; lia|].
  intros T st A D. apply pclmul_main_accounted; [exact A|].
  rewrite pclmul_half in D. destruct D; [left; assumption | right; lia].
Qed.

Lemma avx2_backend_accounted (fuel : nat) (buf0 : list Z) (fp : FILE) :
  match simd_backend avx2_cfg 8 (avx2_main fuel)
                     avx2_single_mult_constant fuel buf0 fp with
  | Next r =>
      exists ok crc,
        r = CksumDone ok crc (Z.of_nat (List.length (f_data fp)))
        /\ Z.of_nat (List.length (f_data fp)) < 2 ^ 64
  | Return r =>
      r = CksumFail (Some EOVERFLOW)
      /\ 2 ^ 64 <= Z.of_nat (List.length (f_data fp))
  | _ => True
  end.
Proof.
  apply simd_backend_accounted; [rewrite avx2_half; lia|].
  intros T st A D. apply avx2_main_accounted; [exact A|].
  rewrite avx2_half in D. destruct D; [left; assumption | right; lia].
Qed.

Lemma avx512_backend_accounted (fuel : nat) (buf0 : list Z) (fp : FILE) :
  match simd_backend avx512_cfg 8 (avx512_main fuel)
                     avx512_single_mult_constant fuel buf0 fp with
  | Next r =>
      exists ok crc,
        r = CksumDone ok crc (Z.of_nat (List.length (f_data fp)))
        /\ Z.of_nat (List.length (f_data fp)) < 2 ^ 64
  | Return r =>
      r = CksumFail (Some EOVERFLOW)
      /\ 2 ^ 64 <= Z.of_nat (List.length (f_data fp))
  | _ => True
  end.
Proof.
  apply simd_backend_accounted; [rewrite avx512_half; lia|].
  intros T st A D. apply avx512_main_accounted; [exact A|].
  rewrite avx512_half in D. destruct D as [D|D]; [left; assumption | right].
  rewrite D. reflexivity.
Qed.

Lemma backend_counts (o : outcome cksum_result) (T : Z) (r : cksum_result) :
  match o with
  | Next r => exists ok crc, r = CksumDone ok crc T /\ T < 2 ^ 64
  | Return r => r = CksumFail (Some EOVERFLOW) /\ 2 ^ 64 <= T
  | _ => True
  end ->
  finish o = Some r ->
  if T <? 2 ^ 64 then exists ok crc, r = CksumDone ok crc T
  else r = CksumFail (Some EOVERFLOW).
Proof.
  intros H E. destruct o as [r'|r'| |]; cbn [finish] in E;
    try discriminate; injection E as ->.
  - destruct H as (ok & crc & -> & Hlt).
    destruct (Z.ltb_spec T (2 ^ 64)); [eauto | lia].
  - destruct H as (-> & Hge).
    destruct (Z.ltb_spec T (2 ^ 64)); [lia | reflexivity].
Qed.

Lemma cksum_pclmul_counts (buf0 : list Z) (fp : FILE) (r : cksum_result) :
  cksum_pclmul buf0 fp = Some r ->
  if Z.of_nat (List.length (f_data fp)) <? 2 ^ 64
  then exists ok crc, r = CksumDone ok crc (Z.of_nat (List.length (f_data fp)))
  else r = CksumFail (Some EOVERFLOW).
Proof.
  unfold cksum_pclmul. cbv zeta. intros E.
  eapply backend_counts; [|exact E]. apply pclmul_backend_accounted.
Qed.

Lemma cksum_avx2_counts (buf0 : list Z) (fp : FILE) (r : cksum_result) :
  cksum_avx2 buf0 fp = Some r ->
  if Z.of_nat (List.length (f_data fp)) <? 2 ^ 64
  then exists ok crc, r = CksumDone ok crc (Z.of_nat (List.length (f_data fp)))
  else r = CksumFail (Some EOVERFLOW).
Proof.
  unfold cksum_avx2. cbv zeta. intros E.
  eapply backend_counts; [|exact E]. apply avx2_backend_accounted.
Qed.

Lemma cksum_avx512_counts (buf0 : list Z) (fp : FILE) (r : cksum_result) :
  cksum_avx512 buf0 fp = Some r ->
  if Z.of_nat (List.length (f_data fp)) <? 2 ^ 64
  then exists ok crc, r = CksumDone ok crc (Z.of_nat (List.length (f_data fp)))
  else r = CksumFail (Some EOVERFLOW).
Proof.
  unfold cksum_avx512. cbv zeta. intros E.
  eapply backend_counts; [|exact E]. apply avx512_backend_accounted.
Qed.

Lemma cksum_pclmul_short (buf0 data : list Z) :
  Z.of_nat (List.length buf0) = 65536 -> Z.of_nat (List.length data) < 32 ->
  cksum_pclmul buf0 (fopen_bytes data)
  = Some (CksumDone true (crc_bytes_tail 0 data) (Z.of_nat (List.length data))).
Proof.
  intros Hbuf Hshort.
  unfold cksum_pclmul. rewrite simd_backend_short; [reflexivity | ..].
  - change (Z.to_nat (cfg_half pclmul_cfg)) with (Z.to_nat 32768). lia.
  - change (cfg_vbytes pclmul_cfg) with 16. lia.
  - lia.
  - change (cfg_vbytes pclmul_cfg * (cfg_words pclmul_cfg / 2)) with 32768. lia.
  - reflexivity.
  - lia.
  - apply pclmul_main_skips.
Qed.

Lemma cksum_avx2_short (buf0 data : list Z) :
  Z.of_nat (List.length buf0) = 2097152 -> Z.of_nat (List.length data) < 64 ->
  cksum_avx2 buf0 (fopen_bytes data)
  = Some (CksumDone true (crc_bytes_tail 0 data) (Z.of_nat (List.length data))).
Proof.
  intros Hbuf Hshort.
  unfold cksum_avx2. rewrite simd_backend_short; [reflexivity | ..].
  - change (Z.to_nat (cfg_half avx2_cfg)) with (Z.to_nat 1048576). lia.
  - change (cfg_vbytes avx2_cfg) with 32. lia.
  - lia.
  - change (cfg_vbytes avx2_cfg * (cfg_words avx2_cfg / 2)) with 1048576. lia.
  - reflexivity.
  - lia.
  - apply avx2_main_skips.
Qed.

Lemma cksum_avx512_short (buf0 data : list Z) :
  Z.of_nat (List.length buf0) = 2097152 -> Z.of_nat (List.length data) < 128 ->
  cksum_avx512 buf0 (fopen_bytes data)
  = Some (CksumDone true (crc_bytes_tail 0 data) (Z.of_nat (List.length data))).
Proof.
  intros Hbuf Hshort.
  unfold cksum_avx512. rewrite simd_backend_short; [reflexivity | ..].
  - change (Z.to_nat (cfg_half avx512_cfg)) with (Z.to_nat 1048576). lia.
  - change (cfg_vbytes avx512_cfg) with 64. lia.
  - lia.
  - change (cfg_vbytes avx512_cfg * (cfg_words avx512_cfg / 2)) with 1048576. lia.
  - reflexivity.
  - lia.
  - apply avx512_main_skips.
Qed.

(** C7. Length overflow.  Let [len] be the accumulated counter and [n] the
    number of bytes just read.  The test [len + n < len] on 64-bit unsigned
    values succeeds exactly when the true sum leaves the 64-bit range; in
    that case every backend takes the failure return with [errno] set to
    [EOVERFLOW], before any result is written, and [crc_sum_stream] returns
    its failure status without a checksum; otherwise the counter becomes
    exactly [len + n].  This covers the read loops of [cksum_slice8] and
    [cksum_chorba_file], the refill step shared by [cksum_pclmul],
    [cksum_avx2] and [cksum_avx512], and the whole run of [cksum_slice8]
    started from the counter value [len].  For the three carry-less
    multiplication backends it covers, besides the refill step: the first
    accounting (cksum_pclmul.c:93-98), which adds the bytes of the two
    initial reads to a counter that is still zero and so cannot wrap; the
    main block of each backend entered with the counter [len] and a stream
    that still holds [n] bytes, which either takes the [EOVERFLOW] return,
    exactly when [len + n] wraps, or ends with the stream exhausted and the
    counter at [len + n]; the whole run of each backend, which, when it
    returns, returns the number of bytes of the stream as the count, or
    the [EOVERFLOW] failure if that number does not fit 64 bits; and their
    runs on streams shorter than two registers, which do return, with the
    count. *)
Theorem length_overflow_is_reported (len n : Z) :
  0 <= len < 2 ^ 64 -> 0 <= n < 2 ^ 64 ->
  let wraps := uintmax (len + n) <? len in
  (wraps = true <-> 2 ^ 64 <= len + n)
  /\ add_length len n = (if wraps then None else Some (len + n))
  /\ (forall fuel fp crc,
        Z.of_nat (List.length (fst (fread BUFLEN fp))) = n -> n <> 0 ->
        slice8_loop (S fuel) fp crc len
        = if wraps then Some (CksumFail (Some EOVERFLOW))
          else
            let '(buf, fp') := fread BUFLEN fp in
            if feof fp'
            then Some (CksumDone (negb (ferror fp')) (slice8_block crc buf) (len + n))
            else slice8_loop fuel fp' (slice8_block crc buf) (len + n))
  /\ (forall fuel heap fp crc,
        Z.of_nat (List.length (fst (fread BUFLEN fp))) = n -> n <> 0 ->
        chorba_file_loop (S fuel) heap fp crc len
        = if wraps then Return (CksumFail (Some EOVERFLOW))
          else
            let '(buf, fp') := fread BUFLEN fp in
            r <- chorba_118960_nondestructive crc n (mkMem buf [] heap) ;;
            if feof fp'
            then Next (CksumDone (negb (ferror fp')) (fst r) (len + n))
            else chorba_file_loop fuel heap fp' (fst r) (len + n))
  /\ (forall c st buf',
        sd_length st = len ->
        (sd_bytes_read st <? cfg_half c) && sd_data_available st = true ->
        Z.of_nat (List.length (fst (fread (cfg_half c) (sd_fp st)))) = n ->
        blit (sd_buf st) (cfg_vbytes c * sd_next_buf st)
             (fst (fread (cfg_half c) (sd_fp st))) = Some buf' ->
        match refill c st with
        | Return r => wraps = true /\ r = CksumFail (Some EOVERFLOW)
        | Next st' => wraps = false /\ sd_length st' = len + n
        | _ => False
        end)
  /\ (forall c st,
        (sd_bytes_read st <? cfg_half c) && sd_data_available st = false ->
        refill c st = Next st)
  /\ (forall fuel data crc,
        Forall is_byte data -> (List.length data < fuel)%nat ->
        Z.of_nat (List.length data) = n ->
        if wraps
        then slice8_loop fuel (fopen_bytes data) crc len
             = Some (CksumFail (Some EOVERFLOW))
        else exists c,
               slice8_loop fuel (fopen_bytes data) crc len
               = Some (CksumDone true c (len + n)))
  /\ (forall b machine stack stream e,
        call_backend b stack stream = Some (CksumFail e) ->
        snd (crc_sum_stream machine stack (Some b) stream) = Some SumFail)
  /\ (forall c nch buf0 fp st,
        0 < cfg_half c < 2 ^ 62 ->
        simd_init c nch buf0 fp = Next st ->
        sd_length st = 0
        /\ add_length (sd_length st) (sd_bytes_read st) = Some (sd_bytes_read st)
        /\ sd_bytes_read st + Z.of_nat (List.length (f_data (sd_fp st)))
           = Z.of_nat (List.length (f_data fp)))
  /\ (forall fuel st,
        sd_length st = len ->
        Z.of_nat (List.length (f_data (sd_fp st))) = n ->
        0 <= sd_bytes_read st < 2 ^ 64 ->
        (sd_data_available st = false -> n = 0) ->
        (n = 0 \/ 512 * 2 + 64 + 16 * 8 <= sd_bytes_read st ->
         match pclmul_main fuel st with
         | Return r => wraps = true /\ r = CksumFail (Some EOVERFLOW)
         | Next st' =>
             wraps = false /\ sd_length st' = len + n
             /\ f_data (sd_fp st') = []
         | _ => True
         end)
        /\ (n = 0 \/ 1024 + 128 + 32 * 8 <= sd_bytes_read st ->
            match avx2_main fuel st with
            | Return r => wraps = true /\ r = CksumFail (Some EOVERFLOW)
            | Next st' =>
                wraps = false /\ sd_length st' = len + n
                /\ f_data (sd_fp st') = []
            | _ => True
            end)
        /\ (n = 0 \/ sd_bytes_read st mod 2560 = 512 ->
            match avx512_main fuel st with
            | Return r => wraps = true /\ r = CksumFail (Some EOVERFLOW)
            | Next st' =>
                wraps = false /\ sd_length st' = len + n
                /\ f_data (sd_fp st') = []
            | _ => True
            end))
  /\ (forall buf0 fp r,
        cksum_pclmul buf0 fp = Some r \/ cksum_avx2 buf0 fp = Some r
        \/ cksum_avx512 buf0 fp = Some r ->
        if Z.of_nat (List.length (f_data fp)) <? 2 ^ 64
        then exists ok crc,
               r = CksumDone ok crc (Z.of_nat (List.length (f_data fp)))
        else r = CksumFail (Some EOVERFLOW))
  /\ (forall buf0 data,
        (Z.of_nat (List.length buf0) = 65536 ->
         Z.of_nat (List.length data) < 32 ->
         cksum_pclmul buf0 (fopen_bytes data)
         = Some (CksumDone true (crc_bytes_tail 0 data)
                           (Z.of_nat (List.length data))))
        /\ (Z.of_nat (List.length buf0) = 2097152 ->
            Z.of_nat (List.length data) < 64 ->
            cksum_avx2 buf0 (fopen_bytes data)
            = Some (CksumDone true (crc_bytes_tail 0 data)
                              (Z.of_nat (List.length data))))
        /\ (Z.of_nat (List.length buf0) = 2097152 ->
            Z.of_nat (List.length data) < 128 ->
            cksum_avx512 buf0 (fopen_bytes data)
            = Some (CksumDone true (crc_bytes_tail 0 data)
                              (Z.of_nat (List.length data))))).

Proof.
  intros Hl Hn wraps.
  assert (Hw : wraps = negb (len + n <? 2 ^ 64)) by (apply wraps_iff; assumption).
  assert (Ha : add_length len n = if wraps then None else Some (len + n)).
  { rewrite add_length_spec, Hw by assumption.
    destruct (len + n <? 2 ^ 64); reflexivity. }
  split.
  { rewrite Hw. destruct (Z.ltb_spec (len + n) (2 ^ 64)); cbn; split;
      (lia || discriminate || reflexivity). }
  split; [exact Ha|].
  split.
  { intros fuel fp crc En Hn0. cbn [slice8_loop].
    destruct (fread BUFLEN fp) as [buf fp'] eqn:Ef. cbn [fst] in En.
    rewrite En. destruct (Z.eqb_spec n 0) as [|_]; [contradiction|].
    rewrite Ha. destruct wraps; reflexivity. }
  split.
  { intros fuel heap fp crc En Hn0. cbn [chorba_file_loop].
    destruct (fread BUFLEN fp) as [buf fp'] eqn:Ef. cbn [fst] in En.
    rewrite En. destruct (Z.eqb_spec n 0) as [|_]; [contradiction|].
    rewrite Ha. destruct wraps; reflexivity. }
  split.
  { intros c st buf' El Hc En Hblit. unfold refill. rewrite Hc.
    destruct (fread (cfg_half c) (sd_fp st)) as [got fp'] eqn:Ef.
    cbn [fst] in En, Hblit. rewrite Hblit. cbn [lift bind].
    rewrite En, El, Ha. destruct wraps; cbn [sd_length]; auto. }
  split.
  { intros c st Hc. unfold refill. rewrite Hc. reflexivity. }
  split.
  { intros fuel data crc Hb Hf En.
    destruct (slice8_loop_spec fuel data crc len Hb Hf Hl) as [H1 H2].
    rewrite En in H1, H2. rewrite Hw.
    destruct (Z.ltb_spec (len + n) (2 ^ 64)) as [H|H]; cbn [negb].
    - destruct (H1 H) as (c & E & _). exists c. exact E.
    - apply H2, H. }
  split.
  { intros b machine stack stream e E. unfold crc_sum_stream. cbn [snd].
    rewrite E. reflexivity. }
  split.
  { intros c nch buf0 fp st Hh. apply simd_init_accounting. exact Hh. }
  split.
  { intros fuel st El En Hb Hav.
    assert (A : acct (len + n) st).
    { unfold acct. rewrite El, En. repeat split; try lia.
      intros Hf. apply length_zero_iff_nil. specialize (Hav Hf). lia. }
    assert (D : forall X : Prop, n = 0 \/ X -> drained st \/ X).
    { intros X [H0|HX]; [left|right; exact HX].
      unfold drained. apply length_zero_iff_nil. lia. }
    assert (Q : forall o,
               accounted (len + n) (fun st' => acct (len + n) st' /\ drained st') o ->
               match o with
               | Return r => wraps = true /\ r = CksumFail (Some EOVERFLOW)
               | Next st' =>
                   wraps = false /\ sd_length st' = len + n
                   /\ f_data (sd_fp st') = []
               | _ => True
               end).
    { intros o Ho. destruct o as [st'|r| |]; cbn [accounted] in Ho; auto.
      - destruct Ho as ((B1 & B2 & _) & B3). unfold drained in B3.
        rewrite B3 in B1. cbn [List.length] in B1. rewrite Hw.
        destruct (Z.ltb_spec (len + n) (2 ^ 64)); cbn [negb];
          repeat split; (assumption || lia).
      - destruct Ho as (-> & Ho). rewrite Hw.
        destruct (Z.ltb_spec (len + n) (2 ^ 64)); cbn [negb];
          split; (reflexivity || lia). }
    split; [|split]; intros Hd; apply Q.
    - apply pclmul_main_accounted; [exact A | apply D, Hd].
    - apply avx2_main_accounted; [exact A | apply D, Hd].
    - apply avx512_main_accounted; [exact A | apply D, Hd]. }
  split.
  { intros buf0 fp r [E|[E|E]].
    - apply cksum_pclmul_counts with (buf0 := buf0), E.
    - apply cksum_avx2_counts with (buf0 := buf0), E.
    - apply cksum_avx512_counts with (buf0 := buf0), E. }
  intros buf0 data. split; [|split].
  - apply cksum_pclmul_short.
  - apply cksum_avx2_short.
  - apply cksum_avx512_short.
Qed.



Lemma length_overflow_is_reported_witness :
  add_length (2 ^ 64 - 3) 5 = None
  /\ slice8_loop 6 (fopen_bytes [1; 2; 3; 4; 5]) 0 (2 ^ 64 - 3)
     = Some (CksumFail (Some EOVERFLOW))
  /\ pclmul_main 2
       (mkSimd (repeat 0 (Z.to_nat 65536)) (fopen_bytes [1; 2; 3; 4; 5])
               0 true 1216 (2 ^ 64 - 3) 0 0 [] [] [] [] (repeat [0] 4))
     = Return (CksumFail (Some EOVERFLOW)).
Proof.
  destruct (length_overflow_is_reported (2 ^ 64 - 3) 5 ltac:(lia) ltac:(lia))
    as (_ & Ha & _ & _ & _ & _ & Hs & _ & _ & Hm & _).
  split; [exact Ha|]. split.
  - apply (Hs 6%nat [1; 2; 3; 4; 5] 0).
    + repeat (apply Forall_cons; [unfold is_byte; lia|]). apply Forall_nil.
    + cbn. lia.
    + reflexivity.
  - destruct (Hm 2%nat
                (mkSimd (repeat 0 (Z.to_nat 65536)) (fopen_bytes [1; 2; 3; 4; 5])
                        0 true 1216 (2 ^ 64 - 3) 0 0 [] [] [] [] (repeat [0] 4)))
      as (Hp & _).
    + reflexivity.
    + reflexivity.
    + cbn [sd_bytes_read]. lia.
    + discriminate.
    + assert (E : exists r,
                 pclmul_main 2
                   (mkSimd (repeat 0 (Z.to_nat 65536))
                           (fopen_bytes [1; 2; 3; 4; 5])
                           0 true 1216 (2 ^ 64 - 3) 0 0 [] [] [] []
                           (repeat [0] 4))
                 = Return r)
        by (vm_compute; eexists; reflexivity).
      destruct E as (r & E).
      specialize (Hp ltac:(right; cbn [sd_bytes_read]; lia)).
      rewrite E in Hp. destruct Hp as (_ & ->). exact E.
Defined.
